(* ===== verification/_CoqProject ===== *)
-Q . S2P
Prelude.v
Decimal.v
Cache.v
Txn.v
Conversion.v
Price.v
Message.v
TtmAccounts.v
Booking.v
Mint.v
Cancellation.v
EventListener.v
Alarm.v
Scheduler.v
Resolver.v
Encoding.v
Messenger.v
Delivery.v
Exchange.v
Processor.v
Subscriber.v
Services.v
Version.v
Gateway.v
App.v
Rooms.v
Syncer.v
Database.v
Matrix.v
Config.v
Generated.v
Connections.v
Bot.v
NewApp.v
Events.v
MockPrice.v
MockBooking.v
MockDates.v
MockSearch.v
MockOffers.v
MockSearchV3.v
MockProducts.v
MockSeatMaps.v
MockData.v
MockServer.v
