(* ===== verification/Prelude.v ===== *)
(** * Travel Token Messenger Bot: verification library

    The bot (src/main.go, src/cmd, src/internal, src/pkg) carries requests between travel
    companies.  Each company has an account contract (TTM account) on a chain and bots that
    act for it.  A distributor's bot takes a gRPC request, asks the chain which bot of the
    recipient's account to use, encrypts and signs the message and sends it through a
    matrix room; the supplier's bot reassembles, verifies and authorizes it, calls its
    partner plugin and sends the response back the same way.  A mint response makes the
    supplier reserve a booking token on chain, and the distributor buy it; afterwards the
    supplier's bot listens for what happens to the token and notifies its plugin.

    ** How the code is modelled

    A Go function is a function of this library with the same name.  State is passed
    explicitly ([M S A]: a state to a state and an [outcome], which is a value, an error or
    a panic); errors are the chains [fmt.Errorf] builds, kept up to their interpolated
    arguments; machine integers are [Z] with their wrap-around written out; maps are
    [gmap].  A call to what is not under src/ (contract bindings, cryptography, protobuf,
    JSON, viper, mautrix, the LRU cache) is an operation of a class, whose laws are what
    that code documents; each class has an instance that runs ([list_lru] for the cache, a
    module [Toy] for the others), on which the witnesses are evaluated.  A database is the committed tables and a snapshot; every
    call outside may fail, at the choice of a function [fault] over which the theorems
    quantify, so they hold for every combination of failures.  What SQL leaves open, such
    as the order of rows, is a parameter.  Goroutines are the processes of step relations
    ([Rendezvous], [Scheduler], [Subscriber], [Alarm], [App], [Rooms]); the theorems about
    them are on all their interleavings.

    ** The files, in order

    - [Prelude]: errors, outcomes, the state monad and its automation ([runs], [keeps],
      [respects] and the hint databases [ttm], [ttm_rw]), integers, lists, reachability.
    - [Decimal]: Go's decimal numbers and string functions, and that printing is undone.
    - [Cache]: the interface of the LRU cache, with an instance.
    - [Txn]: src/pkg/database/sqlite/session.go, the transactions all storages use.
    - [Conversion]: src/pkg/conversion.
    - [Price]: src/pkg/price and src/internal/price.
    - [Message]: src/internal/messaging/message and src/pkg/metadata/timestamps.go.
    - [TtmAccounts]: src/pkg/ttm_accounts and src/pkg/erc20 over the class [Chain]; the class
      [TtmAccounts] is what they promise to the resolver.
    - [Booking]: src/pkg/booking; [Mint]: the mint handlers and response_handler.go of
      src/internal/messaging; [Cancellation]: src/internal/cancellation.
    - [EventListener]: src/internal/eventlistener, its storage and src/internal/partnerplugin,
      one handler at a time; [Alarm]: what the handlers and the timer do together.
    - [Scheduler]: src/pkg/scheduler and its storage, against the specification [Spec].
    - [Resolver]: src/internal/resolver and its storage.
    - [Encoding]: src/internal/messaging/encoding and encryption: Go slices, chunks, session
      keys, the two ends of a message, the store of public keys.
    - [Messenger]: src/pkg/matrix/events.go and src/internal/matrix/messenger: reassembly and
      sending; [Rooms]: what it does to its rooms at start-up.
    - [Delivery]: src/pkg/matrix/user_id.go, and the path of a message from one bot to another,
      the composition of [Encoding] and [Messenger]; [Exchange]: what the messages of two
      bots leave in their stores of keys.
    - [Processor]: src/internal/messaging/processor.go: what one goroutine does with a message,
      and how requesters and forwarders meet on the response channels.
    - [Subscriber]: src/internal/eventlistener/subscriber.
    - [Services]: the generated table of services (src/internal/rpc/generated) and
      service_registry.go; [Gateway]: the gRPC server and the two templates of the 48
      generated services; [Version]: src/internal/version.
    - [App]: [Run] of src/internal/app: how the components start and stop; [Syncer]: the same
      of the messenger, its syncer and sweeper and the processor that receives from it.
    - [Database]: src/pkg/database/sqlite/storage.go, the migrations and the statements of the
      four storages; [Matrix]: src/internal/matrix/client; [Connections]: the credentials, the
      gRPC server and client, and src/pkg/metadata.
    - [Config]: src/config; [Generated]: the files of src/internal/rpc/generated one by one,
      as what their templates make of the table of [Services].
    - [Bot]: a request from one bot to another and back, the composition of [Gateway],
      [Processor], [Delivery] and [Encoding]; [NewApp]: the construction of the bot and src/cmd.
    - [Events]: src/pp-mock/events, the stream of events of the partner plugin mock; the other
      files named [Mock] are the rest of src/pp-mock: [MockPrice] its prices, [MockBooking] its
      store and the validation, mint and notification handlers, [MockDates] travel periods,
      [MockSearch] its searches in versions 4 and 5 and [MockOffers] what they promise to a
      booking, [MockSearchV3] the same for version 3, [MockProducts] its lists and infos of
      products, the ping and the check of a cancellation, [MockSeatMaps] its seat maps,
      [MockData] the data it starts with, [MockServer] its interceptors and its start.

    ** What is shown

    The properties are the theorems whose comments begin with C and a number, in the order
    of their importance; some of what follows is a lemma instead.
    - From end to end: an encoded message comes back as it was ([encode_decode_roundtrip]),
      also through the events on the wire in any order ([message_delivered],
      [reassembly_correct]); what decodes is authentic, and the store of keys stays sound
      under any failure; two bots encrypt from the second request on ([keys_exchanged]);
      nothing acts on a message before its sender is verified and allowed.
    - Requests and responses: in every interleaving a request gets its own response and no
      channel is left ([responses_correlated], [SendRequestMessage_ends]); the server's and
      the plugin's ends always answer with a message of the service ([serve_answers],
      [Call_answers]); authorizations are fresh; the bot a request goes to is not known to
      be unreachable.
    - Money: prices are converted exactly; a token is bought only at the agreed price; how
      minting, buying and the cancellation operations end, with the transactions they send.
    - Events: an alarm is always armed for the reservation due first; how each handler ends
      under any failure; which events reach a handler over lost connections.
    - Structure: the scheduler refines its specification (a job runs when it is due and at
      most once a period); the components start in order and the application stops; the
      messages the messenger completes reach the processor in order, each once; encrypted
      rooms are left; the registry serves exactly what the account supports; the generated
      files are their templates; a bot is constructed from its configuration, logs in as its
      own user and opens its databases at their last version; configurations and metadata are
      read as they are written.
    - The mock: what its searches offer can be validated, and its travel periods are bounded;
      the data it starts with is consistent; a call ends with what its handler answers, or with
      an internal error; it has the services a bot offers, all but seven.
    Some theorems show what the code does and does not mean to: a shutdown that hangs, in
    three ways, a timeout handler that races, a timer that spins, a response that blocks its
    goroutine, an event that is lost, a job that runs once, a listener without a plugin.

    ** Bounds and fuel

    Loops of the code over lists are structural.  The polling loop of [Booking] takes its
    number of attempts from the configuration, as the code does.  No definition has fuel
    that the code has not: termination is shown by measures (30 events in [App], three calls
    for each room in [Rooms], the events in hand in [Syncer], the attempts of
    [waitForTokenVisible]).

    ** Not modelled

    What the third-party packages do is behind the classes: contract bindings, cryptography,
    protobuf and its validation, mautrix, the sqlite driver and the migration library, gRPC
    and its transport, viper and cobra.  Neither are the contents of the files the partner
    plugin mock embeds, the fields its results only copy, the generated protobuf
    code, the mocks made by mockgen, the end-to-end tests and the build scripts.  The length of
    time between two steps of a goroutine, memory, and the Go memory model are outside the step
    relations: where the code shares a field without a lock, each access is a step of its own. *)
From Stdlib Require Export ZArith Lia.
From stdpp Require Export base tactics option numbers list gmap strings.
From stdpp Require relations.

#[global] Open Scope Z_scope.

(** ** Go errors

    An error value is the chain [fmt.Errorf] builds: a package-level variable
    made by [errors.New] is a [Sentinel] named by its Go identifier, an error
    built on the spot is [Errorf], and each [%w] verb is a [Wrapf].  The text is
    the format string of the source, without the interpolated arguments. *)
Inductive error : Type :=
  | Sentinel (name : string)
  | Errorf (fmt : string)
  | Wrapf (fmt : string) (e : error)
  | Wrapf2 (fmt : string) (e1 e2 : error).

#[global] Instance error_eq_dec : EqDecision error.
Proof. solve_decision. Defined.

(** [errors.Is(err, target)] for a sentinel target. *)
Fixpoint errors_is (e : error) (target : string) : bool :=
  match e with
  | Sentinel n => bool_decide (n = target)
  | Errorf _ => false
  | Wrapf _ e => errors_is e target
  | Wrapf2 _ e1 e2 => errors_is e1 target || errors_is e2 target
  end.

(** ** Outcomes: a value, a returned error, or a panic *)
Inductive outcome (A : Type) : Type :=
  | Ok (a : A)
  | Err (e : error)
  | Panic (msg : string).
Arguments Ok {A} a.
Arguments Err {A} e.
Arguments Panic {A} msg.

#[global] Instance outcome_eq_dec `{EqDecision A} : EqDecision (outcome A).
Proof. solve_decision. Defined.

#[global] Instance outcome_ret : MRet outcome := @Ok.
#[global] Instance outcome_bind : MBind outcome := λ A B f m,
  match m with Ok a => f a | Err e => Err e | Panic s => Panic s end.
#[global] Instance outcome_fmap : FMap outcome := λ A B f m,
  match m with Ok a => Ok (f a) | Err e => Err e | Panic s => Panic s end.

(** [if err != nil { return fmt.Errorf("...: %w", err) }] *)
Definition wrapO {A} (fmt : string) (m : outcome A) : outcome A :=
  match m with Err e => Err (Wrapf fmt e) | _ => m end.

Lemma obind_Ok {A B} (m : outcome A) (f : A → outcome B) b :
  (x ← m; f x) = Ok b → ∃ a, m = Ok a ∧ f a = Ok b.
Proof. destruct m; simpl; intros; simplify_eq. eauto. Qed.

Lemma wrapO_Ok {A} fmt (m : outcome A) a : wrapO fmt m = Ok a ↔ m = Ok a.
Proof. by destruct m. Qed.

Lemma Ok_inj {A} (a b : A) : Ok a = Ok b → a = b.
Proof. congruence. Qed.

(** Take apart the hypotheses that say a chain of fallible steps succeeded. *)
Ltac inv_ok :=
  repeat match goal with
  | H : mbind _ _ = Ok _ |- _ => apply obind_Ok in H as (? & ? & H)
  | H : wrapO _ _ = Ok _ |- _ => apply wrapO_Ok in H
  | H : Ok _ = Ok _ |- _ => apply Ok_inj in H; subst
  end.

(** A nil pointer dereferenced. *)
Definition nilDeref : string := "invalid memory address or nil pointer dereference".
Definition deref {A} (p : option A) : outcome A :=
  match p with Some a => Ok a | None => Panic nilDeref end.

Definition is_ok {A} (m : outcome A) : bool :=
  match m with Ok _ => true | _ => false end.

(** ** Stateful operations: explicit state, then an outcome *)
Definition M (S A : Type) : Type := S → S * outcome A.

#[global] Instance M_ret S : MRet (M S) := λ A a s, (s, Ok a).
#[global] Instance M_bind S : MBind (M S) := λ A B f m s,
  match m s with
  | (s', Ok a) => f a s'
  | (s', Err e) => (s', Err e)
  | (s', Panic p) => (s', Panic p)
  end.

Section StateOps.
Context {S : Type}.

Definition retS {A} (a : A) : M S A := λ s, (s, Ok a).
Definition getS : M S S := λ s, (s, Ok s).
Definition putS (s : S) : M S unit := λ _, (s, Ok tt).
Definition modifyS (f : S → S) : M S unit := λ s, (f s, Ok tt).
Definition throwS {A} (e : error) : M S A := λ s, (s, Err e).
Definition panicS {A} (p : string) : M S A := λ s, (s, Panic p).
Definition liftO {A} (o : outcome A) : M S A := λ s, (s, o).

(** Wrap the returned error. *)
Definition wrapS {A} (fmt : string) (m : M S A) : M S A := λ s,
  let '(s', o) := m s in (s', wrapO fmt o).

(** [v, err := f()]: the caller inspects the error itself. *)
Definition attempt {A} (m : M S A) : M S (A + error) := λ s,
  match m s with
  | (s', Ok a) => (s', Ok (inl a))
  | (s', Err e) => (s', Ok (inr e))
  | (s', Panic p) => (s', Panic p)
  end.

(** [v, err := f(); if err != nil { return errResponse(err) }]: a handler answers with
    an error response instead of returning the error. *)
Definition orRespond {A R} (m : M S A) (respond : error → R) (k : A → M S R) : M S R :=
  r ← attempt m;
  match r with
  | inl a => k a
  | inr e => retS (respond e)
  end.

(** [defer cleanup()]: [cleanup] runs on every exit, panics included. *)
Definition deferS {A} (cleanup : S → S) (m : M S A) : M S A := λ s,
  let '(s', o) := m s in (cleanup s', o).
End StateOps.

Section StateFacts.
Context {S : Type}.

Lemma bind_Ok_inv {A B} (m : M S A) (f : A → M S B) s s' b :
  (x ← m; f x) s = (s', Ok b) →
  ∃ s1 a, m s = (s1, Ok a) ∧ f a s1 = (s', Ok b).
Proof.
  unfold mbind, M_bind. destruct (m s) as [s1 [a|e|p]]; intros; simplify_eq. eauto.
Qed.

(** An operation keeps the projection [g] of the state. *)
Definition keeps {A X} (g : S → X) (m : M S A) : Prop := ∀ s, g (m s).1 = g s.

Lemma keeps_ret {A X} (g : S → X) (a : A) : keeps g (retS a).
Proof. done. Qed.

Lemma keeps_throw {A X} (g : S → X) (e : error) : keeps g (throwS (A := A) e).
Proof. done. Qed.

Lemma keeps_lift {A X} (g : S → X) (o : outcome A) : keeps g (liftO o).
Proof. done. Qed.

Lemma keeps_bind {A B X} (g : S → X) (m : M S A) (f : A → M S B) :
  keeps g m → (∀ a, keeps g (f a)) → keeps g (x ← m; f x).
Proof.
  intros Hm Hf s. specialize (Hm s). unfold mbind, M_bind.
  destruct (m s) as [s1 [a|e|p]]; simpl in *; [|done..]. by rewrite (Hf a s1).
Qed.

Lemma keeps_attempt {A X} (g : S → X) (m : M S A) : keeps g m → keeps g (attempt m).
Proof. intros Hm s. specialize (Hm s). unfold attempt. by destruct (m s) as [s1 [a|e|p]]. Qed.

Lemma keeps_wrap {A X} (g : S → X) fmt (m : M S A) : keeps g m → keeps g (wrapS fmt m).
Proof. intros Hm s. specialize (Hm s). unfold wrapS. by destruct (m s) as [s1 [a|e|p]]. Qed.

(** A run from [x] satisfies [Q]; the rules below follow the handlers' structure. *)
Lemma orRespond_rule {A R} (m : M S A) respond (k : A → M S R) x (Q : S * outcome R → Prop) :
  (∀ x' a, m x = (x', Ok a) → Q (k a x')) →
  (∀ x' e, m x = (x', Err e) → Q (x', Ok (respond e))) →
  (∀ x' p, m x = (x', Panic p) → Q (x', Panic p)) →
  Q (orRespond m respond k x).
Proof.
  intros Hok Herr Hp. unfold orRespond, attempt, mbind, M_bind.
  destruct (m x) as [x' [a|e|p]] eqn:E; eauto.
Qed.

Lemma orRespond_lift_rule {A R} (o : outcome A) respond (k : A → M S R) x
    (Q : S * outcome R → Prop) :
  (∀ a, o = Ok a → Q (k a x)) → (∀ e, o = Err e → Q (x, Ok (respond e))) →
  (∀ p, o = Panic p → Q (x, Panic p)) → Q (orRespond (liftO o) respond k x).
Proof. intros Hok Herr Hp. unfold orRespond, attempt, mbind, M_bind, liftO. destruct o; eauto. Qed.

Lemma bind_rule {A R} (m : M S A) (k : A → M S R) x (Q : S * outcome R → Prop) :
  (∀ x' a, m x = (x', Ok a) → Q (k a x')) →
  (∀ x' e, m x = (x', Err e) → Q (x', Err e)) →
  (∀ x' p, m x = (x', Panic p) → Q (x', Panic p)) →
  Q (mbind k m x).
Proof.
  intros Hok Herr Hp. unfold mbind, M_bind. destruct (m x) as [x' [a|e|p]] eqn:E; eauto.
Qed.

Lemma lift_rule {A R} (o : outcome A) (k : A → M S R) x (Q : S * outcome R → Prop) :
  (∀ a, o = Ok a → Q (k a x)) → (∀ e, o = Err e → Q (x, Err e)) →
  (∀ p, o = Panic p → Q (x, Panic p)) → Q (mbind k (liftO o) x).
Proof. intros Hok Herr Hp. unfold mbind, M_bind, liftO. destruct o; eauto. Qed.
End StateFacts.

(** [defer f()] for a deferred call that is an operation itself: its own error is
    only logged, its own panic replaces the outcome. *)
Definition deferM {S A} (cleanup : M S unit) (m : M S A) : M S A := λ s,
  let '(s1, o) := m s in
  match cleanup s1 with
  | (s2, Panic p) => (s2, Panic p)
  | (s2, _) => (s2, o)
  end.

(** Every run goes up in a preorder on states. *)
Section Respects.
Context {S : Type} (R : relation S) `{!PreOrder R}.

Definition respects {A} (m : M S A) : Prop := ∀ s, R s (m s).1.

Lemma respects_bind {A B} (m : M S A) (k : A → M S B) :
  respects m → (∀ a, respects (k a)) → respects (mbind k m).
Proof.
  intros Hm Hk s. specialize (Hm s). unfold mbind, M_bind.
  destruct (m s) as [t [a|e|p]]; simpl in *; [|done..]. etransitivity; [exact Hm|apply Hk].
Qed.

Lemma respects_attempt {A} (m : M S A) : respects m → respects (attempt m).
Proof. intros Hm s. specialize (Hm s). unfold attempt. by destruct (m s) as [t [a|e|p]]. Qed.

Lemma respects_wrap {A} fmt (m : M S A) : respects m → respects (wrapS fmt m).
Proof. intros Hm s. specialize (Hm s). unfold wrapS. by destruct (m s) as [t [a|e|p]]. Qed.

Lemma respects_ret {A} (a : A) : respects (retS a).
Proof. by intros s. Qed.

Lemma respects_throw {A} (e : error) : respects (throwS (A := A) e).
Proof. by intros s. Qed.

Lemma respects_lift {A} (o : outcome A) : respects (liftO o).
Proof. by intros s. Qed.

Lemma respects_orRespond {A B} (m : M S A) respond (k : A → M S B) :
  respects m → (∀ a, respects (k a)) → respects (orRespond m respond k).
Proof.
  intros Hm Hk. apply respects_bind; [by apply respects_attempt|].
  intros [a|e]; [apply Hk|apply respects_ret].
Qed.

Lemma respects_deferS {A} cleanup (m : M S A) :
  (∀ s, R s (cleanup s)) → respects m → respects (deferS cleanup m).
Proof.
  intros Hc Hm s. specialize (Hm s). unfold deferS. destruct (m s) as [t o]. simpl in *.
  etransitivity; [exact Hm|apply Hc].
Qed.

Lemma respects_deferM {A} (cleanup : M S unit) (m : M S A) :
  respects cleanup → respects m → respects (deferM cleanup m).
Proof.
  intros Hc Hm s. specialize (Hm s). unfold deferM. destruct (m s) as [t o]. specialize (Hc t).
  destruct (cleanup t) as [u [[]|e|p]]; simpl in *; by etransitivity.
Qed.

Lemma respects_keeps {A} {X} (g : S → X) (m : M S A) :
  (∀ s t, g t = g s → R s t) → keeps g m → respects m.
Proof. intros HR Hm s. apply HR, Hm. Qed.
End Respects.

(** *** Reasoning about one run *)

(** The run of [m] from [x] ends in a state and an outcome that satisfy [Q]. *)
Definition runs {S A} (m : M S A) (x : S) (Q : S → outcome A → Prop) : Prop :=
  let '(t, o) := m x in Q t o.

Section Runs.
Context {S : Type}.

Lemma runs_mono {A} (m : M S A) x (P Q : S → outcome A → Prop) :
  runs m x P → (∀ t o, P t o → Q t o) → runs m x Q.
Proof. unfold runs. destruct (m x). auto. Qed.

Lemma runs_and {A} (m : M S A) x (P Q : S → outcome A → Prop) :
  runs m x P → runs m x Q → runs m x (λ t o, P t o ∧ Q t o).
Proof. unfold runs. destruct (m x). auto. Qed.

Lemma runs_ret {A} (a : A) x (Q : S → outcome A → Prop) : Q x (Ok a) → runs (retS a) x Q.
Proof. done. Qed.

Lemma runs_bind {A B} (m : M S A) (k : A → M S B) x P (Q : S → outcome B → Prop) :
  runs m x P →
  (∀ t a, P t (Ok a) → runs (k a) t Q) →
  (∀ t e, P t (Err e) → Q t (Err e)) →
  (∀ t p, P t (Panic p) → Q t (Panic p)) →
  runs (mbind k m) x Q.
Proof. unfold runs, mbind, M_bind. intros HP H1 H2 H3. destruct (m x) as [t [a|e|p]]; auto. by apply H1. Qed.

Lemma runs_bind_wrap {A B} fmt (m : M S A) (k : A → M S B) x P (Q : S → outcome B → Prop) :
  runs m x P →
  (∀ t a, P t (Ok a) → runs (k a) t Q) →
  (∀ t e, P t (Err e) → Q t (Err (Wrapf fmt e))) →
  (∀ t p, P t (Panic p) → Q t (Panic p)) →
  runs (mbind k (wrapS fmt m)) x Q.
Proof.
  unfold runs, mbind, M_bind, wrapS. intros HP H1 H2 H3.
  destruct (m x) as [t [a|e|p]]; simpl; [by apply H1|auto..].
Qed.

Lemma runs_attempt {A B} (m : M S A) (k : A + error → M S B) x P (Q : S → outcome B → Prop) :
  runs m x P →
  (∀ t a, P t (Ok a) → runs (k (inl a)) t Q) →
  (∀ t e, P t (Err e) → runs (k (inr e)) t Q) →
  (∀ t p, P t (Panic p) → Q t (Panic p)) →
  runs (mbind k (attempt m)) x Q.
Proof.
  unfold runs, mbind, M_bind, attempt. intros HP H1 H2 H3.
  destruct (m x) as [t [a|e|p]]; [by apply H1|by apply H2|auto].
Qed.

Lemma runs_orRespond {A R} (m : M S A) respond (k : A → M S R) x P (Q : S → outcome R → Prop) :
  runs m x P →
  (∀ t a, P t (Ok a) → runs (k a) t Q) →
  (∀ t e, P t (Err e) → Q t (Ok (respond e))) →
  (∀ t p, P t (Panic p) → Q t (Panic p)) →
  runs (orRespond m respond k) x Q.
Proof. intros Hm Hok He Hp. unfold orRespond. eapply runs_attempt; eauto. Qed.

Lemma runs_wrap {A} fmt (m : M S A) x (Q : S → outcome A → Prop) :
  runs m x (λ t o, Q t (wrapO fmt o)) → runs (wrapS fmt m) x Q.
Proof. unfold runs, wrapS. by destruct (m x). Qed.

Lemma runs_deferS {A} cleanup (m : M S A) x (Q : S → outcome A → Prop) :
  runs m x (λ t o, Q (cleanup t) o) → runs (deferS cleanup m) x Q.
Proof. unfold runs, deferS. by destruct (m x). Qed.

Lemma runs_deferM {A} (cleanup : M S unit) (m : M S A) x P (Q : S → outcome A → Prop) :
  runs m x P →
  (∀ t o, P t o → runs cleanup t (λ u o', Q u (match o' with Panic p => Panic p | _ => o end))) →
  runs (deferM cleanup m) x Q.
Proof.
  unfold runs, deferM. destruct (m x) as [t o]. intros HP Hk. specialize (Hk t o HP).
  by destruct (cleanup t) as [u [[]|e|p]].
Qed.
End Runs.

(** ** Machine integers: the wrap-around of Go's fixed-width types *)
Definition uwrap (w x : Z) : Z := x mod 2 ^ w.
Definition swrap (w x : Z) : Z := (x + 2 ^ (w - 1)) mod 2 ^ w - 2 ^ (w - 1).
Definition in_uint (w x : Z) : Prop := 0 ≤ x < 2 ^ w.
Definition in_sint (w x : Z) : Prop := - 2 ^ (w - 1) ≤ x < 2 ^ (w - 1).

Definition MaxInt32 : Z := 2147483647.
Definition MaxUint32 : Z := 4294967295.
Definition MaxUint16 : Z := 65535.
Definition MaxInt64 : Z := 9223372036854775807.
Definition MinInt64 : Z := -9223372036854775808.

(** [big.Int.Uint64] and [big.Int.Int64]: the low 64 bits of the magnitude. *)
Definition bigUint64 (x : Z) : Z := uwrap 64 (Z.abs x).
Definition bigInt64 (x : Z) : Z := swrap 64 (Z.sgn x * swrap 64 (bigUint64 x)).

(** Durations and instants are nanosecond counts. *)
Definition Second : Z := 1000000000.
Definition Minute : Z := 60 * Second.

(** [t.Sub(u)] saturates at the ends of [time.Duration]. *)
Definition timeSub (t u : Z) : Z := Z.max MinInt64 (Z.min MaxInt64 (t - u)).

Lemma uwrap_small w x : in_uint w x → uwrap w x = x.
Proof. intros H. apply Z.mod_small, H. Qed.

Lemma swrap_small w x : 0 < w → in_sint w x → swrap w x = x.
Proof.
  unfold in_sint, swrap. intros Hw H.
  assert (2 ^ w = 2 * 2 ^ (w - 1)) as E.
  { replace w with (Z.succ (w - 1)) at 1 by lia. rewrite Z.pow_succ_r; lia. }
  rewrite Z.mod_small; lia.
Qed.

Lemma bigUint64_small x : in_uint 64 x → bigUint64 x = x.
Proof. intros H. unfold bigUint64. rewrite Z.abs_eq by apply H. by apply uwrap_small. Qed.

Lemma bigInt64_small x : 0 ≤ x < 2 ^ 63 → bigInt64 x = x.
Proof.
  intros H. change (2 ^ 63) with 9223372036854775808 in H. unfold bigInt64.
  assert (in_sint 64 x) as Hx by
    (unfold in_sint; change (2 ^ (64 - 1)) with 9223372036854775808; lia).
  rewrite bigUint64_small by (unfold in_uint; change (2 ^ 64) with 18446744073709551616; lia).
  rewrite (swrap_small 64 x) by (done || lia).
  replace (Z.sgn x * x) with x by lia. by apply swrap_small.
Qed.

Lemma timeSub_le t u d : MinInt64 ≤ d < MaxInt64 → timeSub t u ≤ d ↔ t - u ≤ d.
Proof. unfold timeSub, MinInt64, MaxInt64. lia. Qed.

(** ** Tactics *)

(** Case analysis on the boolean comparisons of the goal and the context. *)
Ltac zcase :=
  repeat match goal with
  | |- context [?a <? ?b] => destruct (Z.ltb_spec a b)
  | |- context [?a <=? ?b] => destruct (Z.leb_spec a b)
  | |- context [?a =? ?b] => destruct (Z.eqb_spec a b)
  | H : context [?a <? ?b] |- _ => destruct (Z.ltb_spec a b)
  | H : context [?a <=? ?b] |- _ => destruct (Z.leb_spec a b)
  | H : context [?a =? ?b] |- _ => destruct (Z.eqb_spec a b)
  end.

(** Run a stateful computation one bind at a time. *)
Ltac unM :=
  unfold mbind, M_bind, mret, M_ret, outcome_bind, outcome_ret,
    retS,
    getS, putS, modifyS, throwS, panicS, liftO, attempt, wrapS, deferS in *;
  cbn in *.

(** Prove that a program [respects] a preorder; [leaf] is for the operations it calls. *)
Ltac goes_up leaf :=
  repeat first
    [ progress intros
    | leaf
    | simple apply respects_ret; apply _ | simple apply respects_throw; apply _
    | simple apply respects_lift; apply _
    | simple apply respects_attempt | simple apply respects_wrap
    | simple apply respects_orRespond; [apply _|..] | simple apply respects_deferM; [apply _|..]
    | simple apply respects_bind; [apply _|..]
    | match goal with
      | |- respects _ (match ?x with _ => _ end) => destruct x
      | |- respects _ (panicS _) => intros ?; reflexivity
      end ].

(** Split every [match] that blocks the goal or a hypothesis. *)
Ltac split_match :=
  repeat (case_match; simplify_eq/=; try done).

(** ** Hint database of the development *)
Create HintDb ttm.
Create Rewrite HintDb ttm_rw.
#[export] Hint Resolve keeps_ret keeps_throw keeps_lift keeps_bind keeps_attempt keeps_wrap : ttm.
#[export] Hint Resolve respects_ret respects_throw respects_lift respects_bind respects_attempt respects_wrap
  respects_orRespond respects_deferS respects_deferM : ttm.
#[export] Hint Extern 1 (respects _ (match ?x with _ => _ end)) => destruct x : ttm.
#[export] Hint Extern 1 (keeps _ (match ?x with _ => _ end)) => destruct x : ttm.

(** ** Lists *)

(** [len(l) == 0] *)
Definition is_empty {A} (l : list A) : bool := match l with [] => true | _ => false end.

Section Lists.
Context {A : Type}.

Lemma fmap_seqZ_lookup (l : list A) (d : A) :
  (λ i, default d (l !! Z.to_nat i)) <$> seqZ 0 (Z.of_nat (length l)) = l.
Proof.
  apply list_eq. intros i. rewrite list_lookup_fmap.
  destruct (decide (i < length l)%nat) as [Hi|Hi].
  - rewrite lookup_seqZ_lt by lia. simpl.
    destruct (lookup_lt_is_Some_2 l i Hi) as [x Hx].
    replace (Z.to_nat (0 + Z.of_nat i)) with i by lia. by rewrite Hx.
  - rewrite lookup_seqZ_ge by lia. simpl.
    symmetry. apply lookup_ge_None. lia.
Qed.

Lemma filter_in (f : A → bool) (l : list A) a : a ∈ List.filter f l ↔ a ∈ l ∧ f a = true.
Proof. rewrite !list_elem_of_In. apply List.filter_In. Qed.

Lemma elem_of_seqZ' n i : i ∈ seqZ 0 n ↔ 0 ≤ i < n.
Proof. rewrite elem_of_seqZ. lia. Qed.
End Lists.

(** ** Runs of a step relation *)
Section Reachability.
Context {A : Type} (R : A → A → Prop).

(** What a step preserves holds of every reachable state. *)
Lemma rtc_preserved (P : A → Prop) :
  (∀ x y, R x y → P x → P y) → ∀ x y, relations.rtc R x y → P x → P y.
Proof. intros HP x y. induction 1; eauto. Qed.

Lemma nsteps_rtc n x y : relations.nsteps R n x y → relations.rtc R x y.
Proof. intros. apply relations.rtc_nsteps. eauto. Qed.
End Reachability.
