(* ===== verification/Decimal.v ===== *)
(** * Strings: decimal numbers and separators

    What the source uses of Go's [strings], [strconv] and [math/big] on decimal numbers,
    and how they undo the printing of a number. *)
From Stdlib Require Import Ascii.
From stdpp Require Export pretty.
From S2P Require Import Prelude.

#[local] Open Scope Z_scope.
#[local] Arguments String.append : simpl nomatch.

(** ** [new(big.Int).SetString(value, 10)] *)
Definition digit_value (c : Ascii.ascii) : option Z :=
  let n := Z.of_N (Ascii.N_of_ascii c) - 48 in
  if (0 <=? n) && (n <=? 9) then Some n else None.

Fixpoint parse_digits (acc : Z) (s : string) : option Z :=
  match s with
  | EmptyString => Some acc
  | String c s => d ← digit_value c; parse_digits (acc * 10 + d) s
  end.

Definition SetString10 (s : string) : option Z :=
  match s with
  | EmptyString => None
  | String c rest =>
      if Ascii.eqb c "-"%char then
        match rest with EmptyString => None | _ => Z.opp <$> parse_digits 0 rest end
      else if Ascii.eqb c "+"%char then
        match rest with EmptyString => None | _ => parse_digits 0 rest end
      else parse_digits 0 s
  end.

(** [strconv.Atoi]: the same numbers, in 64 bits. *)
Definition Atoi (s : string) : option Z :=
  n ← SetString10 s; if (MinInt64 <=? n) && (n <=? MaxInt64) then Some n else None.

(** ** [strings.Split] with a separator of one character, and [strings.TrimPrefix] *)
Fixpoint Split (sep : ascii) (s : string) : list string :=
  match s with
  | EmptyString => [EmptyString]
  | String c s =>
      if Ascii.eqb c sep then EmptyString :: Split sep s
      else match Split sep s with
           | word :: words => String c word :: words
           | [] => [String c EmptyString]
           end
  end.

Definition TrimPrefix (c : ascii) (s : string) : string :=
  match s with
  | String d rest => if Ascii.eqb d c then rest else s
  | EmptyString => s
  end.

(** ** [strings.ToLower], [strings.TrimSpace], [strings.Cut], on ASCII strings *)
Definition ascii_lower (c : Ascii.ascii) : Ascii.ascii :=
  let n := Ascii.nat_of_ascii c in
  if (65 <=? n)%nat && (n <=? 90)%nat then Ascii.ascii_of_nat (n + 32) else c.
Fixpoint ToLower (s : string) : string :=
  match s with
  | EmptyString => EmptyString
  | String c s => String (ascii_lower c) (ToLower s)
  end.

(** Tab, newline, vertical tab, form feed, carriage return and blank. *)
Definition is_space (c : ascii) : bool :=
  let n := Ascii.nat_of_ascii c in ((9 <=? n)%nat && (n <=? 13)%nat) || (n =? 32)%nat.
Fixpoint TrimLeftSpace (s : string) : string :=
  match s with
  | String c rest => if is_space c then TrimLeftSpace rest else s
  | EmptyString => s
  end.
Fixpoint TrimRightSpace (s : string) : string :=
  match s with
  | String c rest =>
      let t := TrimRightSpace rest in
      if is_space c && bool_decide (t = EmptyString) then EmptyString else String c t
  | EmptyString => s
  end.
Definition TrimSpace (s : string) : string := TrimRightSpace (TrimLeftSpace s).

(** Around the first [sep], if there is one. *)
Fixpoint Cut (sep : ascii) (s : string) : option (string * string) :=
  match s with
  | EmptyString => None
  | String c s =>
      if Ascii.eqb c sep then Some (EmptyString, s)
      else '(before, after) ← Cut sep s; Some (String c before, after)
  end.

(** [strconv.ParseUint] in base ten: digits only, within [bits]. *)
Definition ParseUint (bits : Z) (s : string) : option Z :=
  match s with
  | EmptyString => None
  | _ => n ← parse_digits 0 s; if n <? 2 ^ bits then Some n else None
  end.

(** ** Lemmas *)

Lemma string_app_assoc (s t u : string) : s +:+ t +:+ u = (s +:+ t) +:+ u.
Proof. induction s as [|c s IH]; simpl; [done|by rewrite IH]. Qed.
Lemma string_app_nil (s : string) : s +:+ "" = s.
Proof. induction s as [|c s IH]; simpl; [done|by rewrite IH]. Qed.

(** A string without a character. *)
Fixpoint avoids (c : ascii) (s : string) : Prop :=
  match s with EmptyString => True | String d s => d ≠ c ∧ avoids c s end.

Lemma Split_avoids c s : avoids c s → Split c s = [s].
Proof.
  induction s as [|d s IH]; simpl; [done|]. intros [Hd Hs].
  destruct (Ascii.eqb_spec d c) as [->|_]; [done|]. by rewrite IH.
Qed.

Lemma Split_app c s t : avoids c s → Split c (s +:+ String c t) = s :: Split c t.
Proof.
  induction s as [|d s IH]; simpl.
  - intros _. by rewrite Ascii.eqb_refl.
  - intros [Hd Hs]. destruct (Ascii.eqb_spec d c) as [->|_]; [done|]. by rewrite IH.
Qed.

Lemma Split_cons c s : ∃ w ws, Split c s = w :: ws.
Proof.
  induction s as [|d s (w & ws & IH)]; simpl; [eauto|].
  destruct (Ascii.eqb d c); [eauto|]. rewrite IH. eauto.
Qed.

Lemma avoids_app c s t : avoids c (s +:+ t) ↔ avoids c s ∧ avoids c t.
Proof. induction s as [|d s IH]; simpl; [tauto|]. rewrite IH. tauto. Qed.

(** The text before the first separator is determined. *)
Lemma avoids_split c p q p' q' :
  avoids c p → avoids c p' → p +:+ String c q = p' +:+ String c q' → p = p'.
Proof.
  revert p'. induction p as [|d p IH]; intros [|d' p']; simpl; try done.
  - intros _ [Hd _] [= <- _]. done.
  - intros [Hd _] _ [= -> _]. done.
  - intros [_ Hp] [_ Hp'] [= -> E]. f_equal. by apply (IH p').
Qed.

Definition is_digit (c : ascii) : Prop := is_Some (digit_value c).

Lemma pretty_N_char_value x : (x < 10)%N → digit_value (pretty_N_char x) = Some (Z.of_N x).
Proof.
  intros Hx. assert (x = 0 ∨ x = 1 ∨ x = 2 ∨ x = 3 ∨ x = 4 ∨ x = 5 ∨ x = 6 ∨ x = 7 ∨ x = 8 ∨ x = 9)%N
    as Hc by lia.
  by repeat (destruct Hc as [->|Hc]; [reflexivity|]); subst x.
Qed.

Lemma pretty_N_char_digit x : is_digit (pretty_N_char x).
Proof. unfold pretty_N_char, is_digit. repeat case_match; by eexists. Qed.

(** Printing a number writes digits, which parse as the number. *)
Lemma parse_pretty_N_go x s : parse_digits 0 (pretty_N_go x s) = parse_digits (Z.of_N x) s.
Proof.
  revert s. induction (N.lt_wf_0 x) as [x _ IH]. intros s.
  destruct (decide (x = 0%N)) as [->|Hx]; [by rewrite pretty_N_go_0|].
  rewrite pretty_N_go_step by lia. rewrite IH by (apply N.div_lt; lia). cbn [parse_digits].
  rewrite pretty_N_char_value by (apply N.mod_lt; lia). simpl. f_equal.
  rewrite N2Z.inj_div, N2Z.inj_mod. pose proof (Z.div_mod (Z.of_N x) 10). simpl. lia.
Qed.

Lemma pretty_N_go_all (P : ascii → Prop) x s :
  (∀ c, is_digit c → P c) →
  (∀ c t, s = String c t → P c) → x ≠ 0%N ∨ s ≠ EmptyString →
  ∃ c t, pretty_N_go x s = String c t ∧ P c.
Proof.
  intros HP. revert s. induction (N.lt_wf_0 x) as [x _ IH]. intros s Hs Hne.
  destruct (decide (x = 0%N)) as [->|Hx].
  - rewrite pretty_N_go_0. destruct s as [|c t]; [by destruct Hne|]. eauto.
  - rewrite pretty_N_go_step by lia. apply IH; [apply N.div_lt; lia| |by right].
    intros c t [= <- _]. apply HP, pretty_N_char_digit.
Qed.

Lemma pretty_N_avoids c (x : N) : ¬ is_digit c → avoids c (pretty x).
Proof.
  intros Hc. unfold pretty, pretty_N. case_decide.
  - split; [|done]. intros <-. apply Hc. by eexists.
  - assert (∀ x s, avoids c s → avoids c (pretty_N_go x s)) as Hgo; [|by apply Hgo].
    clear -Hc. intros x. induction (N.lt_wf_0 x) as [x _ IH]. intros s Hs.
    destruct (decide (x = 0%N)) as [->|Hx]; [by rewrite pretty_N_go_0|].
    rewrite pretty_N_go_step by lia. apply IH; [apply N.div_lt; lia|].
    split; [|done]. intros <-. apply Hc, pretty_N_char_digit.
Qed.

Lemma parse_pretty (x : N) : parse_digits 0 (pretty x) = Some (Z.of_N x).
Proof.
  unfold pretty, pretty_N. case_decide as Hx; [by subst|]. by rewrite parse_pretty_N_go.
Qed.

Lemma pretty_N_head (x : N) : ∃ c t, pretty x = String c t ∧ is_digit c.
Proof.
  unfold pretty, pretty_N. case_decide as Hx.
  - exists "0"%char, EmptyString. split; [done|]. by eexists.
  - apply (pretty_N_go_all is_digit); [done|done|by left].
Qed.

Lemma SetString10_pretty (x : N) : SetString10 (pretty x) = Some (Z.of_N x).
Proof.
  rewrite <- parse_pretty. destruct (pretty_N_head x) as (c & t & -> & Hc). unfold SetString10.
  destruct (Ascii.eqb_spec c "-"%char) as [->|_]; [by destruct Hc|].
  destruct (Ascii.eqb_spec c "+"%char) as [->|_]; [by destruct Hc|]. done.
Qed.

Lemma Atoi_pretty (x : N) : Z.of_N x ≤ MaxInt64 → Atoi (pretty x) = Some (Z.of_N x).
Proof.
  intros Hx. unfold Atoi. rewrite SetString10_pretty. simpl.
  assert (MinInt64 ≤ 0) by (vm_compute; discriminate).
  rewrite (proj2 (Z.leb_le _ _)) by lia. by rewrite (proj2 (Z.leb_le _ _)) by lia.
Qed.
