(* ===== verification/Cache.v ===== *)
(** * The LRU cache interface (github.com/hashicorp/golang-lru/v2)

    The program keeps contract bindings, public keys and rooms in LRU caches of
    a third-party package.  The components that use one are proved against the
    class below, which states what that package documents: [Get] reports the
    cached value of a key, [Add] makes the added value the cached one, and
    either may only forget other entries.  [list_lru] is one implementation of
    the class; it shows the laws can be met and lets witnesses run. *)
From S2P Require Import Prelude.

Class LruCache (K V : Type) `{Countable K} (C : Type) := {
  lru_new : C;
  lru_contents : C → gmap K V;
  lru_get : K → C → C * option V;
  lru_add : K → V → C → C;
  lru_new_contents : lru_contents lru_new = ∅;
  lru_get_value k c : (lru_get k c).2 = lru_contents c !! k;
  lru_get_contents k c : lru_contents (lru_get k c).1 = lru_contents c;
  lru_add_hit k v c : lru_contents (lru_add k v c) !! k = Some v;
  lru_add_other k k' v c :
    k ≠ k' →
    lru_contents (lru_add k v c) !! k' = lru_contents c !! k' ∨
    lru_contents (lru_add k v c) !! k' = None
}.

#[export] Hint Rewrite @lru_get_value @lru_get_contents @lru_add_hit
  @lru_new_contents : ttm_rw.

Section CacheFacts.
Context `{LruCache K V C}.

(** Every entry of the cache satisfies [P]. *)
Definition cache_all (P : K → V → Prop) (c : C) : Prop :=
  map_Forall P (lru_contents c).

Lemma cache_all_new P : cache_all P lru_new.
Proof. unfold cache_all. rewrite lru_new_contents. apply map_Forall_empty. Qed.

Lemma cache_all_get P k c : cache_all P c → cache_all P (lru_get k c).1.
Proof. unfold cache_all. by rewrite lru_get_contents. Qed.

Lemma cache_all_hit P k c c' v :
  cache_all P c → lru_get k c = (c', Some v) → P k v ∧ cache_all P c'.
Proof.
  intros Hc E. split.
  - apply Hc. by rewrite <- (lru_get_value k c), E.
  - replace c' with (lru_get k c).1 by (by rewrite E). by apply cache_all_get.
Qed.

Lemma cache_all_miss P k c c' o :
  cache_all P c → lru_get k c = (c', o) → cache_all P c'.
Proof.
  intros Hc E. replace c' with (lru_get k c).1 by (by rewrite E).
  by apply cache_all_get.
Qed.

Lemma cache_all_add P k v c : P k v → cache_all P c → cache_all P (lru_add k v c).
Proof.
  intros Hv Hc i x Hi. destruct (decide (k = i)) as [<-|Hne].
  - rewrite lru_add_hit in Hi. by simplify_eq.
  - destruct (lru_add_other k i v c Hne) as [E|E]; rewrite E in Hi; [by apply Hc|done].
Qed.
End CacheFacts.

#[export] Hint Resolve cache_all_new cache_all_get cache_all_add : ttm.

(** ** A list implementation, newest entry first, of capacity [S cap] *)
Section ListLru.
Context `{Countable K} {V : Type} (cap : nat).

Definition list_drop_key (k : K) (l : list (K * V)) : list (K * V) :=
  filter (λ p, p.1 ≠ k) l.

Definition list_get (k : K) (l : list (K * V)) : list (K * V) * option V :=
  match (list_to_map l : gmap K V) !! k with
  | Some v => ((k, v) :: list_drop_key k l, Some v)
  | None => (l, None)
  end.

Definition list_add (k : K) (v : V) (l : list (K * V)) : list (K * V) :=
  take (S cap) ((k, v) :: list_drop_key k l).

Lemma list_drop_key_map k l :
  (list_to_map (list_drop_key k l) : gmap K V) = delete k (list_to_map l).
Proof.
  induction l as [|[k' v'] l IH]; simpl; [by rewrite delete_empty|].
  unfold list_drop_key in *. rewrite filter_cons. simpl. case_decide as Hk; simpl.
  - rewrite IH. by rewrite delete_insert_ne.
  - subst k'. by rewrite delete_insert_eq.
Qed.

Lemma list_to_map_take n (l : list (K * V)) k :
  (list_to_map (take n l) : gmap K V) !! k = (list_to_map l : gmap K V) !! k ∨
  (list_to_map (take n l) : gmap K V) !! k = None.
Proof.
  revert n. induction l as [|[k' v'] l IH]; intros [|n]; simpl; auto.
  destruct (decide (k' = k)) as [->|Hne].
  - rewrite !lookup_insert_eq. auto.
  - rewrite !lookup_insert_ne by done. apply IH.
Qed.

Definition list_lru : LruCache K V (list (K * V)).
Proof.
  refine {| lru_new := []; lru_contents := λ l, list_to_map l;
            lru_get := list_get; lru_add := list_add |}.
  - done.
  - intros k c. unfold list_get. by case_match.
  - intros k c. unfold list_get. case_match eqn:E; [|done]. simpl.
    rewrite list_drop_key_map, insert_delete_eq. by apply insert_id.
  - intros k v c. simpl. by rewrite lookup_insert_eq.
  - intros k k' v c Hne. simpl. rewrite !lookup_insert_ne by done.
    destruct (list_to_map_take cap (list_drop_key k c) k') as [E|E]; rewrite E; auto.
    left. by rewrite list_drop_key_map, lookup_delete_ne.
Defined.
End ListLru.
