(* ===== verification/Txn.v ===== *)
(** * Database sessions (pkg/database/sqlite/session.go)

    A component's storage is a database of type [DB], changed only by
    transactions.  [Txn DB X] is the state of a component: the committed
    database, the snapshot its open transaction works on, the number of calls
    made so far to the outside, and [X], everything else it keeps.

    Every call to the database driver, the blockchain or the partner plugin may
    fail; [fault n] says whether the [n]-th call does.  Theorems quantify over
    [fault], so they cover every combination of failures. *)
From S2P Require Import Prelude.

Record Txn (DB X : Type) := mkTxn {
  committed : DB;
  working : option DB;
  ticks : nat;
  rest : X
}.
Arguments mkTxn {DB X} _ _ _ _.
Arguments committed {DB X} _.
Arguments working {DB X} _.
Arguments ticks {DB X} _.
Arguments rest {DB X} _.

Definition ErrAlreadyCommitted : error := Sentinel "sqlite.ErrAlreadyCommitted".

Section Session.
Context {DB X : Type}.
Variable fault : nat → option error.

(** One call to the outside: it fails, or [k] is what it does. *)
Definition external {A} (k : Txn DB X → Txn DB X * outcome A) : M (Txn DB X) A := λ s,
  let s' := mkTxn (committed s) (working s) (S (ticks s)) (rest s) in
  match fault (ticks s) with
  | Some e => (s', Err e)
  | None => k s'
  end.

Definition set_working (w : option DB) (s : Txn DB X) : Txn DB X :=
  mkTxn (committed s) w (ticks s) (rest s).

(** [DB.NewSession]: begin a serializable transaction. *)
Definition NewSession : M (Txn DB X) unit :=
  wrapS "failed to begin new sql transaction: %w"
    (external (λ s, (set_working (Some (committed s)) s, Ok tt))).

(** [SQLxTxSession.Commit] behind [DB.Commit]. *)
Definition Commit : M (Txn DB X) unit := λ s,
  match working s with
  | None => (s, Err (Wrapf "failed to commit db session: %w" ErrAlreadyCommitted))
  | Some w =>
      wrapS "failed to commit db session: %w"
        (wrapS "failed to commit sql transaction: %w"
           (external (λ s, (mkTxn w None (ticks s) (rest s), Ok tt)))) s
  end.

(** [SQLxTxSession.Abort] behind [DB.Abort], whose error is only logged: after a
    commit it does nothing, before one it rolls the transaction back. *)
Definition Abort : Txn DB X → Txn DB X := set_working None.

(** A statement of the open transaction. *)
Definition Exec {A} (f : DB → DB * outcome A) : M (Txn DB X) A :=
  external (λ s,
    match working s with
    | None => (s, Err (Errorf "sql: transaction has already been committed or rolled back"))
    | Some w => let '(w', o) := f w in (set_working (Some w') s, o)
    end).

Definition Query {A} (f : DB → outcome A) : M (Txn DB X) A := Exec (λ w, (w, f w)).

(** [session, err := NewSession(ctx); defer Abort(session)] *)
Definition withSession {A} (fmt : string) (body : M (Txn DB X) A) : M (Txn DB X) A :=
  wrapS fmt NewSession ;; deferS Abort body.

(** Operations on the rest of the state. *)
Definition getRest : M (Txn DB X) X := λ s, (s, Ok (rest s)).
Definition setRest (x : X) : M (Txn DB X) unit := λ s,
  (mkTxn (committed s) (working s) (ticks s) x, Ok tt).
Definition modifyRest (f : X → X) : M (Txn DB X) unit := λ s,
  (mkTxn (committed s) (working s) (ticks s) (f (rest s)), Ok tt).

(** A statement that is to change exactly one row. *)
Definition oneRow (fmt : string) (statement : DB → DB * outcome Z) : M (Txn DB X) unit :=
  rowsAffected ← wrapS fmt (Exec statement);
  if rowsAffected =? 1 then retS tt
  else throwS (Errorf "unexpected number of rows affected: expected 1, but affected %d").

(** A query for one row; [sql.ErrNoRows] becomes the error of the package. *)
Definition getRow {A} (notFound : error) (fmt : string) (query : DB → option A) : M (Txn DB X) A :=
  row ← wrapS fmt (Query (λ db, Ok (query db)));
  match row with
  | Some row => retS row
  | None => throwS notFound
  end.

(** ** What keeps the committed database *)

Lemma external_keeps {A} (k : Txn DB X → Txn DB X * outcome A) :
  (∀ s, committed (k s).1 = committed s) → keeps committed (external k).
Proof. intros Hk s. unfold external. case_match; simpl; [done|]. by rewrite Hk. Qed.

Lemma NewSession_keeps : keeps committed NewSession.
Proof. apply keeps_wrap, external_keeps. done. Qed.

Lemma Exec_keeps {A} (f : DB → DB * outcome A) : keeps committed (Exec f).
Proof. apply external_keeps. intros s. destruct (working s); [|done]. by case_match. Qed.

Lemma Query_keeps {A} (f : DB → outcome A) : keeps committed (Query f).
Proof. apply Exec_keeps. Qed.

Lemma defer_keeps {A} (m : M (Txn DB X) A) : keeps committed m → keeps committed (deferS Abort m).
Proof. intros Hm s. specialize (Hm s). unfold deferS. by destruct (m s). Qed.

Lemma withSession_keeps {A} fmt (m : M (Txn DB X) A) :
  keeps committed m → keeps committed (withSession fmt m).
Proof.
  intros Hm. apply keeps_bind; [apply keeps_wrap, NewSession_keeps|].
  intros _. by apply defer_keeps.
Qed.

Lemma getRest_keeps : keeps committed getRest.
Proof. done. Qed.
Lemma setRest_keeps x : keeps committed (setRest x).
Proof. done. Qed.
Lemma modifyRest_keeps f : keeps committed (modifyRest f).
Proof. done. Qed.

(** A commit either fails and changes nothing, or publishes the snapshot. *)
Lemma Commit_cases s :
  (∃ e, (Commit s).2 = Err e ∧ committed (Commit s).1 = committed s ∧
        working (Commit s).1 = working s) ∨
  (∃ w, working s = Some w ∧ (Commit s).2 = Ok tt ∧ committed (Commit s).1 = w ∧
        working (Commit s).1 = None) .
Proof.
  unfold Commit. destruct (working s) as [w|] eqn:Ew; [|left; eauto].
  unfold wrapS, external. destruct (fault (ticks s)) as [e|]; simpl.
  - left. eexists. eauto.
  - right. eauto.
Qed.

Lemma Commit_rest s : rest (Commit s).1 = rest s.
Proof.
  unfold Commit, wrapS, external. by repeat case_match; simplify_eq/=.
Qed.

(** ** What each operation can end in *)

(** [t] differs from [s] at most in its open transaction. *)
Definition same_data (s t : Txn DB X) : Prop := committed t = committed s ∧ rest t = rest s.

Lemma NewSession_ends s :
  runs NewSession s (λ t o, same_data s t ∧
    match o with
    | Ok _ => working t = Some (committed s)
    | Err _ => ∃ n e, fault n = Some e
    | Panic _ => False
    end).
Proof. unfold runs, NewSession, wrapS, external. destruct (fault (ticks s)) eqn:E; simpl; (split; [done|]); eauto. Qed.

Lemma Exec_ends {A} (f : DB → DB * outcome A) s w :
  working s = Some w →
  runs (Exec f) s (λ t o, same_data s t ∧
    match o with
    | Ok a => ∃ w', f w = (w', Ok a) ∧ working t = Some w'
    | Err e => True
    | Panic p => (f w).2 = Panic p
    end).
Proof.
  intros Hw. unfold runs, Exec, external, same_data. destruct (fault (ticks s)); simpl; [done|].
  rewrite Hw. destruct (f w) as [w' [a|e|p]]; simpl; eauto.
Qed.

Lemma Query_ends {A} (f : DB → outcome A) s w :
  working s = Some w →
  runs (Query f) s (λ t o, same_data s t ∧
    match o with
    | Ok a => f w = Ok a ∧ working t = Some w
    | Err e => working t = Some w
    | Panic p => f w = Panic p
    end).
Proof.
  intros Hw. unfold runs, Query, Exec, external. destruct (fault (ticks s)); simpl; [done|].
  rewrite Hw. destruct (f w) as [a|e|p]; done.
Qed.

Lemma Commit_ends s w :
  working s = Some w →
  runs Commit s (λ t o, rest t = rest s ∧
    match o with
    | Ok _ => committed t = w
    | Err _ => committed t = committed s
    | Panic _ => False
    end).
Proof.
  intros Hw. unfold runs, Commit. rewrite Hw. unfold wrapS, external. by destruct (fault (ticks s)).
Qed.

Lemma oneRow_ends fmt statement s w :
  working s = Some w → (∀ w p, (statement w).2 ≠ Panic p) →
  runs (oneRow fmt statement) s (λ t o, same_data s t ∧
    match o with
    | Ok _ => ∃ w', statement w = (w', Ok 1) ∧ working t = Some w'
    | Err _ => True
    | Panic _ => False
    end).
Proof.
  intros Hw Hp. eapply runs_bind_wrap; [exact (Exec_ends statement s w Hw)|..].
  - intros t a (Hd & w' & Hs & Hw'). destruct (Z.eqb_spec a 1) as [->|]; [|done].
    split; [done|]. eauto.
  - intros t e Ho. split; [apply Ho|done].
  - intros t p [_ Ho]. by destruct (Hp w p).
Qed.

Lemma getRow_ends {A} notFound fmt (query : DB → option A) s w :
  working s = Some w →
  runs (getRow notFound fmt query) s (λ t o, same_data s t ∧
    match o with
    | Ok a => query w = Some a ∧ working t = Some w
    | Err e => working t = Some w ∧
        ((query w = None ∧ e = notFound) ∨ ∃ n e', fault n = Some e' ∧ e = Wrapf fmt e')
    | Panic _ => False
    end).
Proof.
  intros Hw. unfold runs, getRow, mbind, M_bind, wrapS, Query, Exec, external.
  destruct (fault (ticks s)) as [e|] eqn:Ef; simpl; [split; [done|]; split; [done|]; eauto|]. rewrite Hw.
  destruct (query w); simpl; (split; [done|]); eauto.
Qed.

(** ** What keeps the rest of the state *)

Lemma external_keeps_rest {A} (k : Txn DB X → Txn DB X * outcome A) :
  (∀ s, rest (k s).1 = rest s) → keeps rest (external k).
Proof. intros Hk s. unfold external. case_match; simpl; [done|]. by rewrite Hk. Qed.

Lemma NewSession_keeps_rest : keeps rest NewSession.
Proof. apply keeps_wrap, external_keeps_rest. done. Qed.

Lemma Exec_keeps_rest {A} (f : DB → DB * outcome A) : keeps rest (Exec f).
Proof. apply external_keeps_rest. intros s. destruct (working s); [|done]. by case_match. Qed.

Lemma Query_keeps_rest {A} (f : DB → outcome A) : keeps rest (Query f).
Proof. apply Exec_keeps_rest. Qed.

Lemma Commit_keeps_rest : keeps rest Commit.
Proof. intros s. apply Commit_rest. Qed.

Lemma withSession_keeps_rest {A} fmt (m : M (Txn DB X) A) :
  keeps rest m → keeps rest (withSession fmt m).
Proof.
  intros Hm. apply keeps_bind; [apply keeps_wrap, NewSession_keeps_rest|].
  intros _ s. specialize (Hm s). unfold deferS. by destruct (m s).
Qed.

(** ** Runs without a fault *)
Hypothesis no_fault : ∀ n, fault n = None.

Lemma external_ok {A} (k : Txn DB X → Txn DB X * outcome A) s :
  external k s = k (mkTxn (committed s) (working s) (S (ticks s)) (rest s)).
Proof. unfold external. by rewrite no_fault. Qed.
End Session.

#[export] Hint Resolve NewSession_keeps Exec_keeps Query_keeps withSession_keeps
  getRest_keeps setRest_keeps modifyRest_keeps NewSession_keeps_rest
  Exec_keeps_rest Query_keeps_rest Commit_keeps_rest withSession_keeps_rest : ttm.
