(* ===== verification/Conversion.v ===== *)
(** * Checked integer conversions (pkg/conversion/conversion.go)

    Go integers are [Z] values; a conversion that fails is an [Err], one that
    panics is a [Panic], and the unchecked part of a conversion wraps. *)
From S2P Require Import Prelude.

(** ** The conversions *)

Definition IntToInt32 (value : Z) : outcome Z :=
  if (value <? 0) || (MaxInt32 <? value)
  then Err (Errorf "value out of range for int32: %d")
  else Ok (swrap 32 value).

Definition IntToUInt32 (value : Z) : outcome Z :=
  if value <? 0
  then Err (Errorf "value out of range for uint32: %d")
  else Ok (uwrap 32 value).

Definition MustUInt32ToInt32 (value : Z) : outcome Z :=
  if MaxInt32 <? value
  then Panic "value out of range for int32: %d"
  else Ok (swrap 32 value).

Definition MustInt32ToUInt32 (value : Z) : outcome Z :=
  if value <? 0
  then Panic "value out of range for uint32: %d"
  else Ok (uwrap 32 value).

Definition MustIntToUInt32 (value : Z) : outcome Z :=
  if (value <? 0) || (MaxUint32 <? value)
  then Panic "value out of range for uint32: %d"
  else Ok (uwrap 32 value).

Definition MustIntToUInt16 (value : Z) : outcome Z :=
  if (value <? 0) || (MaxUint16 <? value)
  then Panic "value out of range for uint16: %d"
  else Ok (uwrap 16 value).

Definition MustUInt64ToInt64 (value : Z) : outcome Z :=
  if MaxInt64 <? value
  then Panic "value out of range for int64: %d"
  else Ok (swrap 64 value).

Definition MustInt64ToUInt64 (value : Z) : outcome Z :=
  if value <? 0
  then Panic "value out of range for uint64: %d"
  else Ok (uwrap 64 value).

Definition MustDurationToUInt64 (value : Z) : outcome Z :=
  if value <? 0
  then Panic "value out of range for uint64: %d"
  else Ok (uwrap 64 value).

Definition MustInt32ToUInt64 (value : Z) : outcome Z :=
  if value <? 0
  then Panic "value out of range for uint64: %d"
  else Ok (uwrap 64 value).

Definition ProtoEnumNumberToUInt16 (value : Z) : outcome Z :=
  if (value <? 0) || (MaxUint16 <? value)
  then Err (Errorf "value out of range for uint16: %d")
  else Ok (uwrap 16 value).

(** ** Lemmas *)

(** A conversion [f] from values satisfying [src] is exact for [dst] when it
    returns every value that fits unchanged and refuses every other one. *)
Definition exact_conversion (src dst : Z → Prop) (f : Z → outcome Z) : Prop :=
  ∀ v, src v → (dst v → f v = Ok v) ∧ (¬ dst v → is_ok (f v) = false).

Ltac conv := 
  intros v Hv; unfold in_sint, in_uint, swrap, uwrap, MaxInt32, MaxUint32,
    MaxUint16, MaxInt64 in *; cbn -[Z.modulo] in *;
  split; intros Hd; zcase; cbn -[Z.modulo]; try lia;
  try (rewrite Z.mod_small by lia; f_equal; lia); done.

Lemma ProtoEnumNumberToUInt16_spec :
  exact_conversion (in_sint 32) (in_uint 16) ProtoEnumNumberToUInt16.
Proof. unfold ProtoEnumNumberToUInt16. conv. Qed.

Lemma MustIntToUInt16_spec :
  exact_conversion (in_sint 64) (in_uint 16) MustIntToUInt16.
Proof. unfold MustIntToUInt16. conv. Qed.

Lemma MustIntToUInt32_spec :
  exact_conversion (in_sint 64) (in_uint 32) MustIntToUInt32.
Proof. unfold MustIntToUInt32. conv. Qed.

Lemma MustUInt32ToInt32_spec :
  exact_conversion (in_uint 32) (in_sint 32) MustUInt32ToInt32.
Proof. unfold MustUInt32ToInt32. conv. Qed.

Lemma MustUInt64ToInt64_spec :
  exact_conversion (in_uint 64) (in_sint 64) MustUInt64ToInt64.
Proof. unfold MustUInt64ToInt64. conv. Qed.

Lemma MustInt64ToUInt64_spec :
  exact_conversion (in_sint 64) (in_uint 64) MustInt64ToUInt64.
Proof. unfold MustInt64ToUInt64. conv. Qed.

Lemma MustInt32ToUInt32_spec :
  exact_conversion (in_sint 32) (in_uint 32) MustInt32ToUInt32.
Proof. unfold MustInt32ToUInt32. conv. Qed.

Lemma MustInt32ToUInt64_spec :
  exact_conversion (in_sint 32) (in_uint 64) MustInt32ToUInt64.
Proof. unfold MustInt32ToUInt64. conv. Qed.

Lemma MustDurationToUInt64_spec :
  exact_conversion (in_sint 64) (in_uint 64) MustDurationToUInt64.
Proof. unfold MustDurationToUInt64. conv. Qed.

(** [IntToInt32] also refuses the negative values an [int32] could hold. *)
Lemma IntToInt32_spec :
  exact_conversion (in_sint 64) (λ v, in_sint 32 v ∧ 0 ≤ v) IntToInt32.
Proof. unfold IntToInt32. conv. Qed.

(** The forms the clients use: a value that fits is returned. *)
Lemma MustIntToUInt32_ok v : 0 ≤ v < 2 ^ 32 → MustIntToUInt32 v = Ok v.
Proof. intros Hv. apply MustIntToUInt32_spec; unfold in_sint, in_uint; lia. Qed.

Lemma MustIntToUInt16_ok v : 0 ≤ v < 2 ^ 16 → MustIntToUInt16 v = Ok v.
Proof. intros Hv. apply MustIntToUInt16_spec; unfold in_sint, in_uint; lia. Qed.

Lemma MustUInt64ToInt64_ok v : 0 ≤ v < 2 ^ 63 → MustUInt64ToInt64 v = Ok v.
Proof. intros Hv. apply MustUInt64ToInt64_spec; unfold in_sint, in_uint; lia. Qed.

Lemma MustInt64ToUInt64_ok v : 0 ≤ v < 2 ^ 63 → MustInt64ToUInt64 v = Ok v.
Proof. intros Hv. apply MustInt64ToUInt64_spec; unfold in_sint, in_uint; lia. Qed.

Lemma MustIntToUInt16_inv v r : MustIntToUInt16 v = Ok r → r = v ∧ 0 ≤ v < 2 ^ 16.
Proof.
  unfold MustIntToUInt16, MaxUint16. change (2 ^ 16) with 65536. zcase; simpl; try done.
  intros [= <-]. split; [|lia]. apply uwrap_small. unfold in_uint. lia.
Qed.

(** [IntToUInt32] refuses negative values only: a value above the range of
    [uint32] comes back without an error, reduced modulo [2^32], and so differs
    from its argument. *)
Lemma IntToUInt32_truncates v :
  2 ^ 32 ≤ v < 2 ^ 63 →
  ∃ r, IntToUInt32 v = Ok r ∧ in_uint 32 r ∧ r ≠ v ∧ v = r + 2 ^ 32 * (v / 2 ^ 32).
Proof.
  intros Hv. unfold IntToUInt32, uwrap, in_uint. zcase; [lia|].
  eexists. split; [done|]. pose proof (Z.mod_pos_bound v (2 ^ 32)) as Hb.
  pose proof (Z.div_mod v (2 ^ 32)) as Hd. lia.
Qed.

(** ** Properties *)

(** Every checked conversion but [IntToUInt32] is exact on the whole range of
    its argument type: a value that fits the target is returned unchanged, any
    other value is refused with an error or a panic ([IntToInt32] refuses the
    negative ones too).  [IntToUInt32] refuses negative values only: a larger one comes
    back without an error, reduced modulo [2^32]. *)
Lemma conversions_exact :
  exact_conversion (in_sint 64) (λ v, in_sint 32 v ∧ 0 ≤ v) IntToInt32 ∧
  exact_conversion (in_uint 32) (in_sint 32) MustUInt32ToInt32 ∧
  exact_conversion (in_sint 32) (in_uint 32) MustInt32ToUInt32 ∧
  exact_conversion (in_sint 64) (in_uint 32) MustIntToUInt32 ∧
  exact_conversion (in_sint 64) (in_uint 16) MustIntToUInt16 ∧
  exact_conversion (in_uint 64) (in_sint 64) MustUInt64ToInt64 ∧
  exact_conversion (in_sint 64) (in_uint 64) MustInt64ToUInt64 ∧
  exact_conversion (in_sint 64) (in_uint 64) MustDurationToUInt64 ∧
  exact_conversion (in_sint 32) (in_uint 64) MustInt32ToUInt64 ∧
  exact_conversion (in_sint 32) (in_uint 16) ProtoEnumNumberToUInt16 ∧
  (∀ v, in_sint 64 v → v < 0 → is_ok (IntToUInt32 v) = false) ∧
  (∀ v, 2 ^ 32 ≤ v < 2 ^ 63 → ∃ r, IntToUInt32 v = Ok r ∧ in_uint 32 r ∧ r ≠ v).
Proof.
  split_and!; auto using IntToInt32_spec, MustUInt32ToInt32_spec, MustInt32ToUInt32_spec,
    MustIntToUInt32_spec, MustIntToUInt16_spec, MustUInt64ToInt64_spec,
    MustInt64ToUInt64_spec, MustDurationToUInt64_spec, MustInt32ToUInt64_spec,
    ProtoEnumNumberToUInt16_spec.
  - intros v _ Hv. unfold IntToUInt32. by zcase; try lia.
  - intros v Hv. destruct (IntToUInt32_truncates v Hv) as (r & ? & ? & ? & _). eauto.
Qed.
