(* ===== verification/Price.v ===== *)
(** * Prices (pkg/price/price.go and internal/price/price.go)

    A protocol price is a decimal string with a count of decimals and a
    currency; the price handler turns it into the integer amount, payment token
    and ISO currency of the booking contract.  Addresses are 160-bit numbers.
    [common.HexToAddress] and the ERC-20 [Decimals] call are parameters. *)
From S2P Require Import Prelude Decimal Conversion.

#[local] Open Scope Z_scope.

Definition NativeTokenDecimals : Z := 18.
Definition ISODecimals : Z := 6.

(** Special payment tokens (pkg/booking/booking.go). *)
Definition NativePaymentToken : Z := 0.
Definition ISOPaymentToken : Z := 1.

(** [new(big.Int).Exp(big.NewInt(10), y, nil)]: an exponent [y <= 0] gives 1. *)
Definition exp10 (y : Z) : Z := if y <=? 0 then 1 else 10 ^ y.

(** The subtraction [totalDecimals-decimals] is done in [int32]. *)
Definition ToBigInt (value : string) (decimals totalDecimals : Z) : outcome Z :=
  if totalDecimals <? decimals then
    Err (Errorf "decimals (%d) > (%d) totalDecimals")
  else
    match SetString10 value with
    | None => Err (Errorf "failed to convert value to big.Int: %s")
    | Some valueBigInt =>
        let multiplier := exp10 (swrap 32 (totalDecimals - decimals)) in
        Ok (valueBigInt * multiplier)
    end.

(** ** Protocol messages *)

Inductive CurrencyV3 :=
  | CurrencyV3_NativeToken
  | CurrencyV3_TokenCurrency (ContractAddress : option string)
  | CurrencyV3_IsoCurrency (code : Z)
  | CurrencyV3_unset.                                (* a message without its oneof *)

Record PriceV3 := { v3_Value : string; v3_Decimals : Z; v3_Currency : option CurrencyV3 }.

(** The currency of types v4; types v5 reuses it. *)
Inductive CurrencyV4 :=
  | CurrencyV4_NativeToken
  | CurrencyV4_TokenCurrency (TokenCurrency : option string)
  | CurrencyV4_IsoCurrency (code : Z)
  | CurrencyV4_unset.

Record PriceV4 := { v4_Value : string; v4_Decimals : Z; v4_Currency : option CurrencyV4 }.
Record PriceV5 := { v5_Value : string; v5_Decimals : Z; v5_Currency : option CurrencyV4 }.

#[global] Instance CurrencyV4_eq_dec : EqDecision CurrencyV4.
Proof. solve_decision. Defined.
#[global] Instance PriceV4_eq_dec : EqDecision PriceV4.
Proof. solve_decision. Defined.
#[global] Instance PriceV5_eq_dec : EqDecision PriceV5.
Proof. solve_decision. Defined.

Definition errMissingPrice : error := Sentinel "price.errMissingPrice".
Definition errUnknownCurrency : error := Sentinel "price.errUnknownCurrency".

Section Handler.
Variable HexToAddress : string → Z.
Variable Decimals : Z → outcome Z.

Definition GetPriceAndTokenV3 (priceV3 : option PriceV3) : outcome (Z * Z * Z) :=
  match priceV3 with
  | None => Err errMissingPrice
  | Some p =>
      match v3_Currency p with
      | Some CurrencyV3_NativeToken =>
          v ← wrapO "failed to convert price to big.Int"
                (ToBigInt (v3_Value p) (v3_Decimals p) NativeTokenDecimals);
          Ok (v, NativePaymentToken, 0)
      | Some (CurrencyV3_TokenCurrency None) => Panic nilDeref
      | Some (CurrencyV3_TokenCurrency (Some addr)) =>
          let contractAddress := HexToAddress addr in
          tokenDecimals ← wrapO "failed to fetch token decimals" (Decimals contractAddress);
          v ← wrapO "failed to convert price to big.Int"
                (ToBigInt (v3_Value p) (v3_Decimals p) tokenDecimals);
          Ok (v, contractAddress, 0)
      | Some (CurrencyV3_IsoCurrency code) =>
          v ← wrapO "failed to convert price to big.Int"
                (ToBigInt (v3_Value p) (v3_Decimals p) ISODecimals);
          Ok (v, ISOPaymentToken, code)
      | Some CurrencyV3_unset | None => Err (Wrapf "%w (%T)" errUnknownCurrency)
      end
  end.

Definition GetPriceAndTokenV4 (priceV4 : option PriceV4) : outcome (Z * Z * Z) :=
  match priceV4 with
  | None => Err errMissingPrice
  | Some p =>
      match v4_Currency p with
      | Some CurrencyV4_NativeToken =>
          d ← MustUInt32ToInt32 (v4_Decimals p);
          v ← wrapO "failed to convert price to big.Int"
                (ToBigInt (v4_Value p) d NativeTokenDecimals);
          Ok (v, NativePaymentToken, 0)
      | Some (CurrencyV4_TokenCurrency None) => Panic nilDeref
      | Some (CurrencyV4_TokenCurrency (Some addr)) =>
          let contractAddress := HexToAddress addr in
          tokenDecimals ← wrapO "failed to fetch token decimals" (Decimals contractAddress);
          d ← MustUInt32ToInt32 (v4_Decimals p);
          v ← wrapO "failed to convert price to big.Int"
                (ToBigInt (v4_Value p) d tokenDecimals);
          Ok (v, contractAddress, 0)
      | Some (CurrencyV4_IsoCurrency code) =>
          d ← MustUInt32ToInt32 (v4_Decimals p);
          v ← wrapO "failed to convert price to big.Int"
                (ToBigInt (v4_Value p) d ISODecimals);
          Ok (v, ISOPaymentToken, code)
      | Some CurrencyV4_unset | None => Err (Wrapf "%w (%T)" errUnknownCurrency)
      end
  end.

Definition GetPriceAndTokenV5 (priceV5 : option PriceV5) : outcome (Z * Z * Z) :=
  match priceV5 with
  | None => Err errMissingPrice
  | Some p =>
      match v5_Currency p with
      | Some CurrencyV4_NativeToken =>
          d ← MustUInt32ToInt32 (v5_Decimals p);
          v ← wrapO "failed to convert price to big.Int"
                (ToBigInt (v5_Value p) d NativeTokenDecimals);
          Ok (v, NativePaymentToken, 0)
      | Some (CurrencyV4_TokenCurrency None) => Panic nilDeref
      | Some (CurrencyV4_TokenCurrency (Some addr)) =>
          let contractAddress := HexToAddress addr in
          tokenDecimals ← wrapO "failed to fetch token decimals" (Decimals contractAddress);
          d ← MustUInt32ToInt32 (v5_Decimals p);
          v ← wrapO "failed to convert price to big.Int"
                (ToBigInt (v5_Value p) d tokenDecimals);
          Ok (v, contractAddress, 0)
      | Some (CurrencyV4_IsoCurrency code) =>
          d ← MustUInt32ToInt32 (v5_Decimals p);
          v ← wrapO "failed to convert price to big.Int"
                (ToBigInt (v5_Value p) d ISODecimals);
          Ok (v, ISOPaymentToken, code)
      | Some CurrencyV4_unset | None => Err (Wrapf "%w (%T)" errUnknownCurrency)
      end
  end.
End Handler.

(** ** Lemmas on the conversion of amounts *)

Lemma ToBigInt_value v d t n :
  SetString10 v = Some n → d ≤ t →
  ToBigInt v d t = Ok (n * exp10 (swrap 32 (t - d))).
Proof. intros E Hd. unfold ToBigInt. rewrite E. zcase; [lia|done]. Qed.

Lemma ToBigInt_Ok_inv v d t r :
  ToBigInt v d t = Ok r →
  ∃ n, SetString10 v = Some n ∧ d ≤ t ∧ r = n * exp10 (swrap 32 (t - d)).
Proof.
  unfold ToBigInt. zcase; [done|]. destruct (SetString10 v) as [n|]; [|done].
  intros [= <-]. eauto.
Qed.

Lemma exp10_small y : 0 ≤ y ≤ MaxInt32 → exp10 (swrap 32 y) = 10 ^ y.
Proof.
  intros Hy. rewrite swrap_small; unfold MaxInt32, in_sint in *; [|lia|simpl; lia].
  unfold exp10. zcase; [|done]. by replace y with 0 by lia.
Qed.

(** Outside [int32] the wrapped difference is negative, and [Exp] returns 1. *)
Lemma exp10_wrapped y : MaxInt32 < y ≤ 2 ^ 32 → exp10 (swrap 32 y) = 1.
Proof.
  intros Hy. unfold MaxInt32, exp10, swrap in *.
  change (2 ^ (32 - 1)) with 2147483648. change (2 ^ 32) with 4294967296 in *.
  replace ((y + 2147483648) mod 4294967296) with (y - 2147483648).
  - zcase; lia.
  - rewrite <- (Z_mod_plus_full _ (-1)). symmetry. rewrite Z.mod_small; lia.
Qed.

(** ** The settlement of a currency: decimals of the on-chain amount, payment
    token and ISO code *)
Section Settlement.
Variable HexToAddress : string → Z.
Variable Decimals : Z → outcome Z.

Definition settle (c : CurrencyV4) : option (Z * Z * Z) :=
  match c with
  | CurrencyV4_NativeToken => Some (NativeTokenDecimals, NativePaymentToken, 0)
  | CurrencyV4_TokenCurrency None => None
  | CurrencyV4_TokenCurrency (Some addr) =>
      match Decimals (HexToAddress addr) with
      | Ok t => Some (t, HexToAddress addr, 0)
      | _ => None
      end
  | CurrencyV4_IsoCurrency code => Some (ISODecimals, ISOPaymentToken, code)
  | CurrencyV4_unset => None
  end.

Lemma settle_decimals c t tok iso :
  (∀ a d, Decimals a = Ok d → in_uint 8 d) →
  settle c = Some (t, tok, iso) → 0 ≤ t ≤ 255.
Proof.
  intros HD. destruct c as [|[a|]|code|]; simpl; intros E; simplify_eq;
    unfold NativeTokenDecimals, ISODecimals; try lia.
  destruct (Decimals (HexToAddress a)) as [d| |] eqn:Ed; simplify_eq.
  apply HD in Ed. unfold in_uint in Ed. lia.
Qed.

(** Scaling with the decimals of the currency, on every branch. *)
Definition scaled (value : string) (decimals : Z) (s : Z * Z * Z) : outcome (Z * Z * Z) :=
  let '(t, tok, iso) := s in
  d ← MustUInt32ToInt32 decimals;
  v ← wrapO "failed to convert price to big.Int" (ToBigInt value d t);
  Ok (v, tok, iso).

Lemma GetPriceAndTokenV4_scaled p c s :
  v4_Currency p = Some c → settle c = Some s →
  GetPriceAndTokenV4 HexToAddress Decimals (Some p) =
  scaled (v4_Value p) (v4_Decimals p) s.
Proof.
  intros Ec. unfold GetPriceAndTokenV4. rewrite Ec.
  destruct c as [|[a|]|code|]; simpl; intros E; simplify_eq; try done.
  destruct (Decimals (HexToAddress a)); simplify_eq/=; done.
Qed.

Lemma GetPriceAndTokenV4_Ok_settle p r :
  GetPriceAndTokenV4 HexToAddress Decimals (Some p) = Ok r →
  ∃ c s, v4_Currency p = Some c ∧ settle c = Some s.
Proof.
  unfold GetPriceAndTokenV4. destruct (v4_Currency p) as [[|[a|]|code|]|]; simpl; eauto; try done.
  destruct (Decimals (HexToAddress a)) as [t| |] eqn:Et; simpl; [|done..]. intros _.
  eexists _, (t, _, _). split; [done|]. simpl. by rewrite Et.
Qed.

Lemma scaled_Ok value decimals t tok iso r :
  in_uint 32 decimals → 0 ≤ t ≤ 255 →
  scaled value decimals (t, tok, iso) = Ok r ↔
  ∃ n, SetString10 value = Some n ∧ decimals ≤ t ∧
       r = (n * 10 ^ (t - decimals), tok, iso).
Proof.
  intros Hd Ht. unfold scaled, in_uint in *. destruct (decide (decimals ≤ t)) as [Hle|Hgt].
  - destruct (MustUInt32ToInt32_spec decimals Hd) as [E _].
    rewrite E by (unfold in_sint; simpl; lia). simpl. split.
    + intros H. destruct (ToBigInt value decimals t) as [v| |] eqn:Ev; simplify_eq/=.
      apply ToBigInt_Ok_inv in Ev as (n & En & _ & ->). exists n.
      rewrite exp10_small by (unfold MaxInt32; lia). auto.
    + intros (n & En & _ & ->). rewrite (ToBigInt_value _ _ _ n) by done.
      by rewrite exp10_small by (unfold MaxInt32; lia).
  - split; [|intros (? & ? & ? & ?); lia]. unfold MustUInt32ToInt32.
    zcase; simpl; [done|]. rewrite swrap_small by (unfold in_sint, MaxInt32 in *; simpl; lia).
    unfold ToBigInt. zcase; [done|lia].
Qed.
End Settlement.

(** The V4 price with the same fields as a V5 one, and as a V3 one. *)
Definition v4_of_v5 (p : PriceV5) : PriceV4 :=
  {| v4_Value := v5_Value p; v4_Decimals := v5_Decimals p; v4_Currency := v5_Currency p |}.

Definition currency_v4_of_v3 (c : CurrencyV3) : CurrencyV4 :=
  match c with
  | CurrencyV3_NativeToken => CurrencyV4_NativeToken
  | CurrencyV3_TokenCurrency a => CurrencyV4_TokenCurrency a
  | CurrencyV3_IsoCurrency code => CurrencyV4_IsoCurrency code
  | CurrencyV3_unset => CurrencyV4_unset
  end.

Definition v4_of_v3 (p : PriceV3) : PriceV4 :=
  {| v4_Value := v3_Value p; v4_Decimals := v3_Decimals p;
     v4_Currency := currency_v4_of_v3 <$> v3_Currency p |}.

(** ** Properties *)

(** C40: the amount the price handler returns is exactly the protocol price at the
    decimals of the currency it is settled in, with that currency's payment
    token and ISO code; it succeeds exactly when the value is a decimal
    integer string with no more decimals than the currency has. *)
Theorem GetPriceAndTokenV4_correct HexToAddress Decimals p amount token iso :
  in_uint 32 (v4_Decimals p) →
  (∀ a d, Decimals a = Ok d → in_uint 8 d) →
  GetPriceAndTokenV4 HexToAddress Decimals (Some p) = Ok (amount, token, iso) ↔
  ∃ c t n, v4_Currency p = Some c ∧ settle HexToAddress Decimals c = Some (t, token, iso) ∧
    SetString10 (v4_Value p) = Some n ∧ v4_Decimals p ≤ t ∧
    amount = n * 10 ^ (t - v4_Decimals p).
Proof.
  intros Hd HD. split.
  - intros E. destruct (GetPriceAndTokenV4_Ok_settle _ _ _ _ E) as (c & [[t tok] i] & Ec & Es).
    rewrite (GetPriceAndTokenV4_scaled _ _ _ _ _ Ec Es) in E.
    apply scaled_Ok in E as (n & En & Hle & E); [|done|by eapply settle_decimals].
    simplify_eq. eauto 10.
  - intros (c & t & n & Ec & Es & En & Hle & ->).
    rewrite (GetPriceAndTokenV4_scaled _ _ _ _ _ Ec Es).
    apply scaled_Ok; [done|by eapply settle_decimals|eauto].
Qed.

(** The three versions of the handler agree: V5 on every price, V3 on every
    price whose decimals are not negative. *)
Lemma GetPriceAndToken_versions HexToAddress Decimals :
  (∀ p, GetPriceAndTokenV5 HexToAddress Decimals p =
        GetPriceAndTokenV4 HexToAddress Decimals (v4_of_v5 <$> p)) ∧
  (∀ p, 0 ≤ v3_Decimals p ≤ MaxInt32 →
        GetPriceAndTokenV3 HexToAddress Decimals (Some p) =
        GetPriceAndTokenV4 HexToAddress Decimals (Some (v4_of_v3 p))).
Proof.
  split.
  - intros [p|]; [|done]. reflexivity.
  - intros [v d c] Hd. simpl in Hd. unfold GetPriceAndTokenV3, GetPriceAndTokenV4, v4_of_v3. simpl.
    assert (MustUInt32ToInt32 d = Ok d) as E.
    { apply MustUInt32ToInt32_spec; unfold in_uint, in_sint, MaxInt32 in *; simpl; lia. }
    destruct c as [[|[a|]|code|]|]; simpl; rewrite ?E; simpl; done.
Qed.

(** With a V3 price (whose decimals are a signed number) the difference of
    decimals can leave [int32]: the amount is then not scaled at all. *)
Lemma ToBigInt_int32_overflow value n decimals total :
  SetString10 value = Some n → in_sint 32 decimals → 0 ≤ total ≤ 255 →
  MaxInt32 < total - decimals →
  ToBigInt value decimals total = Ok n.
Proof.
  intros En Hd Ht Hov. rewrite (ToBigInt_value _ _ _ n) by (done || unfold MaxInt32 in *; lia).
  rewrite exp10_wrapped; [f_equal; lia|]. unfold in_sint in Hd. simpl in Hd. lia.
Qed.

(** ** Witnesses *)

Definition example_price : PriceV4 :=
  {| v4_Value := "-1250"; v4_Decimals := 2; v4_Currency := Some (CurrencyV4_IsoCurrency 978) |}.

Lemma GetPriceAndTokenV4_correct_witness :
  ∃ amount token iso,
    GetPriceAndTokenV4 (λ _, 7) (λ _, Ok 6) (Some example_price) = Ok (amount, token, iso).
Proof.
  exists (-12500000), ISOPaymentToken, 978.
  apply (GetPriceAndTokenV4_correct (λ _, 7) (λ _, Ok 6) example_price).
  - unfold in_uint. simpl. lia.
  - intros a d [= <-]. unfold in_uint. simpl. lia.
  - exists (CurrencyV4_IsoCurrency 978), 6, (-1250).
    repeat split; try reflexivity. unfold example_price; simpl; lia.
Defined.
