(* ===== verification/Message.v ===== *)
(** * Messages (internal/messaging/message, internal/messaging/messenger.go,
    pkg/metadata/timestamps.go)

    Message types and categories, the timestamps a message carries, and the
    encoded form the messenger transports. *)
From Stdlib Require Import Ascii.
From S2P Require Export Decimal.
From S2P Require Import Prelude.

Abbreviation bytes := (list Z).

(** ** Message types (message.go) *)

Inductive Category := Unknown | Request | Response.
#[global] Instance Category_eq_dec : EqDecision Category.
Proof. solve_decision. Defined.

(** [msgStr[:strings.LastIndex(msgStr, ".")]], [None] when there is no dot. *)
Fixpoint before_last_dot (s : string) : option string :=
  match s with
  | EmptyString => None
  | String c s' =>
      match before_last_dot s' with
      | Some p => Some (String c p)
      | None => if Ascii.eqb c "."%char then Some EmptyString else None
      end
  end.

Definition ToServiceName (m : string) : string := default EmptyString (before_last_dot m).

(** [strings.HasSuffix] *)
Definition HasSuffix (s suffix : string) : bool :=
  let n := String.length s in
  let k := String.length suffix in
  Nat.leb k n && String.eqb (String.substring (n - k) k s) suffix.

Definition Type_Category (m : string) : Category :=
  if HasSuffix m ".Request" then Request
  else if HasSuffix m ".Response" then Response
  else Unknown.

Definition ServiceNameToRequestMessageType (serviceName : string) : string :=
  serviceName +:+ ".Request".

(** ** Timestamps (timestamps.go)

    [Timestamps] is a Go map, [None] when it is nil; writing to a nil map
    panics. *)
Abbreviation Timestamps := (option (gmap string Z)).

Definition stamp_key (n : nat) (checkpoint : string) : string :=
  pretty (N.of_nat n) +:+ "-" +:+ checkpoint.

Definition Stamp (now : Z) (checkpoint : string) (t : Timestamps) : outcome Timestamps :=
  match t with
  | None => Panic "assignment to entry in nil map"
  | Some m => Ok (Some (<[stamp_key (size m) checkpoint := now]> m))
  end.

(** ** The message and its encoded form *)

(** [Content] is a protobuf message. *)
Record Message (Content : Type) := {
  msg_Type : string;
  msg_Content : Content;
  msg_RequestID : string;
  msg_Timestamps : Timestamps
}.
Arguments msg_Type {Content} _.
Arguments msg_Content {Content} _.
Arguments msg_RequestID {Content} _.
Arguments msg_Timestamps {Content} _.

Record EncodedSignedMessage := {
  ChunkedEncodedMessage : list bytes;
  Signature : bytes
}.

Record EncodedSignedMessageWithSender := {
  ews_Message : EncodedSignedMessage;
  SenderBotAddress : Z;
  ews_SenderTTMAccountAddress : Z
}.

#[global] Instance EncodedSignedMessage_eq_dec : EqDecision EncodedSignedMessage.
Proof. solve_decision. Defined.
#[global] Instance EncodedSignedMessageWithSender_eq_dec :
  EqDecision EncodedSignedMessageWithSender.
Proof. solve_decision. Defined.

(** ** Lemmas on strings *)

#[local] Arguments String.append : simpl nomatch.

Lemma before_last_dot_app_none s t :
  before_last_dot t = None → before_last_dot (s +:+ "." +:+ t) = Some s.
Proof.
  intros Ht. induction s as [|c s IH]; simpl in *.
  - by rewrite Ht.
  - by rewrite IH.
Qed.

Lemma before_last_dot_request s : before_last_dot (s +:+ ".Request") = Some s.
Proof. by apply (before_last_dot_app_none s "Request"). Qed.

Lemma before_last_dot_response s : before_last_dot (s +:+ ".Response") = Some s.
Proof. by apply (before_last_dot_app_none s "Response"). Qed.

Lemma substring_suffix s t :
  String.substring (String.length s) (String.length t) (s +:+ t) = t.
Proof.
  induction s as [|c s IH]; simpl; [|done].
  induction t as [|c t IH]; simpl; [done|by rewrite IH].
Qed.

Lemma string_length_app s t :
  String.length (s +:+ t) = (String.length s + String.length t)%nat.
Proof. induction s; simpl; auto. Qed.

Lemma HasSuffix_app s t : HasSuffix (s +:+ t) t = true.
Proof.
  unfold HasSuffix. rewrite string_length_app.
  replace (String.length s + String.length t - String.length t)%nat
    with (String.length s) by lia.
  rewrite substring_suffix, String.eqb_refl, andb_true_r. apply Nat.leb_le. lia.
Qed.

Lemma HasSuffix_inv s t : HasSuffix s t = true → ∃ p, s = p +:+ t.
Proof.
  unfold HasSuffix. intros [Hl%Nat.leb_le He%String.eqb_eq]%andb_true_iff.
  revert Hl He. remember (String.length s - String.length t)%nat as k eqn:Ek.
  intros Hl He. exists (String.substring 0 k s).
  assert (∀ k n s, (k + n = String.length s)%nat →
    s = String.substring 0 k s +:+ String.substring k n s) as Hsplit.
  { clear. induction k as [|k IH]; intros n s Hn.
    - simpl in *. subst n. destruct s as [|c s]; simpl; [done|f_equal].
      induction s; simpl; congruence.
    - destruct s as [|c s]; simpl in *; [lia|]. f_equal. apply IH. lia. }
  rewrite <- He at 1. apply Hsplit. lia.
Qed.

Lemma stamp_key_inj n c n' c' : stamp_key n c = stamp_key n' c' → n = n'.
Proof.
  unfold stamp_key. intros E.
  apply avoids_split in E; [apply (inj pretty) in E; lia|apply pretty_N_avoids; by intros []..].
Qed.

(** Every key of the map was written by one of its first [size] stamps. *)
Definition stamped (m : gmap string Z) : Prop :=
  ∀ k, k ∈ dom m → ∃ i c, (i < size m)%nat ∧ k = stamp_key i c.

Lemma stamped_empty : stamped ∅.
Proof. intros k. set_solver. Qed.

Lemma stamped_fresh m c : stamped m → m !! stamp_key (size m) c = None.
Proof.
  intros Hm. destruct (m !! stamp_key (size m) c) eqn:E; [|done]. exfalso.
  apply elem_of_dom_2, Hm in E as (i & c' & Hi & E). apply stamp_key_inj in E. lia.
Qed.

(** Stamp a list of checkpoints in order. *)
Fixpoint stamp_all (now : Z) (cs : list string) (t : Timestamps) : outcome Timestamps :=
  match cs with
  | [] => Ok t
  | c :: cs => t' ← Stamp now c t; stamp_all now cs t'
  end.

Lemma stamp_once now c m :
  stamped m →
  ∃ m', Stamp now c (Some m) = Ok (Some m') ∧ stamped m' ∧
    size m' = S (size m) ∧ m ⊆ m' ∧ m' !! stamp_key (size m) c = Some now.
Proof.
  intros Hm. pose proof (stamped_fresh m c Hm) as Hf.
  eexists. split; [reflexivity|].
  rewrite map_size_insert_None by done. repeat split.
  - intros k Hk. rewrite map_size_insert_None by done.
    apply elem_of_dom in Hk as [v Hv]. apply lookup_insert_Some in Hv as [[<- _]|[_ Hv]].
    + exists (size m), c. auto with lia.
    + apply elem_of_dom_2, Hm in Hv as (i & c' & Hi & ->). exists i, c'. auto with lia.
  - by apply insert_subseteq.
  - apply lookup_insert_eq.
Qed.

(** ** Properties *)

(** A request type is built from its service name and gives it back; the two
    suffixes that make the categories are exclusive. *)
Lemma message_type_roundtrip name :
  ToServiceName (ServiceNameToRequestMessageType name) = name ∧
  Type_Category (ServiceNameToRequestMessageType name) = Request ∧
  ToServiceName (name +:+ ".Response") = name ∧
  Type_Category (name +:+ ".Response") = Response.
Proof.
  unfold ToServiceName, ServiceNameToRequestMessageType, Type_Category. repeat split.
  - by rewrite before_last_dot_request.
  - by rewrite HasSuffix_app.
  - by rewrite before_last_dot_response.
  - rewrite HasSuffix_app. destruct (HasSuffix _ ".Request") eqn:E; [|done]. exfalso.
    apply HasSuffix_inv in E as [p E].
    assert (before_last_dot (name +:+ ".Response") = before_last_dot (p +:+ ".Request")) as Ed
      by by rewrite E.
    rewrite before_last_dot_response, before_last_dot_request in Ed.
    injection Ed as ->. induction p; simpl in E; simplify_eq; auto.
Qed.
