(* ===== verification/TtmAccounts.v ===== *)
(** * TTM accounts and ERC-20 tokens (pkg/ttm_accounts, pkg/erc20)

    The chain is a world of type [W]: the class [Chain] has the calls the program
    makes of the generated contract bindings and of the Ethereum client, each of
    which may change the world and may fail, and the clock.  On top of it are the
    operations of the two services, their caches, and the class [TtmAccounts],
    the interface the resolver and the message processor are proved against. *)
From S2P Require Import Prelude Cache.

#[local] Open Scope Z_scope.
#[local] Arguments String.append : simpl nomatch.

(** ** The chain *)

(** The transactions of the program, with the arguments of the contract method. *)
Inductive Call : Type :=
  | CallMint (reservedFor : Z) (uri : string) (expiration price paymentToken isoCurrency : Z)
      (isCancellable : bool)
  | CallBuy (tokenID price paymentToken : Z)
  | CallRecordExpiration (tokenID : Z)
  | CallInitiate (tokenID refundAmount reason reasonVersion : Z)
  | CallCounter (tokenID refundAmount reason reasonVersion : Z)
  | CallAccept (tokenID refundAmount : Z)
  | CallReject (tokenID reason reasonVersion : Z)
  | CallWithdraw (tokenID reason reasonVersion : Z)
  | CallFinalize (tokenID refundAmount : Z)
  | CallApprove (spender price : Z).

#[global] Instance Call_eq_dec : EqDecision Call.
Proof. solve_decision. Defined.

Definition ReceiptStatusSuccessful : Z := 1.

Record Receipt (L : Type) := {
  rec_Status : Z;
  rec_TxHash : Z;
  rec_BlockNumber : Z;
  rec_Logs : list L
}.
Arguments rec_Status {L} _.
Arguments rec_TxHash {L} _.
Arguments rec_BlockNumber {L} _.
Arguments rec_Logs {L} _.

(** [B] is a contract binding, [Opts] the signing options of a transaction, [L] an
    event log. *)
Class Chain (W B Opts PrivateKey Tx L : Type) := {
  clock : W → Z;
  attempts : W → list (Z * Call);              (* transactions tried, oldest first *)
  answers : W → list (Z * Z * bool * Z);       (* account, bot, allowed, and when *)
  NewBinding : Z → outcome B;
  bound : B → Z;
  NewKeyedTransactorWithChainID : PrivateKey → Z → outcome Opts;
  GetRoleMembers : B → Z → M W (list Z);
  acc_IsBotAllowed : B → Z → M W bool;
  acc_IsServiceSupported : B → Z → M W bool;
  acc_GetManagerAddress : B → M W Z;
  mgr_GetAccountImplementation : B → M W Z;
  StorageAt : Z → Z → M W (list Z);
  Transact : Opts → B → Call → M W Tx;
  WaitMined : Tx → M W (Receipt L);
  erc20_Decimals : B → M W Z;
  erc20_Allowance : B → Z → Z → M W Z;
  ErrorData : error → option string;           (* errors.As to rpc.DataError *)
  hexutil_Decode : string → outcome (list Z);
  Keccak256Hash : string → Z;

  bound_new a b : NewBinding a = Ok b → bound b = a;
  transact_attempts o b c w :
    attempts (Transact o b c w).1 = attempts w ++ [(bound b, c)];
  wait_attempts t w : attempts (WaitMined t w).1 = attempts w;
  allowed_answers b a w : answers (acc_IsBotAllowed b a w).1 =
    match (acc_IsBotAllowed b a w).2 with
    | Ok v => answers w ++ [(bound b, a, v, clock (acc_IsBotAllowed b a w).1)]
    | _ => answers w
    end
}.

(** An error of a contract's ABI (its selector, name and argument decoder). *)
Record AbiError := {
  err_ID : list Z;
  err_Name : string;
  err_Unpack : list Z → outcome string
}.

Section Service.
Context `{Chain W B Opts PrivateKey Tx L} {C : Type} `{!LruCache Z B C}.
Variable chainID : Z.
Variable botAuthCacheTimeout : Z.
Variable revertABIs : list (list AbiError).

Record service := {
  world : W;
  cache : C;
  botAuthCache : gmap (Z * Z) (bool * Z);
  serviceHashCache : gmap string Z
}.

Definition set_world (w : W) (s : service) : service :=
  {| world := w; cache := cache s; botAuthCache := botAuthCache s;
     serviceHashCache := serviceHashCache s |}.
Definition set_cache (c : C) (s : service) : service :=
  {| world := world s; cache := c; botAuthCache := botAuthCache s;
     serviceHashCache := serviceHashCache s |}.
Definition set_botAuthCache (c : gmap (Z * Z) (bool * Z)) (s : service) : service :=
  {| world := world s; cache := cache s; botAuthCache := c;
     serviceHashCache := serviceHashCache s |}.
Definition set_serviceHashCache (c : gmap string Z) (s : service) : service :=
  {| world := world s; cache := cache s; botAuthCache := botAuthCache s;
     serviceHashCache := c |}.

(** A call to the outside. *)
Definition chain {A} (m : M W A) : M service A := λ s,
  let '(w, o) := m (world s) in (set_world w s, o).
Definition Now : M service Z := λ s, (s, Ok (clock (world s))).

(** *** Errors of a reverted call *)
Definition decodeRevert (e : error) : option string :=
  match ErrorData e with
  | None => None
  | Some hexData =>
      match hexutil_Decode hexData with
      | Ok data =>
          if Nat.ltb (length data) 4 then None
          else
            match filter (λ ae, take 4 (err_ID ae) = take 4 data) (concat revertABIs) with
            | [] => None
            | ae :: _ =>
                match err_Unpack ae data with
                | Ok args => Some (err_Name ae +:+ args)
                | _ => Some (err_Name ae)
                end
            end
      | _ => None
      end
  end.

Definition wrapTxErr (action : string) (e : error) : error :=
  match decodeRevert e with
  | Some decoded => Wrapf (action +:+ ": " +:+ decoded +:+ ": %w") e
  | None => Wrapf (action +:+ ": %w") e
  end.

Definition wrapTx {A} (action : string) (m : M service A) : M service A := λ s,
  match m s with
  | (s', Err e) => (s', Err (wrapTxErr action e))
  | r => r
  end.

(** *** Contract bindings *)
Definition TTMAccount (ttmAccountAddr : Z) : M service B := λ s,
  let '(c, hit) := lru_get ttmAccountAddr (cache s) in
  let s := set_cache c s in
  match hit with
  | Some ttmAccount => (s, Ok ttmAccount)
  | None =>
      match wrapO "failed to create ttm account contract binding: %w" (NewBinding ttmAccountAddr) with
      | Ok ttmAccount => (set_cache (lru_add ttmAccountAddr ttmAccount (cache s)) s, Ok ttmAccount)
      | Err e => (s, Err e)
      | Panic p => (s, Panic p)
      end
  end.

(** *** Reads *)
Definition messengerBotRole : Z := Keccak256Hash "MESSENGER_BOT_ROLE".

Definition GetAllMessengerBots (ttmAccountAddress : Z) : M service (list Z) :=
  ttmAccount ← TTMAccount ttmAccountAddress;
  chain (GetRoleMembers ttmAccount messengerBotRole).

(** [IsBotAllowed] past its cache: ask the contract and remember the answer. *)
Definition refreshBotAllowed (ttmAccountAddress botAddress : Z) : M service bool :=
  ttmAccount ← TTMAccount ttmAccountAddress;
  allowed ← wrapS "failed to check if bot is allowed: %w"
    (chain (acc_IsBotAllowed ttmAccount botAddress));
  (if 0 <? botAuthCacheTimeout then
     now ← Now;
     modifyS (λ s, set_botAuthCache
       (<[(ttmAccountAddress, botAddress) := (allowed, now + botAuthCacheTimeout)]>
          (botAuthCache s)) s)
   else retS tt) ;;
  retS allowed.

Definition IsBotAllowed (ttmAccountAddress botAddress : Z) : M service bool :=
  s ← getS;
  now ← Now;
  match botAuthCache s !! (ttmAccountAddress, botAddress) with
  | Some (allowed, expiresAt) =>
      if now <? expiresAt then retS allowed
      else refreshBotAllowed ttmAccountAddress botAddress
  | None => refreshBotAllowed ttmAccountAddress botAddress
  end.

Definition serviceHash (name : string) : M service Z := λ s,
  match serviceHashCache s !! name with
  | Some hash => (s, Ok hash)
  | None =>
      let hash := Keccak256Hash name in
      (set_serviceHashCache (<[name := hash]> (serviceHashCache s)) s, Ok hash)
  end.

Definition IsServiceSupported (ttmAccountAddress : Z) (serviceFullName : string) : M service bool :=
  ttmAccount ← TTMAccount ttmAccountAddress;
  hash ← serviceHash serviceFullName;
  chain (acc_IsServiceSupported ttmAccount hash).

(** *** Transactions *)

(** The tail of every transaction: the receipt of a mined one must be a success. *)
Definition successful (failed : string) (receipt : Receipt L) : M service (Receipt L) :=
  if rec_Status receipt =? ReceiptStatusSuccessful then retS receipt
  else throwS (Errorf failed).

Definition MintBookingToken (transactOpts : Opts) (ttmAccountAddress reservedFor : Z)
    (uri : string) (expirationTimestamp price paymentToken offChainPaymentCurrency : Z)
    (isCancellable : bool) : M service (Receipt L) :=
  ttmAccount ← TTMAccount ttmAccountAddress;
  tx ← wrapTx "failed to mint booking token" (chain (Transact transactOpts ttmAccount
    (CallMint reservedFor uri expirationTimestamp price paymentToken offChainPaymentCurrency
       isCancellable)));
  receipt ← wrapS "failed to wait for MintBookingToken transaction to be mined: %w"
    (chain (WaitMined tx));
  successful "MintBookingToken transaction failed: %v" receipt.

Definition BuyBookingToken (transactOpts : Opts) (ttmAccountAddress tokenID price paymentToken : Z)
    : M service (Receipt L) :=
  ttmAccount ← TTMAccount ttmAccountAddress;
  tx ← wrapTx "failed to buy booking token"
    (chain (Transact transactOpts ttmAccount (CallBuy tokenID price paymentToken)));
  receipt ← wrapS "failed to wait for BuyBookingToken transaction to be mined: %w"
    (chain (WaitMined tx));
  successful "BuyBookingToken transaction failed: %v" receipt.

Definition RecordExpiration (transactOpts : Opts) (ttmAccountAddress tokenID : Z)
    : M service (Receipt L) :=
  ttmAccount ← TTMAccount ttmAccountAddress;
  tx ← wrapTx "failed to record expiration"
    (chain (Transact transactOpts ttmAccount (CallRecordExpiration tokenID)));
  receipt ← wrapS "failed to wait for RecordExpiration transaction to be mined: %w"
    (chain (WaitMined tx));
  successful "transaction failed: %v" receipt.

(** The six operations of pkg/ttm_accounts/cancellation.go differ in the contract
    method and the name of the action. *)
Definition cancellationTx (action : string) (call : Call) (botKey : PrivateKey)
    (ttmAccountAddress : Z) : M service (Receipt L) :=
  ttmAccount ← wrapS "failed to get ttmAccount contract instance: %w" (TTMAccount ttmAccountAddress);
  transactor ← wrapS "failed to create transactor: %w"
    (liftO (NewKeyedTransactorWithChainID botKey chainID));
  tx ← wrapTx action (chain (Transact transactor ttmAccount call));
  receipt ← chain (WaitMined tx);
  successful "transaction failed: %v" receipt.

Definition InitiateCancellationProposal (botKey : PrivateKey) (ttmAccountAddress tokenID
    refundAmount reason reasonVersion : Z) : M service (Receipt L) :=
  cancellationTx "failed to initiate cancellation"
    (CallInitiate tokenID refundAmount reason reasonVersion) botKey ttmAccountAddress.

Definition CounterCancellation (botKey : PrivateKey) (ttmAccountAddress tokenID
    refundAmount reason reasonVersion : Z) : M service (Receipt L) :=
  cancellationTx "failed to counter cancellation proposal"
    (CallCounter tokenID refundAmount reason reasonVersion) botKey ttmAccountAddress.

Definition AcceptCancellationProposal (botKey : PrivateKey) (ttmAccountAddress tokenID
    refundAmount : Z) : M service (Receipt L) :=
  cancellationTx "failed to accept cancellation" (CallAccept tokenID refundAmount)
    botKey ttmAccountAddress.

Definition RejectCancellationProposal (botKey : PrivateKey) (ttmAccountAddress tokenID
    reason reasonVersion : Z) : M service (Receipt L) :=
  cancellationTx "failed to reject cancellation" (CallReject tokenID reason reasonVersion)
    botKey ttmAccountAddress.

Definition WithdrawCancellation (botKey : PrivateKey) (ttmAccountAddress tokenID
    reason reasonVersion : Z) : M service (Receipt L) :=
  cancellationTx "failed to withdraw cancellation" (CallWithdraw tokenID reason reasonVersion)
    botKey ttmAccountAddress.

Definition FinalizeCancellation (botKey : PrivateKey) (ttmAccountAddress tokenID
    refundAmount : Z) : M service (Receipt L) :=
  cancellationTx "failed to finalize cancellation" (CallFinalize tokenID refundAmount)
    botKey ttmAccountAddress.

(** *** The implementation check at start-up *)
Definition getLatestTTMAccountImplementation (ttmAccountAddress : Z) : M service Z :=
  ttmAccount ← TTMAccount ttmAccountAddress;
  managerAddress ← wrapS "failed to fetch TTM account manager address: %w"
    (chain (acc_GetManagerAddress ttmAccount));
  manager ← wrapS "failed to create TTM account manager contract binding: %w"
    (liftO (NewBinding managerAddress));
  wrapS "failed to get account implementation: %w" (chain (mgr_GetAccountImplementation manager)).

(** [common.BytesToAddress]: the last 20 bytes, as a big-endian number. *)
Definition be_value (b : list Z) : Z := foldl (λ acc x, acc * 256 + x) 0 b.
Definition BytesToAddress (b : list Z) : Z := be_value (drop (length b - 20) b).

Definition slotValueToAddress (slotValue : list Z) : outcome Z :=
  if Nat.ltb (length slotValue) 32
  then Err (Errorf "slot value storage read returned unexpected size: %d")
  else Ok (BytesToAddress (drop 12 slotValue)).

Definition implementationSlot : Z :=
  0x360894a13ba1a3210667c828492db98dca3e2076cc3735a920a3ca505d382bbc.

Definition getCurrentImplementationOnProxy (ttmAccountAddress : Z) : M service Z :=
  implAddressSlotValue ← wrapS "failed to get implementation address from proxy: %w"
    (chain (StorageAt ttmAccountAddress implementationSlot));
  liftO (slotValueToAddress implAddressSlotValue).

Definition IsTTMAccountImplementationUpToDate (ttmAccountAddress : Z) : M service bool :=
  currentImplOnManager ←
    wrapS "failed to get latest ttm account implementation from ttm account manager: %w"
      (getLatestTTMAccountImplementation ttmAccountAddress);
  currentImplOnProxy ←
    wrapS "failed to get current ttm account implementation implementation: %w"
      (getCurrentImplementationOnProxy ttmAccountAddress);
  retS (currentImplOnManager =? currentImplOnProxy).
End Service.

#[global] Arguments service : clear implicits.

(** ** The interface of the other components *)
Class TtmAccounts (S : Type) := {
  api_GetAllMessengerBots : Z → M S (list Z);
  api_IsBotAllowed : Z → Z → M S bool;
  api_IsServiceSupported : Z → string → M S bool
}.

#[export] Instance service_api `{Chain W B Opts PrivateKey Tx L} {C : Type} `{!LruCache Z B C}
    (botAuthCacheTimeout : Z) : TtmAccounts (service W C) := {
  api_GetAllMessengerBots := GetAllMessengerBots;
  api_IsBotAllowed := IsBotAllowed botAuthCacheTimeout;
  api_IsServiceSupported := IsServiceSupported
}.

(** ** ERC-20 tokens (pkg/erc20/erc20.go) *)
Module Erc20.
Section Erc20.
Context `{Chain W B Opts PrivateKey Tx L} {C : Type} `{!LruCache Z B C}.

Record erc20Service := { world : W; erc20Cache : C }.

Definition chain {A} (m : M W A) : M erc20Service A := λ s,
  let '(w, o) := m (world s) in ({| world := w; erc20Cache := erc20Cache s |}, o).

Definition erc20 (contractAddress : Z) : M erc20Service B := λ s,
  let '(c, found) := lru_get contractAddress (erc20Cache s) in
  match found with
  | Some tokenContract => ({| world := world s; erc20Cache := c |}, Ok tokenContract)
  | None =>
      match NewBinding contractAddress with
      | Ok tokenContract =>
          ({| world := world s; erc20Cache := lru_add contractAddress tokenContract c |},
           Ok tokenContract)
      | Err e =>
          ({| world := world s; erc20Cache := c |},
           Err (Wrapf "failed to instantiate ERC20 contract: %w" e))
      | Panic p => ({| world := world s; erc20Cache := c |}, Panic p)
      end
  end.

Definition Decimals (contractAddress : Z) : M erc20Service Z :=
  tokenContract ← erc20 contractAddress;
  decimals ← wrapS "failed to fetch token decimals: %w" (chain (erc20_Decimals tokenContract));
  retS (swrap 32 decimals).

Definition Allowance (contractAddress owner spender : Z) : M erc20Service Z :=
  tokenContract ← erc20 contractAddress;
  wrapS "failed to fetch allowance: %w" (chain (erc20_Allowance tokenContract owner spender)).

Definition Approve (transactOpts : Opts) (contractAddress spender price : Z)
    : M erc20Service unit :=
  tokenContract ← erc20 contractAddress;
  approveTx ← wrapS "failed to approve token spending: %w"
    (chain (Transact transactOpts tokenContract (CallApprove spender price)));
  receipt ← wrapS "failed to wait for approval transaction to be mined: %w"
    (chain (WaitMined approveTx));
  if rec_Status receipt =? ReceiptStatusSuccessful then retS tt
  else throwS (Errorf "approval transaction failed: %v").
End Erc20.
End Erc20.

(** ** Lemmas *)
Section Facts.
Context `{Chain W B Opts PrivateKey Tx L} {C : Type} `{!LruCache Z B C}.

(** The cache holds for an address only the binding of that address. *)
Definition cache_ok (s : service W C) : Prop := cache_all (λ a b, bound b = a) (cache s).

Lemma TTMAccount_spec a s :
  cache_ok s →
  cache_ok (TTMAccount a s).1 ∧ world (TTMAccount a s).1 = world s ∧
  botAuthCache (TTMAccount a s).1 = botAuthCache s ∧
  serviceHashCache (TTMAccount a s).1 = serviceHashCache s ∧
  ∀ b, (TTMAccount a s).2 = Ok b → bound b = a.
Proof.
  intros Hs. unfold TTMAccount. destruct (lru_get a (cache s)) as [c o] eqn:Eg.
  pose proof (cache_all_miss _ _ _ _ _ Hs Eg) as Hc. destruct o as [b|]; cbn.
  - destruct (cache_all_hit _ _ _ _ _ Hs Eg) as [Hb _]. repeat split; auto. congruence.
  - destruct (NewBinding a) as [b|e|p] eqn:Eb; cbn; repeat split; auto; try done.
    + apply bound_new in Eb. by apply cache_all_add.
    + intros b' [= <-]. by apply bound_new.
Qed.

(** [m] tries at most the transaction [call] on the account [acct], and has tried
    it when it succeeds, with a receipt of success. *)
Definition sends (acct : Z) (call : Call) (m : M (service W C) (Receipt L)) : Prop :=
  ∀ s, cache_ok s →
    cache_ok (m s).1 ∧
    (attempts (world (m s).1) = attempts (world s) ∧ is_ok (m s).2 = false ∨
     attempts (world (m s).1) = attempts (world s) ++ [(acct, call)] ∧
     ∀ r, (m s).2 = Ok r → rec_Status r = ReceiptStatusSuccessful).

(** The part of a transaction behind its binding. *)
Definition submit (wrap_tx : M (service W C) Tx → M (service W C) Tx)
    (wrap_wait : M (service W C) (Receipt L) → M (service W C) (Receipt L))
    failed (transactor : outcome Opts) call ttmAccount :=
  opts ← liftO transactor;
  tx ← wrap_tx (chain (Transact opts ttmAccount call));
  receipt ← wrap_wait (chain (WaitMined tx));
  successful failed receipt.

(** Changes the returned error at most. *)
Definition transparent {A} (f : M (service W C) A → M (service W C) A) : Prop :=
  ∀ m s, (f m s).1 = (m s).1 ∧
    match (m s).2 with Ok a => (f m s).2 = Ok a | _ => is_ok (f m s).2 = false end.

Lemma transparent_wrapS {A} fmt : transparent (A := A) (wrapS fmt).
Proof. intros m s. unfold wrapS. by destruct (m s) as [s' [a|e|p]]. Qed.

Lemma transparent_wrapTx {A} abis action : transparent (A := A) (wrapTx abis action).
Proof. intros m s. unfold wrapTx. by destruct (m s) as [s' [a|e|p]]. Qed.

Lemma transparent_id {A} : transparent (A := A) id.
Proof. intros m s. unfold id. by destruct (m s) as [s' [a|e|p]]. Qed.

(** What a transaction on the binding [b] does, from [s] to [r]. *)
Definition sent_from (acct : Z) (call : Call) (s : service W C)
    (r : service W C * outcome (Receipt L)) : Prop :=
  attempts (world r.1) = attempts (world s) ∧ is_ok r.2 = false ∨
  attempts (world r.1) = attempts (world s) ++ [(acct, call)] ∧
  ∀ rec, r.2 = Ok rec → rec_Status rec = ReceiptStatusSuccessful.

Lemma submit_spec wrap_tx wrap_wait failed transactor call b s :
  transparent wrap_tx → transparent wrap_wait →
  cache (submit wrap_tx wrap_wait failed transactor call b s).1 = cache s ∧
  sent_from (bound b) call s (submit wrap_tx wrap_wait failed transactor call b s).
Proof.
  intros Ht Hw. unfold submit, mbind, M_bind, liftO, sent_from.
  destruct transactor as [opts|e|p]; cbn; [|auto..].
  destruct (Ht (chain (Transact opts b call)) s) as [E1 E2].
  destruct (wrap_tx _ s) as [s1 o1]. simpl in E1, E2. subst s1. unfold chain in *.
  pose proof (transact_attempts opts b call (world s)) as Ha.
  destruct (Transact opts b call (world s)) as [w o]. simpl in *.
  destruct o as [tx|e|p]; [subst o1|destruct o1; simpl in *; [done|..]; split; auto; right; done..].
  destruct (Hw (chain (WaitMined tx)) (set_world w s)) as [E1 E2]. unfold chain in *.
  destruct (wrap_wait _ _) as [s2 o2]. simpl in E1, E2. subst s2.
  pose proof (wait_attempts tx w) as Hwait.
  destruct (WaitMined tx w) as [w' o']. simpl in *.
  destruct o' as [r|e|p]; [subst o2|destruct o2; simpl in *; [done|..];
    rewrite Hwait; split; auto; right; done..].
  unfold successful. destruct (Z.eqb_spec (rec_Status r) ReceiptStatusSuccessful); simpl;
    rewrite Hwait; (split; [done|right; split; [done|]]); [|done]. by intros r' [= <-].
Qed.

Lemma sends_submit a call wrap_acct wrap_tx wrap_wait failed transactor :
  transparent wrap_acct → transparent wrap_tx → transparent wrap_wait →
  sends a call (b ← wrap_acct (TTMAccount a); submit wrap_tx wrap_wait failed transactor call b).
Proof.
  intros Hwa Ht Hw s Hs. destruct (TTMAccount_spec a s Hs) as (Hc & Hworld & _ & _ & Hb).
  destruct (Hwa (TTMAccount a) s) as [E1 E2].
  unfold mbind at 1 2 3 4 5, M_bind. destruct (wrap_acct (TTMAccount a) s) as [s1 o1].
  simpl in *. subst s1.
  destruct (TTMAccount a s) as [s1 [b|e|p]]; cbn in *.
  - subst o1.
    destruct (submit_spec wrap_tx wrap_wait failed transactor call b s1 Ht Hw) as (E1 & E2).
    unfold cache_ok, sent_from in *. rewrite E1. rewrite Hworld, (Hb b eq_refl) in E2. auto.
  - destruct o1; [done|..]; simpl; rewrite Hworld; auto.
  - destruct o1; [done|..]; simpl; rewrite Hworld; auto.
Qed.

Lemma sends_cancellation chainID abis action call key a :
  sends a call (cancellationTx chainID abis action call key a).
Proof.
  apply (sends_submit a call (wrapS "failed to get ttmAccount contract instance: %w")
    (wrapTx abis action) id "transaction failed: %v"
    (wrapO "failed to create transactor: %w" (NewKeyedTransactorWithChainID key chainID)));
    auto using transparent_wrapS, transparent_wrapTx, transparent_id.
Qed.

Lemma sends_mint abis opts acct reservedFor uri expiration price token iso cancellable :
  sends acct (CallMint reservedFor uri expiration price token iso cancellable)
    (MintBookingToken abis opts acct reservedFor uri expiration price token iso cancellable).
Proof.
  apply (sends_submit acct _ id (wrapTx abis "failed to mint booking token")
    (wrapS _) _ (Ok opts)); auto using transparent_wrapS, transparent_wrapTx, transparent_id.
Qed.

Lemma sends_buy abis opts acct tokenID price token :
  sends acct (CallBuy tokenID price token) (BuyBookingToken abis opts acct tokenID price token).
Proof.
  apply (sends_submit acct _ id (wrapTx abis "failed to buy booking token")
    (wrapS _) _ (Ok opts)); auto using transparent_wrapS, transparent_wrapTx, transparent_id.
Qed.

Lemma sends_expiration abis opts acct tokenID :
  sends acct (CallRecordExpiration tokenID) (RecordExpiration abis opts acct tokenID).
Proof.
  apply (sends_submit acct _ id (wrapTx abis "failed to record expiration")
    (wrapS _) _ (Ok opts)); auto using transparent_wrapS, transparent_wrapTx, transparent_id.
Qed.

(** An entry of the authorization cache that still counts at [e] was an answer of
    the contract at [e] less the timeout. *)
Definition auth_inv (timeout : Z) (s : service W C) : Prop :=
  ∀ a b v e, botAuthCache s !! (a, b) = Some (v, e) → (a, b, v, e - timeout) ∈ answers (world s).

Lemma refreshBotAllowed_spec timeout acct bot s s' o :
  cache_ok s → auth_inv timeout s →
  refreshBotAllowed timeout acct bot s = (s', o) →
  auth_inv timeout s' ∧
  ∀ v, o = Ok v → ∃ t, (acct, bot, v, t) ∈ answers (world s') ∧
    (clock (world s') = t ∨ clock (world s') < t + timeout).
Proof.
  intros Hc Hi. unfold refreshBotAllowed, mbind at 1, M_bind.
  destruct (TTMAccount_spec acct s Hc) as (_ & Hw & Hauth & _ & Hb).
  destruct (TTMAccount acct s) as [s1 [b|e|p]]; simpl in *;
    [|intros [= <- <-]; split; [unfold auth_inv; by rewrite Hw, Hauth|done]..].
  specialize (Hb b eq_refl). unfold mbind at 1, M_bind, wrapS, chain.
  rewrite Hw. pose proof (allowed_answers b bot (world s)) as Ha.
  destruct (acc_IsBotAllowed b bot (world s)) as [w [v|e|p]]; simpl in *;
    [|intros [= <- <-]; split; [|done]; unfold auth_inv; simpl; by rewrite Hauth, Ha..].
  rewrite Hb in Ha.
  assert ((acct, bot, v, clock w) ∈ answers w) as Hin
    by (rewrite Ha; apply elem_of_app; right; by apply list_elem_of_singleton).
  unfold mbind, M_bind. destruct (Z.ltb_spec 0 timeout); simpl; intros [= <- <-]; simpl.
  - split.
    + intros a' b' v' e'. simpl. destruct (decide ((acct, bot) = (a', b'))) as [[= <- <-]|Hne].
      * rewrite lookup_insert_eq. intros [= <- <-]. by replace (_ + _ - _) with (clock w) by lia.
      * rewrite lookup_insert_ne by done. rewrite Hauth. intros Hl%Hi.
        rewrite Ha. apply elem_of_app. auto.
    + intros v' [= <-]. exists (clock w). auto.
  - split.
    + intros a' b' v' e'. simpl. rewrite Hauth. intros Hl%Hi. rewrite Ha. apply elem_of_app. auto.
    + intros v' [= <-]. exists (clock w). auto.
Qed.

(** The memoized hashes are the hashes. *)
Definition hash_inv (s : service W C) : Prop :=
  map_Forall (λ name h, h = Keccak256Hash name) (serviceHashCache s).

Lemma serviceHash_spec name (s : service W C) :
  hash_inv s →
  hash_inv (serviceHash name s).1 ∧ world (serviceHash name s).1 = world s ∧
  (serviceHash name s).2 = Ok (Keccak256Hash name).
Proof.
  intros Hi. unfold serviceHash. destruct (serviceHashCache s !! name) as [h|] eqn:El; simpl.
  - by rewrite <- (Hi name h El).
  - split; [|done]. by apply map_Forall_insert_2.
Qed.
End Facts.

(** ** A chain that runs: every transaction is mined, bots are allowed by a table *)
Module Toy.
Record world := {
  now : Z;
  sent : list (Z * Call);
  asked : list (Z * Z * bool * Z);
  allowed : list (Z * Z)
}.

Definition ask (acct bot : Z) : M world bool := λ w,
  let v := bool_decide ((acct, bot) ∈ allowed w) in
  ({| now := now w + 1; sent := sent w; asked := asked w ++ [(acct, bot, v, now w + 1)];
      allowed := allowed w |}, Ok v).

Definition transact (opts acct : Z) (c : Call) : M world Z := λ w,
  ({| now := now w; sent := sent w ++ [(acct, c)]; asked := asked w; allowed := allowed w |},
   Ok (Z.of_nat (length (sent w)))).

#[global] Instance chain : Chain world Z Z Z Z Z.
Proof.
  refine {| clock := now; attempts := sent; answers := asked; NewBinding := Ok; bound := id;
    NewKeyedTransactorWithChainID k _ := Ok k;
    GetRoleMembers a _ := λ w, (w, Ok (snd <$> filter (λ p, p.1 = a) (allowed w)));
    acc_IsBotAllowed := ask;
    acc_IsServiceSupported _ h := λ w, (w, Ok (h =? 1));
    acc_GetManagerAddress _ := λ w, (w, Ok 77);
    mgr_GetAccountImplementation _ := λ w, (w, Ok 5);
    StorageAt _ _ := λ w, (w, Ok (replicate 31 0 ++ [5]));
    Transact := transact;
    WaitMined tx := λ w, (w, Ok {| rec_Status := 1; rec_TxHash := tx; rec_BlockNumber := 1; rec_Logs := [7; tx] |});
    erc20_Decimals _ := λ w, (w, Ok 18);
    erc20_Allowance _ _ _ := λ w, (w, Ok 0);
    ErrorData _ := None; hexutil_Decode _ := Err (Errorf "bad hex"); Keccak256Hash s := Z.of_nat (String.length s) |}.
  - by intros a b [= ->].
  - done.
  - done.
  - done.
Defined.

Definition cache := list_lru (K := Z) (V := Z) 9.
Definition service := TtmAccounts.service world (list (Z * Z)).
Definition start (t : Z) (a : list (Z * Z)) : service :=
  {| TtmAccounts.world := {| now := t; sent := []; asked := []; allowed := a |};
     TtmAccounts.cache := []; botAuthCache := ∅; serviceHashCache := ∅ |}.
End Toy.

(** ** Properties *)
Section Properties.
Context `{Chain W B Opts PrivateKey Tx L} {C : Type} `{!LruCache Z B C}.

(** Every transaction of the service is tried at most once, on the account it is
    meant for and with the arguments given; success means it was tried and that
    its receipt has the status of success.  A binding that cannot be made is an
    error, with nothing sent. *)
Lemma transactions_sent chainID abis opts key acct reservedFor uri expiration price token iso
    cancellable tokenID refund reason version :
  sends acct (CallMint reservedFor uri expiration price token iso cancellable)
    (MintBookingToken abis opts acct reservedFor uri expiration price token iso cancellable) ∧
  sends acct (CallBuy tokenID price token) (BuyBookingToken abis opts acct tokenID price token) ∧
  sends acct (CallRecordExpiration tokenID) (RecordExpiration abis opts acct tokenID) ∧
  sends acct (CallInitiate tokenID refund reason version)
    (InitiateCancellationProposal chainID abis key acct tokenID refund reason version) ∧
  sends acct (CallCounter tokenID refund reason version)
    (CounterCancellation chainID abis key acct tokenID refund reason version) ∧
  sends acct (CallAccept tokenID refund)
    (AcceptCancellationProposal chainID abis key acct tokenID refund) ∧
  sends acct (CallReject tokenID reason version)
    (RejectCancellationProposal chainID abis key acct tokenID reason version) ∧
  sends acct (CallWithdraw tokenID reason version)
    (WithdrawCancellation chainID abis key acct tokenID reason version) ∧
  sends acct (CallFinalize tokenID refund)
    (FinalizeCancellation chainID abis key acct tokenID refund).
Proof.
  split_and!.
  - apply sends_mint.
  - apply sends_buy.
  - apply sends_expiration.
  - apply sends_cancellation.
  - apply sends_cancellation.
  - apply sends_cancellation.
  - apply sends_cancellation.
  - apply sends_cancellation.
  - apply sends_cancellation.
Qed.

(** C19: an answer of [IsBotAllowed] is one the contract of that account gave about
    that bot, either during the call or less than the cache timeout ago: a bot
    whose rights are withdrawn is refused after the timeout at the latest. *)
Theorem IsBotAllowed_fresh timeout acct bot (s s' : service W C) o :
  cache_ok s → auth_inv timeout s →
  IsBotAllowed timeout acct bot s = (s', o) →
  auth_inv timeout s' ∧
  ∀ v, o = Ok v → ∃ t, (acct, bot, v, t) ∈ answers (world s') ∧
    (clock (world s') = t ∨ clock (world s') < t + timeout).
Proof.
  intros Hc Hi. unfold IsBotAllowed, getS, Now, mbind, M_bind.
  destruct (botAuthCache s !! (acct, bot)) as [[v e]|] eqn:El;
    [|intros E; by apply (refreshBotAllowed_spec _ _ _ _ _ _ Hc Hi) in E].
  destruct (Z.ltb_spec (clock (world s)) e) as [Hlt|Hge]; intros E.
  - injection E as <- <-. split; [done|]. intros v' [= <-].
    exists (e - timeout). split; [by apply Hi|lia].
  - by apply (refreshBotAllowed_spec _ _ _ _ _ _ Hc Hi) in E.
Qed.

(** Asking whether a service is supported is asking the contract about the
    keccak hash of the service's name, whether or not the hash was memoized. *)
Lemma IsServiceSupported_hash acct name (s : service W C) :
  cache_ok s → hash_inv s →
  hash_inv (IsServiceSupported acct name s).1 ∧
  match (TTMAccount acct s).2 with
  | Ok b =>
      bound b = acct ∧
      world (IsServiceSupported acct name s).1 =
        (acc_IsServiceSupported b (Keccak256Hash name) (world s)).1 ∧
      (IsServiceSupported acct name s).2 =
        (acc_IsServiceSupported b (Keccak256Hash name) (world s)).2
  | _ =>
      world (IsServiceSupported acct name s).1 = world s ∧
      is_ok (IsServiceSupported acct name s).2 = false
  end.
Proof.
  intros Hc Hi. destruct (TTMAccount_spec acct s Hc) as (_ & Hw & _ & Hh & Hb).
  unfold IsServiceSupported, mbind, M_bind.
  destruct (TTMAccount acct s) as [s1 [b|e|p]]; simpl in *;
    [|unfold hash_inv; rewrite Hh; done..].
  assert (hash_inv s1) as Hi1 by (unfold hash_inv; by rewrite Hh).
  destruct (serviceHash_spec name s1 Hi1) as (Hi2 & Hw2 & Eh).
  destruct (serviceHash name s1) as [s2 o2]. simpl in *. subst o2.
  unfold chain. rewrite Hw2, Hw. destruct (acc_IsServiceSupported _ _ _) as [w o]. simpl. auto.
Qed.
End Properties.

#[local] Existing Instance Toy.cache.

Lemma start_cache_ok t a : cache_ok (Toy.start t a).
Proof. unfold cache_ok, cache_all. simpl. apply map_Forall_empty. Qed.

Lemma start_auth_inv timeout t l : auth_inv timeout (Toy.start t l).
Proof. intros a b v e. simpl. by rewrite lookup_empty. Qed.

Lemma start_hash_inv t l : hash_inv (Toy.start t l).
Proof. unfold hash_inv. simpl. apply map_Forall_empty. Qed.

Lemma transactions_sent_witness :
  sends 4 (CallBuy 9 100 0) (BuyBookingToken (C := list (Z * Z)) [] 1 4 9 100 0) ∧
  ∃ r, (BuyBookingToken [] 1 4 9 100 0 (Toy.start 0 [])).2 = Ok r.
Proof.
  split; [|eexists; vm_compute; reflexivity].
  apply (transactions_sent 1 [] 1 1 4 0 "" 0 100 0 0 false 9 0 0 0).
Defined.

Lemma IsBotAllowed_fresh_witness :
  ∃ t, (3, 8, true, t) ∈ answers (world (IsBotAllowed 60 3 8 (Toy.start 5 [(3, 8)])).1).
Proof.
  destruct (IsBotAllowed 60 3 8 (Toy.start 5 [(3, 8)])) as [s' o] eqn:E.
  destruct (IsBotAllowed_fresh 60 3 8 (Toy.start 5 [(3, 8)]) s' o
    (start_cache_ok _ _) (start_auth_inv _ _ _) E) as [_ Hv].
  revert E. vm_compute (IsBotAllowed _ _ _ _). intros [= <- <-].
  destruct (Hv true eq_refl) as (t & Hin & _). exists t. exact Hin.
Defined.
