(* ===== verification/Booking.v ===== *)
(** * Booking tokens (pkg/booking/booking.go)

    Minting, buying and expiring booking tokens through the TTM account of the
    bot, and reading them from the BookingToken contract.  The contract's read
    methods, its log parsers and the wait between two polls are the class
    [BookingToken]; the transactions are those of [TtmAccounts]. *)
From S2P Require Import Prelude Cache TtmAccounts.
From Stdlib Require Import Ascii.
From Stdlib Require String.

#[local] Open Scope Z_scope.

Definition errEmptyURI : error := Sentinel "booking.errEmptyURI".
Definition errNegativeTokenID : error :=
  Errorf "tokenID must be a positive integer (>= 0)".
Definition ErrReservationPriceMismatch : error :=
  Errorf "reserved token %s has price %s (paymentToken %s) but expected %s (paymentToken %s)".
Definition ErrTokenNotVisible : error :=
  Errorf "token %s (price %s, paymentToken %s) not visible on local RPC node after %d attempts".

Definition zeroAddr : Z := 0.

(** The booking statuses of the contract. *)
Definition StatusUnspecified : Z := 0.
Definition StatusReserved : Z := 1.
Definition StatusReservationExpired : Z := 2.
Definition StatusBought : Z := 3.
Definition StatusCancelled : Z := 4.

Record CancellationReasons := {
  CancellationReason : Z;
  CancellationVersion : Z;
  RejectionReason : Z;
  RejectionVersion : Z;
  CounterReason : Z;
  CounterVersion : Z;
  WithdrawalReason : Z;
  WithdrawalVersion : Z
}.

Definition CancellationProposalStatusNoProposal : Z := 0.
Definition CancellationProposalStatusPending : Z := 1.
Definition CancellationProposalStatusRejected : Z := 2.
Definition CancellationProposalStatusWithdrawn : Z := 3.
Definition CancellationProposalStatusFinalized : Z := 4.

Record CancellationProposal := {
  prop_Status : Z;
  RefundAmount : Z;
  InitialProposer : Z;
  CurrentProposer : Z;
  OwnerAccepted : bool;
  SupplierAccepted : bool;
  TimesCountered : Z;
  TimesRejected : Z
}.

(** [strings.TrimSpace(s) == ""]: every rune of the UTF-8 string is a space. *)
Fixpoint all_space (s : list Z) : bool :=
  match s with
  | [] => true
  | c :: s =>
      if ((9 <=? c) && (c <=? 13)) || (c =? 32) then all_space s
      else match s with
           | d :: s2 =>
               if (c =? 0xC2) && ((d =? 0x85) || (d =? 0xA0)) then all_space s2
               else match s2 with
                    | e :: s3 =>
                        if ((c =? 0xE1) && (d =? 0x9A) && (e =? 0x80))
                           || ((c =? 0xE2) && (d =? 0x80)
                               && (((0x80 <=? e) && (e <=? 0x8A)) || (e =? 0xA8) || (e =? 0xA9)
                                   || (e =? 0xAF)))
                           || ((c =? 0xE2) && (d =? 0x81) && (e =? 0x9F))
                           || ((c =? 0xE3) && (d =? 0x80) && (e =? 0x80))
                        then all_space s3 else false
                    | [] => false
                    end
           | [] => false
           end
  end.

Definition is_blank (s : string) : bool :=
  all_space ((λ c, Z.of_nat (nat_of_ascii c)) <$> String.list_ascii_of_string s).

(** The BookingToken contract; [block] is a block number, or the latest. *)
Class BookingToken (W L : Type) := {
  GetReservationPrice : Z → M W (Z * Z);               (* price, payment token *)
  bt_GetBookingStatus : option Z → Z → M W Z;
  bt_IsCancellable : option Z → Z → M W bool;
  bt_GetCancellationReasons : option Z → Z → M W CancellationReasons;
  bt_GetCancellationProposal : option Z → Z → M W CancellationProposal;
  TransactionReceipt : Z → M W (option (Receipt L));
  ParseTokenReserved : L → option Z;
  ParseCancellationReasons : L → option CancellationReasons;
  (** [select] between [ctx.Done()] and the retry delay. *)
  ctx_or_delay : M W (option error)
}.

Section Booking.
Context `{Chain W B Opts PrivateKey Tx L} {C : Type} `{!LruCache Z B C} `{!BookingToken W L}.
Variable revertABIs : list (list AbiError).
Variable transactOpts : Opts.
Variable minterTTMAccountAddress : Z.
Variable tokenVisibleMaxAttempts : Z.

Abbreviation state := (service W C).

Definition first_log {A} (parse : L → option A) (logs : list L) : option A :=
  list.head (omap parse logs).

Definition MintBookingToken (reservedFor : Z) (uri : string)
    (expirationTimestamp price paymentToken offChainPaymentCurrency : Z) (isCancellable : bool)
    : M state (Receipt L * Z) :=
  if is_blank uri then throwS errEmptyURI else
  receipt ← wrapS "mint reservedFor %s (price %s): %w"
    (TtmAccounts.MintBookingToken revertABIs transactOpts minterTTMAccountAddress reservedFor uri
       expirationTimestamp price paymentToken offChainPaymentCurrency isCancellable);
  match first_log ParseTokenReserved (rec_Logs receipt) with
  | Some tokenId => retS (receipt, tokenId)
  | None => throwS (Errorf "failed to parse TokenReserved event from tx receipt logs (txID: %s)")
  end.

(** [pollTokenVisible], with [attempts] left. *)
Fixpoint pollTokenVisible (tokenID expectedPrice expectedPaymentToken : Z) (attempts : nat)
    : M state unit :=
  match attempts with
  | O => throwS ErrTokenNotVisible
  | S more =>
      reservation ← attempt (chain (GetReservationPrice tokenID));
      let retry :=
        match more with
        | O => throwS ErrTokenNotVisible
        | S _ =>
            stop ← chain ctx_or_delay;
            match stop with
            | Some e => throwS e
            | None => pollTokenVisible tokenID expectedPrice expectedPaymentToken more
            end
        end in
      match reservation with
      | inl (price, paymentToken) =>
          if negb (price =? 0) || negb (paymentToken =? zeroAddr) then
            if (price =? expectedPrice) && (paymentToken =? expectedPaymentToken)
            then retS tt
            else throwS ErrReservationPriceMismatch
          else retry
      | inr _ => retry
      end
  end.

Definition waitForTokenVisible (tokenID expectedPrice expectedPaymentToken : Z) : M state unit :=
  pollTokenVisible tokenID expectedPrice expectedPaymentToken (Z.to_nat tokenVisibleMaxAttempts).

Definition BuyBookingToken (tokenID price paymentToken : Z) : M state (Receipt L) :=
  if tokenID <? 0 then throwS errNegativeTokenID else
  wrapS "buy tokenID %s: %w" (waitForTokenVisible tokenID price paymentToken) ;;
  wrapS "buy tokenID %s (price %s, paymentToken %s): %w"
    (TtmAccounts.BuyBookingToken revertABIs transactOpts minterTTMAccountAddress tokenID price
       paymentToken).

Definition RecordExpiration (tokenID : Z) : M state (Receipt L) :=
  if tokenID <? 0 then throwS errNegativeTokenID else
  wrapS "failed to record token expiration: %w"
    (TtmAccounts.RecordExpiration revertABIs transactOpts minterTTMAccountAddress tokenID).

Definition GetBookingStatus (blockNumber : option Z) (tokenID : Z) : M state Z :=
  wrapS "failed to get booking status: %w" (chain (bt_GetBookingStatus blockNumber tokenID)).

Definition IsBookingCancellable (blockNumber : option Z) (tokenID : Z) : M state bool :=
  wrapS "failed to get booking cancellable status: %w"
    (chain (bt_IsCancellable blockNumber tokenID)).

Definition GetCancellationReasonsEvent (txHash : Z) : M state CancellationReasons :=
  txReceipt ← wrapS "failed to get transaction receipt: %w" (chain (TransactionReceipt txHash));
  match txReceipt with
  | None => throwS (Errorf "transaction receipt not found or failed for txHash: %s")
  | Some txReceipt =>
      if negb (rec_Status txReceipt =? ReceiptStatusSuccessful)
      then throwS (Errorf "transaction receipt not found or failed for txHash: %s")
      else match first_log ParseCancellationReasons (rec_Logs txReceipt) with
           | Some event => retS event
           | None =>
               throwS (Errorf "failed to parse CancellationReasons event from tx receipt logs (txID: %s)")
           end
  end.

Definition GetCancellationReasons (blockNumber : option Z) (tokenID : Z)
    : M state CancellationReasons :=
  wrapS "failed to get cancellation reasons: %w"
    (chain (bt_GetCancellationReasons blockNumber tokenID)).

Definition GetCancellationProposal (blockNumber : option Z) (tokenID : Z)
    : M state CancellationProposal :=
  wrapS "failed to get cancellation proposal: %w"
    (chain (bt_GetCancellationProposal blockNumber tokenID)).

(** ** Lemmas *)

(** The reads of the contract send nothing. *)
Hypothesis price_attempts : ∀ t w, attempts (GetReservationPrice t w).1 = attempts w.
Hypothesis delay_attempts : ∀ w, attempts (ctx_or_delay w).1 = attempts w.

Definition agreed (tokenID price paymentToken : Z) : Prop :=
  ∃ w, (GetReservationPrice tokenID w).2 = Ok (price, paymentToken) ∧
       (price ≠ 0 ∨ paymentToken ≠ zeroAddr).

(** Polling from [s] sent nothing, and on success the reservation was as agreed. *)
Definition polled (tokenID price tok : Z) (s : state) (r : state * outcome unit) : Prop :=
  cache r.1 = cache s ∧ attempts (world r.1) = attempts (world s) ∧
  (r.2 = Ok tt → agreed tokenID price tok).

Lemma polled_world tokenID price tok s w r :
  attempts w = attempts (world s) → polled tokenID price tok (set_world w s) r →
  polled tokenID price tok s r.
Proof. intros Hw (H1' & H2' & H3'). unfold polled. rewrite H1', H2'. auto. Qed.

Lemma poll_spec tokenID price tok n s :
  polled tokenID price tok s (pollTokenVisible tokenID price tok n s).
Proof.
  revert s. induction n as [|n IH]; intros s; [done|].
  assert (∀ s',
    polled tokenID price tok s'
     (match n with
      | O => throwS ErrTokenNotVisible
      | S _ =>
          stop ← chain ctx_or_delay;
          match stop with Some e => throwS e | None => pollTokenVisible tokenID price tok n end
      end s')) as Hretry.
  { clear s. intros s. destruct n as [|n']; [done|]. unfold mbind, M_bind, chain at 1.
    pose proof (delay_attempts (world s)) as Hd.
    destruct (ctx_or_delay (world s)) as [w [[e|]|e|p]]; try done.
    by eapply polled_world. }
  cbn [pollTokenVisible]. unfold mbind at 1, M_bind, attempt, chain at 1.
  pose proof (price_attempts tokenID (world s)) as Hp.
  destruct (GetReservationPrice tokenID (world s)) as [w [[p t]|e|pn]] eqn:Er; [| |done].
  - destruct (negb (p =? 0) || negb (t =? zeroAddr)) eqn:Epres; [|by eapply polled_world].
    destruct ((p =? price) && (t =? tok)) eqn:Ematch; [|done].
    apply andb_true_iff in Ematch as [->%Z.eqb_eq ->%Z.eqb_eq].
    split_and!; [done|done|]. intros _. exists (world s). rewrite Er. split; [done|].
    apply orb_true_iff in Epres as [E%negb_true_iff|E%negb_true_iff]; apply Z.eqb_neq in E; auto.
  - by eapply polled_world.
Qed.

(** How long a poll takes when a read and a delay do not take longer than [read] and
    [delay]. *)
Lemma poll_time (time : W → Z) read delay tokenID price tok n s :
  0 ≤ read → 0 ≤ delay →
  (∀ t w, time (GetReservationPrice t w).1 ≤ time w + read) →
  (∀ w, time (ctx_or_delay w).1 ≤ time w + delay) →
  time (world (pollTokenVisible tokenID price tok n s).1) ≤
    time (world s) + Z.of_nat n * read + Z.max 0 (Z.of_nat n - 1) * delay.
Proof.
  intros Hr0 Hd0 Hr Hd. revert s. induction n as [|n IH]; intros s; [simpl; lia|].
  cbn [pollTokenVisible]. unfold mbind at 1, M_bind, attempt, chain at 1.
  specialize (Hr tokenID (world s)).
  destruct (GetReservationPrice tokenID (world s)) as [w o]. simpl in Hr.
  assert (∀ m : M state unit,
    time (world (m (set_world w s)).1) ≤ time w + Z.of_nat n * read + Z.of_nat n * delay →
    time (world (m (set_world w s)).1) ≤ time (world s) + Z.of_nat (S n) * read +
      Z.max 0 (Z.of_nat (S n) - 1) * delay) as Hm by (intros; nia).
  assert (∀ e, time (world (throwS (A := unit) e (set_world w s)).1) ≤
    time w + Z.of_nat n * read + Z.of_nat n * delay) as Hthrow by (intros; simpl; nia).
  set (retry := match n with O => throwS ErrTokenNotVisible | S _ => _ end).
  assert (time (world (retry (set_world w s)).1) ≤ time w + Z.of_nat n * read + Z.of_nat n * delay) as Hretry.
  { subst retry. destruct n as [|n']; [apply Hthrow|]. unfold mbind, M_bind, chain at 1. simpl world.
    specialize (Hd w). destruct (ctx_or_delay w) as [w' [[e|]|e|p]]; cbn [fst] in Hd;
      [simpl; nia| |simpl; nia..].
    specialize (IH (set_world w' (set_world w s))). simpl world in IH. cbn [fst] in *. nia. }
  destruct o as [[p t]|e|q].
  - destruct (negb (p =? 0) || negb (t =? zeroAddr)); [|by apply (Hm retry)].
    destruct ((p =? price) && (t =? tok)); [apply (Hm (retS tt)); simpl; nia|apply (Hm (throwS _)), Hthrow].
  - by apply (Hm retry).
  - apply (Hm (panicS q)). simpl. nia.
Qed.

Lemma first_log_Some {A} (parse : L → option A) logs a :
  first_log parse logs = Some a ↔
  ∃ pre l post, logs = pre ++ l :: post ∧ Forall (λ l, parse l = None) pre ∧ parse l = Some a.
Proof.
  unfold first_log. induction logs as [|l logs IH]; simpl.
  - split; [done|]. by intros (pre & ? & ? & ?%app_cons_not_nil & _).
  - destruct (parse l) as [x|] eqn:El; simpl.
    + split.
      * intros [= <-]. by exists [], l, logs.
      * intros (pre & l' & post & E & Hpre & Hl'). destruct pre; simpl in E; simplify_eq; [done|].
        apply Forall_cons in Hpre as [? _]. congruence.
    + rewrite IH. split.
      * intros (pre & l' & post & -> & Hpre & Hl'). exists (l :: pre), l', post.
        split_and!; [done|by constructor|done].
      * intros (pre & l' & post & E & Hpre & Hl'). destruct pre; simpl in E; simplify_eq.
        apply Forall_cons in Hpre as [_ ?].
        by exists pre, l', post.
Qed.
End Booking.

(** ** Properties *)
Section Properties.
Context `{Chain W B Opts PrivateKey Tx L} {C : Type} `{!LruCache Z B C} `{!BookingToken W L}.

(** C17: a token is bought only after the contract answered exactly the price and
    payment token the buyer expects for it: the purchase is tried at most once, and
    never for a token with a negative id, one whose reservation differs or one
    that is not visible.  A reservation at price 0 in the native coin is taken for
    an invisible one, and is never bought. *)
Theorem BuyBookingToken_agreed abis opts acct max tokenID price tok (s s' : service W C) o :
  (∀ t w, attempts (GetReservationPrice t w).1 = attempts w) →
  (∀ w, attempts (ctx_or_delay w).1 = attempts w) →
  cache_ok s →
  BuyBookingToken abis opts acct max tokenID price tok s = (s', o) →
  (attempts (world s') = attempts (world s) ∧ is_ok o = false) ∨
  (attempts (world s') = attempts (world s) ++ [(acct, CallBuy tokenID price tok)] ∧
   0 ≤ tokenID ∧ agreed tokenID price tok ∧
   ∀ r, o = Ok r → rec_Status r = ReceiptStatusSuccessful).
Proof.
  intros Hp Hd Hc. unfold BuyBookingToken, waitForTokenVisible.
  destruct (Z.ltb_spec tokenID 0); [intros [= <- <-]; by left|].
  unfold mbind, M_bind, wrapS at 1.
  destruct (poll_spec Hp Hd tokenID price tok (Z.to_nat max) s) as (E1 & E2 & E3).
  destruct (pollTokenVisible _ _ _ _ s) as [s1 [[]|e|p]]; simpl in *;
    [|intros [= <- <-]; by left..].
  assert (cache_ok s1) as Hc1 by (unfold cache_ok; by rewrite E1).
  destruct (sends_buy abis opts acct tokenID price tok s1 Hc1) as [_ Hbuy].
  unfold wrapS. destruct (TtmAccounts.BuyBookingToken _ _ _ _ _ _ s1) as [s2 o2]. simpl in *.
  intros [= <- <-]. rewrite <- E2. destruct Hbuy as [[Ea Eo]|[Ea Eo]].
  - left. split; [done|]. by destruct o2.
  - right. split_and!; [done|done|by apply E3|]. intros r Hr%wrapO_Ok. by apply Eo.
Qed.

(** Waiting for a token to be visible ends, whatever the node answers: when a read of
    the reservation takes at most [read] and a delay at most [delay], it takes at most
    the configured attempts times the first and one fewer times the second. *)
Lemma waitForTokenVisible_terminates (time : W → Z) read delay max tokenID price tok (s : service W C) :
  0 ≤ read → 0 ≤ delay →
  (∀ t w, time (GetReservationPrice t w).1 ≤ time w + read) →
  (∀ w, time (ctx_or_delay w).1 ≤ time w + delay) →
  time (world (waitForTokenVisible max tokenID price tok s).1) ≤
    time (world s) + Z.max 0 max * read + Z.max 0 (max - 1) * delay.
Proof.
  intros Hr0 Hd0 Hr Hd. unfold waitForTokenVisible.
  pose proof (poll_time time read delay tokenID price tok (Z.to_nat max) s Hr0 Hd0 Hr Hd) as H'.
  replace (Z.max 0 max) with (Z.of_nat (Z.to_nat max)) by lia.
  replace (Z.max 0 (max - 1)) with (Z.max 0 (Z.of_nat (Z.to_nat max) - 1)) by lia. exact H'.
Qed.

(** Minting with a blank token URI sends nothing; otherwise the mint is tried at
    most once on the bot's account, and a successful result is the receipt of a
    successful transaction with the token id of its first TokenReserved log.  A
    receipt without such a log is an error, although the token is minted. *)
Lemma MintBookingToken_token abis opts acct reservedFor uri expiration price tok iso canc
    (s s' : service W C) o :
  cache_ok s →
  MintBookingToken abis opts acct reservedFor uri expiration price tok iso canc s = (s', o) →
  if is_blank uri then s' = s ∧ o = Err errEmptyURI
  else
    (attempts (world s') = attempts (world s) ∧ is_ok o = false) ∨
    (attempts (world s') =
       attempts (world s) ++ [(acct, CallMint reservedFor uri expiration price tok iso canc)] ∧
     ∀ r id, o = Ok (r, id) → rec_Status r = ReceiptStatusSuccessful ∧
       ∃ pre l post, rec_Logs r = pre ++ l :: post ∧
         Forall (λ l, ParseTokenReserved l = None) pre ∧ ParseTokenReserved l = Some id).
Proof.
  intros Hc. unfold MintBookingToken. destruct (is_blank uri); [by intros [= <- <-]|].
  destruct (sends_mint abis opts acct reservedFor uri expiration price tok iso canc s Hc)
    as [_ Hmint].
  unfold mbind, M_bind, wrapS. destruct (TtmAccounts.MintBookingToken _ _ _ _ _ _ _ _ _ _ s) as [s1 o1].
  destruct o1 as [r|e|p]; simpl in *;
    [|intros [= <- <-]; destruct Hmint as [[? _]|[? _]]; [left|right]; done..].
  destruct Hmint as [[_ ?]|[Ea Er]]; [done|]. specialize (Er r eq_refl).
  destruct (first_log ParseTokenReserved (rec_Logs r)) as [id|] eqn:El; intros [= <- <-]; right;
    (split; [done|]); [|done].
  intros r' id' [= <- <-]. split; [done|]. by apply first_log_Some.
Qed.
End Properties.

(** ** Witnesses *)
Module Toy.
(** Every token is reserved at price 100 in token 5 after a first failed read. *)
#[global] Instance token : BookingToken TtmAccounts.Toy.world Z := {
  GetReservationPrice t := λ w,
    (w, if t =? 9 then Ok (100, 5) else Ok (0, 0));
  bt_GetBookingStatus _ _ := λ w, (w, Ok StatusReserved);
  bt_IsCancellable _ _ := λ w, (w, Ok true);
  bt_GetCancellationReasons _ _ := λ w, (w, Err (Errorf "no reasons"));
  bt_GetCancellationProposal _ _ := λ w, (w, Err (Errorf "no proposal"));
  TransactionReceipt h := λ w, (w, Ok None);
  ParseTokenReserved l := if l =? 7 then None else Some l;
  ParseCancellationReasons _ := None;
  ctx_or_delay := λ w, (w, Ok None)
}.

(** A read takes 2 and a delay 5; no token is ever visible. *)
Definition later (d : Z) (w : TtmAccounts.Toy.world) : TtmAccounts.Toy.world :=
  {| TtmAccounts.Toy.now := TtmAccounts.Toy.now w + d; TtmAccounts.Toy.sent := TtmAccounts.Toy.sent w;
     TtmAccounts.Toy.asked := TtmAccounts.Toy.asked w; TtmAccounts.Toy.allowed := TtmAccounts.Toy.allowed w |}.
Definition slow : BookingToken TtmAccounts.Toy.world Z := {|
  GetReservationPrice _ := λ w, (later 2 w, Ok (0, 0));
  bt_GetBookingStatus _ _ := λ w, (w, Ok StatusReserved);
  bt_IsCancellable _ _ := λ w, (w, Ok true);
  bt_GetCancellationReasons _ _ := λ w, (w, Err (Errorf "no reasons"));
  bt_GetCancellationProposal _ _ := λ w, (w, Err (Errorf "no proposal"));
  TransactionReceipt h := λ w, (w, Ok None);
  ParseTokenReserved _ := None;
  ParseCancellationReasons _ := None;
  ctx_or_delay := λ w, (later 5 w, Ok None)
|}.
End Toy.

#[local] Existing Instance TtmAccounts.Toy.cache.

Lemma BuyBookingToken_agreed_witness :
  (∃ r, (BuyBookingToken [] 1 4 3 9 100 5 (TtmAccounts.Toy.start 0 [])).2 = Ok r) ∧
  agreed 9 100 5.
Proof.
  destruct (BuyBookingToken [] 1 4 3 9 100 5 (TtmAccounts.Toy.start 0 [])) as [s' o] eqn:E.
  pose proof (BuyBookingToken_agreed [] 1 4 3 9 100 5 (TtmAccounts.Toy.start 0 []) s' o
    ltac:(done) ltac:(done) (start_cache_ok 0 []) E) as Hb.
  revert E Hb. vm_compute (BuyBookingToken _ _ _ _ _ _ _ _). intros [= <- <-].
  intros [[_ [=]]|(_ & _ & Ha & _)]. split; [eexists; reflexivity|exact Ha].
Defined.

Lemma waitForTokenVisible_terminates_witness :
  TtmAccounts.Toy.now (world (waitForTokenVisible (BookingToken0 := Toy.slow) 3 9 100 5 (TtmAccounts.Toy.start 0 [])).1) ≤ 16.
Proof.
  pose proof (waitForTokenVisible_terminates (BookingToken0 := Toy.slow) TtmAccounts.Toy.now 2 5 3 9 100 5
    (TtmAccounts.Toy.start 0 [])) as H.
  apply H; [lia|lia|intros t w; simpl; lia|intros w; simpl; lia].
Defined.

Lemma MintBookingToken_token_witness :
  ∃ s' r, MintBookingToken [] 1 4 3 "ipfs://x" 1000 100 5 0 true (TtmAccounts.Toy.start 0 [])
    = (s', Ok (r, 0)) ∧ rec_Status r = 1.
Proof.
  destruct (MintBookingToken [] 1 4 3 "ipfs://x" 1000 100 5 0 true (TtmAccounts.Toy.start 0 []))
    as [s' o] eqn:E.
  pose proof (MintBookingToken_token [] 1 4 3 "ipfs://x" 1000 100 5 0 true
    (TtmAccounts.Toy.start 0 []) s' o (start_cache_ok 0 []) E) as Hm.
  revert E Hm. vm_compute (MintBookingToken _ _ _ _ _ _ _ _ _ _ _). intros [= <- <-].
  vm_compute (is_blank _). intros [[_ [=]]|[_ Hr]]. eexists _, _. split; [reflexivity|].
  exact (proj1 (Hr _ _ eq_refl)).
Defined.
