(* ===== verification/Mint.v ===== *)
(** * Mint requests and responses (internal/messaging/mint*.go, response_handler.go)

    The supplier's bot turns a successful mint response of its partner plugin into
    a reserved booking token; the distributor's bot buys the token of the response
    it receives.  Protocol versions 4 and 5 have the same code over two price
    types: they are the section [Mint45], instantiated twice. *)
From S2P Require Import Prelude Conversion Price Message.

#[local] Open Scope Z_scope.
#[local] Arguments String.append : simpl nomatch.

(** ** Timestamps and the deadline of a reservation *)

(** [timestamppb.Timestamp] *)
Record Timestamp := { Seconds : Z; Nanos : Z }.

#[global] Instance Timestamp_eq_dec : EqDecision Timestamp.
Proof. solve_decision. Defined.

(** [timestamppb.New] of an instant in nanoseconds. *)
Definition timestamp_New (t : Z) : Timestamp :=
  {| Seconds := t / Second; Nanos := t mod Second |}.

Record tokenBuyableUntil := { Default : Z; Minimal : Z; Maximal : Z }.

Definition production_window : tokenBuyableUntil :=
  {| Default := 300 * Second; Minimal := 70 * Second; Maximal := 600 * Second |}.
Definition e2e_window : tokenBuyableUntil :=
  {| Default := 10 * Second; Minimal := 5 * Second; Maximal := 20 * Second |}.

Definition errBuyableUntilPast : error := Errorf "BuyableUntil is in the past: %v".

Definition verifyAndFixBuyableUntil (w : tokenBuyableUntil) (buyableUntil : option Timestamp)
    (currentTime : Z) : outcome Timestamp :=
  match buyableUntil with
  | None => Ok (timestamp_New (currentTime + Default w))
  | Some t =>
      if Seconds t =? 0 then Ok (timestamp_New (currentTime + Default w))
      else if Seconds t <? Seconds (timestamp_New currentTime) then Err errBuyableUntilPast
      else if Seconds t <? Seconds (timestamp_New (currentTime + Minimal w))
      then Ok (timestamp_New (currentTime + Minimal w))
      else if Seconds (timestamp_New (currentTime + Maximal w)) <? Seconds t
      then Ok (timestamp_New (currentTime + Maximal w))
      else Ok t
  end.

(** ** What the handlers use *)

Inductive MintEvent :=
  | EvMint (reservedFor : Z) (uri : string) (expiration price paymentToken isoCurrency : Z)
      (cancellable : bool)
  | EvBuy (tokenID price paymentToken : Z)
  | EvSubscribeBought (tokenID : Z) (mintID : string) (timeout : Z)
  | EvSubscribeCancellation (tokenID : Z).

(** The booking service, the event listener, the price handler and the clock.  [log]
    is a record of the calls that act on the world, with their arguments. *)
Class MintServices (X : Type) := {
  log : X → list MintEvent;
  Now : M X Z;
  svc_GetPriceAndTokenV3 : option PriceV3 → M X (Z * Z * Z);
  svc_GetPriceAndTokenV4 : option PriceV4 → M X (Z * Z * Z);
  svc_GetPriceAndTokenV5 : option PriceV5 → M X (Z * Z * Z);
  svc_MintBookingToken : Z → string → Z → Z → Z → Z → bool → M X (string * Z);
  svc_BuyBookingToken : Z → Z → Z → M X string;
  svc_SubscribeTokenBoughtEvent : Z → string → Z → M X unit;
  svc_SubscribeCancellationEvents : Z → M X unit;
  error_text : error → string
}.

(** The calls are recorded, the reads act on nothing. *)
Class MintServicesLaws X `{!MintServices X} : Prop := {
  log_now x : log (Now x).1 = log x ∧ is_ok (Now x).2 = true;
  log_price3 p : keeps log (svc_GetPriceAndTokenV3 p);
  log_price4 p : keeps log (svc_GetPriceAndTokenV4 p);
  log_price5 p : keeps log (svc_GetPriceAndTokenV5 p);
  log_mint a u e p t i c x :
    log (svc_MintBookingToken a u e p t i c x).1 = log x ++ [EvMint a u e p t i c];
  log_buy i p t x : log (svc_BuyBookingToken i p t x).1 = log x ++ [EvBuy i p t];
  log_bought i m t x :
    log (svc_SubscribeTokenBoughtEvent i m t x).1 = log x ++ [EvSubscribeBought i m t];
  log_cancel i x :
    log (svc_SubscribeCancellationEvents i x).1 = log x ++ [EvSubscribeCancellation i]
}.


Definition errMissingMintTxID : string := "missing mint transaction id".

(** The data URI of a booking token (mint.go). *)
Record hotelAttribute := { TraitType : string; Value : string }.
Record hotelJSON := {
  Name : string;
  Description : string;
  Date : string;
  ExternalURL : string;
  Image : string;
  Attributes : list hotelAttribute
}.

Section Handlers.
Context {X : Type} `{!MintServices X}.
Variable window : tokenBuyableUntil.
Variable ttmAccountAddressStr : string.
Variable IsHexAddress : string → bool.
Variable HexToAddress : string → Z.
Variable json_Marshal : hotelJSON → outcome string.
Variable base64_EncodeToString : string → string.

Definition generateAndEncodeJSON (name description date externalURL image : string)
    (attributes : list hotelAttribute) : outcome (string * string) :=
  jsonData ← json_Marshal {| Name := name; Description := description; Date := date;
    ExternalURL := externalURL; Image := image; Attributes := attributes |};
  Ok (jsonData, base64_EncodeToString jsonData).

Definition createTokenURIforMintResponse (mintID bookingReference : string)
    : outcome (string * string) :=
  '(jsonPlain, jsonEncoded) ← generateAndEncodeJSON "CM Booking Token"
    "This NFT represents the booking with the specified attributes." "2024-09-27"
    "https://camino.network" "https://camino.network/static/images/N9IkxmG-Sg-1800.webp"
    [{| TraitType := "Mint ID"; Value := mintID |};
     {| TraitType := "Reference"; Value := bookingReference |}];
  Ok (jsonPlain, "data:application/json;base64," +:+ jsonEncoded).

(** Its error is only logged. *)
Definition subscribeForTokenBoughtEvent (tokenID : Z) (mintID : string) (buyableUntil : Timestamp)
    : M X unit :=
  attempt (svc_SubscribeTokenBoughtEvent tokenID mintID (Seconds buyableUntil * Second)) ;;
  retS tt.

(** ** Version 3 *)
Definition STATUS_TYPE_SUCCESS : Z := 1.
Definition STATUS_TYPE_FAILURE : Z := 2.

Record HeaderV3 := { h3_Status : Z; h3_Alerts : list string }.

Record MintRequestV3 := {
  mr3_ValidationId : option string;
  mr3_BuyerAddress : option string;
  BookingReference : string
}.

Record MintResponseV3 := {
  m3_Header : option HeaderV3;
  m3_BookingTokenUri : string;
  m3_MintId : option string;
  m3_ValidationId : option string;
  m3_BuyableUntil : option Timestamp;
  m3_Price : option PriceV3;
  m3_Cancellable : bool;
  m3_BookingTokenId : Z;
  m3_MintTransactionId : option string;
  m3_BuyTransactionId : option string
}.

Definition mintErrResponseV3 (errMessage : string) : MintResponseV3 :=
  {| m3_Header := Some {| h3_Status := STATUS_TYPE_FAILURE; h3_Alerts := [errMessage] |};
     m3_BookingTokenUri := ""; m3_MintId := None; m3_ValidationId := None;
     m3_BuyableUntil := None; m3_Price := None;
     m3_Cancellable := false; m3_BookingTokenId := 0; m3_MintTransactionId := None;
     m3_BuyTransactionId := None |}.

Definition reserved_v3 (r : MintResponseV3) (uri : string) (deadline : Timestamp) (tokenID : Z)
    (txID : string) (h : HeaderV3) : MintResponseV3 :=
  {| m3_Header := Some {| h3_Status := STATUS_TYPE_SUCCESS; h3_Alerts := h3_Alerts h |};
     m3_BookingTokenUri := uri; m3_MintId := m3_MintId r;
     m3_ValidationId := m3_ValidationId r; m3_BuyableUntil := Some deadline;
     m3_Price := m3_Price r; m3_Cancellable := m3_Cancellable r;
     m3_BookingTokenId := bigUint64 tokenID; m3_MintTransactionId := Some txID;
     m3_BuyTransactionId := m3_BuyTransactionId r |}.

(** The token URI of the response, made up when it has none. *)
Definition tokenURI_v3 (request : MintRequestV3) (response : MintResponseV3) : outcome string :=
  if bool_decide (m3_BookingTokenUri response = "") then
    mintID ← deref (m3_MintId response);
    '(_, tokenURI) ← createTokenURIforMintResponse mintID (BookingReference request);
    Ok tokenURI
  else Ok (m3_BookingTokenUri response).

Definition prepareMintResponseV3 (request : MintRequestV3) (response : MintResponseV3)
    : M X MintResponseV3 :=
  header ← liftO (deref (m3_Header response));
  if negb (h3_Status header =? STATUS_TYPE_SUCCESS) then retS response else
  buyer ← liftO (deref (mr3_BuyerAddress request));
  if negb (IsHexAddress buyer) then
    retS (mintErrResponseV3 ("Invalid BuyerAddress: " +:+ buyer))
  else
  orRespond (liftO (tokenURI_v3 request response))
    (λ e, mintErrResponseV3 ("Failed to mint token: failed to generate tokenURI:  " +:+ error_text e))
    (λ uri,
  now ← Now;
  orRespond (liftO (verifyAndFixBuyableUntil window (m3_BuyableUntil response) now))
    (λ e, mintErrResponseV3 (error_text e)) (λ buyableUntil,
  orRespond (svc_GetPriceAndTokenV3 (m3_Price response))
    (λ e, mintErrResponseV3 ("error getting price and payment token: " +:+ error_text e))
    (λ '(price, paymentToken, isoCurrency),
  orRespond (svc_MintBookingToken (HexToAddress buyer) uri (Seconds buyableUntil) price
      paymentToken isoCurrency (m3_Cancellable response))
    (λ e, mintErrResponseV3 ("error minting NFT: " +:+ error_text e)) (λ '(txID, tokenID),
  mintID ← liftO (deref (m3_MintId response));
  subscribeForTokenBoughtEvent tokenID mintID buyableUntil ;;
  retS (reserved_v3 response uri buyableUntil tokenID txID header))))).

Definition bought_v3 (r : MintResponseV3) (txHash : string) (header : option HeaderV3)
    : MintResponseV3 :=
  {| m3_Header := header; m3_BookingTokenUri := m3_BookingTokenUri r; m3_MintId := m3_MintId r;
     m3_ValidationId := m3_ValidationId r; m3_BuyableUntil := m3_BuyableUntil r; m3_Price := m3_Price r;
     m3_Cancellable := m3_Cancellable r; m3_BookingTokenId := m3_BookingTokenId r;
     m3_MintTransactionId := m3_MintTransactionId r; m3_BuyTransactionId := Some txHash |}.

Definition processMintResponseV3 (response : MintResponseV3) : M X MintResponseV3 :=
  header ← liftO (deref (m3_Header response));
  if h3_Status header =? STATUS_TYPE_FAILURE then retS response else
  match m3_MintTransactionId response with
  | None | Some EmptyString => retS (mintErrResponseV3 errMissingMintTxID)
  | Some _ =>
      let tokenID := m3_BookingTokenId response in
      orRespond (svc_GetPriceAndTokenV3 (m3_Price response))
        (λ e, mintErrResponseV3 ("error getting price and payment token: " +:+ error_text e))
        (λ '(price, paymentToken, _),
      orRespond (svc_BuyBookingToken tokenID price paymentToken)
        (λ e, mintErrResponseV3 ("error buying NFT: " +:+ error_text e)) (λ txHash,
      if m3_Cancellable response then
        r ← attempt (svc_SubscribeCancellationEvents tokenID);
        match r with
        | inl _ => retS (bought_v3 response txHash (Some header))
        | inr e =>
            liftO (deref (m3_MintId response)) ;;
            retS (bought_v3 response txHash
              (Some {| h3_Status := h3_Status header;
                       h3_Alerts := h3_Alerts header ++
                         ["error subscribing for cancellation events as distributor (tokenID: %d, mintID: %s): "
                            +:+ error_text e] |}))
        end
      else retS (bought_v3 response txHash (Some header))))
  end.
End Handlers.

(** ** Versions 4 and 5 *)

(** The error codes of types v4. *)
Inductive ErrorCode :=
  | ERROR_CODE_INTERNAL
  | ERROR_CODE_INVALID_IDENTIFIERS
  | ERROR_CODE_INVALID_CURRENCY
  | ERROR_CODE_UNIMPLEMENTED
  | ERROR_CODE_BLOCKCHAIN_ERROR
  | ERROR_CODE_BUSINESS_PROCESS_ERROR.

Record MintRequest (P : Type) := {
  mr_ValidationId : option string;
  mr_BuyerAddress : option string;
  mr_ExpectedPrice : option P
}.
Arguments mr_ValidationId {P} _.
Arguments mr_BuyerAddress {P} _.
Arguments mr_ExpectedPrice {P} _.

Record MintSuccessResponse (P : Type) := {
  ms_Header : option (list string);                 (* its alerts *)
  ms_BookingTokenUri : string;
  ms_MintId : option string;
  ms_ValidationId : option string;
  ms_BuyableUntil : option Timestamp;
  ms_Price : option P;
  ms_Cancellable : bool;
  ms_BookingTokenId : Z;
  ms_MintTransactionId : option string;
  ms_BuyTransactionId : option string
}.
Arguments ms_Header {P} _.
Arguments ms_BookingTokenUri {P} _.
Arguments ms_MintId {P} _.
Arguments ms_ValidationId {P} _.
Arguments ms_BuyableUntil {P} _.
Arguments ms_Price {P} _.
Arguments ms_Cancellable {P} _.
Arguments ms_BookingTokenId {P} _.
Arguments ms_MintTransactionId {P} _.
Arguments ms_BuyTransactionId {P} _.

(** The [oneof] of the response. *)
Inductive MintResponse (P : Type) :=
  | MintResponse_SuccessResponse (r : option (MintSuccessResponse P))
  | MintResponse_ErrorResponse (errors : list (ErrorCode * string))
  | MintResponse_unset.
Arguments MintResponse_SuccessResponse {P} _.
Arguments MintResponse_ErrorResponse {P} _.
Arguments MintResponse_unset {P}.

Definition GetSuccessResponse {P} (r : MintResponse P) : option (MintSuccessResponse P) :=
  match r with MintResponse_SuccessResponse s => s | _ => None end.

Section Mint45.
Context {X : Type} `{!MintServices X} {P : Type} `{!EqDecision P}.
Variable GetPriceAndToken : option P → M X (Z * Z * Z).
Variable window : tokenBuyableUntil.
Variable HexToAddress : string → Z.

Definition mintErrResponse (code : ErrorCode) (errMessage : string) : MintResponse P :=
  MintResponse_ErrorResponse [(code, errMessage)].

Definition reserved (r : MintSuccessResponse P) (deadline : Timestamp) (tokenID : Z) (txID : string)
    : MintSuccessResponse P :=
  {| ms_Header := ms_Header r; ms_BookingTokenUri := ms_BookingTokenUri r;
     ms_MintId := ms_MintId r; ms_ValidationId := ms_ValidationId r;
     ms_BuyableUntil := Some deadline; ms_Price := ms_Price r;
     ms_Cancellable := ms_Cancellable r; ms_BookingTokenId := bigUint64 tokenID;
     ms_MintTransactionId := Some txID; ms_BuyTransactionId := ms_BuyTransactionId r |}.

Definition prepareMintResponse (request : MintRequest P) (response : MintResponse P)
    : M X (MintResponse P) :=
  match GetSuccessResponse response with
  | None => retS response
  | Some successResp =>
      now ← Now;
      orRespond (liftO (verifyAndFixBuyableUntil window (ms_BuyableUntil successResp) now))
        (λ e, mintErrResponse ERROR_CODE_INTERNAL (error_text e)) (λ buyableUntil,
      orRespond (GetPriceAndToken (ms_Price successResp))
        (λ e, mintErrResponse ERROR_CODE_INTERNAL
                ("error getting price and payment token: " +:+ error_text e))
        (λ '(price, paymentToken, isoCurrency),
      buyer ← liftO (deref (mr_BuyerAddress request));
      orRespond (svc_MintBookingToken (HexToAddress buyer) (ms_BookingTokenUri successResp)
          (Seconds buyableUntil) price paymentToken isoCurrency (ms_Cancellable successResp))
        (λ e, mintErrResponse ERROR_CODE_BLOCKCHAIN_ERROR
                ("error minting booking token: " +:+ error_text e)) (λ '(txID, tokenID),
      mintID ← liftO (deref (ms_MintId successResp));
      subscribeForTokenBoughtEvent tokenID mintID buyableUntil ;;
      retS (MintResponse_SuccessResponse
              (Some (reserved successResp buyableUntil tokenID txID))))))
  end.

Definition bought (r : MintSuccessResponse P) (txHash : string) (header : option (list string))
    : MintSuccessResponse P :=
  {| ms_Header := header; ms_BookingTokenUri := ms_BookingTokenUri r;
     ms_MintId := ms_MintId r; ms_ValidationId := ms_ValidationId r;
     ms_BuyableUntil := ms_BuyableUntil r; ms_Price := ms_Price r;
     ms_Cancellable := ms_Cancellable r; ms_BookingTokenId := ms_BookingTokenId r;
     ms_MintTransactionId := ms_MintTransactionId r; ms_BuyTransactionId := Some txHash |}.

Definition processMintResponse (request : MintRequest P) (response : MintResponse P)
    : M X (MintResponse P) :=
  match GetSuccessResponse response with
  | None => retS response
  | Some successResp =>
      match ms_MintTransactionId successResp with
      | None => retS (mintErrResponse ERROR_CODE_BUSINESS_PROCESS_ERROR errMissingMintTxID)
      | Some _ =>
          if negb (bool_decide (mr_ExpectedPrice request = ms_Price successResp)) then
            retS (mintErrResponse ERROR_CODE_BUSINESS_PROCESS_ERROR
              "expected price does not match the mint response price")
          else
          let tokenID := ms_BookingTokenId successResp in
          orRespond (GetPriceAndToken (ms_Price successResp))
            (λ e, mintErrResponse ERROR_CODE_INTERNAL
                    ("error getting price and payment token: " +:+ error_text e))
            (λ '(price, paymentToken, _),
          orRespond (svc_BuyBookingToken tokenID price paymentToken)
            (λ e, mintErrResponse ERROR_CODE_BLOCKCHAIN_ERROR
                    ("error buying booking token: " +:+ error_text e)) (λ txHash,
          if ms_Cancellable successResp then
            r ← attempt (svc_SubscribeCancellationEvents tokenID);
            match r with
            | inl _ =>
                retS (MintResponse_SuccessResponse
                        (Some (bought successResp txHash (ms_Header successResp))))
            | inr e =>
                liftO (deref (ms_MintId successResp)) ;;
                alerts ← liftO (deref (ms_Header successResp));
                retS (MintResponse_SuccessResponse (Some (bought successResp txHash
                  (Some (alerts ++
                    ["error subscribing for cancellation events as distributor (tokenID: %d, mintID: %s): "
                       +:+ error_text e])))))
            end
          else retS (MintResponse_SuccessResponse
                       (Some (bought successResp txHash (ms_Header successResp))))))
      end
  end.
End Mint45.

(** ** The response handler (response_handler.go) *)

(** The dynamic type of a message's content, as far as the handler looks. *)
Inductive Content (T : Type) :=
  | C_MintRequestV3 (r : MintRequestV3)
  | C_MintResponseV3 (r : MintResponseV3)
  | C_MintRequestV4 (r : MintRequest PriceV4)
  | C_MintResponseV4 (r : MintResponse PriceV4)
  | C_MintRequestV5 (r : MintRequest PriceV5)
  | C_MintResponseV5 (r : MintResponse PriceV5)
  | C_other (m : T).
Arguments C_MintRequestV3 {T} _.
Arguments C_MintResponseV3 {T} _.
Arguments C_MintRequestV4 {T} _.
Arguments C_MintResponseV4 {T} _.
Arguments C_MintRequestV5 {T} _.
Arguments C_MintResponseV5 {T} _.
Arguments C_other {T} _.

Section ResponseHandler.
Context {X : Type} `{!MintServices X} {T : Type}.
Variable window : tokenBuyableUntil.
Variable ttmAccountAddressStr : string.
Variable IsHexAddress : string → bool.
Variable HexToAddress : string → Z.
Variable json_Marshal : hotelJSON → outcome string.
Variable base64_EncodeToString : string → string.

Definition prepareMintResponseV4 := prepareMintResponse svc_GetPriceAndTokenV4 window HexToAddress.
Definition prepareMintResponseV5 := prepareMintResponse svc_GetPriceAndTokenV5 window HexToAddress.
Definition processMintResponseV4 := processMintResponse svc_GetPriceAndTokenV4.
Definition processMintResponseV5 := processMintResponse svc_GetPriceAndTokenV5.

(** A failed type assertion. *)
Definition bad_assertion : string := "interface conversion".

(** The new content of the response message. *)
Definition ProcessResponseMessage (request response : Content T) : M X (Content T) :=
  match response with
  | C_MintResponseV3 r => r ← processMintResponseV3 r; retS (C_MintResponseV3 r)
  | C_MintResponseV4 r =>
      match request with
      | C_MintRequestV4 q => r ← processMintResponseV4 q r; retS (C_MintResponseV4 r)
      | _ => panicS bad_assertion
      end
  | C_MintResponseV5 r =>
      match request with
      | C_MintRequestV5 q => r ← processMintResponseV5 q r; retS (C_MintResponseV5 r)
      | _ => panicS bad_assertion
      end
  | _ => retS response
  end.

Definition PrepareResponseMessage (request response : Content T) : M X (Content T) :=
  match response with
  | C_MintResponseV3 r =>
      match request with
      | C_MintRequestV3 q =>
          r ← prepareMintResponseV3 window IsHexAddress HexToAddress json_Marshal
                base64_EncodeToString q r;
          retS (C_MintResponseV3 r)
      | _ => panicS bad_assertion
      end
  | C_MintResponseV4 r =>
      match request with
      | C_MintRequestV4 q => r ← prepareMintResponseV4 q r; retS (C_MintResponseV4 r)
      | _ => panicS bad_assertion
      end
  | C_MintResponseV5 r =>
      match request with
      | C_MintRequestV5 q => r ← prepareMintResponseV5 q r; retS (C_MintResponseV5 r)
      | _ => panicS bad_assertion
      end
  | _ => retS response
  end.

Definition PrepareRequest (request : Content T) : Content T :=
  match request with
  | C_MintRequestV3 q =>
      C_MintRequestV3 {| mr3_ValidationId := mr3_ValidationId q;
                         mr3_BuyerAddress := Some ttmAccountAddressStr;
                         BookingReference := BookingReference q |}
  | C_MintRequestV4 q =>
      C_MintRequestV4 {| mr_ValidationId := mr_ValidationId q; mr_BuyerAddress := Some ttmAccountAddressStr;
                         mr_ExpectedPrice := mr_ExpectedPrice q |}
  | C_MintRequestV5 q =>
      C_MintRequestV5 {| mr_ValidationId := mr_ValidationId q; mr_BuyerAddress := Some ttmAccountAddressStr;
                         mr_ExpectedPrice := mr_ExpectedPrice q |}
  | _ => request
  end.
End ResponseHandler.

(** ** Lemmas *)
Section Facts.
Context {X : Type} `{!MintServices X} `{!MintServicesLaws X}.

Lemma now_rule {R} (k : Z → M X R) x (Q : X * outcome R → Prop) :
  (∀ x' t, log x' = log x → Q (k t x')) → Q (mbind k Now x).
Proof.
  intros Hk. destruct (log_now x) as [Hl Hok]. unfold mbind, M_bind.
  destruct (Now x) as [x' [t|e|p]]; simpl in *; [by apply Hk|done..].
Qed.

Lemma keeps_log {A} (m : M X A) x x' o : keeps log m → m x = (x', o) → log x' = log x.
Proof. intros Hk E. specialize (Hk x). by rewrite E in Hk. Qed.

Lemma subscribe_log tokenID mintID deadline x x' o :
  subscribeForTokenBoughtEvent tokenID mintID deadline x = (x', o) →
  log x' = log x ++ [EvSubscribeBought tokenID mintID (Seconds deadline * Second)] ∧
  ∀ e, o ≠ Err e.
Proof.
  unfold subscribeForTokenBoughtEvent, attempt, mbind, M_bind.
  pose proof (log_bought tokenID mintID (Seconds deadline * Second) x) as Hl.
  destruct (svc_SubscribeTokenBoughtEvent _ _ _ x) as [x1 [u|e|p]]; simpl in *;
    intros [= <- <-]; done.
Qed.

(** The deadline the contract gets is one [verifyAndFixBuyableUntil] let through. *)
Definition deadline_ok window (asked : option Timestamp) (deadline : Timestamp) : Prop :=
  ∃ now, verifyAndFixBuyableUntil window asked now = Ok deadline.

Definition priced {P} (get : option P → M X (Z * Z * Z)) (p : option P) (r : Z * Z * Z) : Prop :=
  ∃ x, (get p x).2 = Ok r.

Section Versions45.
Context {P : Type} `{!EqDecision P}.
Variable GetPriceAndToken : option P → M X (Z * Z * Z).
Hypothesis price_log : ∀ p, keeps log (GetPriceAndToken p).

(** How a mint that was tried can end: the calls after it, and the response. *)
Inductive minting (s : MintSuccessResponse P) (deadline : Timestamp) :
    list MintEvent → outcome (MintResponse P) → Prop :=
  | minting_failed msg :
      minting s deadline [] (Ok (mintErrResponse ERROR_CODE_BLOCKCHAIN_ERROR msg))
  | minting_panicked p : minting s deadline [] (Panic p)
  | minting_no_id : ms_MintId s = None → minting s deadline [] (Panic nilDeref)
  | minting_done tokenID mintID txID :
      ms_MintId s = Some mintID →
      minting s deadline [EvSubscribeBought tokenID mintID (Seconds deadline * Second)]
        (Ok (MintResponse_SuccessResponse (Some (reserved s deadline tokenID txID))))
  | minting_subscribe_panicked tokenID mintID p :
      ms_MintId s = Some mintID →
      minting s deadline [EvSubscribeBought tokenID mintID (Seconds deadline * Second)] (Panic p).

(** How preparing the success response [s] can end: the calls made, and the response. *)
Inductive prepared (window : tokenBuyableUntil) (hex : string → Z) (request : MintRequest P)
    (s : MintSuccessResponse P) : list MintEvent → outcome (MintResponse P) → Prop :=
  | prepared_refused msg :
      prepared window hex request s [] (Ok (mintErrResponse ERROR_CODE_INTERNAL msg))
  | prepared_panicked p : prepared window hex request s [] (Panic p)
  | prepared_minting buyer deadline price tok iso calls o :
      mr_BuyerAddress request = Some buyer →
      deadline_ok window (ms_BuyableUntil s) deadline →
      priced GetPriceAndToken (ms_Price s) (price, tok, iso) →
      minting s deadline calls o →
      prepared window hex request s
        (EvMint (hex buyer) (ms_BookingTokenUri s) (Seconds deadline) price tok iso
           (ms_Cancellable s) :: calls) o.

(** From [x] the run [r] made some calls and ended as [K] says. *)
Definition ran {R} (K : list MintEvent → outcome R → Prop) (x : X) (r : X * outcome R) : Prop :=
  ∃ calls, log r.1 = log x ++ calls ∧ K calls r.2.

Lemma ran_none {R} (K : list MintEvent → outcome R → Prop) x x' o :
  log x' = log x → K [] o → ran K x (x', o).
Proof. intros E HK. exists []. by rewrite app_nil_r. Qed.

Lemma ran_from {R} (K : list MintEvent → outcome R → Prop) x x1 r :
  log x1 = log x → ran K x1 r → ran K x r.
Proof. intros E (calls & El & HK). exists calls. by rewrite El, E. Qed.

Lemma ran_call {R} (K : list MintEvent → outcome R → Prop) ev x x1 r :
  log x1 = log x ++ [ev] → ran (λ calls, K (ev :: calls)) x1 r → ran K x r.
Proof. intros E (calls & El & HK). exists (ev :: calls). by rewrite El, E, <- (assoc_L (++)). Qed.

Lemma prepareMintResponse_spec window hex request response s x :
  GetSuccessResponse response = Some s →
  ran (prepared window hex request s) x
    (prepareMintResponse GetPriceAndToken window hex request response x).
Proof.
  intros Hs. unfold prepareMintResponse. rewrite Hs.
  apply now_rule. intros x1 now L1. apply (ran_from _ _ _ _ L1). clear x L1. rename x1 into x.
  apply orRespond_lift_rule.
  2-3: intros; apply ran_none; [done|constructor].
  intros deadline Hu.
  apply orRespond_rule.
  2-3: intros x1 e E; apply ran_none; [by eapply keeps_log|constructor].
  intros x1 [[price tok] iso] E. apply (ran_from _ _ _ _ (keeps_log _ _ _ _ (price_log _) E)).
  assert (priced GetPriceAndToken (ms_Price s) (price, tok, iso)) as Hp by (exists x; by rewrite E).
  clear x E. rename x1 into x.
  apply lift_rule; unfold deref; destruct (mr_BuyerAddress request) as [buyer|] eqn:Eb; try done.
  2: intros p _; apply ran_none; [done|constructor].
  intros ? [= <-].
  pose proof (log_mint (hex buyer) (ms_BookingTokenUri s) (Seconds deadline) price tok iso
    (ms_Cancellable s) x) as Lm.
  assert (∀ calls o, minting s deadline calls o →
    prepared window hex request s (EvMint (hex buyer) (ms_BookingTokenUri s) (Seconds deadline)
      price tok iso (ms_Cancellable s) :: calls) o) as Hmint
    by (intros; eapply prepared_minting; eauto; by exists now).
  apply orRespond_rule.
  2-3: intros x1 e E; rewrite E in Lm; apply (ran_call _ _ _ _ _ Lm); apply ran_none; [done|];
    apply Hmint; constructor.
  intros x1 [txID tokenID] E. rewrite E in Lm. apply (ran_call _ _ _ _ _ Lm). clear E Lm x.
  apply lift_rule; destruct (ms_MintId s) as [mintID|] eqn:Eid; try done.
  2: intros p [= <-]; apply ran_none; [done|]; apply Hmint; by constructor.
  intros ? [= <-]. apply bind_rule.
  - intros x2 [] E. apply subscribe_log in E as [L2 _]. apply (ran_call _ _ _ _ _ L2).
    apply ran_none; [done|]. apply Hmint. by constructor.
  - intros x2 e E. apply subscribe_log in E as [_ Hne]. by destruct (Hne e).
  - intros x2 p E. apply subscribe_log in E as [L2 _]. apply (ran_call _ _ _ _ _ L2).
    apply ran_none; [done|]. apply Hmint. by constructor.
Qed.

(** How a purchase that was tried can end. *)
Inductive buying (s : MintSuccessResponse P) :
    list MintEvent → outcome (MintResponse P) → Prop :=
  | buying_failed msg : buying s [] (Ok (mintErrResponse ERROR_CODE_BLOCKCHAIN_ERROR msg))
  | buying_panicked p : buying s [] (Panic p)
  | buying_done txHash :
      ms_Cancellable s = false →
      buying s [] (Ok (MintResponse_SuccessResponse (Some (bought s txHash (ms_Header s)))))
  | buying_watched txHash header :
      ms_Cancellable s = true →
      (header = ms_Header s ∨ ∃ alerts msg, ms_Header s = Some alerts ∧
                                            header = Some (alerts ++ [msg])) →
      buying s [EvSubscribeCancellation (ms_BookingTokenId s)]
        (Ok (MintResponse_SuccessResponse (Some (bought s txHash header))))
  | buying_watch_panicked p :
      ms_Cancellable s = true →
      buying s [EvSubscribeCancellation (ms_BookingTokenId s)] (Panic p).

(** How processing the success response [s] can end. *)
Inductive processed (request : MintRequest P) (s : MintSuccessResponse P) :
    list MintEvent → outcome (MintResponse P) → Prop :=
  | processed_refused code msg :
      code ≠ ERROR_CODE_BLOCKCHAIN_ERROR →
      processed request s [] (Ok (mintErrResponse code msg))
  | processed_panicked p : processed request s [] (Panic p)
  | processed_buying price tok iso calls o :
      mr_ExpectedPrice request = ms_Price s →
      is_Some (ms_MintTransactionId s) →
      priced GetPriceAndToken (ms_Price s) (price, tok, iso) →
      buying s calls o →
      processed request s (EvBuy (ms_BookingTokenId s) price tok :: calls) o.

Lemma processMintResponse_spec request response s x :
  GetSuccessResponse response = Some s →
  ran (processed request s) x (processMintResponse GetPriceAndToken request response x).
Proof.
  intros Hs. unfold processMintResponse. rewrite Hs.
  destruct (ms_MintTransactionId s) as [txid|] eqn:Etx;
    [|apply ran_none; [done|by constructor]].
  case_bool_decide as Hprice; cbn [negb]; [|apply ran_none; [done|by constructor]].
  apply orRespond_rule.
  2-3: intros x1 e E; apply ran_none; [by eapply keeps_log|by constructor].
  intros x1 [[price tok] iso] E. apply (ran_from _ _ _ _ (keeps_log _ _ _ _ (price_log _) E)).
  assert (∀ calls o, buying s calls o →
    processed request s (EvBuy (ms_BookingTokenId s) price tok :: calls) o) as Hbuy
    by (intros; eapply processed_buying; eauto; exists x; by rewrite E).
  clear x E. rename x1 into x.
  pose proof (log_buy (ms_BookingTokenId s) price tok x) as Lb.
  apply orRespond_rule.
  2-3: intros x1 e E; rewrite E in Lb; apply (ran_call _ _ _ _ _ Lb); apply ran_none; [done|];
    apply Hbuy; constructor.
  intros x1 txHash E. rewrite E in Lb. apply (ran_call _ _ _ _ _ Lb). clear E Lb x.
  destruct (ms_Cancellable s) eqn:Ec; [|apply ran_none; [done|]; apply Hbuy; by constructor].
  pose proof (log_cancel (ms_BookingTokenId s) x1) as Lc.
  unfold attempt, mbind, M_bind.
  destruct (svc_SubscribeCancellationEvents (ms_BookingTokenId s) x1) as [x2 [u|e|p]];
    apply (ran_call _ _ _ _ _ Lc); cbn.
  - apply ran_none; [done|]. apply Hbuy. constructor; auto.
  - unfold liftO, deref. destruct (ms_MintId s); cbn;
      [destruct (ms_Header s) as [alerts|] eqn:Eh; cbn|];
      (apply ran_none; [done|]); apply Hbuy; constructor; eauto 6.
  - apply ran_none; [done|]. apply Hbuy. by constructor.
Qed.
End Versions45.

(** *** Version 3 *)
Section Version3.
Variable window : tokenBuyableUntil.
Variable IsHexAddress : string → bool.
Variable HexToAddress : string → Z.
Variable json_Marshal : hotelJSON → outcome string.
Variable base64_EncodeToString : string → string.

Inductive minting3 (r : MintResponseV3) (uri : string) (deadline : Timestamp) :
    list MintEvent → outcome MintResponseV3 → Prop :=
  | minting3_failed msg : minting3 r uri deadline [] (Ok (mintErrResponseV3 msg))
  | minting3_panicked p : minting3 r uri deadline [] (Panic p)
  | minting3_no_id : m3_MintId r = None → minting3 r uri deadline [] (Panic nilDeref)
  | minting3_done tokenID mintID txID h :
      m3_MintId r = Some mintID → m3_Header r = Some h →
      minting3 r uri deadline [EvSubscribeBought tokenID mintID (Seconds deadline * Second)]
        (Ok (reserved_v3 r uri deadline tokenID txID h))
  | minting3_subscribe_panicked tokenID mintID p :
      m3_MintId r = Some mintID →
      minting3 r uri deadline [EvSubscribeBought tokenID mintID (Seconds deadline * Second)] (Panic p).

(** How preparing a version 3 response can end: handed on as it is when it is no
    success, answered with an error, or minted. *)
Inductive prepared3 (request : MintRequestV3) (r : MintResponseV3) :
    list MintEvent → outcome MintResponseV3 → Prop :=
  | prepared3_as_is h :
      m3_Header r = Some h → h3_Status h ≠ STATUS_TYPE_SUCCESS → prepared3 request r [] (Ok r)
  | prepared3_refused msg : prepared3 request r [] (Ok (mintErrResponseV3 msg))
  | prepared3_panicked p : prepared3 request r [] (Panic p)
  | prepared3_minting buyer uri deadline price tok iso calls o :
      mr3_BuyerAddress request = Some buyer → IsHexAddress buyer = true →
      tokenURI_v3 json_Marshal base64_EncodeToString request r = Ok uri →
      deadline_ok window (m3_BuyableUntil r) deadline →
      priced svc_GetPriceAndTokenV3 (m3_Price r) (price, tok, iso) →
      minting3 r uri deadline calls o →
      prepared3 request r
        (EvMint (HexToAddress buyer) uri (Seconds deadline) price tok iso (m3_Cancellable r)
           :: calls) o.

Lemma prepareMintResponseV3_spec request r x :
  ran (prepared3 request r) x
    (prepareMintResponseV3 window IsHexAddress HexToAddress json_Marshal base64_EncodeToString
       request r x).
Proof.
  unfold prepareMintResponseV3.
  apply lift_rule; unfold deref at 1; destruct (m3_Header r) as [h|] eqn:Eh; try done.
  2: intros p _; apply ran_none; [done|constructor].
  intros ? [= <-]. destruct (Z.eqb_spec (h3_Status h) STATUS_TYPE_SUCCESS) as [Es|Es]; cbn [negb];
    [|apply ran_none; [done|by econstructor]].
  apply lift_rule; unfold deref at 1; destruct (mr3_BuyerAddress request) as [buyer|] eqn:Eb; try done.
  2: intros p _; apply ran_none; [done|constructor].
  intros ? [= <-]. destruct (IsHexAddress buyer) eqn:Ehex; cbn [negb];
    [|apply ran_none; [done|constructor]].
  apply orRespond_lift_rule.
  2-3: intros; apply ran_none; [done|constructor].
  intros uri Euri.
  apply now_rule. intros x1 now L1. apply (ran_from _ _ _ _ L1). clear x L1. rename x1 into x.
  apply orRespond_lift_rule.
  2-3: intros; apply ran_none; [done|constructor].
  intros deadline Hd. apply orRespond_rule.
  2-3: intros x1 e E; apply ran_none; [by eapply keeps_log; [apply log_price3|]|constructor].
  intros x1 [[price tok] iso] E. apply (ran_from _ _ _ _ (keeps_log _ _ _ _ (log_price3 _) E)).
  assert (∀ calls o, minting3 r uri deadline calls o →
    prepared3 request r (EvMint (HexToAddress buyer) uri (Seconds deadline)
      price tok iso (m3_Cancellable r) :: calls) o) as Hmint.
  { intros. eapply prepared3_minting; eauto; [by exists now|exists x; by rewrite E]. }
  clear x E. rename x1 into x.
  pose proof (log_mint (HexToAddress buyer) uri (Seconds deadline) price tok iso
    (m3_Cancellable r) x) as Lm.
  apply orRespond_rule.
  2-3: intros x1 e E; rewrite E in Lm; apply (ran_call _ _ _ _ _ Lm); apply ran_none; [done|];
    apply Hmint; constructor.
  intros x1 [txID tokenID] E. rewrite E in Lm. apply (ran_call _ _ _ _ _ Lm). clear E Lm x.
  apply lift_rule; unfold deref; destruct (m3_MintId r) as [mintID|] eqn:Eid; try done.
  2: intros p [= <-]; apply ran_none; [done|]; apply Hmint; by constructor.
  intros ? [= <-]. apply bind_rule.
  - intros x2 [] E. apply subscribe_log in E as [L2 _]. apply (ran_call _ _ _ _ _ L2).
    apply ran_none; [done|]. apply Hmint. by constructor.
  - intros x2 e E. apply subscribe_log in E as [_ Hne]. by destruct (Hne e).
  - intros x2 p E. apply subscribe_log in E as [L2 _]. apply (ran_call _ _ _ _ _ L2).
    apply ran_none; [done|]. apply Hmint. by constructor.
Qed.

Inductive buying3 (r : MintResponseV3) (h : HeaderV3) :
    list MintEvent → outcome MintResponseV3 → Prop :=
  | buying3_failed msg : buying3 r h [] (Ok (mintErrResponseV3 msg))
  | buying3_panicked p : buying3 r h [] (Panic p)
  | buying3_done txHash :
      m3_Cancellable r = false → buying3 r h [] (Ok (bought_v3 r txHash (Some h)))
  | buying3_watched txHash alerts :
      m3_Cancellable r = true → (alerts = [] ∨ ∃ msg, alerts = [msg]) →
      buying3 r h [EvSubscribeCancellation (m3_BookingTokenId r)]
        (Ok (bought_v3 r txHash
               (Some {| h3_Status := h3_Status h; h3_Alerts := h3_Alerts h ++ alerts |})))
  | buying3_watch_panicked p :
      m3_Cancellable r = true →
      buying3 r h [EvSubscribeCancellation (m3_BookingTokenId r)] (Panic p).

(** How processing a version 3 response can end. *)
Inductive processed3 (r : MintResponseV3) : list MintEvent → outcome MintResponseV3 → Prop :=
  | processed3_as_is h :
      m3_Header r = Some h → h3_Status h = STATUS_TYPE_FAILURE → processed3 r [] (Ok r)
  | processed3_refused msg : processed3 r [] (Ok (mintErrResponseV3 msg))
  | processed3_panicked p : processed3 r [] (Panic p)
  | processed3_buying h txid price tok iso calls o :
      m3_Header r = Some h → h3_Status h ≠ STATUS_TYPE_FAILURE →
      m3_MintTransactionId r = Some txid → txid ≠ "" →
      priced svc_GetPriceAndTokenV3 (m3_Price r) (price, tok, iso) →
      buying3 r h calls o →
      processed3 r (EvBuy (m3_BookingTokenId r) price tok :: calls) o.

Lemma processMintResponseV3_spec r x : ran (processed3 r) x (processMintResponseV3 r x).
Proof.
  unfold processMintResponseV3.
  apply lift_rule; unfold deref at 1; destruct (m3_Header r) as [h|] eqn:Eh; try done.
  2: intros p _; apply ran_none; [done|constructor].
  intros ? [= <-]. destruct (Z.eqb_spec (h3_Status h) STATUS_TYPE_FAILURE) as [Es|Es];
    [apply ran_none; [done|by econstructor]|].
  destruct (m3_MintTransactionId r) as [[|c txid]|] eqn:Etx;
    [apply ran_none; [done|constructor]| |apply ran_none; [done|constructor]].
  apply orRespond_rule.
  2-3: intros x1 e E; apply ran_none; [by eapply keeps_log; [apply log_price3|]|constructor].
  intros x1 [[price tok] iso] E. apply (ran_from _ _ _ _ (keeps_log _ _ _ _ (log_price3 _) E)).
  assert (∀ calls o, buying3 r h calls o →
    processed3 r (EvBuy (m3_BookingTokenId r) price tok :: calls) o) as Hbuy
    by (intros; eapply processed3_buying; eauto; exists x; by rewrite E).
  clear x E. rename x1 into x.
  pose proof (log_buy (m3_BookingTokenId r) price tok x) as Lb.
  apply orRespond_rule.
  2-3: intros x1 e E; rewrite E in Lb; apply (ran_call _ _ _ _ _ Lb); apply ran_none; [done|];
    apply Hbuy; constructor.
  intros x1 txHash E. rewrite E in Lb. apply (ran_call _ _ _ _ _ Lb). clear E Lb x.
  destruct (m3_Cancellable r) eqn:Ec; [|apply ran_none; [done|]; apply Hbuy; by constructor].
  pose proof (log_cancel (m3_BookingTokenId r) x1) as Lc.
  unfold attempt, mbind, M_bind.
  destruct (svc_SubscribeCancellationEvents (m3_BookingTokenId r) x1) as [x2 [u|e|p]];
    apply (ran_call _ _ _ _ _ Lc); cbn.
  - apply ran_none; [done|]. apply Hbuy.
    replace h with {| h3_Status := h3_Status h; h3_Alerts := h3_Alerts h ++ [] |} at 2
      by (rewrite app_nil_r; by destruct h).
    constructor; auto.
  - unfold liftO, deref. destruct (m3_MintId r); cbn;
      (apply ran_none; [done|]); apply Hbuy; constructor; eauto.
  - apply ran_none; [done|]. apply Hbuy. by constructor.
Qed.
End Version3.
End Facts.

(** ** Properties *)
Section Properties.
Context {X : Type} `{!MintServices X} `{!MintServicesLaws X}.
Variable window : tokenBuyableUntil.
Variable hex : string → Z.


(** C21: the distributor, versions 4 and 5: a token is bought at most once, and only
    when the response is a success with a mint transaction whose price equals the
    one the request expects; it is the token of the response, at that price.  After
    the purchase a cancellable booking is watched for cancellation, and a failure
    to do so only adds an alert. *)
Theorem processMintResponse_ends
    (request4 : MintRequest PriceV4) response4 (request5 : MintRequest PriceV5) response5 (x : X) :
  match GetSuccessResponse response4 with
  | None => processMintResponseV4 request4 response4 x = (x, Ok response4)
  | Some s => ran (processed svc_GetPriceAndTokenV4 request4 s) x
                (processMintResponseV4 request4 response4 x)
  end ∧
  match GetSuccessResponse response5 with
  | None => processMintResponseV5 request5 response5 x = (x, Ok response5)
  | Some s => ran (processed svc_GetPriceAndTokenV5 request5 s) x
                (processMintResponseV5 request5 response5 x)
  end.
Proof.
  split; (destruct (GetSuccessResponse _) as [s|] eqn:Es;
    [apply processMintResponse_spec; auto using log_price4, log_price5|]).
  - unfold processMintResponseV4, processMintResponse. by rewrite Es.
  - unfold processMintResponseV5, processMintResponse. by rewrite Es.
Qed.

(** Version 3: the supplier mints only for a response of status success and a
    buyer with a valid address, the distributor buys only a response that is no
    failure and names a mint transaction; the version has no expected price to
    compare. *)
Lemma mintV3_ends IsHexAddress json_Marshal base64 request (response : MintResponseV3) (x : X) :
  ran (prepared3 window IsHexAddress hex json_Marshal base64 request response) x
    (prepareMintResponseV3 window IsHexAddress hex json_Marshal base64 request response x) ∧
  ran (processed3 response) x (processMintResponseV3 response x).
Proof. split; [apply prepareMintResponseV3_spec|apply processMintResponseV3_spec]. Qed.
End Properties.

(** The deadline of a reservation is refused exactly when it is set and in the
    past; otherwise it ends up within the window around the current time, one that
    lies in the window is kept, and the two configurations are such windows. *)
Lemma buyable_until_window w t now :
  0 ≤ Minimal w ≤ Default w → Default w ≤ Maximal w →
  let sec x := Seconds (timestamp_New x) in
  match verifyAndFixBuyableUntil w t now with
  | Ok d =>
      sec (now + Minimal w) ≤ Seconds d ≤ sec (now + Maximal w) ∧
      ∀ ts, t = Some ts → Seconds ts ≠ 0 →
        sec (now + Minimal w) ≤ Seconds ts ≤ sec (now + Maximal w) → d = ts
  | Err e => e = errBuyableUntilPast ∧ ∃ ts, t = Some ts ∧ Seconds ts ≠ 0 ∧ Seconds ts < sec now
  | Panic _ => False
  end.
Proof.
  intros Hmin Hmax. cbn [Seconds timestamp_New].
  assert (∀ a b, a ≤ b → a / Second ≤ b / Second) as Hdiv
    by (intros; apply Z.div_le_mono; unfold Second; lia).
  pose proof (Hdiv (now + Minimal w) (now + Default w) ltac:(lia)).
  pose proof (Hdiv (now + Default w) (now + Maximal w) ltac:(lia)).
  pose proof (Hdiv now (now + Minimal w) ltac:(lia)).
  unfold verifyAndFixBuyableUntil. destruct t as [ts|]; cbn [Seconds timestamp_New].
  - zcase; cbn [Seconds timestamp_New]; try (split; [lia|]); try (intros ? [= <-]; intros); try lia;
      try done.
    split; [done|]. eauto.
  - split; [lia|]. done.
Qed.

(** ** Services that run, and witnesses *)
Module Toy.
(** The state is the log itself; token 3 is minted, at price 100 in token 5. *)
Definition record (ev : MintEvent) {A} (a : A) : M (list MintEvent) A := λ l, (l ++ [ev], Ok a).

#[global] Instance services : MintServices (list MintEvent) := {
  log l := l;
  Now := retS (1000 * Second);
  svc_GetPriceAndTokenV3 _ := retS (100, 5, 0);
  svc_GetPriceAndTokenV4 _ := retS (100, 5, 0);
  svc_GetPriceAndTokenV5 _ := retS (100, 5, 0);
  svc_MintBookingToken a u e p t i c := record (EvMint a u e p t i c) ("0xaa", 3);
  svc_BuyBookingToken i p t := record (EvBuy i p t) "0xbb";
  svc_SubscribeTokenBoughtEvent i m t := record (EvSubscribeBought i m t) tt;
  svc_SubscribeCancellationEvents i := record (EvSubscribeCancellation i) tt;
  error_text _ := "error"
}.

#[global] Instance laws : MintServicesLaws (list MintEvent).
Proof. split; done. Qed.

Definition price4 : PriceV4 := {| v4_Value := "1"; v4_Decimals := 0; v4_Currency := None |}.
Definition request4 : MintRequest PriceV4 :=
  {| mr_ValidationId := Some "v"; mr_BuyerAddress := Some "0x1"; mr_ExpectedPrice := Some price4 |}.
Definition success4 (id tx : option string) : MintSuccessResponse PriceV4 :=
  {| ms_Header := Some []; ms_BookingTokenUri := "ipfs://x"; ms_MintId := id; ms_ValidationId := Some "v";
     ms_BuyableUntil := None; ms_Price := Some price4; ms_Cancellable := true;
     ms_BookingTokenId := 3; ms_MintTransactionId := tx; ms_BuyTransactionId := None |}.
Definition response4 id tx := MintResponse_SuccessResponse (Some (success4 id tx)).
Definition response3 : MintResponseV3 :=
  {| m3_Header := Some {| h3_Status := 1; h3_Alerts := [] |}; m3_BookingTokenUri := "ipfs://x";
     m3_MintId := Some "m"; m3_ValidationId := Some "v";
     m3_BuyableUntil := None; m3_Price := None; m3_Cancellable := false;
     m3_BookingTokenId := 3; m3_MintTransactionId := Some "0xaa"; m3_BuyTransactionId := None |}.
Definition request3 : MintRequestV3 :=
  {| mr3_ValidationId := Some "v"; mr3_BuyerAddress := Some "0x1"; BookingReference := "ref" |}.
Definition hex (_ : string) : Z := 8.
End Toy.


Lemma processMintResponse_ends_witness :
  ran (processed svc_GetPriceAndTokenV4 Toy.request4 (Toy.success4 (Some "m") (Some "0xaa"))) []
    (processMintResponseV4 Toy.request4 (Toy.response4 (Some "m") (Some "0xaa")) []) ∧
  (processMintResponseV4 Toy.request4 (Toy.response4 (Some "m") (Some "0xaa")) []).1 =
    [EvBuy 3 100 5; EvSubscribeCancellation 3].
Proof.
  split; [|vm_compute; reflexivity].
  apply (processMintResponse_ends Toy.request4 (Toy.response4 (Some "m") (Some "0xaa"))
    {| mr_ValidationId := None; mr_BuyerAddress := None; mr_ExpectedPrice := None |} MintResponse_unset []).
Defined.

