(* ===== verification/Cancellation.v ===== *)
(** * The cancellation services (internal/cancellation)

    The six operations on a cancellation proposal, for the three versions of the
    protocol: each turns a request of the partner plugin into one transaction of
    the bot's TTM account.  The price handler and the validation of requests are
    parameters; the transactions are those of [TtmAccounts]. *)
From S2P Require Import Prelude Cache Conversion Price TtmAccounts Mint.

#[local] Open Scope Z_scope.
#[local] Arguments String.append : simpl nomatch.

Definition cancellationReasonVersion : Z := 1.
Definition withdrawReasonVersion : Z := 1.
Definition rejectReasonVersion : Z := 1.
Definition counterReasonVersion : Z := 1.

(** The requests, over the price type of the version: initiating and countering name
    an amount and a reason, accepting and finalizing an amount, rejecting and
    withdrawing a reason. *)
Record ProposalRequest (P : Type) :=
  { prq_TokenId : Z; prq_RefundAmount : option P; prq_Reason : Z }.
Record AmountRequest (P : Type) := { arq_TokenId : Z; arq_RefundAmount : option P }.
Record ReasonRequest := { rrq_TokenId : Z; rrq_Reason : Z }.
Arguments prq_TokenId {P} _.
Arguments prq_RefundAmount {P} _.
Arguments prq_Reason {P} _.
Arguments arq_TokenId {P} _.
Arguments arq_RefundAmount {P} _.

(** The responses of versions 2 and 3, and of version 1. *)
Inductive CancelCode := INVALID_PROTO | INTERNAL | BLOCKCHAIN_ERROR.

Inductive CancelResponse :=
  | SuccessResponse (TransactionId : Z)
  | ErrorResponse (code : CancelCode) (message : string).

Record CancelResponseV1 := { Status : Z; Alerts : list string; TransactionId : option Z }.

Definition errorResponseV1 (errorMessage : string) : CancelResponseV1 :=
  {| Status := STATUS_TYPE_FAILURE; Alerts := [errorMessage]; TransactionId := None |}.
Definition successResponseV1 (txHash : Z) : CancelResponseV1 :=
  {| Status := STATUS_TYPE_SUCCESS; Alerts := []; TransactionId := Some txHash |}.

Section Handlers.
Context `{Chain W B Opts PrivateKey Tx L} {C : Type} `{!LruCache Z B C}.
Variable chainID : Z.
Variable revertABIs : list (list AbiError).
Variable botKey : PrivateKey.
Variable ttmAccountAddr : Z.
Variable error_text : error → string.

Abbreviation state := (service W C).

Variable GetPriceAndTokenV3 : option PriceV3 → M state (Z * Z * Z).
Variable GetPriceAndTokenV4 : option PriceV4 → M state (Z * Z * Z).
Variable GetPriceAndTokenV5 : option PriceV5 → M state (Z * Z * Z).

(** *** The steps the handlers share *)
Section Steps.
Context {R : Type}.
Variable respond : CancelCode → string → R.
Variable success : Z → R.

Definition amount_of {P} (get : option P → M state (Z * Z * Z)) (text : string) (p : option P)
    (k : Z → M state R) : M state R :=
  orRespond (get p) (λ e, respond INTERNAL (text +:+ error_text e)) (λ '(refundAmount, _, _),
    k refundAmount).

Definition reason_of (reason : Z) (k : Z → M state R) : M state R :=
  orRespond (liftO (ProtoEnumNumberToUInt16 reason))
    (λ e, respond INTERNAL ("error converting reason to uint16: " +:+ error_text e)) k.

Definition submit (text : string) (tx : M state (Receipt L)) : M state R :=
  orRespond tx (λ e, respond BLOCKCHAIN_ERROR (text +:+ error_text e))
    (λ receipt, retS (success (rec_TxHash receipt))).
End Steps.

Definition price_text : string := "error getting price and token: ".

(** *** Version 1 *)
Definition respondV1 (_ : CancelCode) : string → CancelResponseV1 := errorResponseV1.

Definition InitiateCancellationV1 (request : ProposalRequest PriceV3) : M state CancelResponseV1 :=
  amount_of respondV1 GetPriceAndTokenV3 price_text (prq_RefundAmount request) (λ refundAmount,
  reason_of respondV1 (prq_Reason request) (λ reasonValue,
  submit respondV1 successResponseV1 "error initiating cancellation proposal: "
    (InitiateCancellationProposal chainID revertABIs botKey ttmAccountAddr (prq_TokenId request)
       refundAmount reasonValue cancellationReasonVersion))).

Definition CounterCancellationV1 (request : ProposalRequest PriceV3) : M state CancelResponseV1 :=
  amount_of respondV1 GetPriceAndTokenV3 price_text (prq_RefundAmount request) (λ refundAmount,
  reason_of respondV1 (prq_Reason request) (λ reasonValue,
  submit respondV1 successResponseV1 "error countering cancellation proposal: "
    (CounterCancellation chainID revertABIs botKey ttmAccountAddr (prq_TokenId request)
       refundAmount reasonValue counterReasonVersion))).

Definition AcceptCancellationV1 (request : AmountRequest PriceV3) : M state CancelResponseV1 :=
  amount_of respondV1 GetPriceAndTokenV3 "error getting price and payment token: "
    (arq_RefundAmount request) (λ refundAmount,
  submit respondV1 successResponseV1 "error accepting cancellation proposal: "
    (AcceptCancellationProposal chainID revertABIs botKey ttmAccountAddr (arq_TokenId request)
       refundAmount)).

Definition RejectCancellationV1 (request : ReasonRequest) : M state CancelResponseV1 :=
  reason_of respondV1 (rrq_Reason request) (λ reasonValue,
  submit respondV1 successResponseV1 "error rejecting cancellation proposal: "
    (RejectCancellationProposal chainID revertABIs botKey ttmAccountAddr (rrq_TokenId request)
       reasonValue rejectReasonVersion)).

Definition WithdrawCancellationV1 (request : ReasonRequest) : M state CancelResponseV1 :=
  reason_of respondV1 (rrq_Reason request) (λ reasonValue,
  submit respondV1 successResponseV1 "error withdrawing cancellation proposal: "
    (WithdrawCancellation chainID revertABIs botKey ttmAccountAddr (rrq_TokenId request)
       reasonValue withdrawReasonVersion)).

Definition FinalizeCancellationV1 (request : AmountRequest PriceV3) : M state CancelResponseV1 :=
  amount_of respondV1 GetPriceAndTokenV3 price_text (arq_RefundAmount request) (λ refundAmount,
  submit respondV1 successResponseV1 "error finalizing cancellation proposal: "
    (FinalizeCancellation chainID revertABIs botKey ttmAccountAddr (arq_TokenId request)
       refundAmount)).

(** *** Versions 2 and 3 *)
Section Versions23.
Context {P : Type}.
Variable GetPriceAndToken : option P → M state (Z * Z * Z).
Variable Validate_proposal : ProposalRequest P → option error.
Variable Validate_amount : AmountRequest P → option error.
Variable Validate_reason : ReasonRequest → option error.

Definition validated (invalid : option error) (k : M state CancelResponse) : M state CancelResponse :=
  match invalid with
  | Some e => retS (ErrorResponse INVALID_PROTO ("request validation failed: " +:+ error_text e))
  | None => k
  end.

Definition InitiateCancellation (request : ProposalRequest P) : M state CancelResponse :=
  validated (Validate_proposal request) (
  amount_of ErrorResponse GetPriceAndToken price_text (prq_RefundAmount request) (λ refundAmount,
  reason_of ErrorResponse (prq_Reason request) (λ reasonValue,
  submit ErrorResponse SuccessResponse "error initiating cancellation proposal: "
    (InitiateCancellationProposal chainID revertABIs botKey ttmAccountAddr (prq_TokenId request)
       refundAmount reasonValue cancellationReasonVersion)))).

Definition CounterCancellation (request : ProposalRequest P) : M state CancelResponse :=
  validated (Validate_proposal request) (
  amount_of ErrorResponse GetPriceAndToken price_text (prq_RefundAmount request) (λ refundAmount,
  reason_of ErrorResponse (prq_Reason request) (λ reasonValue,
  submit ErrorResponse SuccessResponse "error countering cancellation proposal: "
    (TtmAccounts.CounterCancellation chainID revertABIs botKey ttmAccountAddr
       (prq_TokenId request) refundAmount reasonValue counterReasonVersion)))).

Definition AcceptCancellation (request : AmountRequest P) : M state CancelResponse :=
  validated (Validate_amount request) (
  amount_of ErrorResponse GetPriceAndToken price_text (arq_RefundAmount request) (λ refundAmount,
  submit ErrorResponse SuccessResponse "error accepting cancellation proposal: "
    (AcceptCancellationProposal chainID revertABIs botKey ttmAccountAddr (arq_TokenId request)
       refundAmount))).

Definition RejectCancellation (request : ReasonRequest) : M state CancelResponse :=
  validated (Validate_reason request) (
  reason_of ErrorResponse (rrq_Reason request) (λ reasonValue,
  submit ErrorResponse SuccessResponse "error rejecting cancellation proposal: "
    (RejectCancellationProposal chainID revertABIs botKey ttmAccountAddr (rrq_TokenId request)
       reasonValue rejectReasonVersion))).

Definition WithdrawCancellation (request : ReasonRequest) : M state CancelResponse :=
  validated (Validate_reason request) (
  reason_of ErrorResponse (rrq_Reason request) (λ reasonValue,
  submit ErrorResponse SuccessResponse "error withdrawing cancellation proposal: "
    (TtmAccounts.WithdrawCancellation chainID revertABIs botKey ttmAccountAddr
       (rrq_TokenId request) reasonValue withdrawReasonVersion))).

Definition FinalizeCancellation (request : AmountRequest P) : M state CancelResponse :=
  validated (Validate_amount request) (
  amount_of ErrorResponse GetPriceAndToken price_text (arq_RefundAmount request) (λ refundAmount,
  submit ErrorResponse SuccessResponse "error finalizing cancellation proposal: "
    (TtmAccounts.FinalizeCancellation chainID revertABIs botKey ttmAccountAddr
       (arq_TokenId request) refundAmount))).
End Versions23.

Definition InitiateCancellationV2 := InitiateCancellation GetPriceAndTokenV4.
Definition CounterCancellationV2 := CounterCancellation GetPriceAndTokenV4.
Definition AcceptCancellationV2 := AcceptCancellation GetPriceAndTokenV4.
Definition FinalizeCancellationV2 := FinalizeCancellation GetPriceAndTokenV4.
Definition RejectCancellationV2 := RejectCancellation.
Definition WithdrawCancellationV2 := WithdrawCancellation.
Definition InitiateCancellationV3 := InitiateCancellation GetPriceAndTokenV5.
Definition CounterCancellationV3 := CounterCancellation GetPriceAndTokenV5.
Definition AcceptCancellationV3 := AcceptCancellation GetPriceAndTokenV5.
Definition FinalizeCancellationV3 := FinalizeCancellation GetPriceAndTokenV5.
Definition RejectCancellationV3 := RejectCancellation.
Definition WithdrawCancellationV3 := WithdrawCancellation.

(** ** Lemmas *)

(** How a handler ends: it answers without having sent anything, or after one
    transaction it may send, with an error or with that transaction's hash. *)
Record answered {R} (is_error : R → Prop) (success : Z → R) (may : Call → Prop)
    (s : state) (r : state * outcome R) : Prop := {
  ans_cache : cache_ok r.1;
  ans_response : ∀ e, r.2 ≠ Err e;
  ans_calls :
    (attempts (world r.1) = attempts (world s) ∧ ∀ a, r.2 = Ok a → is_error a) ∨
    (∃ call, may call ∧ attempts (world r.1) = attempts (world s) ++ [(ttmAccountAddr, call)] ∧
       ∀ a, r.2 = Ok a → is_error a ∨ ∃ h, a = success h)
}.

Section Rules.
Context {R : Type}.
Variable respond : CancelCode → string → R.
Variable success : Z → R.
Variable is_error : R → Prop.
Hypothesis respond_error : ∀ c m, is_error (respond c m).

Lemma answered_stop may s s' o :
  cache_ok s' → world s' = world s → (∀ e, o ≠ Err e) → (∀ a, o = Ok a → is_error a) →
  answered is_error success may s (s', o).
Proof. intros Hc Hw He Ha. split; [done|done|]. left. simpl. by rewrite Hw. Qed.

(** A price handler reads: it keeps the cache sound and sends nothing. *)
Definition reads {A} (m : M state A) : Prop :=
  ∀ s, cache_ok s → cache_ok (m s).1 ∧ attempts (world (m s).1) = attempts (world s).

Lemma answered_amount {P} (get : option P → M state (Z * Z * Z)) text p k may s :
  reads (get p) → cache_ok s →
  (∀ s' amount tok iso, (get p s).2 = Ok (amount, tok, iso) → cache_ok s' →
     answered is_error success may s' (k amount s')) →
  answered is_error success may s (amount_of respond get text p k s).
Proof.
  intros Hg Hs Hk. destruct (Hg s Hs) as [Hc Ha]. unfold amount_of. apply orRespond_rule.
  - intros s' [[amount tok] iso] E. rewrite E in *. simpl in *.
    destruct (Hk s' amount tok iso eq_refl Hc) as [H1 H2 H3]. split; [done|done|].
    by rewrite Ha in H3.
  - intros s' e E. rewrite E in *. split; [done|done|]. left. simpl. split; [done|].
    intros a [= <-]. apply respond_error.
  - intros s' q E. rewrite E in *. split; [done|done|]. by left.
Qed.

Lemma answered_reason reason k may s :
  cache_ok s →
  (in_uint 16 reason → answered is_error success may s (k reason s)) →
  answered is_error success may s (reason_of respond reason k s).
Proof.
  intros Hs Hk. unfold reason_of. apply orRespond_lift_rule.
  - intros a Ha. unfold ProtoEnumNumberToUInt16 in Ha.
    destruct (_ || _) eqn:Eb in Ha; [done|].
    apply orb_false_iff in Eb as [E1%Z.ltb_ge E2%Z.ltb_ge].
    assert (in_uint 16 reason) as Hr
      by (unfold in_uint, MaxUint16 in *; change (2 ^ 16) with 65536; lia).
    rewrite uwrap_small in Ha by done. injection Ha as <-. by apply Hk.
  - intros e _. apply answered_stop; try done. intros a [= <-]. apply respond_error.
  - intros q _. by apply answered_stop.
Qed.

Lemma answered_submit text tx call (may : Call → Prop) s :
  sends ttmAccountAddr call tx → may call → cache_ok s →
  answered is_error success may s (submit respond success text tx s).
Proof.
  intros Htx Hmay Hs. destruct (Htx s Hs) as [Hc Ha]. unfold submit. apply orRespond_rule.
  - intros s' rec E. rewrite E in *. simpl in *. destruct Ha as [[_ ?]|[Ha _]]; [done|].
    split; [done|done|]. right. exists call. split; [done|]. split; [done|].
    intros a [= <-]. eauto.
  - intros s' e E. rewrite E in *. simpl in *.
    assert (∀ a, Ok (respond BLOCKCHAIN_ERROR (text +:+ error_text e)) = Ok a → is_error a)
      as Herr by (intros a [= <-]; apply respond_error).
    split; [done|done|]. destruct Ha as [[Ha _]|[Ha _]]; [by left|]. right. exists call. auto.
  - intros s' q E. rewrite E in *. simpl in *.
    split; [done|done|]. destruct Ha as [[Ha _]|[Ha _]]; [by left|]. right. by exists call.
Qed.
End Rules.
End Handlers.

(** ** Properties *)
Section Properties.
Context `{Chain W B Opts PrivateKey Tx L} {C : Type} `{!LruCache Z B C}.
Variable chainID : Z.
Variable abis : list (list AbiError).
Variable key : PrivateKey.
Variable acct : Z.
Variable text : error → string.

Abbreviation state := (service W C).

(** The transactions a request stands for: its token, the converted amount, and its
    reason, which fits 16 bits, with the version of the list of reasons. *)
Definition priced {P} (get : option P → M state (Z * Z * Z)) (p : option P) (amount : Z) : Prop :=
  ∃ s tok iso, (get p s).2 = Ok (amount, tok, iso).
Definition proposal_call {P} (mk : Z → Z → Z → Z → Call) (get : option P → M state (Z * Z * Z))
    (q : ProposalRequest P) (call : Call) : Prop :=
  ∃ amount, priced get (prq_RefundAmount q) amount ∧ in_uint 16 (prq_Reason q) ∧
    call = mk (prq_TokenId q) amount (prq_Reason q) 1.
Definition amount_call {P} (mk : Z → Z → Call) (get : option P → M state (Z * Z * Z))
    (q : AmountRequest P) (call : Call) : Prop :=
  ∃ amount, priced get (arq_RefundAmount q) amount ∧ call = mk (arq_TokenId q) amount.
Definition reason_call (mk : Z → Z → Z → Call) (q : ReasonRequest) (call : Call) : Prop :=
  in_uint 16 (rrq_Reason q) ∧ call = mk (rrq_TokenId q) (rrq_Reason q) 1.

Definition is_error_response (a : CancelResponse) : Prop := ∃ c m, a = ErrorResponse c m.
Definition is_error_v1 (a : CancelResponseV1) : Prop :=
  Status a = STATUS_TYPE_FAILURE ∧ TransactionId a = None ∧ ∃ m, Alerts a = [m].

(** An invalid request is refused on the spot; a valid one is answered, after at most
    the transaction it stands for. *)
Definition handled (invalid : option error) (may : Call → Prop) (m : M state CancelResponse) : Prop :=
  ∀ s, cache_ok s →
    match invalid with
    | Some _ => ∃ msg, m s = (s, Ok (ErrorResponse INVALID_PROTO msg))
    | None => answered acct is_error_response SuccessResponse may s (m s)
    end.

Definition handled_v1 (may : Call → Prop) (m : M state CancelResponseV1) : Prop :=
  ∀ s, cache_ok s → answered acct is_error_v1 successResponseV1 may s (m s).

Section Generic.
Context {P : Type}.
Variable get : option P → M state (Z * Z * Z).
Hypothesis get_reads : ∀ p, reads (get p).

Lemma handled_validated invalid may m :
  (∀ s, cache_ok s → answered acct is_error_response SuccessResponse may s (m s)) →
  handled invalid may (validated text invalid m).
Proof. intros Hm s Hs. unfold validated. destruct invalid; [by eexists|by apply Hm]. Qed.

Lemma respond_is_error c m : is_error_response (ErrorResponse c m).
Proof. by exists c, m. Qed.

Lemma respondV1_is_error c m : is_error_v1 (respondV1 c m).
Proof. split; [done|]. split; [done|]. by exists m. Qed.
End Generic.

Ltac handle :=
  first
    [ apply answered_amount;
      [intros ? ?; (apply respond_is_error || apply respondV1_is_error)|auto|done|
       intros ? ? ? ? ? ?]
    | apply answered_reason;
      [intros ? ?; (apply respond_is_error || apply respondV1_is_error)|done|intros ?]
    | eapply answered_submit;
      [intros ? ?; (apply respond_is_error || apply respondV1_is_error)
      |apply sends_cancellation| |done]].

Lemma handled_all {P} (get : option P → M state (Z * Z * Z)) vp va vr
    (qp : ProposalRequest P) (qa : AmountRequest P) (qr : ReasonRequest) :
  (∀ p, reads (get p)) →
  handled (vp qp) (proposal_call CallInitiate get qp)
    (InitiateCancellation chainID abis key acct text get vp qp) ∧
  handled (vp qp) (proposal_call CallCounter get qp)
    (CounterCancellation chainID abis key acct text get vp qp) ∧
  handled (va qa) (amount_call CallAccept get qa)
    (AcceptCancellation chainID abis key acct text get va qa) ∧
  handled (vr qr) (reason_call CallReject qr)
    (RejectCancellation chainID abis key acct text vr qr) ∧
  handled (vr qr) (reason_call CallWithdraw qr)
    (WithdrawCancellation chainID abis key acct text vr qr) ∧
  handled (va qa) (amount_call CallFinalize get qa)
    (FinalizeCancellation chainID abis key acct text get va qa).
Proof.
  intros Hget. split_and!; apply handled_validated; intros s Hs; repeat handle.
  all: try (by split).
  all: eexists; split; [eexists _, _, _; eassumption|]; by try split.
Qed.

(** Versions 2 and 3 of the six cancellation operations: a request that fails
    validation is refused with nothing read or sent; any other is always answered,
    never with a Go error, after at most one transaction on the bot's account, the
    one its token, converted amount and reason stand for; and only after it does
    the answer say success. *)
Lemma cancellation_v2_v3 getV4 getV5 vp4 va4 vr4 vp5 va5 vr5 qp4 qa4 qp5 qa5 qr4 qr5 :
  (∀ p, reads (getV4 p)) → (∀ p, reads (getV5 p)) →
  (handled (vp4 qp4) (proposal_call CallInitiate getV4 qp4)
     (InitiateCancellationV2 chainID abis key acct text getV4 vp4 qp4) ∧
   handled (vp4 qp4) (proposal_call CallCounter getV4 qp4)
     (CounterCancellationV2 chainID abis key acct text getV4 vp4 qp4) ∧
   handled (va4 qa4) (amount_call CallAccept getV4 qa4)
     (AcceptCancellationV2 chainID abis key acct text getV4 va4 qa4) ∧
   handled (va4 qa4) (amount_call CallFinalize getV4 qa4)
     (FinalizeCancellationV2 chainID abis key acct text getV4 va4 qa4) ∧
   handled (vr4 qr4) (reason_call CallReject qr4)
     (RejectCancellationV2 chainID abis key acct text vr4 qr4) ∧
   handled (vr4 qr4) (reason_call CallWithdraw qr4)
     (WithdrawCancellationV2 chainID abis key acct text vr4 qr4)) ∧
  (handled (vp5 qp5) (proposal_call CallInitiate getV5 qp5)
     (InitiateCancellationV3 chainID abis key acct text getV5 vp5 qp5) ∧
   handled (vp5 qp5) (proposal_call CallCounter getV5 qp5)
     (CounterCancellationV3 chainID abis key acct text getV5 vp5 qp5) ∧
   handled (va5 qa5) (amount_call CallAccept getV5 qa5)
     (AcceptCancellationV3 chainID abis key acct text getV5 va5 qa5) ∧
   handled (va5 qa5) (amount_call CallFinalize getV5 qa5)
     (FinalizeCancellationV3 chainID abis key acct text getV5 va5 qa5) ∧
   handled (vr5 qr5) (reason_call CallReject qr5)
     (RejectCancellationV3 chainID abis key acct text vr5 qr5) ∧
   handled (vr5 qr5) (reason_call CallWithdraw qr5)
     (WithdrawCancellationV3 chainID abis key acct text vr5 qr5)).
Proof.
  intros H4 H5.
  destruct (handled_all getV4 vp4 va4 vr4 qp4 qa4 qr4 H4) as (? & ? & ? & ? & ? & ?).
  destruct (handled_all getV5 vp5 va5 vr5 qp5 qa5 qr5 H5) as (? & ? & ? & ? & ? & ?).
  done.
Qed.

(** Version 1 of the six operations, which does not validate: always answered,
    after at most the one transaction the request stands for; an error is a header
    of status failure with one alert and no transaction id. *)
Lemma cancellation_v1 getV3 qp qa qr :
  (∀ p, reads (getV3 p)) →
  handled_v1 (proposal_call CallInitiate getV3 qp)
    (InitiateCancellationV1 chainID abis key acct text getV3 qp) ∧
  handled_v1 (proposal_call CallCounter getV3 qp)
    (CounterCancellationV1 chainID abis key acct text getV3 qp) ∧
  handled_v1 (amount_call CallAccept getV3 qa)
    (AcceptCancellationV1 chainID abis key acct text getV3 qa) ∧
  handled_v1 (reason_call CallReject qr)
    (RejectCancellationV1 chainID abis key acct text qr) ∧
  handled_v1 (reason_call CallWithdraw qr)
    (WithdrawCancellationV1 chainID abis key acct text qr) ∧
  handled_v1 (amount_call CallFinalize getV3 qa)
    (FinalizeCancellationV1 chainID abis key acct text getV3 qa).
Proof.
  intros Hget. split_and!; intros s Hs; unfold InitiateCancellationV1, CounterCancellationV1,
    AcceptCancellationV1, RejectCancellationV1, WithdrawCancellationV1, FinalizeCancellationV1;
    repeat handle.
  all: try (by split).
  all: eexists; split; [eexists _, _, _; eassumption|]; by try split.
Qed.
End Properties.

(** ** Witnesses *)
Module Toy.
Import TtmAccounts.
#[local] Existing Instance TtmAccounts.Toy.cache.

Definition get {P} (p : option P) : M (TtmAccounts.Toy.service) (Z * Z * Z) := retS (100, 5, 0).

Lemma get_reads {P} (p : option P) : reads (get p).
Proof. by intros s Hs. Qed.

Definition proposal {P} : ProposalRequest P := {| prq_TokenId := 3; prq_RefundAmount := None; prq_Reason := 2 |}.
Definition amount {P} : AmountRequest P := {| arq_TokenId := 3; arq_RefundAmount := None |}.
Definition reason : ReasonRequest := {| rrq_TokenId := 3; rrq_Reason := 2 |}.
Definition start := TtmAccounts.Toy.start 0 [].
End Toy.

Section Witnesses.
#[local] Existing Instance TtmAccounts.Toy.cache.

Lemma cancellation_v2_v3_witness :
  answered 4 is_error_response SuccessResponse (proposal_call CallInitiate (Toy.get (P := PriceV4)) Toy.proposal)
    Toy.start (InitiateCancellationV2 1 [] 1 4 (λ _, "") Toy.get (λ _, None) Toy.proposal Toy.start) ∧
  attempts (world (InitiateCancellationV2 1 [] 1 4 (λ _, "") Toy.get (λ _, None) Toy.proposal
    Toy.start).1) = [(4, CallInitiate 3 100 2 1)].
Proof.
  split; [|vm_compute; reflexivity].
  exact (proj1 (proj1 (cancellation_v2_v3 1 [] 1 4 (λ _, "") Toy.get Toy.get
    (λ _, None) (λ _, None) (λ _, None) (λ _, None) (λ _, None) (λ _, None)
    Toy.proposal Toy.amount Toy.proposal Toy.amount Toy.reason Toy.reason
    Toy.get_reads Toy.get_reads)) Toy.start (start_cache_ok 0 [])).
Defined.

End Witnesses.
