(* ===== verification/EventListener.v ===== *)
(** * The event listener (internal/eventlistener, internal/partnerplugin)

    What the bot does when the booking contract tells it that a token it watches is
    bought, expires, or is the subject of a cancellation: it notifies the partner
    plugin and forgets the subscription.  The subscriptions are two tables of a
    database; one timer is armed for the reservation that expires first.  The
    booking service, the notification client and the clock are the class
    [ListenerEnv]; the order in which SQL returns rows is a parameter. *)
From S2P Require Import Prelude Txn Booking.
From stdpp Require Import gmap sets.

#[local] Open Scope Z_scope.

Definition ErrNotFound : error := Sentinel "eventlistener.ErrNotFound".
Definition timeCheckBlockchainDelay : Z := 2 * Second.

(** ** The notifications (partner_plugin.go) *)
Record CancellationPending := {
  cp_TokenId : Z;
  cp_InitialProposer : Z;
  cp_CurrentProposer : Z;
  cp_RefundAmount : Z;
  cp_OwnerAccepted : bool;
  cp_SupplierAccepted : bool;
  cp_TimesCountered : Z;
  cp_TimesRejected : Z;
  cp_TxId : Z;
  cp_CancellationReason : Z;
  cp_RejectionReason : Z;
  cp_CounterReason : Z;
  cp_WithdrawalReason : Z
}.

Inductive Notification :=
  | TokenBought (TokenId : Z) (MintId : string) (TxId : option Z)
  | TokenReservationExpired (TokenId : Z) (MintId : string)
  | CancellationPendingN (n : CancellationPending)
  | CancellationRejectedN (TokenId Reason TxId : Z)
  | CancellationWithdrawnN (TokenId Reason TxId : Z)
  | CancellationFinalizedN (TokenId TxId : Z).

Definition zeroHash : Z := 0.

(** A call that notifies nobody and returns, later. *)
Definition quiet {W A} (now : W → Z) (sent : W → list (Notification * bool)) (m : M W A) : Prop :=
  ∀ w, let '(w', o) := m w in sent w' = sent w ∧ now w ≤ now w' ∧ ∀ p, o ≠ Panic p.

(** The calls to the chain and to the partner plugin; [sent] is the history of the
    notifications tried and whether the partner plugin acknowledged them. *)
Class ListenerOps (W : Type) := {
  Now : W → Z;
  sent : W → list (Notification * bool);
  client_Notify : Notification → M W unit;
  svc_GetBookingStatus : option Z → Z → M W Z;
  svc_IsBookingCancellable : option Z → Z → M W bool;
  svc_RecordExpiration : Z → M W unit;
  svc_GetCancellationProposal : option Z → Z → M W CancellationProposal;
  svc_GetCancellationReasons : option Z → Z → M W CancellationReasons;
  svc_GetCancellationReasonsEvent : Z → M W CancellationReasons
}.

(** What they promise with a partner plugin: they return, and only a notification
    notifies. *)
Class ListenerEnv (W : Type) `{!ListenerOps W} : Prop := {
  client_Notify_sent n w :
    let '(w', o) := client_Notify n w in
    sent w' = sent w ++ [(n, is_ok o)] ∧ Now w ≤ Now w' ∧ ∀ p, o ≠ Panic p;
  GetBookingStatus_quiet b t : quiet Now sent (svc_GetBookingStatus b t);
  IsBookingCancellable_quiet b t : quiet Now sent (svc_IsBookingCancellable b t);
  RecordExpiration_quiet t : quiet Now sent (svc_RecordExpiration t);
  GetCancellationProposal_quiet b t : quiet Now sent (svc_GetCancellationProposal b t);
  GetCancellationReasons_quiet b t : quiet Now sent (svc_GetCancellationReasons b t);
  GetCancellationReasonsEvent_quiet h : quiet Now sent (svc_GetCancellationReasonsEvent h)
}.

Section PartnerPlugin.
Context `{ListenerOps W}.

Definition tokenBoughtNotification (n : Notification) : M W unit := client_Notify n.
Definition TokenBoughtNotificationWithoutBuyTx (tokenID : Z) (mintID : string) : M W unit :=
  tokenBoughtNotification (TokenBought (bigUint64 tokenID) mintID None).
Definition TokenBoughtNotificationWithBuyTx (tokenID : Z) (mintID : string) (buyTxID : Z) : M W unit :=
  tokenBoughtNotification (TokenBought (bigUint64 tokenID) mintID (Some buyTxID)).
Definition TokenExpiredNotification (tokenID : Z) (mintID : string) : M W unit :=
  client_Notify (TokenReservationExpired (bigUint64 tokenID) mintID).
Definition CancellationPendingNotification (n : CancellationPending) : M W unit :=
  client_Notify (CancellationPendingN n).
Definition CancellationRejectedNotification (tokenId reason txId : Z) : M W unit :=
  client_Notify (CancellationRejectedN tokenId reason txId).
Definition CancellationWithdrawnNotification (tokenId reason txId : Z) : M W unit :=
  client_Notify (CancellationWithdrawnN tokenId reason txId).
Definition CancellationFinalizedNotification (tokenId txId : Z) : M W unit :=
  client_Notify (CancellationFinalizedN tokenId txId).
End PartnerPlugin.

(** ** The database and the listener *)
Record TokenBoughtSubscription := { TokenID : Z; MintID : string; Timeout : Z }.

Abbreviation bought_table := (gmap Z (string * Z)).

(** The rows of [token_bought_subscriptions], by their primary key, with the mint id
    and the timeout in seconds; the rows of [cancellation_subscriptions]. *)
Record tables := { tokens : bought_table; cancellations : gset Z }.

Definition set_tokens (t : bought_table) (db : tables) : tables :=
  {| tokens := t; cancellations := cancellations db |}.
Definition set_cancellations (c : gset Z) (db : tables) : tables :=
  {| tokens := tokens db; cancellations := c |}.

(** [tokenBoughtTimer]: a nil pointer, a timer that will not fire, or one that is to
    fire at an instant. [unsubscribe] functions: nil, to be called, or called. *)
Inductive timer := TimerNil | TimerIdle | TimerArmed (at_ : Z).
Inductive unsubscriber := UnsubNil | UnsubReady | UnsubDone.

Record listener (W : Type) := mkListener {
  env : W;
  tokenBoughtTimer : timer;
  tokenBoughtTimerSubscription : option TokenBoughtSubscription;
  unsubscribeTokenBought : unsubscriber;
  unsubscribeCancellation : unsubscriber
}.
Arguments mkListener {W} _ _ _ _ _.
Arguments env {W} _.
Arguments tokenBoughtTimer {W} _.
Arguments tokenBoughtTimerSubscription {W} _.
Arguments unsubscribeTokenBought {W} _.
Arguments unsubscribeCancellation {W} _.

Definition set_env {W} (w : W) (l : listener W) : listener W :=
  mkListener w (tokenBoughtTimer l) (tokenBoughtTimerSubscription l)
    (unsubscribeTokenBought l) (unsubscribeCancellation l).
Definition set_timer {W} (t : timer) (l : listener W) : listener W :=
  mkListener (env l) t (tokenBoughtTimerSubscription l)
    (unsubscribeTokenBought l) (unsubscribeCancellation l).
Definition set_subscription {W} (o : option TokenBoughtSubscription) (l : listener W) : listener W :=
  mkListener (env l) (tokenBoughtTimer l) o
    (unsubscribeTokenBought l) (unsubscribeCancellation l).
Definition set_unsubscribeTokenBought {W} (u : unsubscriber) (l : listener W) : listener W :=
  mkListener (env l) (tokenBoughtTimer l) (tokenBoughtTimerSubscription l)
    u (unsubscribeCancellation l).
Definition set_unsubscribeCancellation {W} (u : unsubscriber) (l : listener W) : listener W :=
  mkListener (env l) (tokenBoughtTimer l) (tokenBoughtTimerSubscription l)
    (unsubscribeTokenBought l) u.

(** [modelFromTokenBoughtSubscription] and [tokenBoughtSubscriptionFromModel]: a row
    keeps whole seconds and a signed 64-bit token id. *)
Definition modelFromTokenBoughtSubscription (token_id : Z) (row : string * Z)
    : TokenBoughtSubscription :=
  {| TokenID := token_id; MintID := row.1; Timeout := row.2 * Second |}.
Definition tokenBoughtSubscriptionFromModel (model : TokenBoughtSubscription) : Z * (string * Z) :=
  (bigInt64 (TokenID model), (MintID model, Timeout model / Second)).

Definition uint64_high_bit : error := Errorf "uint64 values with high bit set are not supported".
Definition UNIQUE_failed : error := Errorf "UNIQUE constraint failed".

(** [WHERE timeout = (SELECT MIN(timeout) ...)] *)
Definition min_timeout_rows (t : bought_table) : list (Z * (string * Z)) :=
  filter (λ r, map_Forall (λ _ v, r.2.2 ≤ v.2) t) (map_to_list t).

(** The events of the booking contract the handlers receive. *)
Record Raw := { BlockNumber : Z; TxHash : Z }.
Record CancellationPendingEvent := {
  ev_TokenId : Z;
  ev_InitialProposer : Z;
  ev_CurrentProposer : Z;
  ev_RefundAmount : Z;
  ev_OwnerAccepted : bool;
  ev_SupplierAccepted : bool;
  ev_TimesCountered : Z;
  ev_TimesRejected : Z;
  ev_Raw : Raw
}.

Definition timeUntil (t now : Z) : Z := if t <? now then 0 else timeSub t now.

Section EventListener.
Context `{ListenerOps W}.
Variable fault : nat → option error.
Variable scan : ∀ A : Type, list A → list A.
Variable pick : list (Z * (string * Z)) → option (Z * (string * Z)).
Variable startingBlockNumber : Z.
Variable recordTokenExpiration : bool.

Abbreviation state := (Txn tables (listener W)).

(** ** storage/sqlite/subscription_token_bought.go *)

Definition storage_AddTokenBoughtSubscription (subscription : TokenBoughtSubscription) : M state unit :=
  oneRow fault "failed to execute insert token bought subscription statement: %w" (λ db,
    let '(token_id, row) := tokenBoughtSubscriptionFromModel subscription in
    match tokens db !! token_id with
    | Some _ => (db, Err UNIQUE_failed)
    | None => (set_tokens (<[token_id := row]> (tokens db)) db, Ok 1)
    end).

(** The [uint64] argument is refused by the driver interface from [1 << 63] on. *)
Definition storage_RemoveTokenBoughtSubscription (tokenID : Z) : M state unit :=
  oneRow fault "failed to execute remove token bought subscription statement: %w" (λ db,
    let token_id := bigUint64 tokenID in
    if 2 ^ 63 <=? token_id then (db, Err uint64_high_bit)
    else match tokens db !! token_id with
         | None => (db, Ok 0)
         | Some _ => (set_tokens (delete token_id (tokens db)) db, Ok 1)
         end).

Definition storage_GetAllTokenBoughtSubscriptions : M state (list TokenBoughtSubscription) :=
  wrapS "failed to execute get all token bought subscriptions statement: %w" (Query fault (λ db,
    Ok ((λ r, modelFromTokenBoughtSubscription r.1 r.2) <$> scan _ (map_to_list (tokens db))))).

Definition storage_GetTokenBoughtSubscription (tokenID : Z) : M state TokenBoughtSubscription :=
  getRow fault ErrNotFound "failed to execute get token bought subscription statement: %w" (λ db,
    modelFromTokenBoughtSubscription (bigInt64 tokenID) <$> tokens db !! bigInt64 tokenID).

Definition storage_GetTokenBoughtSubscriptionByMinTimeout : M state TokenBoughtSubscription :=
  getRow fault ErrNotFound "failed to execute get token bought subscription by min timeout statement: %w" (λ db,
    (λ r, modelFromTokenBoughtSubscription r.1 r.2) <$> pick (min_timeout_rows (tokens db))).

(** ** storage/sqlite/subscription_cancellation.go *)
Definition storage_AddCancellationSubscription (tokenID : Z) : M state unit :=
  oneRow fault "failed to execute insert cancellation subscription statement: %w" (λ db,
    if decide (bigInt64 tokenID ∈ cancellations db) then (db, Err UNIQUE_failed)
    else (set_cancellations ({[bigInt64 tokenID]} ∪ cancellations db) db, Ok 1)).

Definition storage_RemoveCancellationSubscription (tokenID : Z) : M state unit :=
  oneRow fault "failed to execute remove cancellation subscription statement: %w" (λ db,
    if decide (bigInt64 tokenID ∈ cancellations db)
    then (set_cancellations (cancellations db ∖ {[bigInt64 tokenID]}) db, Ok 1)
    else (db, Ok 0)).

Definition storage_GetAllCancellationSubscriptions : M state (list Z) :=
  wrapS "failed to execute get all cancellation subscriptions statement: %w"
    (Query fault (λ db, Ok (scan _ (elements (cancellations db))))).

Definition storage_IsCancellationSubscriptionExist (tokenID : Z) : M state bool :=
  wrapS "failed to execute get cancellation subscription statement: %w"
    (Query fault (λ db, Ok (bool_decide (bigInt64 tokenID ∈ cancellations db)))).

(** ** The timer *)
Definition onEnv {A} (m : M W A) : M state A := λ s,
  let '(w, o) := m (env (rest s)) in
  (mkTxn (committed s) (working s) (ticks s) (set_env w (rest s)), o).

Definition timer_Stop : M state unit :=
  l ← getRest;
  match tokenBoughtTimer l with
  | TimerNil => panicS nilDeref
  | _ => modifyRest (set_timer TimerIdle)
  end.

(** [l.tokenBoughtTimer = time.AfterFunc(timeUntil(t), l.tokenBoughtTimeoutHandler)] *)
Definition arm_timer (subscription : TokenBoughtSubscription) : M state unit :=
  modifyRest (λ l,
    set_timer (TimerArmed (Now (env l) + timeUntil (Timeout subscription) (Now (env l)))) l).

Definition startTokenBoughtTimer (nextToExpireSubscription : option TokenBoughtSubscription)
    : M state unit :=
  modifyRest (set_subscription nextToExpireSubscription) ;;
  match nextToExpireSubscription with
  | None => modifyRest (set_timer TimerIdle)
  | Some subscription => arm_timer subscription
  end.

Definition resetTokenBoughtTimerIfAfter (newSubscription : TokenBoughtSubscription) : M state unit :=
  l ← getRest;
  let sooner :=
    match tokenBoughtTimerSubscription l with
    | Some current => Timeout current <=? Timeout newSubscription
    | None => false
    end in
  if sooner then retS tt else
  timer_Stop ;;
  modifyRest (set_subscription (Some newSubscription)) ;;
  arm_timer newSubscription.

Definition resetTokenBoughtTimerFromDB : M state unit :=
  timer_Stop ;;
  modifyRest (set_subscription None) ;;
  orRespond (NewSession fault) (λ _, tt) (λ _,
  deferS Abort (
    r ← attempt storage_GetTokenBoughtSubscriptionByMinTimeout;
    match r with
    | inr _ => retS tt
    | inl nextToExpireSubscription =>
        modifyRest (set_subscription (Some nextToExpireSubscription)) ;;
        arm_timer nextToExpireSubscription
    end)).

Definition resetTokenBoughtTimerIfMatch (tokenID : Z) : M state unit :=
  l ← getRest;
  match tokenBoughtTimerSubscription l with
  | Some current =>
      if TokenID current =? tokenID then resetTokenBoughtTimerFromDB else retS tt
  | None => resetTokenBoughtTimerFromDB
  end.

Definition resetTokenBoughtTimer : M state unit := resetTokenBoughtTimerFromDB.

(** ** Token bought subscriptions (subscription_token_bought.go) *)
Definition SubscribeTokenBoughtEvent (tokenID : Z) (mintID : string) (timeout : Z) : M state unit :=
  let subscription :=
    {| TokenID := tokenID; MintID := mintID; Timeout := timeout + timeCheckBlockchainDelay |} in
  withSession fault "failed to create db session: %w" (
    wrapS "error adding token bought subscription to db: %w"
      (storage_AddTokenBoughtSubscription subscription) ;;
    wrapS "failed to commit db session: %w" (Commit fault) ;;
    resetTokenBoughtTimerIfAfter subscription).

Definition tokenBoughtEventHandler (tokenId : Z) (raw : Raw) : M state Z :=
  deferM (resetTokenBoughtTimerIfMatch tokenId) (
    orRespond (NewSession fault) (λ _, 0) (λ _,
    deferS Abort (
      r ← attempt (storage_GetTokenBoughtSubscription tokenId);
      match r with
      | inr e => if errors_is e "eventlistener.ErrNotFound" then retS (BlockNumber raw) else retS 0
      | inl subscription =>
          orRespond (onEnv (TokenBoughtNotificationWithBuyTx (TokenID subscription)
                              (MintID subscription) (TxHash raw))) (λ _, 0) (λ _,
          orRespond (onEnv (svc_IsBookingCancellable None (TokenID subscription))) (λ _, 0)
            (λ isCancellable,
          orRespond (if (isCancellable : bool)
                     then storage_AddCancellationSubscription (TokenID subscription)
                     else retS tt) (λ _, 0) (λ _,
          orRespond (storage_RemoveTokenBoughtSubscription (TokenID subscription)) (λ _, 0) (λ _,
          orRespond (Commit fault) (λ _, 0) (λ _,
          retS (BlockNumber raw))))))
      end))).

(** Each use of [l.tokenBoughtTimerSubscription] reads the field, without the mutex;
    so does the log line of each error. *)
Definition timerSubscription : M state TokenBoughtSubscription :=
  l ← getRest; liftO (deref (tokenBoughtTimerSubscription l)).

Definition orLog {A} (m : M state A) (k : A → M state unit) : M state unit :=
  r ← attempt m;
  match r with
  | inl a => k a
  | inr _ => timerSubscription ;; retS tt
  end.

(** The timeout handler up to the status of the reservation ... *)
Definition timeoutStatus : M state Z :=
  subscription ← timerSubscription;
  onEnv (svc_GetBookingStatus None (TokenID subscription)).

(** ... and from there on. *)
Definition timeoutExpired (status : Z) : M state unit :=
  if negb (status =? StatusReserved) then retS tt else
  timerSubscription ;;
  orLog (NewSession fault) (λ _,
  deferS Abort (
    orLog (subscription ← timerSubscription;
           onEnv (TokenExpiredNotification (TokenID subscription) (MintID subscription))) (λ _,
    orLog (if recordTokenExpiration
           then subscription ← timerSubscription; onEnv (svc_RecordExpiration (TokenID subscription))
           else retS tt) (λ _,
    orLog (subscription ← timerSubscription;
           storage_RemoveTokenBoughtSubscription (TokenID subscription)) (λ _,
    orLog (Commit fault) (λ _, retS tt)))))).

Definition tokenBoughtTimeoutHandler : M state unit :=
  deferM resetTokenBoughtTimer (orLog timeoutStatus timeoutExpired).

(** [time.Unix(int64(1<<63-ttmcommon.TimePkgOffset), 0)] *)
Definition maxTime : Z := (2 ^ 63 - 62135596801) * Second.

Definition getAllTokenBoughtSubscriptions : M state (list TokenBoughtSubscription) :=
  withSession fault "failed to create db session: %w" (
    wrapS "error getting all token bought subscriptions from db: %w"
      storage_GetAllTokenBoughtSubscriptions).

(** The loop over the stored subscriptions, with the one that expires next so far. *)
Fixpoint startupCheck (subscriptions : list TokenBoughtSubscription)
    (nextToExpire : option TokenBoughtSubscription) : M state (option TokenBoughtSubscription) :=
  match subscriptions with
  | [] => retS nextToExpire
  | subscription :: subscriptions =>
      status ← wrapS "failed to get booking status for token %s: %w"
        (onEnv (svc_GetBookingStatus (Some startingBlockNumber) (TokenID subscription)));
      if negb (status =? StatusReserved) then
        (if status =? StatusBought
         then wrapS "error sending token bought notification for token %s: %w"
                (onEnv (TokenBoughtNotificationWithoutBuyTx (TokenID subscription)
                          (MintID subscription)))
         else retS tt) ;;
        withSession fault "failed to create db session for token %s: %w" (
          wrapS "error removing token bought subscription for token %s: %w"
            (storage_RemoveTokenBoughtSubscription (TokenID subscription)) ;;
          wrapS "failed to commit db session for token %s: %w" (Commit fault)) ;;
        startupCheck subscriptions nextToExpire
      else
        let nextTimeoutTime :=
          match nextToExpire with Some next => Timeout next | None => maxTime end in
        startupCheck subscriptions
          (if Timeout subscription <? nextTimeoutTime then Some subscription else nextToExpire)
  end.

Definition tokenBoughtSubscriptionsStartupCheck : M state (option TokenBoughtSubscription) :=
  tokenBoughtSubscriptions ← wrapS "error getting all token bought subscriptions: %w"
    getAllTokenBoughtSubscriptions;
  startupCheck tokenBoughtSubscriptions None.

(** [l.subscriber.SubscribeTokenBought] starts goroutines that deliver events to the
    handler; here it is the change of [unsubscribeTokenBought] alone. *)
Definition startTokenBoughtSubscriptions : M state unit :=
  nextToExpireSubscription ← wrapS "token bought subscriptions startup check error: %w"
    tokenBoughtSubscriptionsStartupCheck;
  startTokenBoughtTimer nextToExpireSubscription ;;
  modifyRest (set_unsubscribeTokenBought UnsubReady).

(** ** Cancellation subscriptions (subscription_cancellation.go) *)
Definition SubscribeCancellationEvents (tokenID : Z) : M state unit :=
  withSession fault "failed to create db session: %w" (
    wrapS "error adding cancellation subscription to db: %w"
      (storage_AddCancellationSubscription tokenID) ;;
    wrapS "failed to commit db session: %w" (Commit fault)).

Definition getAllCancellationSubscriptionTokenIDs : M state (list Z) :=
  withSession fault "failed to create db session: %w" (
    wrapS "error getting all cancellation subscriptions from db: %w"
      storage_GetAllCancellationSubscriptions).

Definition pending_of_proposal (tokenID : Z) (c : CancellationProposal) (r : CancellationReasons)
    : CancellationPending :=
  {| cp_TokenId := bigUint64 tokenID; cp_InitialProposer := InitialProposer c;
     cp_CurrentProposer := CurrentProposer c; cp_RefundAmount := bigUint64 (RefundAmount c);
     cp_OwnerAccepted := OwnerAccepted c; cp_SupplierAccepted := SupplierAccepted c;
     cp_TimesCountered := TimesCountered c; cp_TimesRejected := TimesRejected c;
     cp_TxId := zeroHash; cp_CancellationReason := CancellationReason r;
     cp_RejectionReason := RejectionReason r; cp_CounterReason := CounterReason r;
     cp_WithdrawalReason := WithdrawalReason r |}.

Definition pending_of_event (e : CancellationPendingEvent) (r : CancellationReasons)
    : CancellationPending :=
  {| cp_TokenId := bigUint64 (ev_TokenId e); cp_InitialProposer := ev_InitialProposer e;
     cp_CurrentProposer := ev_CurrentProposer e; cp_RefundAmount := bigUint64 (ev_RefundAmount e);
     cp_OwnerAccepted := ev_OwnerAccepted e; cp_SupplierAccepted := ev_SupplierAccepted e;
     cp_TimesCountered := ev_TimesCountered e; cp_TimesRejected := ev_TimesRejected e;
     cp_TxId := TxHash (ev_Raw e); cp_CancellationReason := CancellationReason r;
     cp_RejectionReason := RejectionReason r; cp_CounterReason := CounterReason r;
     cp_WithdrawalReason := WithdrawalReason r |}.

Definition unknown_status : error :=
  Errorf "unknown cancellation proposal status for token %s: %d".

(** What the start-up check does for one token. *)
Definition catchUp (tokenID : Z) : M state unit :=
  let getReasons :=
    wrapS "error getting cancellation reasons for token %s: %w"
      (onEnv (svc_GetCancellationReasons (Some startingBlockNumber) tokenID)) in
  cancellation ← wrapS "error getting cancellation proposal for token %s: %w"
    (onEnv (svc_GetCancellationProposal (Some startingBlockNumber) tokenID));
  let status := prop_Status cancellation in
  if status =? CancellationProposalStatusNoProposal then retS tt
  else if status =? CancellationProposalStatusPending then
    reasons ← getReasons;
    wrapS "error sending CancellationPending notification for token %s: %w"
      (onEnv (CancellationPendingNotification (pending_of_proposal tokenID cancellation reasons)))
  else if status =? CancellationProposalStatusRejected then
    reasons ← getReasons;
    wrapS "error sending CancellationRejected notification for token %s: %w"
      (onEnv (CancellationRejectedNotification (bigUint64 tokenID) (RejectionReason reasons) zeroHash))
  else if status =? CancellationProposalStatusWithdrawn then
    reasons ← getReasons;
    wrapS "error sending CancellationWithdrawn notification for token %s: %w"
      (onEnv (CancellationWithdrawnNotification (bigUint64 tokenID) (WithdrawalReason reasons) zeroHash))
  else if status =? CancellationProposalStatusFinalized then
    withSession fault "failed to create db session: %w" (
      wrapS "error sending CancellationFinalized notification for token %s: %w"
        (onEnv (CancellationFinalizedNotification (bigUint64 tokenID) zeroHash)) ;;
      wrapS "error removing CancellationFinalized subscription from db for token %s: %w"
        (storage_RemoveCancellationSubscription tokenID) ;;
      wrapS "failed to commit db session: %w" (Commit fault))
  else throwS unknown_status.

Fixpoint catchUpAll (tokenIDs : list Z) : M state unit :=
  match tokenIDs with
  | [] => retS tt
  | tokenID :: tokenIDs => catchUp tokenID ;; catchUpAll tokenIDs
  end.

Definition cancellationSubscriptionsStartupCheck : M state unit :=
  tokenIDs ← wrapS "error getting cancellation subscription token IDs: %w"
    getAllCancellationSubscriptionTokenIDs;
  catchUpAll tokenIDs.

Definition startCancellationSubscriptions : M state unit :=
  wrapS "cancellation subscriptions startup check error: %w" cancellationSubscriptionsStartupCheck ;;
  modifyRest (set_unsubscribeCancellation UnsubReady).

(** The four event handlers share their first steps: a session, and a look whether
    the token is subscribed for. *)
Definition ifSubscribed (tokenId blockNumber : Z) (k : M state Z) : M state Z :=
  orRespond (NewSession fault) (λ _, 0) (λ _,
  deferS Abort (
    orRespond (storage_IsCancellationSubscriptionExist tokenId) (λ _, 0) (λ ok,
    if negb ok then retS blockNumber else k))).

Definition cancellationPendingEventHandler (event : CancellationPendingEvent) : M state Z :=
  ifSubscribed (ev_TokenId event) (BlockNumber (ev_Raw event)) (
    orRespond (onEnv (svc_GetCancellationReasonsEvent (TxHash (ev_Raw event)))) (λ _, 0) (λ reasons,
    orRespond (onEnv (CancellationPendingNotification (pending_of_event event reasons))) (λ _, 0) (λ _,
    retS (BlockNumber (ev_Raw event))))).

Definition cancellationRejectedEventHandler (tokenId rejectionReason : Z) (raw : Raw) : M state Z :=
  ifSubscribed tokenId (BlockNumber raw) (
    orRespond (onEnv (CancellationRejectedNotification (bigUint64 tokenId) rejectionReason (TxHash raw)))
      (λ _, 0) (λ _,
    retS (BlockNumber raw))).

Definition cancellationWithdrawnEventHandler (tokenId withdrawalReason : Z) (raw : Raw) : M state Z :=
  ifSubscribed tokenId (BlockNumber raw) (
    orRespond (onEnv (CancellationWithdrawnNotification (bigUint64 tokenId) withdrawalReason (TxHash raw)))
      (λ _, 0) (λ _,
    retS (BlockNumber raw))).

Definition cancellationFinalizedEventHandler (tokenId : Z) (raw : Raw) : M state Z :=
  ifSubscribed tokenId (BlockNumber raw) (
    orRespond (onEnv (CancellationFinalizedNotification (bigUint64 tokenId) (TxHash raw))) (λ _, 0) (λ _,
    orRespond (storage_RemoveCancellationSubscription tokenId) (λ _, 0) (λ _,
    orRespond (Commit fault) (λ _, 0) (λ _,
    retS (BlockNumber raw))))).

(** ** Start and stop (event_listener.go) *)
Definition Start : M state unit :=
  wrapS "failed to start token bought subscriptions: %w" startTokenBoughtSubscriptions ;;
  wrapS "failed to start cancellation subscriptions: %w" startCancellationSubscriptions.

(** Unsubscribing closes the channel of the events: a second time is a panic. *)
Definition unsubscribe (u : unsubscriber) (done : M state unit) : M state unit :=
  match u with
  | UnsubNil => retS tt
  | UnsubReady => done
  | UnsubDone => panicS "close of closed channel"
  end.

Definition Stop : M state unit :=
  l ← getRest;
  unsubscribe (unsubscribeTokenBought l)
    (modifyRest (set_unsubscribeTokenBought UnsubDone) ;; timer_Stop) ;;
  unsubscribe (unsubscribeCancellation l) (modifyRest (set_unsubscribeCancellation UnsubDone)).

(** ** Lemmas *)
Context `{!ListenerEnv W}.

(** What the partner plugin was told. *)
Definition told (s : state) : list (Notification * bool) := sent (env (rest s)).

(** What the timer does not touch. *)
Definition data (s : state) : tables * W := (committed s, env (rest s)).
(** What only the timer touches. *)
Definition alarm (s : state) : timer * option TokenBoughtSubscription :=
  (tokenBoughtTimer (rest s), tokenBoughtTimerSubscription (rest s)).

Definition started (s : state) : Prop := tokenBoughtTimer (rest s) ≠ TimerNil.

Lemma onEnv_quiet {A} (m : M W A) s :
  quiet Now sent m →
  runs (onEnv m) s (λ t o,
    committed t = committed s ∧ working t = working s ∧ alarm t = alarm s ∧ told t = told s ∧
    (∃ w, (m w).2 = o) ∧ ∀ p, o ≠ Panic p).
Proof.
  intros Hq. specialize (Hq (env (rest s))). unfold runs, onEnv, told.
  destruct (m (env (rest s))) as [w o] eqn:E. simpl. destruct Hq as (? & ? & ?).
  split_and!; try done. exists (env (rest s)). by rewrite E.
Qed.

Lemma onEnv_notify n s :
  runs (onEnv (client_Notify n)) s (λ t o,
    committed t = committed s ∧ working t = working s ∧ alarm t = alarm s ∧
    told t = told s ++ [(n, is_ok o)] ∧ ∀ p, o ≠ Panic p).
Proof.
  pose proof (client_Notify_sent n (env (rest s))) as Hn. unfold runs, onEnv, told.
  by destruct (client_Notify n (env (rest s))) as [w o]; destruct Hn as (? & ? & ?).
Qed.

(** The timer operations keep the data, and return when the timer is there. *)
Lemma timer_Stop_started s :
  started s →
  runs timer_Stop s (λ t o, o = Ok tt ∧ data t = data s ∧ working t = working s ∧
    alarm t = (TimerIdle, tokenBoughtTimerSubscription (rest s))).
Proof. unfold started, runs, timer_Stop, getRest, mbind, M_bind. simpl. by destruct (tokenBoughtTimer (rest s)). Qed.

Lemma data_eq s t : committed t = committed s → rest t = rest s → data t = data s.
Proof. unfold data. by intros -> ->. Qed.

Lemma GetMin_ends s w :
  working s = Some w →
  runs storage_GetTokenBoughtSubscriptionByMinTimeout s (λ t o, data t = data s ∧ alarm t = alarm s ∧
    match o with
    | Ok sub => ∃ id row, pick (min_timeout_rows (tokens w)) = Some (id, row) ∧
        sub = modelFromTokenBoughtSubscription id row
    | Err _ => pick (min_timeout_rows (tokens w)) = None ∨ ∃ n e, fault n = Some e
    | Panic _ => False
    end).
Proof.
  intros Hw. eapply runs_mono; [exact (getRow_ends fault _ _ _ s w Hw)|].
  intros t o [[Hc Hr] Ho]. split; [by apply data_eq|]. split; [unfold alarm; by rewrite Hr|].
  destruct o as [sub|e|p]; [| |done].
  2: { destruct Ho as [_ [[Ho _]|(n & e' & Ho & _)]]; [left|by right; eauto]. by destruct (pick _). }
  destruct Ho as [Ho _]. destruct (pick _) as [[id row]|] eqn:E; simplify_eq/=. eauto.
Qed.

(** The alarm set for a subscription, now. *)
Definition armed_for (sub : TokenBoughtSubscription) (s : state) : Prop :=
  let now := Now (env (rest s)) in
  alarm s = (TimerArmed (now + timeUntil (Timeout sub) now), Some sub).

Lemma arm_ends sub s :
  runs (modifyRest (set_subscription (Some sub)) ;; arm_timer sub) s (λ t o, o = Ok tt ∧
    data t = data s ∧ armed_for sub t).
Proof. done. Qed.

(** After a reset the alarm is for a row with the least timeout, or there is none. *)
Definition reset_to (w : bought_table) (s : state) : Prop :=
  alarm s = (TimerIdle, None) ∧
    (pick (min_timeout_rows w) = None ∨ ∃ n e, fault n = Some e) ∨
  ∃ id row, pick (min_timeout_rows w) = Some (id, row) ∧
    armed_for (modelFromTokenBoughtSubscription id row) s.

Lemma resetFromDB_ends s :
  started s →
  runs resetTokenBoughtTimerFromDB s (λ t o, o = Ok tt ∧ data t = data s ∧
    reset_to (tokens (committed s)) t).
Proof.
  intros Hs. unfold resetTokenBoughtTimerFromDB.
  eapply runs_bind; [exact (timer_Stop_started s Hs)|..]; [|by intros ? ? [? _]..].
  intros s1 [] (_ & Hd & _ & Ha).
  set (s2 := mkTxn (committed s1) (working s1) (ticks s1) (set_subscription None (rest s1))).
  assert (data s2 = data s) as Hd2 by done.
  assert (alarm s2 = (TimerIdle, None)) as Ha2 by (unfold alarm in *; simpl; congruence).
  change (runs (orRespond (NewSession fault) (λ _, tt) (λ _, deferS Abort (
    r ← attempt storage_GetTokenBoughtSubscriptionByMinTimeout;
    match r with
    | inr _ => retS tt
    | inl n => modifyRest (set_subscription (Some n)) ;; arm_timer n
    end))) s2 (λ t o, o = Ok tt ∧ data t = data s ∧ reset_to (tokens (committed s)) t)).
  clearbody s2. clear s1 Hd Ha.
  eapply runs_orRespond; [exact (NewSession_ends fault s2)|..].
  - intros t [] [[Hc Hr] Hw]. apply runs_deferS.
    assert (data t = data s) as Hdt by (rewrite <- Hd2; by apply data_eq).
    assert (alarm t = (TimerIdle, None)) as Hat by (rewrite <- Ha2; unfold alarm; by rewrite Hr).
    eapply runs_attempt; [exact (GetMin_ends t _ Hw)|..].
    + intros u sub (Hdu & _ & id & row & Hp & ->).
      eapply runs_mono; [exact (arm_ends _ u)|]. intros v o (-> & Hdv & Hav).
      split; [done|]. split; [by transitivity (data u); [exact Hdv|congruence]|].
      right. exists id, row. split; [|exact Hav].
      injection Hd2 as Hc2 _. by rewrite <- Hc2.
    + intros u e (Hdu & Hau & Hp). split; [done|]. split; [change (data u = data s); congruence|].
      left. injection Hd2 as Hc2 _. rewrite <- Hc2. split; [|exact Hp].
      change (alarm u = (TimerIdle, None)). congruence.
    + by intros u p (_ & _ & []).
  - intros t e [[Hc Hr] Hf]. split; [done|]. split; [rewrite <- Hd2; by apply data_eq|].
    left. split; [|by right]. rewrite <- Ha2. unfold alarm. by rewrite Hr.
  - by intros t p [_ []].
Qed.

(** *** The bought-event handler *)

(** How the handling of a bought event can end: nothing done; the token not watched;
    the partner plugin notified but the subscription kept; or notified, the
    subscription gone and, for a cancellable booking, a cancellation one added. *)
Inductive bought_ends (tokenId : Z) (raw : Raw) (s t : state) : outcome Z → Prop :=
  | bought_unprocessed :
      committed t = committed s → told t = told s → bought_ends tokenId raw s t (Ok 0)
  | bought_unwatched :
      committed t = committed s → told t = told s → tokens (committed s) !! tokenId = None →
      bought_ends tokenId raw s t (Ok (BlockNumber raw))
  | bought_kept row ack :
      tokens (committed s) !! tokenId = Some row → committed t = committed s →
      told t = told s ++ [(TokenBought tokenId row.1 (Some (TxHash raw)), ack)] →
      bought_ends tokenId raw s t (Ok 0)
  | bought_processed row (c : bool) w :
      tokens (committed s) !! tokenId = Some row →
      (svc_IsBookingCancellable None tokenId w).2 = Ok c →
      committed t =
        {| tokens := delete tokenId (tokens (committed s));
           cancellations := if c then {[tokenId]} ∪ cancellations (committed s)
                            else cancellations (committed s) |} →
      told t = told s ++ [(TokenBought tokenId row.1 (Some (TxHash raw)), true)] →
      bought_ends tokenId raw s t (Ok (BlockNumber raw)).

Lemma bought_ends_same tokenId raw s t t' o :
  committed t' = committed t → told t' = told t →
  bought_ends tokenId raw s t o → bought_ends tokenId raw s t' o.
Proof.
  intros Hc Ht. destruct 1;
    [apply bought_unprocessed|apply bought_unwatched|eapply bought_kept|eapply bought_processed];
    try rewrite Hc; try rewrite Ht; eauto.
Qed.

Lemma bought_ends_start tokenId raw s s' t o :
  committed s = committed s' → told s = told s' →
  bought_ends tokenId raw s t o → bought_ends tokenId raw s' t o.
Proof.
  intros Hc Ht. destruct 1 as [H1 H2|H1 H2 H3|row ack H1 H2 H3|row c w H1 H2 H3 H4];
    rewrite ?Hc, ?Ht in *;
    [by apply bought_unprocessed|by apply bought_unwatched|by eapply bought_kept|
     by eapply bought_processed].
Qed.

Lemma told_rest s t : rest t = rest s → told t = told s.
Proof. unfold told. by intros ->. Qed.

Lemma alarm_rest s t : rest t = rest s → alarm t = alarm s.
Proof. unfold alarm. by intros ->. Qed.

Lemma alarm_Abort s : alarm (Abort s) = alarm s.
Proof. done. Qed.

Lemma in_range_bigUint64 x : 0 ≤ x < 2 ^ 63 → bigUint64 x = x.
Proof.
  intros Hx. apply bigUint64_small. unfold in_uint. change (2 ^ 64) with (2 * 2 ^ 63).
  change (2 ^ 63) with 9223372036854775808 in *. lia.
Qed.

Hypothesis driver_faults :
  ∀ n e, fault n = Some e → errors_is e "eventlistener.ErrNotFound" = false.

Lemma Remove_ends tokenId s w :
  0 ≤ tokenId < 2 ^ 63 → working s = Some w →
  runs (storage_RemoveTokenBoughtSubscription tokenId) s (λ t o, same_data s t ∧
    match o with
    | Ok _ => working t = Some (set_tokens (delete tokenId (tokens w)) w)
    | Err _ => True
    | Panic _ => False
    end).
Proof.
  intros Hr Hw. unfold storage_RemoveTokenBoughtSubscription. rewrite in_range_bigUint64 by done.
  eapply runs_mono.
  - apply (oneRow_ends fault _ _ s w Hw). intros w' p. by repeat case_match.
  - intros t [[]|e|p] [Hd Ho]; (split; [done|]); try done. destruct Ho as (w' & Hs & ->).
    by repeat case_match; simplify_eq.
Qed.

Lemma Add_cancellation_ends tokenId s w :
  0 ≤ tokenId < 2 ^ 63 → working s = Some w →
  runs (storage_AddCancellationSubscription tokenId) s (λ t o, same_data s t ∧
    match o with
    | Ok _ => working t = Some (set_cancellations ({[tokenId]} ∪ cancellations w) w)
    | Err _ => True
    | Panic _ => False
    end).
Proof.
  intros Hr Hw. unfold storage_AddCancellationSubscription. rewrite bigInt64_small by done.
  eapply runs_mono.
  - apply (oneRow_ends fault _ _ s w Hw). intros w' p. by case_decide.
  - intros t [[]|e|p] [Hd Ho]; (split; [done|]); try done. destruct Ho as (w' & Hs & ->).
    by case_decide; simplify_eq.
Qed.

(** The last steps: the subscription is removed and the changes are published. *)
Lemma finish_ends (raw : Raw) (respond : error → Z) (m : M state unit) s
    (Q : state → outcome Z → Prop) w' :
  runs m s (λ t o, same_data s t ∧
    match o with Ok _ => working t = Some w' | Err _ => True | Panic _ => False end) →
  (∀ t e, committed t = committed s → rest t = rest s → Q (Abort t) (Ok (respond e))) →
  (∀ t, committed t = w' → rest t = rest s → Q (Abort t) (Ok (BlockNumber raw))) →
  runs (orRespond m respond (λ _, orRespond (Commit fault) respond (λ _, retS (BlockNumber raw)))) s
    (λ t o, Q (Abort t) o).
Proof.
  intros Hm Hfail Hdone. eapply runs_orRespond; [exact Hm|..].
  - intros t [] [[Hc Hr] Hw']. eapply runs_orRespond; [exact (Commit_ends fault t _ Hw')|..].
    + intros u [] [Hr' Hc']. apply Hdone; [done|by rewrite Hr'].
    + intros u e [Hr' Hc']. apply Hfail; by rewrite ?Hc', ?Hr'.
    + by intros u p [_ []].
  - intros t e [[Hc Hr] _]. by apply Hfail.
  - by intros t p [_ []].
Qed.

(** From the notification on, the row found. *)
Lemma notified_bought_ends tokenId raw s w row :
  0 ≤ tokenId < 2 ^ 63 → working s = Some w → w = committed s →
  tokens w !! tokenId = Some row →
  runs (
    let subscription := modelFromTokenBoughtSubscription tokenId row in
    orRespond (onEnv (TokenBoughtNotificationWithBuyTx (TokenID subscription)
                        (MintID subscription) (TxHash raw))) (λ _, 0) (λ _,
    orRespond (onEnv (svc_IsBookingCancellable None (TokenID subscription))) (λ _, 0)
      (λ isCancellable,
    orRespond (if (isCancellable : bool)
               then storage_AddCancellationSubscription (TokenID subscription)
               else retS tt) (λ _, 0) (λ _,
    orRespond (storage_RemoveTokenBoughtSubscription (TokenID subscription)) (λ _, 0) (λ _,
    orRespond (Commit fault) (λ _, 0) (λ _,
    retS (BlockNumber raw))))))) s
    (λ t o, bought_ends tokenId raw s (Abort t) o ∧ alarm (Abort t) = alarm s).
Proof.
  intros Hr Hw -> Erow. unfold TokenBoughtNotificationWithBuyTx, tokenBoughtNotification.
  cbn [TokenID MintID modelFromTokenBoughtSubscription]. rewrite in_range_bigUint64 by done.
  assert (∀ t ack, committed t = committed s → alarm t = alarm s →
    told t = told s ++ [(TokenBought tokenId row.1 (Some (TxHash raw)), ack)] →
    bought_ends tokenId raw s (Abort t) (Ok 0) ∧ alarm (Abort t) = alarm s) as Hkept.
  { intros t ack Hc Ha Ht. split; [|done]. by apply (bought_kept _ _ _ _ row ack). }
  eapply runs_orRespond; [exact (onEnv_notify _ s)|..].
  2: { intros v e (Hcv & _ & Hav & Htv & _). by apply (Hkept v false). }
  2: { intros v p (_ & _ & _ & _ & Hp). by destruct (Hp p). }
  intros v [] (Hcv & Hwv & Hav & Htv & _). simpl in Htv.
  eapply runs_orRespond; [exact (onEnv_quiet _ v (IsBookingCancellable_quiet None tokenId))|..].
  2: { intros x e (Hcx & _ & Hax & Htx & _). apply (Hkept x true); congruence. }
  2: { intros x p (_ & _ & _ & _ & _ & Hp). by destruct (Hp p). }
  intros x c (Hcx & Hwx & Hax & Htx & [w Hcanc] & _).
  assert (working x = Some (committed s)) as Hw' by congruence.
  assert (∀ t, committed t = committed x → rest t = rest x →
    bought_ends tokenId raw s (Abort t) (Ok 0) ∧ alarm (Abort t) = alarm s) as Hfail.
  { intros t Hct Hrt. pose proof (alarm_rest _ _ Hrt). pose proof (told_rest _ _ Hrt).
    apply (Hkept t true); congruence. }
  assert (∀ t, committed t =
      {| tokens := delete tokenId (tokens (committed s));
         cancellations := if c then {[tokenId]} ∪ cancellations (committed s)
                          else cancellations (committed s) |} → rest t = rest x →
    bought_ends tokenId raw s (Abort t) (Ok (BlockNumber raw)) ∧ alarm (Abort t) = alarm s) as Hdone.
  { intros t Hct Hrt. pose proof (alarm_rest _ _ Hrt). pose proof (told_rest _ _ Hrt).
    split; [|rewrite alarm_Abort; congruence].
    apply (bought_ends_same _ _ _ t (Abort t)); [done|done|].
    eapply (bought_processed _ _ _ _ row c w); congruence. }
  destruct c.
  - eapply runs_orRespond; [exact (Add_cancellation_ends tokenId x _ Hr Hw')|..].
    2: { intros y e [[Hcy Hry] _]. by apply Hfail. }
    2: by intros y p [_ []].
    intros y [] [[Hcy Hry] Hwy].
    eapply (finish_ends raw (λ _, 0) _ y (λ t o, bought_ends tokenId raw s t o ∧ alarm t = alarm s));
      [exact (Remove_ends tokenId y _ Hr Hwy)|..].
    + intros t _ Hct Hrt. apply Hfail; congruence.
    + intros t Hct Hrt. apply Hdone; [exact Hct|congruence].
  - eapply (finish_ends raw (λ _, 0) _ x (λ t o, bought_ends tokenId raw s t o ∧ alarm t = alarm s));
      [exact (Remove_ends tokenId x _ Hr Hw')|..].
    + intros t _ Hct Hrt. by apply Hfail.
    + intros t Hct Hrt. by apply Hdone.
Qed.

Lemma bought_body_ends tokenId raw s :
  0 ≤ tokenId < 2 ^ 63 →
  runs (orRespond (NewSession fault) (λ _, 0) (λ _,
    deferS Abort (
      r ← attempt (storage_GetTokenBoughtSubscription tokenId);
      match r with
      | inr e => if errors_is e "eventlistener.ErrNotFound" then retS (BlockNumber raw) else retS 0
      | inl subscription =>
          orRespond (onEnv (TokenBoughtNotificationWithBuyTx (TokenID subscription)
                              (MintID subscription) (TxHash raw))) (λ _, 0) (λ _,
          orRespond (onEnv (svc_IsBookingCancellable None (TokenID subscription))) (λ _, 0)
            (λ isCancellable,
          orRespond (if (isCancellable : bool)
                     then storage_AddCancellationSubscription (TokenID subscription)
                     else retS tt) (λ _, 0) (λ _,
          orRespond (storage_RemoveTokenBoughtSubscription (TokenID subscription)) (λ _, 0) (λ _,
          orRespond (Commit fault) (λ _, 0) (λ _,
          retS (BlockNumber raw))))))
      end))) s (λ t o, bought_ends tokenId raw s t o ∧ alarm t = alarm s).
Proof.
  intros Hr. eapply runs_orRespond; [exact (NewSession_ends fault s)|..].
  2: { intros t e [[Hc Hrest] _]. split; [|by apply alarm_rest].
       apply bought_unprocessed; [done|by apply told_rest]. }
  2: by intros t p [_ []].
  intros t [] [[Hc Hrest] Hw]. apply runs_deferS.
  eapply runs_attempt; [exact (getRow_ends fault _ _ _ t _ Hw)|..].
  3: by intros u p [_ []].
  2: { intros u e [[Hcu Hru] He].
       assert (alarm (Abort u) = alarm s) by (rewrite alarm_Abort; apply alarm_rest; congruence).
       assert (told (Abort u) = told s) by (change (told u = told s); apply told_rest; congruence).
       assert (committed (Abort u) = committed s) by (simpl; congruence).
       rewrite bigInt64_small in He by done.
       destruct (errors_is e _) eqn:Ee; (split; [|done]); [|by apply bought_unprocessed].
       apply bought_unwatched; [done..|]. destruct He as [_ [[He _]|(n & e' & Hf & ->)]].
       - by destruct (tokens _ !! _).
       - simpl in Ee. by rewrite (driver_faults n e' Hf) in Ee. }
  intros u sub [[Hcu Hru] [Hsub Hwu]]. rewrite bigInt64_small in Hsub by done.
  destruct (tokens (committed s) !! tokenId) as [row|] eqn:Erow; simplify_eq/=.
  assert (committed u = committed s) as Hcs by congruence.
  assert (told u = told s) as Hts by (apply told_rest; congruence).
  eapply runs_mono; [apply (notified_bought_ends tokenId raw u (committed s) row Hr Hwu (eq_sym Hcs) Erow)|].
  intros v o (Ho & Ha). split; [|rewrite Ha; apply alarm_rest; congruence].
  by apply (bought_ends_start tokenId raw u).
Qed.

Lemma resetIfMatch_ends tokenId s :
  started s →
  runs (resetTokenBoughtTimerIfMatch tokenId) s (λ t o, o = Ok tt ∧ data t = data s ∧
    (reset_to (tokens (committed s)) t ∨
     alarm t = alarm s ∧
       ∃ current, tokenBoughtTimerSubscription (rest s) = Some current ∧ TokenID current ≠ tokenId)).
Proof.
  intros Hs. unfold resetTokenBoughtTimerIfMatch.
  change (runs (match tokenBoughtTimerSubscription (rest s) with
    | Some current => if TokenID current =? tokenId then resetTokenBoughtTimerFromDB else retS tt
    | None => resetTokenBoughtTimerFromDB end) s
    (λ t o, o = Ok tt ∧ data t = data s ∧
      (reset_to (tokens (committed s)) t ∨ alarm t = alarm s ∧
       ∃ current, tokenBoughtTimerSubscription (rest s) = Some current ∧ TokenID current ≠ tokenId))).
  destruct (tokenBoughtTimerSubscription (rest s)) as [sub|].
  - destruct (Z.eqb_spec (TokenID sub) tokenId).
    + eapply runs_mono; [exact (resetFromDB_ends s Hs)|]. intros t o (? & ? & ?). auto.
    + apply runs_ret. split_and!; [done|done|]. right. eauto.
  - eapply runs_mono; [exact (resetFromDB_ends s Hs)|]. intros t o (? & ? & ?). auto.
Qed.

(** *** The timeout handler *)
Lemma runs_orLog {A} (m : M state A) k s P (Q : state → outcome unit → Prop) :
  runs m s P →
  (∀ t a, P t (Ok a) → runs (k a) t Q) →
  (∀ t e, P t (Err e) → is_Some (tokenBoughtTimerSubscription (rest t)) ∧ Q t (Ok tt)) →
  (∀ t p, P t (Panic p) → Q t (Panic p)) →
  runs (orLog m k) s Q.
Proof.
  intros Hm Hok He Hp. eapply runs_attempt; [exact Hm|exact Hok| |exact Hp].
  intros t e [[sub Hsub] HQ]%He. unfold runs, timerSubscription, getRest, liftO, mbind, M_bind.
  by rewrite Hsub.
Qed.

Lemma runs_timerSubscription {A} (k : TokenBoughtSubscription → M state A) s sub Q :
  tokenBoughtTimerSubscription (rest s) = Some sub → runs (k sub) s Q →
  runs (subscription ← timerSubscription; k subscription) s Q.
Proof.
  intros Hs. unfold runs, timerSubscription, getRest, liftO, mbind, M_bind. by rewrite Hs.
Qed.

(** How the handling of an expired reservation can end: the partner plugin is told
    about it or not, and the subscription goes only once it acknowledged. *)
Inductive expired_ends (sub : TokenBoughtSubscription) (s t : state) : Prop :=
  | expired_quietly : committed t = committed s → told t = told s → expired_ends sub s t
  | expired_kept ack :
      committed t = committed s →
      told t = told s ++ [(TokenReservationExpired (TokenID sub) (MintID sub), ack)] →
      expired_ends sub s t
  | expired_removed :
      (recordTokenExpiration = true → ∃ w, (svc_RecordExpiration (TokenID sub) w).2 = Ok tt) →
      committed t = set_tokens (delete (TokenID sub) (tokens (committed s))) (committed s) →
      told t = told s ++ [(TokenReservationExpired (TokenID sub) (MintID sub), true)] →
      expired_ends sub s t.

Lemma subscription_alarm s t sub :
  alarm t = alarm s → tokenBoughtTimerSubscription (rest s) = Some sub →
  tokenBoughtTimerSubscription (rest t) = Some sub.
Proof. unfold alarm. congruence. Qed.

Lemma removal_ends sub s w :
  0 ≤ TokenID sub < 2 ^ 63 → tokenBoughtTimerSubscription (rest s) = Some sub →
  working s = Some w →
  runs (orLog (subscription ← timerSubscription;
               storage_RemoveTokenBoughtSubscription (TokenID subscription)) (λ _,
        orLog (Commit fault) (λ _, retS tt))) s
    (λ t o, o = Ok tt ∧ alarm t = alarm s ∧ told t = told s ∧
      (committed t = committed s ∨ committed t = set_tokens (delete (TokenID sub) (tokens w)) w)).
Proof.
  intros Hr Hsub Hw. eapply runs_orLog.
  - eapply runs_timerSubscription; [exact Hsub|]. exact (Remove_ends _ s w Hr Hw).
  - intros t [] [[Hc Hrt] Hw']. pose proof (alarm_rest _ _ Hrt). pose proof (told_rest _ _ Hrt).
    eapply runs_orLog; [exact (Commit_ends fault t _ Hw')|..].
    + intros u [] [Hru Hcu]. pose proof (alarm_rest _ _ Hru). pose proof (told_rest _ _ Hru).
      split_and!; [done|congruence|congruence|by right].
    + intros u e [Hru Hcu]. pose proof (alarm_rest _ _ Hru). pose proof (told_rest _ _ Hru).
      split; [rewrite Hru, Hrt, Hsub; eauto|].
      split_and!; [done|congruence|congruence|left; congruence].
    + by intros u p [_ []].
  - intros t e [[Hc Hrt] _]. pose proof (alarm_rest _ _ Hrt). pose proof (told_rest _ _ Hrt).
    split; [rewrite Hrt, Hsub; eauto|]. split_and!; [done..|by left].
  - by intros t p [_ []].
Qed.

Lemma told_more s t n : told t = told s → told t ≠ told s ++ [n].
Proof. intros -> E. apply (f_equal length) in E. rewrite length_app in E. simpl in E. lia. Qed.

Lemma timeoutExpired_ends sub s :
  0 ≤ TokenID sub < 2 ^ 63 → tokenBoughtTimerSubscription (rest s) = Some sub →
  runs (timeoutExpired StatusReserved) s
    (λ t o, o = Ok tt ∧ alarm t = alarm s ∧ expired_ends sub s t ∧
      (told t = told s → ∃ n e, fault n = Some e)).
Proof.
  intros Hr Hsub. unfold timeoutExpired. cbn [negb Z.eqb StatusReserved].
  assert (∀ t ack, committed t = committed s →
    told t = told s ++ [(TokenReservationExpired (TokenID sub) (MintID sub), ack)] →
    expired_ends sub s t ∧ (told t = told s → ∃ n e, fault n = Some e)) as kept_told.
  { intros t ack Hc Ht. split; [by eapply expired_kept|]. intros Hno. by destruct (told_more s _ _ Hno Ht). }
  eapply runs_timerSubscription; [exact Hsub|].
  eapply runs_orLog; [exact (NewSession_ends fault s)|..].
  3: by intros t p [_ []].
  2: { intros t e [[Hc Hrt] Hf]. pose proof (alarm_rest _ _ Hrt). pose proof (told_rest _ _ Hrt).
       split; [rewrite Hrt, Hsub; eauto|]. split_and!; [done..| |done]. by apply expired_quietly. }
  intros t [] [[Hc Hrt] Hw]. apply runs_deferS.
  pose proof (alarm_rest _ _ Hrt) as Hat. pose proof (told_rest _ _ Hrt) as Htt.
  assert (tokenBoughtTimerSubscription (rest t) = Some sub) as Hsub_t by (by rewrite Hrt).
  eapply runs_orLog.
  { eapply runs_timerSubscription; [exact Hsub_t|].
    unfold TokenExpiredNotification. rewrite in_range_bigUint64 by done.
    exact (onEnv_notify _ t). }
  3: { intros u p (_ & _ & _ & _ & Hp). by destruct (Hp p). }
  2: { intros u e (Hcu & _ & Hau & Htu & _). simpl in Htu. split; [by eexists; eapply subscription_alarm|].
       split; [done|]. rewrite alarm_Abort. split; [congruence|].
       apply (kept_told _ false); [simpl; congruence|].
       change (told u = told s ++ [(TokenReservationExpired (TokenID sub) (MintID sub), false)]). congruence. }
  intros u [] (Hcu & Hwu & Hau & Htu & _). simpl in Htu.
  assert (tokenBoughtTimerSubscription (rest u) = Some sub) as Hsub_u by (by eapply subscription_alarm).
  assert (told u = told s ++ [(TokenReservationExpired (TokenID sub) (MintID sub), true)])
    as Hexp by congruence.
  eapply (runs_orLog _ _ _ (λ v o, committed v = committed u ∧ working v = working u ∧
    alarm v = alarm u ∧ told v = told u ∧ match o with
    | Ok _ => recordTokenExpiration = true → ∃ w, (svc_RecordExpiration (TokenID sub) w).2 = Ok tt
    | Err _ => True | Panic _ => False end)).
  { destruct recordTokenExpiration; [|done]. eapply runs_timerSubscription; [exact Hsub_u|].
    eapply runs_mono; [exact (onEnv_quiet _ u (RecordExpiration_quiet _))|].
    intros v o (? & ? & ? & ? & [w Hw'] & Hp). split_and!; try done.
    destruct o as [[]|e|p]; [|done|by destruct (Hp p)]. intros _. by exists w. }
  3: by intros v p (_ & _ & _ & _ & []).
  2: { intros v e (Hcv & _ & Hav & Htv & _). split; [by eexists; eapply subscription_alarm|].
       split; [done|]. rewrite alarm_Abort. split; [congruence|].
       apply (kept_told _ true); [simpl; congruence|].
       change (told v = told s ++ [(TokenReservationExpired (TokenID sub) (MintID sub), true)]). congruence. }
  intros v [] (Hcv & Hwv & Hav & Htv & Hrec).
  assert (tokenBoughtTimerSubscription (rest v) = Some sub) as Hsub_v by (by eapply subscription_alarm).
  assert (working v = Some (committed s)) as Hw' by congruence.
  eapply runs_mono; [exact (removal_ends sub v _ Hr Hsub_v Hw')|].
  intros x o (-> & Hax & Htx & Hcx). split; [done|]. rewrite alarm_Abort. split; [congruence|].
  assert (told (Abort x) = told s ++ [(TokenReservationExpired (TokenID sub) (MintID sub), true)])
    by (change (told x = told s ++ [(TokenReservationExpired (TokenID sub) (MintID sub), true)]); congruence).
  destruct Hcx as [Hcx|Hcx].
  - apply (kept_told _ true); [simpl; congruence|done].
  - split; [by apply expired_removed|]. intros Hno.
    by destruct (told_more s (Abort x) (TokenReservationExpired (TokenID sub) (MintID sub), true) Hno).
Qed.

Lemma bought_ends_tokens tokenId raw s t o :
  bought_ends tokenId raw s t o → tokens (committed t) ⊆ tokens (committed s).
Proof.
  destruct 1 as [Hc _|Hc _ _|row ack _ Hc _|row c w _ _ Hc _]; rewrite Hc; [done..|].
  simpl. apply delete_subseteq.
Qed.

Lemma expired_ends_tokens sub s t :
  expired_ends sub s t → tokens (committed t) ⊆ tokens (committed s).
Proof.
  destruct 1 as [Hc _|ack Hc _|_ Hc _]; rewrite Hc; [done..|]. simpl. apply delete_subseteq.
Qed.

Lemma handler_ends tokenId raw s :
  0 ≤ tokenId < 2 ^ 63 → started s →
  runs (tokenBoughtEventHandler tokenId raw) s (λ t o, bought_ends tokenId raw s t o ∧
    (reset_to (tokens (committed t)) t ∨ alarm t = alarm s)).
Proof.
  intros Hr Hs. unfold tokenBoughtEventHandler.
  eapply runs_deferM; [exact (bought_body_ends tokenId raw s Hr)|].
  intros t o [Ho Ha]. assert (started t) as Ht by (unfold started, alarm in *; congruence).
  eapply runs_mono; [exact (resetIfMatch_ends tokenId t Ht)|].
  intros u o' (-> & Hd & Hreset). injection Hd as Hc He. split.
  - eapply bought_ends_same; [exact Hc| |exact Ho]. unfold told. by rewrite He.
  - destruct Hreset as [Hreset|[Hau _]]; [left; by rewrite Hc|right; congruence].
Qed.

(** What the run of the timeout handler leaves: the reservation handled, if it is still
    one, and the alarm set anew. *)
Lemma timeout_ends sub s :
  0 ≤ TokenID sub < 2 ^ 63 → started s → tokenBoughtTimerSubscription (rest s) = Some sub →
  runs tokenBoughtTimeoutHandler s (λ t o, o = Ok tt ∧ expired_ends sub s t ∧
    (told t = told s ∧ committed t = committed s ∨
     ∃ w, (svc_GetBookingStatus None (TokenID sub) w).2 = Ok StatusReserved) ∧
    reset_to (tokens (committed t)) t).
Proof.
  intros Hr Hs Hsub. unfold tokenBoughtTimeoutHandler.
  apply (runs_deferM _ _ _ (λ t o, o = Ok tt ∧ alarm t = alarm s ∧ expired_ends sub s t ∧
    (told t = told s ∧ committed t = committed s ∨
     ∃ w, (svc_GetBookingStatus None (TokenID sub) w).2 = Ok StatusReserved))).
  - eapply runs_orLog.
    + eapply runs_timerSubscription; [exact Hsub|]. exact (onEnv_quiet _ s (GetBookingStatus_quiet _ _)).
    + intros t status (Hct & _ & Hat & Htt & [w Hw] & _).
      destruct (decide (status = StatusReserved)) as [->|Hne].
      * assert (tokenBoughtTimerSubscription (rest t) = Some sub) as Hsub_t by (by eapply subscription_alarm).
        eapply runs_mono; [exact (timeoutExpired_ends sub t Hr Hsub_t)|].
        intros u o (-> & Hau & He & _). split_and!; [done|congruence| |right; by exists w].
        destruct He as [H1 H2|ack H1 H2|H1 H2 H3]; rewrite ?Hct, ?Htt in *;
          [by apply expired_quietly|by eapply expired_kept|by apply expired_removed].
      * unfold timeoutExpired. apply Z.eqb_neq in Hne as ->. apply runs_ret.
        split_and!; [done|done|by apply expired_quietly|by left].
    + intros t e (Hct & _ & Hat & Htt & _). split; [by eexists; eapply subscription_alarm|].
      split_and!; [done|done|by apply expired_quietly|by left].
    + intros t p (_ & _ & _ & _ & _ & Hp). by destruct (Hp p).
  - intros t o (-> & Ha & He & Hst). assert (started t) as Ht by (unfold started, alarm in *; congruence).
    eapply runs_mono; [exact (resetFromDB_ends t Ht)|]. intros u o' (-> & Hd & Hreset).
    injection Hd as Hc Henv. assert (told u = told t) as Htold by (unfold told; by rewrite Henv).
    split_and!; [done| |by rewrite Hc, Htold|by rewrite Hc].
    destruct He as [H1 H2|ack H1 H2|H1 H2 H3];
      [apply expired_quietly|eapply expired_kept|apply expired_removed]; rewrite ?Hc, ?Htold; eauto.
Qed.


(** *** The cancellation event handlers *)

(** How the handling of a cancellation event can end: not done; the token not watched;
    the partner plugin notified, and the subscriptions left or changed. *)
Inductive cancellation_ends (tokenId blockNumber : Z) (note : Notification → Prop)
    (after : gset Z → gset Z) (s t : state) : outcome Z → Prop :=
  | cancellation_unprocessed :
      committed t = committed s → told t = told s →
      cancellation_ends tokenId blockNumber note after s t (Ok 0)
  | cancellation_unwatched :
      committed t = committed s → told t = told s → tokenId ∉ cancellations (committed s) →
      cancellation_ends tokenId blockNumber note after s t (Ok blockNumber)
  | cancellation_kept n ack :
      tokenId ∈ cancellations (committed s) → note n →
      committed t = committed s → told t = told s ++ [(n, ack)] →
      cancellation_ends tokenId blockNumber note after s t (Ok 0)
  | cancellation_processed n :
      tokenId ∈ cancellations (committed s) → note n →
      committed t = set_cancellations (after (cancellations (committed s))) (committed s) →
      told t = told s ++ [(n, true)] →
      cancellation_ends tokenId blockNumber note after s t (Ok blockNumber).

Definition cancelled (tokenId blockNumber : Z) (note : Notification → Prop)
    (after : gset Z → gset Z) (m : M state Z) : Prop :=
  ∀ s, runs m s (λ t o, alarm t = alarm s ∧ cancellation_ends tokenId blockNumber note after s t o).

Lemma set_cancellations_same (db : tables) : set_cancellations (cancellations db) db = db.
Proof. by destruct db. Qed.

Lemma ifSubscribed_ends tokenId blockNumber note after k :
  0 ≤ tokenId < 2 ^ 63 →
  (∀ s, working s = Some (committed s) → tokenId ∈ cancellations (committed s) →
    runs k s (λ t o, alarm t = alarm s ∧ cancellation_ends tokenId blockNumber note after s (Abort t) o)) →
  cancelled tokenId blockNumber note after (ifSubscribed tokenId blockNumber k).
Proof.
  intros Hr Hk s. unfold ifSubscribed.
  eapply runs_orRespond; [exact (NewSession_ends fault s)|..].
  2: { intros t e [[Hc Hrt] _]. split; [by apply alarm_rest|].
       apply cancellation_unprocessed; [done|by apply told_rest]. }
  2: by intros t p [_ []].
  intros t [] [[Hc Hrt] Hw]. apply runs_deferS.
  unfold storage_IsCancellationSubscriptionExist. rewrite bigInt64_small by done.
  pose proof (Query_ends fault (λ db, Ok (bool_decide (tokenId ∈ cancellations db))) t _ Hw) as Hq.
  unfold runs in Hq. unfold orRespond, runs, mbind, M_bind, attempt, wrapS.
  destruct (Query _ _ t) as [u [ok|e|p]]; simpl in *; destruct Hq as [[Hcu Hru] Ho].
  - destruct Ho as [[= <-] Hwu]. assert (alarm u = alarm s) as Hau by (apply alarm_rest; congruence).
    assert (told u = told s) as Htu by (apply told_rest; congruence).
    assert (committed u = committed s) as Hcus by congruence.
    case_bool_decide as Hin; simpl.
    + assert (working u = Some (committed u)) as Hw' by congruence.
      rewrite <- Hcus in Hin. pose proof (Hk u Hw' Hin) as Hu. unfold runs in Hu.
      destruct (k u) as [v o]. destruct Hu as [Hav Hv]. split; [change (alarm v = alarm s); congruence|].
      rewrite Hcus in Hin.
      destruct Hv as [H1 H2|H1 H2 H3|n ack H1 H2 H3 H4|n H1 H2 H3 H4]; rewrite ?Hcus, ?Htu in *;
        [by apply cancellation_unprocessed|by apply cancellation_unwatched|
         by eapply cancellation_kept|by eapply cancellation_processed].
    + split; [exact Hau|]. by apply cancellation_unwatched.
  - assert (alarm u = alarm s) as Hau by (apply alarm_rest; congruence).
    split; [exact Hau|]. apply cancellation_unprocessed; [simpl; congruence|].
    change (told u = told s). apply told_rest. congruence.
  - done.
Qed.

(** A notification, then what is left to do. *)
Lemma cancellation_notify tokenId blockNumber (note : Notification → Prop) after n k s :
  note n → tokenId ∈ cancellations (committed s) → working s = Some (committed s) →
  (∀ t, committed t = committed s → working t = working s → alarm t = alarm s →
    told t = told s ++ [(n, true)] →
    runs (k tt) t (λ u o, alarm u = alarm s ∧ cancellation_ends tokenId blockNumber note after s (Abort u) o)) →
  runs (orRespond (onEnv (client_Notify n)) (λ _, 0) k) s
    (λ t o, alarm t = alarm s ∧ cancellation_ends tokenId blockNumber note after s (Abort t) o).
Proof.
  intros Hn Hin Hw Hk. eapply runs_orRespond; [exact (onEnv_notify n s)|..].
  - intros t [] (Hc & Hwt & Ha & Ht & _). simpl in Ht. by apply Hk.
  - intros t e (Hc & Hwt & Ha & Ht & _). split; [done|]. by eapply (cancellation_kept _ _ _ _ _ _ n false).
  - intros t p (_ & _ & _ & _ & Hp). by destruct (Hp p).
Qed.

Lemma cancellation_done tokenId blockNumber (note : Notification → Prop) n s t :
  note n → tokenId ∈ cancellations (committed s) → committed t = committed s → alarm t = alarm s →
  told t = told s ++ [(n, true)] →
  runs (retS blockNumber) t (λ u o, alarm u = alarm s ∧
    cancellation_ends tokenId blockNumber note id s (Abort u) o).
Proof.
  intros Hn Hin Hc Ha Ht. split; [done|]. eapply (cancellation_processed _ _ _ _ _ _ n); [done..| |done].
  simpl. by rewrite set_cancellations_same.
Qed.

Lemma Remove_cancellation_ends tokenId s w :
  0 ≤ tokenId < 2 ^ 63 → working s = Some w →
  runs (storage_RemoveCancellationSubscription tokenId) s (λ t o, same_data s t ∧
    match o with
    | Ok _ => working t = Some (set_cancellations (cancellations w ∖ {[tokenId]}) w)
    | Err _ => True
    | Panic _ => False
    end).
Proof.
  intros Hr Hw. unfold storage_RemoveCancellationSubscription. rewrite bigInt64_small by done.
  eapply runs_mono.
  - apply (oneRow_ends fault _ _ s w Hw). intros w' p. by case_decide.
  - intros t [[]|e|p] [Hd Ho]; (split; [done|]); try done. destruct Ho as (w' & Hs & ->).
    by case_decide; simplify_eq.
Qed.

(** The notifications of the four events. *)
Definition pending_note (event : CancellationPendingEvent) (n : Notification) : Prop :=
  ∃ w reasons, (svc_GetCancellationReasonsEvent (TxHash (ev_Raw event)) w).2 = Ok reasons ∧
    n = CancellationPendingN (pending_of_event event reasons).

Lemma pending_ends event :
  0 ≤ ev_TokenId event < 2 ^ 63 →
  cancelled (ev_TokenId event) (BlockNumber (ev_Raw event)) (pending_note event) id
    (cancellationPendingEventHandler event).
Proof.
  intros Hr. apply ifSubscribed_ends; [done|]. intros s Hw Hin.
  eapply runs_orRespond; [exact (onEnv_quiet _ s (GetCancellationReasonsEvent_quiet _))|..].
  - intros t reasons (Hc & Hwt & Ha & Ht & [w Hreasons] & _).
    assert (pending_note event (CancellationPendingN (pending_of_event event reasons))) as Hnote
      by (by exists w, reasons).
    eapply runs_mono.
    { apply (cancellation_notify (ev_TokenId event) (BlockNumber (ev_Raw event)) _ id _ _ t Hnote);
        [by rewrite Hc|by rewrite Hwt, Hc|]. intros u Hcu Hwu Hau Htu.
      refine (cancellation_done _ _ _ _ t u Hnote _ Hcu Hau Htu). by rewrite Hc. }
    intros u o [Hau Ho]. split; [congruence|].
    destruct Ho as [H1 H2|H1 H2 H3|n ack H1 H2 H3 H4|n H1 H2 H3 H4]; rewrite ?Hc, ?Ht in *;
        [by apply cancellation_unprocessed|by apply cancellation_unwatched|
         by eapply cancellation_kept|by eapply cancellation_processed].
  - intros t e (Hc & _ & Ha & Ht & _). split; [done|]. by apply cancellation_unprocessed.
  - intros t p (_ & _ & _ & _ & _ & Hp). by destruct (Hp p).
Qed.

Lemma notice_ends tokenId blockNumber n :
  0 ≤ tokenId < 2 ^ 63 →
  cancelled tokenId blockNumber (eq n) id
    (ifSubscribed tokenId blockNumber
      (orRespond (onEnv (client_Notify n)) (λ _, 0) (λ _, retS blockNumber))).
Proof.
  intros Hr. apply ifSubscribed_ends; [done|]. intros s Hw Hin.
  apply cancellation_notify; [done..|]. intros t Hc Hwt Ha Ht.
  exact (cancellation_done _ _ _ _ s t eq_refl Hin Hc Ha Ht).
Qed.

Lemma finalized_ends tokenId raw :
  0 ≤ tokenId < 2 ^ 63 →
  cancelled tokenId (BlockNumber raw) (eq (CancellationFinalizedN tokenId (TxHash raw)))
    (λ c, c ∖ {[tokenId]}) (cancellationFinalizedEventHandler tokenId raw).
Proof.
  intros Hr. apply ifSubscribed_ends; [done|]. intros s Hw Hin.
  unfold CancellationFinalizedNotification. rewrite in_range_bigUint64 by done.
  apply cancellation_notify; [done..|]. intros t Hc Hwt Ha Ht.
  rewrite Hw in Hwt. eapply runs_mono.
  - apply (finish_ends raw (λ _, 0) _ t (λ u o, alarm u = alarm s ∧
      cancellation_ends tokenId (BlockNumber raw) (eq (CancellationFinalizedN tokenId (TxHash raw)))
        (λ c, c ∖ {[tokenId]}) s u o) _ (Remove_cancellation_ends tokenId t _ Hr Hwt)).
    + intros u _ Hcu Hru. pose proof (alarm_rest _ _ Hru). pose proof (told_rest _ _ Hru).
      split; [change (alarm u = alarm s); congruence|].
      eapply (cancellation_kept _ _ _ _ _ _ _ true); [done|done|simpl; congruence|].
      change (told (Abort u)) with (told u). congruence.
    + intros u Hcu Hru. pose proof (alarm_rest _ _ Hru). pose proof (told_rest _ _ Hru).
      split; [change (alarm u = alarm s); congruence|].
      eapply cancellation_processed; [done|done|exact Hcu|]. change (told (Abort u)) with (told u). congruence.
  - done.
Qed.

Lemma cancellation_ends_mono tokenId blockNumber (note note' : Notification → Prop) after s t o :
  (∀ n, note n → note' n) →
  cancellation_ends tokenId blockNumber note after s t o →
  cancellation_ends tokenId blockNumber note' after s t o.
Proof.
  intros Hn [H1 H2|H1 H2 H3|n ack H1 H2 H3 H4|n H1 H2 H3 H4];
    [by apply cancellation_unprocessed|by apply cancellation_unwatched|
     eapply cancellation_kept; eauto|eapply cancellation_processed; eauto].
Qed.

End EventListener.

(** ** Properties *)
Section Properties.
Context `{ListenerEnv W}.
Variable fault : nat → option error.
Variable pick : list (Z * (string * Z)) → option (Z * (string * Z)).
Variable recordTokenExpiration : bool.

Abbreviation state := (Txn tables (listener W)).

(** C23: every way the handling of a bought event can end, whatever fails: it never
    returns an error or panics; only once the partner plugin acknowledged the
    notification of the token, with its mint id and transaction, is the subscription
    removed, in one transaction with the cancellation subscription of a cancellable
    booking; the block counts as processed just then, or when the token is not
    watched. *)
Theorem tokenBoughtEventHandler_ends tokenId raw (s : state) :
  (∀ n e, fault n = Some e → errors_is e "eventlistener.ErrNotFound" = false) →
  0 ≤ tokenId < 2 ^ 63 → started s →
  runs (tokenBoughtEventHandler fault pick tokenId raw) s (bought_ends tokenId raw s).
Proof.
  intros Hf Hr Hs. eapply runs_mono; [by apply handler_ends|]. by intros t o [Ho _].
Qed.


(** C25: every way the handling of a cancellation event can end, whatever fails: it never
    returns an error or panics, says nothing of tokens that are not watched, leaves the
    timer and the bought subscriptions alone, and counts the block as processed only
    after the acknowledgement of the right notification; finalized ends the watch.  The
    refund amount of a pending notification is the low 64 bits of that of the event. *)
Theorem cancellation_events_end event tokenId reason raw :
  0 ≤ ev_TokenId event < 2 ^ 63 → 0 ≤ tokenId < 2 ^ 63 →
  cancelled (ev_TokenId event) (BlockNumber (ev_Raw event))
    (λ n, ∃ p, n = CancellationPendingN p ∧ cp_TokenId p = ev_TokenId event ∧
       cp_TxId p = TxHash (ev_Raw event) ∧
       cp_RefundAmount p = Z.abs (ev_RefundAmount event) mod 2 ^ 64)
    id (cancellationPendingEventHandler fault event) ∧
  cancelled tokenId (BlockNumber raw) (eq (CancellationRejectedN tokenId reason (TxHash raw))) id
    (cancellationRejectedEventHandler fault tokenId reason raw) ∧
  cancelled tokenId (BlockNumber raw) (eq (CancellationWithdrawnN tokenId reason (TxHash raw))) id
    (cancellationWithdrawnEventHandler fault tokenId reason raw) ∧
  cancelled tokenId (BlockNumber raw) (eq (CancellationFinalizedN tokenId (TxHash raw)))
    (λ c, c ∖ {[tokenId]}) (cancellationFinalizedEventHandler fault tokenId raw).
Proof.
  intros He Ht. split_and!.
  - intros s. eapply runs_mono; [exact (pending_ends fault event He s)|]. intros t o [Ha Ho].
    split; [done|]. eapply cancellation_ends_mono; [|exact Ho]. intros n (w & r & _ & ->).
    eexists. split; [done|]. simpl. by rewrite in_range_bigUint64.
  - unfold cancellationRejectedEventHandler, CancellationRejectedNotification.
    rewrite in_range_bigUint64 by done. by apply notice_ends.
  - unfold cancellationWithdrawnEventHandler, CancellationWithdrawnNotification.
    rewrite in_range_bigUint64 by done. by apply notice_ends.
  - by apply finalized_ends.
Qed.
End Properties.

(** ** An environment that answers, and witnesses *)
Module Toy.
Record world := { clock : Z; log : list (Notification * bool) }.

Definition answer {A} (a : A) : M world A := λ w, (w, Ok a).
Definition notify (n : Notification) : M world unit := λ w,
  ({| clock := clock w; log := log w ++ [(n, true)] |}, Ok tt).
Definition status (_ : option Z) (tokenID : Z) : M world Z :=
  answer (if tokenID =? 9 then StatusBought else StatusReserved).
Definition reasons : CancellationReasons :=
  {| CancellationReason := 1; CancellationVersion := 1; RejectionReason := 0; RejectionVersion := 0;
     CounterReason := 0; CounterVersion := 0; WithdrawalReason := 0; WithdrawalVersion := 0 |}.
Definition proposal : CancellationProposal :=
  {| prop_Status := 0; RefundAmount := 0; InitialProposer := 0; CurrentProposer := 0;
     OwnerAccepted := false; SupplierAccepted := false; TimesCountered := 0; TimesRejected := 0 |}.

#[global] Instance listener_ops : ListenerOps world := {|
  Now := clock; sent := log; client_Notify := notify; svc_GetBookingStatus := status;
  svc_IsBookingCancellable _ _ := answer true; svc_RecordExpiration _ := answer tt;
  svc_GetCancellationProposal _ _ := answer proposal;
  svc_GetCancellationReasons _ _ := answer reasons;
  svc_GetCancellationReasonsEvent _ := answer reasons |}.

#[global] Instance listener_env : ListenerEnv world.
Proof.
  split.
  - by intros n w.
  - by intros b t w.
  - by intros b t w.
  - by intros t w.
  - by intros b t w.
  - by intros b t w.
  - by intros h w.
Defined.

Definition fault (_ : nat) : option error := None.
Definition scan (A : Type) (l : list A) : list A := l.
Definition pick (l : list (Z * (string * Z))) : option (Z * (string * Z)) := list.head l.

Lemma no_fault n : fault n = None.
Proof. done. Qed.
Lemma driver_faults n e : fault n = Some e → errors_is e "eventlistener.ErrNotFound" = false.
Proof. done. Qed.
Lemma pick_ok l : match pick l with Some x => x ∈ l | None => l = [] end.
Proof. destruct l as [|x l]; [done|]. by left. Qed.
Lemma scan_perm A (l : list A) : scan A l ≡ₚ l.
Proof. done. Qed.

(** Tokens with their timeouts; the timer is set for the first of them. *)
Definition db (rows : list (Z * (string * Z))) : tables :=
  {| tokens := list_to_map rows; cancellations := {[7]} |}.
Definition listening (rows : list (Z * (string * Z))) (t : timer) (o : option TokenBoughtSubscription)
    : Txn tables (listener world) :=
  mkTxn (db rows) None 0 (mkListener {| clock := 100 * Second; log := [] |} t o UnsubReady UnsubReady).
Definition raw : Raw := {| BlockNumber := 55; TxHash := 77 |}.
Definition sub3 : TokenBoughtSubscription := modelFromTokenBoughtSubscription 3 ("m3", 50).
Definition sub9 : TokenBoughtSubscription := modelFromTokenBoughtSubscription 9 ("m9", 50).
Definition one := listening [(3, ("m3", 50))] (TimerArmed (100 * Second)) (Some sub3).
Definition two := listening [(3, ("m3", 50)); (4, ("m4", 500))] (TimerArmed (100 * Second)) (Some sub3).
Definition stuck := listening [(9, ("m9", 50))] (TimerArmed (100 * Second)) (Some sub9).
Definition fresh := listening [(3, ("m3", 50)); (9, ("m9", 50)); (4, ("m4", 500))] TimerNil None.
Definition event : CancellationPendingEvent :=
  {| ev_TokenId := 7; ev_InitialProposer := 1; ev_CurrentProposer := 1;
     ev_RefundAmount := 2 ^ 64 + 5; ev_OwnerAccepted := true; ev_SupplierAccepted := false;
     ev_TimesCountered := 0; ev_TimesRejected := 0; ev_Raw := raw |}.
End Toy.

Lemma tokenBoughtEventHandler_ends_witness :
  runs (tokenBoughtEventHandler Toy.fault Toy.pick 3 Toy.raw) Toy.one (bought_ends 3 Toy.raw Toy.one) ∧
  (tokenBoughtEventHandler Toy.fault Toy.pick 3 Toy.raw Toy.one).2 = Ok 55.
Proof.
  split; [|vm_compute; reflexivity].
  apply (tokenBoughtEventHandler_ends Toy.fault Toy.pick 3 Toy.raw Toy.one Toy.driver_faults);
    [lia|discriminate].
Defined.


Lemma cancellation_events_end_witness :
  cancelled 7 55 (eq (CancellationFinalizedN 7 77)) (λ c, c ∖ {[7]})
    (cancellationFinalizedEventHandler Toy.fault 7 Toy.raw) ∧
  (cancellationFinalizedEventHandler Toy.fault 7 Toy.raw Toy.one).2 = Ok 55.
Proof.
  split; [|vm_compute; reflexivity].
  exact (proj2 (proj2 (proj2 (cancellation_events_end Toy.fault Toy.event 7 1 Toy.raw
    ltac:(vm_compute; split; [discriminate|reflexivity]) ltac:(split; [discriminate|reflexivity]))))).
Defined.
