(* ===== verification/Alarm.v ===== *)
(** * The timer of the event listener (internal/eventlistener/subscription_token_bought.go)

    What the handlers of [EventListener] do together: one after the other they keep
    the timer set for the subscription due first; at once, or for a token that is no
    longer reserved, they do not do what they mean to. *)
From S2P Require Import Prelude Txn Booking EventListener.
From stdpp Require Import gmap sets.

#[local] Open Scope Z_scope.

Section Alarm.
Context `{ListenerEnv W}.
Variable fault : nat → option error.
Variable scan : ∀ A : Type, list A → list A.
Variable pick : list (Z * (string * Z)) → option (Z * (string * Z)).
Variable startingBlockNumber : Z.
Variable recordTokenExpiration : bool.

Abbreviation state := (Txn tables (listener W)).
#[local] Abbreviation storage_RemoveTokenBoughtSubscription := (EventListener.storage_RemoveTokenBoughtSubscription fault).
#[local] Abbreviation resetTokenBoughtTimerFromDB := (EventListener.resetTokenBoughtTimerFromDB fault pick).
#[local] Abbreviation resetTokenBoughtTimerIfMatch := (EventListener.resetTokenBoughtTimerIfMatch fault pick).
#[local] Abbreviation SubscribeTokenBoughtEvent := (EventListener.SubscribeTokenBoughtEvent fault).
#[local] Abbreviation tokenBoughtEventHandler := (EventListener.tokenBoughtEventHandler fault pick).
#[local] Abbreviation timeoutExpired := (EventListener.timeoutExpired fault recordTokenExpiration).
#[local] Abbreviation tokenBoughtTimeoutHandler := (EventListener.tokenBoughtTimeoutHandler fault pick recordTokenExpiration).
#[local] Abbreviation reset_to := (EventListener.reset_to fault pick).
#[local] Abbreviation startupCheck := (EventListener.startupCheck fault startingBlockNumber).
#[local] Abbreviation getAllTokenBoughtSubscriptions := (EventListener.getAllTokenBoughtSubscriptions fault scan).
#[local] Abbreviation tokenBoughtSubscriptionsStartupCheck := (EventListener.tokenBoughtSubscriptionsStartupCheck fault scan startingBlockNumber).
#[local] Abbreviation startTokenBoughtSubscriptions := (EventListener.startTokenBoughtSubscriptions fault scan startingBlockNumber).

Hypothesis driver_faults :
  ∀ n e, fault n = Some e → errors_is e "eventlistener.ErrNotFound" = false.

(** *** The alarm invariant *)

(** Time only passes. *)
Definition later (s t : state) : Prop := Now (env (rest s)) ≤ Now (env (rest t)).

(** While nothing fires, the alarm is set for a subscription due no later than any
    row, and goes off when that is due; there is none only when there are no rows. *)
Definition timer_inv (s : state) : Prop :=
  match alarm s with
  | (TimerArmed at_, Some sub) =>
      at_ ≤ Z.max (Now (env (rest s))) (Timeout sub) ∧
      ∀ id row, tokens (committed s) !! id = Some row → Timeout sub / Second ≤ row.2
  | (TimerIdle, None) => tokens (committed s) = ∅
  | _ => False
  end.

Hypothesis pick_ok : ∀ l, match pick l with Some x => x ∈ l | None => l = [] end.

Lemma exists_min (l : list (Z * (string * Z))) :
  l ≠ [] → ∃ r, r ∈ l ∧ ∀ r', r' ∈ l → r.2.2 ≤ r'.2.2.
Proof.
  induction l as [|x l IH]; [done|]. intros _. destruct (decide (l = [])) as [->|Hl].
  - exists x. split; [by left|]. intros r' [->|Hr]%elem_of_cons; [done|by apply not_elem_of_nil in Hr].
  - destruct (IH Hl) as (r & Hr & Hmin). destruct (decide (x.2.2 ≤ r.2.2)) as [Hx|Hx].
    + exists x. split; [by left|]. intros r' [->|Hr']%elem_of_cons; [done|].
      etransitivity; [exact Hx|auto].
    + exists r. split; [by right|]. intros r' [->|Hr']%elem_of_cons; [lia|auto].
Qed.

Lemma min_timeout_rows_spec t id row :
  (id, row) ∈ min_timeout_rows t ↔
  t !! id = Some row ∧ ∀ id' row', t !! id' = Some row' → row.2 ≤ row'.2.
Proof.
  unfold min_timeout_rows. rewrite list_elem_of_filter, elem_of_map_to_list. simpl.
  split; intros [H1 H2]; by split.
Qed.

Lemma min_timeout_rows_nil t : min_timeout_rows t = [] → t = ∅.
Proof.
  intros Hnil. apply map_eq. intros i. rewrite lookup_empty. destruct (t !! i) as [row|] eqn:E; [|done].
  destruct (exists_min (map_to_list t)) as ([id r] & Hr & Hmin).
  { intros Hl. apply elem_of_map_to_list in E. rewrite Hl in E. by apply not_elem_of_nil in E. }
  assert ((id, r) ∈ min_timeout_rows t) as Hin.
  { apply min_timeout_rows_spec. split; [by apply elem_of_map_to_list|].
    intros id' row' H'%elem_of_map_to_list. exact (Hmin _ H'). }
  rewrite Hnil in Hin. by apply not_elem_of_nil in Hin.
Qed.

Lemma timeUntil_le t now : now + timeUntil t now ≤ Z.max now t.
Proof. unfold timeUntil, timeSub, MinInt64, MaxInt64. zcase; lia. Qed.

Lemma Timeout_row id row : Timeout (modelFromTokenBoughtSubscription id row) / Second = row.2.
Proof. unfold Second. simpl. apply Z.div_mul. lia. Qed.

Hypothesis no_fault : ∀ n, fault n = None.

Lemma reset_inv s : reset_to (tokens (committed s)) s → timer_inv s.
Proof.
  unfold timer_inv. pose proof (pick_ok (min_timeout_rows (tokens (committed s)))) as Hp.
  intros [[-> [Hn|(n & e & Hf)]]|(id & row & Hpick & Ha)].
  - rewrite Hn in Hp. by apply min_timeout_rows_nil.
  - by rewrite no_fault in Hf.
  - rewrite Ha. rewrite Hpick in Hp. apply min_timeout_rows_spec in Hp as [_ Hmin].
    split; [apply timeUntil_le|]. by rewrite Timeout_row.
Qed.

Lemma reset_to_data s t : data t = data s → reset_to (tokens (committed s)) t → timer_inv t.
Proof. intros [= Hc _] Hr. apply reset_inv. by rewrite Hc. Qed.

(** Fewer rows and the same alarm, later. *)
Lemma timer_inv_shrink s t :
  timer_inv s → alarm t = alarm s → later s t →
  tokens (committed t) ⊆ tokens (committed s) → timer_inv t.
Proof.
  unfold timer_inv, later. intros Hi -> Hl Hsub. destruct (alarm s) as [[| |at_] [sub|]]; try done.
  - apply map_eq. intros i. rewrite lookup_empty.
    destruct (tokens (committed t) !! i) as [row|] eqn:E; [|done].
    pose proof (lookup_weaken _ _ _ _ E Hsub) as Ei. by rewrite Hi, lookup_empty in Ei.
  - destruct Hi as [H1 H2]. split; [lia|]. intros id row Hrow. apply (H2 id).
    by eapply lookup_weaken.
Qed.

#[local] Instance later_preorder : PreOrder later.
Proof. unfold later. split; [intros s; lia|intros s t u; lia]. Qed.

Lemma later_rest {A} (m : M state A) : keeps rest m → respects later m.
Proof. apply respects_keeps. intros s t Ht. unfold later. by rewrite Ht. Qed.

Lemma later_quiet {A} (m : M W A) : quiet Now sent m → respects later (onEnv m).
Proof.
  intros Hq s. specialize (Hq (env (rest s))). unfold later, onEnv.
  destruct (m (env (rest s))). simpl. by destruct Hq as (_ & ? & _).
Qed.

Lemma later_notify n : respects later (onEnv (client_Notify n)).
Proof.
  intros s. pose proof (client_Notify_sent n (env (rest s))) as Hq. unfold later, onEnv.
  destruct (client_Notify n (env (rest s))). simpl. by destruct Hq as (_ & ? & _).
Qed.

Lemma later_modify (f : listener W → listener W) :
  (∀ l, env (f l) = env l) → respects later (modifyRest f).
Proof. intros Hf s. unfold later. simpl. by rewrite Hf. Qed.

Lemma later_oneRow fmt statement : respects later (oneRow fault fmt statement).
Proof. apply later_rest. unfold oneRow. auto 10 with ttm. Qed.

Lemma later_getRow {A} notFound fmt (query : tables → option A) : respects later (getRow fault notFound fmt query).
Proof. apply later_rest. unfold getRow. auto 10 with ttm. Qed.

Lemma later_NewSession : respects later (NewSession fault).
Proof. apply later_rest. auto with ttm. Qed.

Lemma later_Commit : respects later (Commit fault).
Proof. apply later_rest. auto with ttm. Qed.

Lemma later_getRest : respects later getRest.
Proof. by intros s. Qed.

Ltac goes_later := goes_up ltac:(first
  [ apply later_getRest | apply later_oneRow | apply later_getRow | apply later_NewSession
  | apply later_Commit | apply later_notify
  | apply later_quiet;
    first [apply IsBookingCancellable_quiet | apply GetBookingStatus_quiet | apply RecordExpiration_quiet]
  | apply later_modify; done
  | simple apply respects_deferS; [apply _|intros ?; unfold later; reflexivity|] ]).

Lemma later_reset : respects later resetTokenBoughtTimerFromDB.
Proof. unfold resetTokenBoughtTimerFromDB, timer_Stop, arm_timer. goes_later. Qed.

Lemma later_resetIfMatch tokenId : respects later (resetTokenBoughtTimerIfMatch tokenId).
Proof. unfold resetTokenBoughtTimerIfMatch. goes_later; apply later_reset. Qed.

Lemma later_handler tokenId raw : respects later (tokenBoughtEventHandler tokenId raw).
Proof. unfold tokenBoughtEventHandler. goes_later; apply later_resetIfMatch. Qed.

Lemma later_timeout : respects later tokenBoughtTimeoutHandler.
Proof.
  unfold tokenBoughtTimeoutHandler, timeoutStatus, timeoutExpired, orLog, timerSubscription.
  goes_later; apply later_reset.
Qed.

Lemma timer_inv_started s : timer_inv s → started s.
Proof. unfold timer_inv, alarm, started. by destruct (tokenBoughtTimer (rest s)). Qed.

Lemma timer_inv_data s t : committed t = committed s → rest t = rest s → timer_inv s → timer_inv t.
Proof. unfold timer_inv, alarm. by intros -> ->. Qed.

Lemma no_fault_at (n : nat) (e : error) : fault n ≠ Some e.
Proof. by rewrite no_fault. Qed.

Lemma IfAfter_inv new id row s u :
  timer_inv s → rest u = rest s → tokens (committed u) = <[id := row]> (tokens (committed s)) →
  row.2 = Timeout new / Second →
  runs (resetTokenBoughtTimerIfAfter new) u (λ t _, timer_inv t).
Proof.
  intros Hs Hr Ht Hrow. pose proof (timer_inv_started s Hs) as Hst.
  assert (started u) as Hu by (unfold started; by rewrite Hr).
  assert (∀ sub, (∀ id' row', tokens (committed s) !! id' = Some row' → Timeout sub / Second ≤ row'.2) →
    Timeout sub ≤ Timeout new →
    ∀ id' row', tokens (committed u) !! id' = Some row' → Timeout sub / Second ≤ row'.2) as Hall.
  { intros sub Hold Hle id' row'. rewrite Ht. intros [[<- <-]|[_ Hl]]%lookup_insert_Some; [|by eapply Hold].
    rewrite Hrow. apply Z.div_le_mono; [done|exact Hle]. }
  change (runs (if match tokenBoughtTimerSubscription (rest u) with
                   | Some current => Timeout current <=? Timeout new | None => false end
                then retS tt
                else timer_Stop ;; modifyRest (set_subscription (Some new)) ;; arm_timer new) u
            (λ t _, timer_inv t)).
  destruct (match tokenBoughtTimerSubscription (rest u) with Some _ => _ | None => _ end) eqn:Esoon.
  - apply runs_ret. unfold timer_inv in *. assert (alarm u = alarm s) as -> by (unfold alarm; by rewrite Hr).
    unfold alarm in *. rewrite Hr in *.
    destruct (tokenBoughtTimerSubscription (rest s)) as [cur|]; [|done].
    destruct (tokenBoughtTimer (rest s)) as [| |at_]; try done. destruct Hs as [Hat Hold].
    split; [exact Hat|]. apply Hall; [exact Hold|]. by apply Z.leb_le.
  - eapply runs_bind; [exact (timer_Stop_started u Hu)|..]; [|by intros ? ? [? _]..].
    intros v [] (_ & Hd & _ & _). eapply runs_mono; [exact (arm_ends new v)|].
    intros x o (_ & Hdx & Ha). unfold timer_inv. rewrite Ha. split; [apply timeUntil_le|].
    assert (committed x = committed u) as -> by (unfold data in *; congruence).
    unfold timer_inv, alarm in Hs. rewrite <- Hr in Hs.
    destruct (tokenBoughtTimerSubscription (rest u)) as [cur|] eqn:Esub.
    + destruct (tokenBoughtTimer (rest u)) as [| |at_]; try done. destruct Hs as [_ Hold].
      apply Z.leb_gt in Esoon. apply Hall; [|done]. intros id' row' Hl.
      etransitivity; [|by eapply Hold]. apply Z.div_le_mono; [done|lia].
    + destruct (tokenBoughtTimer (rest u)) as [| |at_]; try done.
      apply Hall; [|done]. rewrite Hs. intros id' row' Hl. by rewrite lookup_empty in Hl.
Qed.

Lemma subscribe_inv tokenID mintID timeout s :
  timer_inv s → runs (SubscribeTokenBoughtEvent tokenID mintID timeout) s (λ t _, timer_inv t).
Proof.
  intros Hs. unfold SubscribeTokenBoughtEvent.
  eapply runs_bind_wrap; [exact (NewSession_ends fault s)|..].
  2: { intros t e (_ & n & e' & Hf). by destruct (no_fault_at n e'). }
  2: by intros t p [_ []].
  intros t [] [[Hc Hr] Hw]. apply runs_deferS.
  eapply runs_bind_wrap.
  { apply (oneRow_ends fault _ _ t _ Hw). intros w p. simpl. by case_match. }
  2: { intros u e [[Hcu Hru] _]. apply (timer_inv_data s); simpl; congruence. }
  2: by intros u p [_ []].
  intros u [] ([Hcu Hru] & w' & Hst & Hw'). simpl in Hst. case_match; simplify_eq.
  eapply runs_bind_wrap; [exact (Commit_ends fault u _ Hw')|..].
  2: { intros v e [Hrv Hcv]. apply (timer_inv_data s); simpl; congruence. }
  2: by intros v p [_ []].
  intros v [] [Hrv Hcv].
  eapply runs_mono; [|intros x o Hx; exact Hx].
  refine (IfAfter_inv _ _ _ s v Hs _ _ _); [congruence|by rewrite Hcv|done].
Qed.

(** The steps of the listener, one handler at a time. *)
Definition ids_ok (s : state) : Prop :=
  (∀ id row, tokens (committed s) !! id = Some row → 0 ≤ id < 2 ^ 63) ∧
  (∀ sub, tokenBoughtTimerSubscription (rest s) = Some sub → 0 ≤ TokenID sub < 2 ^ 63).

(** The timer has gone off: it will not again until it is armed. *)
Definition fired (s : state) : state :=
  mkTxn (committed s) (working s) (ticks s) (set_timer TimerIdle (rest s)).

Inductive lstep (s : state) : state → Prop :=
  | lstep_subscribe tokenID mintID timeout :
      0 ≤ tokenID < 2 ^ 63 → lstep s (SubscribeTokenBoughtEvent tokenID mintID timeout s).1
  | lstep_bought tokenId raw :
      0 ≤ tokenId < 2 ^ 63 → lstep s (tokenBoughtEventHandler tokenId raw s).1
  | lstep_timeout at_ :
      tokenBoughtTimer (rest s) = TimerArmed at_ → at_ ≤ Now (env (rest s)) →
      lstep s (tokenBoughtTimeoutHandler (fired s)).1
  | lstep_other t :
      alarm t = alarm s → tokens (committed t) = tokens (committed s) → later s t → lstep s t.

Lemma runs_later {A} (m : M state A) s : respects later m → runs m s (λ t _, later s t).
Proof. intros Hm. specialize (Hm s). unfold runs. by destruct (m s). Qed.

Lemma reset_ids s : ids_ok s → ∀ t, tokens (committed t) ⊆ tokens (committed s) →
  reset_to (tokens (committed t)) t → ids_ok t.
Proof.
  intros [Hk _] t Hsub Hreset.
  assert (∀ id row, tokens (committed t) !! id = Some row → 0 ≤ id < 2 ^ 63) as Hkt
    by (intros id row Hl; eapply Hk, lookup_weaken; eauto).
  split; [exact Hkt|]. intros sub Hs. destruct Hreset as [[Ha _]|(id & row & Hp & Ha)].
  - unfold alarm in Ha. congruence.
  - unfold armed_for, alarm in Ha. rewrite Hs in Ha. injection Ha as _ ->. simpl.
    pose proof (pick_ok (min_timeout_rows (tokens (committed t)))) as Hin. rewrite Hp in Hin.
    apply min_timeout_rows_spec in Hin as [Hl _]. by eapply Hkt.
Qed.

Lemma subscribe_ids tokenID mintID timeout s :
  0 ≤ tokenID < 2 ^ 63 → ids_ok s → started s →
  runs (SubscribeTokenBoughtEvent tokenID mintID timeout) s (λ t _, ids_ok t).
Proof.
  intros Hr [Hk Hs] Hstart. unfold SubscribeTokenBoughtEvent.
  eapply runs_bind_wrap; [exact (NewSession_ends fault s)|..].
  2: { intros t e (_ & n & e' & Hf). by destruct (no_fault_at n e'). }
  2: by intros t p [_ []].
  intros t [] [[Hc Hrest] Hw]. apply runs_deferS. eapply runs_bind_wrap.
  { apply (oneRow_ends fault _ _ t _ Hw). intros w p. simpl. by case_match. }
  2: { intros u e [[Hcu Hru] _]. unfold ids_ok. simpl. by rewrite Hcu, Hru, Hc, Hrest. }
  2: by intros u p [_ []].
  intros u [] ([Hcu Hru] & w' & Hst & Hw'). simpl in Hst. rewrite bigInt64_small in Hst by done.
  case_match; simplify_eq.
  eapply runs_bind_wrap; [exact (Commit_ends fault u _ Hw')|..].
  2: { intros v e [Hrv Hcv]. unfold ids_ok. simpl. by rewrite Hcv, Hrv, Hcu, Hru, Hc, Hrest. }
  2: by intros v p [_ []].
  intros v [] [Hrv Hcv].
  set (new := {| TokenID := tokenID; MintID := mintID; Timeout := timeout + timeCheckBlockchainDelay |}).
  assert (rest v = rest s) as Hrvs by congruence.
  assert (∀ id row, tokens (committed v) !! id = Some row → 0 ≤ id < 2 ^ 63) as Hkv.
  { rewrite Hcv. simpl. intros id row [[<- _]|[_ Hl]]%lookup_insert_Some; [done|by eapply Hk]. }
  enough (runs (resetTokenBoughtTimerIfAfter new) v (λ x _, committed x = committed v ∧
    (tokenBoughtTimerSubscription (rest x) = tokenBoughtTimerSubscription (rest s) ∨
     tokenBoughtTimerSubscription (rest x) = Some new))) as Hafter.
  { eapply runs_mono; [exact Hafter|]. intros x o [Hcx Hx]. split; [by simpl; rewrite Hcx|].
    intros sub Hsub. simpl in Hsub. destruct Hx as [Hx|Hx]; [apply Hs; congruence|].
    rewrite Hx in Hsub. by injection Hsub as <-. }
  unfold resetTokenBoughtTimerIfAfter, runs, getRest, mbind, M_bind, timer_Stop. rewrite Hrvs.
  unfold started in Hstart.
  destruct (match tokenBoughtTimerSubscription (rest s) with Some _ => _ | None => _ end);
    simpl; [by rewrite Hrvs; auto|].
  unfold getRest, mbind, M_bind. simpl. rewrite Hrvs.
  destruct (tokenBoughtTimer (rest s)); simpl; rewrite ?Hrvs; auto.
Qed.

(** The invariant with what it needs. *)
Lemma lstep_inv s t : lstep s t → timer_inv s ∧ ids_ok s → timer_inv t ∧ ids_ok t.
Proof.
  intros Hstep [Hi Hids]. pose proof (timer_inv_started s Hi) as Hst. destruct Hstep as
    [tokenID mintID timeout Hr|tokenId raw Hr|at_ Hat Hle|t Ha Ht Hl].
  - pose proof (runs_and _ _ _ _ (subscribe_inv tokenID mintID timeout s Hi)
      (subscribe_ids tokenID mintID timeout s Hr Hids Hst)) as H'.
    unfold runs in H'. by destruct (SubscribeTokenBoughtEvent _ _ _ s).
  - pose proof (runs_and _ _ _ _ (handler_ends fault pick driver_faults tokenId raw s Hr Hst)
      (runs_later _ s (later_handler tokenId raw))) as H'.
    unfold runs in H'. destruct (tokenBoughtEventHandler _ _ s) as [t o]. simpl in *.
    destruct H' as [[Hends%bought_ends_tokens Hreset] Hl]. destruct Hreset as [Hreset|Ha].
    + split; [by apply reset_inv|by apply (reset_ids s)].
    + split; [by apply (timer_inv_shrink s)|]. destruct Hids as [Hk Hs]. split.
      * intros id row Hrow. eapply Hk, lookup_weaken; eauto.
      * unfold alarm in Ha. intros sub Hsub. apply Hs. congruence.
  - unfold timer_inv, alarm in Hi. rewrite Hat in Hi.
    destruct (tokenBoughtTimerSubscription (rest s)) as [sub|] eqn:Hsub; [|done].
    assert (started (fired s)) as Hf by done.
    pose proof (timeout_ends fault pick recordTokenExpiration sub (fired s) (proj2 Hids sub Hsub) Hf Hsub) as H'.
    unfold runs in H'. destruct (tokenBoughtTimeoutHandler (fired s)) as [t o]. simpl in *.
    destruct H' as (_ & Hends%expired_ends_tokens & _ & Hreset).
    split; [by apply reset_inv|by apply (reset_ids s)].
  - split.
    + apply (timer_inv_shrink s); [done..|]. by rewrite Ht.
    + destruct Hids as [Hk Hs]. unfold ids_ok, alarm in *. rewrite Ht. split; [done|].
      intros sub Hsub. apply Hs. congruence.
Qed.

(** *** The start-up check *)
Hypothesis scan_perm : ∀ A (l : list A), scan A l ≡ₚ l.

Abbreviation model r := (modelFromTokenBoughtSubscription r.1 r.2).

(** The next subscription to expire is due no later than the row. *)
Definition covered (next : option TokenBoughtSubscription) (row : string * Z) : Prop :=
  ∃ sub, next = Some sub ∧ Timeout sub ≤ row.2 * Second.

Definition next_ok (next : option TokenBoughtSubscription) : Prop :=
  ∀ sub, next = Some sub → 0 ≤ TokenID sub < 2 ^ 63.

Definition row_ok (r : Z * (string * Z)) : Prop := 0 ≤ r.1 < 2 ^ 63 ∧ r.2.2 * Second < maxTime.

Lemma covered_next next (r : Z * (string * Z)) :
  r.2.2 * Second < maxTime →
  let next' := if Timeout (model r) <? match next with Some n => Timeout n | None => maxTime end
               then Some (model r) else next in
  covered next' r.2 ∧ ∀ row, covered next row → covered next' row.
Proof.
  intros Hr. simpl. destruct next as [n|]; zcase; try (simpl in *; lia).
  - split; [by eexists|]. intros row (sub & [= <-] & Hle). eexists. split; [done|]. simpl. lia.
  - split; [exists n; split; [done|lia]|done].
  - split; [by eexists|]. by intros row (sub & ? & _).
Qed.

(** The subscription of a token that is no longer reserved is removed. *)
Lemma startup_remove_ends id s :
  0 ≤ id < 2 ^ 63 →
  runs (withSession fault "failed to create db session for token %s: %w" (
    wrapS "error removing token bought subscription for token %s: %w"
      (storage_RemoveTokenBoughtSubscription id) ;;
    wrapS "failed to commit db session for token %s: %w" (Commit fault))) s
    (λ t o, alarm t = alarm s ∧ told t = told s ∧ later s t ∧ match o with
      | Ok _ => committed t = set_tokens (delete id (tokens (committed s))) (committed s)
      | Err _ => committed t = committed s
      | Panic _ => False end).
Proof.
  intros Hr.
  assert (∀ t, rest t = rest s → alarm t = alarm s ∧ told t = told s ∧ later s t) as Hrest
    by (intros t Ht; unfold alarm, told, later; by rewrite Ht).
  eapply runs_bind_wrap; [exact (NewSession_ends fault s)|..].
  2: { intros t e [[Hc Hrt] _]. by destruct (Hrest t Hrt) as (? & ? & ?). }
  2: by intros t p [_ []].
  intros t [] [[Hc Hrt] Hw]. apply runs_deferS.
  eapply runs_bind_wrap; [exact (Remove_ends fault id t _ Hr Hw)|..].
  2: { intros u e [[Hcu Hru] _]. destruct (Hrest (Abort u)) as (? & ? & ?); [simpl; congruence|].
       simpl. split_and!; try done. congruence. }
  2: by intros u p [_ []].
  intros u [] [[Hcu Hru] Hwu]. apply runs_wrap.
  eapply runs_mono; [exact (Commit_ends fault u _ Hwu)|].
  intros v o [Hrv Hcv]. destruct (Hrest (Abort v)) as (? & ? & ?); [simpl; congruence|].
  destruct o; simpl; split_and!; try done. congruence.
Qed.

(** The notification of the start-up check, for a token that is bought. *)
Definition startup_note (status : Z) (subscription : TokenBoughtSubscription) : M state unit :=
  if status =? StatusBought
  then wrapS "error sending token bought notification for token %s: %w"
         (onEnv (TokenBoughtNotificationWithoutBuyTx (TokenID subscription) (MintID subscription)))
  else retS tt.

Lemma startup_note_ends status sub s :
  runs (startup_note status sub) s (λ t o,
    committed t = committed s ∧ alarm t = alarm s ∧ ∀ p, o ≠ Panic p).
Proof.
  unfold startup_note. destruct (_ =? _); [|done]. apply runs_wrap.
  eapply runs_mono; [exact (onEnv_notify _ s)|]. intros t o (? & _ & ? & _ & Hp).
  split_and!; [done..|]. intros p Heq. destruct o as [a|e|p']; try done. by destruct (Hp p').
Qed.

Lemma startupCheck_ends L next s :
  Forall row_ok L → next_ok next →
  (∀ id row, tokens (committed s) !! id = Some row → (id, row) ∈ L ∨ covered next row) →
  runs (startupCheck ((λ r, model r) <$> L) next) s (λ t o, alarm t = alarm s ∧
    tokens (committed t) ⊆ tokens (committed s) ∧
    ∀ next', o = Ok next' → next_ok next' ∧
      ∀ id row, tokens (committed t) !! id = Some row → covered next' row).
Proof.
  intros HL. revert next s. induction HL as [|r L [Hr Ht] HL IH]; intros next s Hn Hcov.
  - apply runs_ret. split_and!; [done|done|]. intros next' [= <-]. split; [done|].
    intros id row Hl. by destruct (Hcov id row Hl) as [Hin%not_elem_of_nil|].
  - cbn [fmap list_fmap startupCheck].
    eapply runs_bind_wrap; [exact (onEnv_quiet _ s (GetBookingStatus_quiet _ _))|..].
    2: { intros t e (Hct & _ & Hat & _). by rewrite Hct. }
    2: { intros t p (_ & _ & _ & _ & _ & Hp). by destruct (Hp p). }
    intros t status (Hct & _ & Hat & _).
    destruct (status =? StatusReserved) eqn:Est; cbn [negb].
    + destruct (covered_next next r Ht) as [Hc1 Hc2].
      eapply runs_mono; [apply IH|].
      * destruct (_ <? _); [|done]. by intros sub [= <-].
      * rewrite Hct. intros id row Hl. destruct (Hcov id row Hl) as [Hin|Hc]; [|right; by apply Hc2].
        apply elem_of_cons in Hin as [<-|Hin]; [right; exact Hc1|by left].
      * intros u o (Hau & Hsub & Ho). rewrite Hct in Hsub. by rewrite Hau, Hat.
    + eapply runs_bind; [exact (startup_note_ends status (model r) t)|..].
      2: { intros u e (Hcu & Hau & _). by rewrite Hcu, Hct, Hau, Hat. }
      2: { intros u p (_ & _ & Hp). by destruct (Hp p). }
      intros u [] (Hcu & Hau & _).
      eapply runs_bind; [exact (startup_remove_ends r.1 u Hr)|..].
      2: { intros v e (Hav & _ & _ & Hcv). by rewrite Hcv, Hcu, Hct, Hav, Hau, Hat. }
      2: by intros v p (_ & _ & _ & []).
      intros v [] (Hav & _ & _ & Hcv). eapply runs_mono; [apply IH|]; [done| |].
      * rewrite Hcv, Hcu, Hct. simpl. intros id row [Hne Hl]%lookup_delete_Some.
        destruct (Hcov id row Hl) as [Hin|Hc]; [left|by right].
        apply elem_of_cons in Hin as [Heq|Hin]; [|done]. by rewrite <- Heq in Hne.
      * intros x o (Hax & Hsub & Ho). split_and!; [congruence| |done].
        etransitivity; [exact Hsub|]. rewrite Hcv, Hcu, Hct. simpl. apply delete_subseteq.
Qed.

Definition db_ok (s : state) : Prop :=
  ∀ id row, tokens (committed s) !! id = Some row → row_ok (id, row).

Lemma start_inv s t :
  db_ok s → startTokenBoughtSubscriptions s = (t, Ok tt) → timer_inv t ∧ ids_ok t.
Proof.
  intros Hdb.
  enough (runs startTokenBoughtSubscriptions s (λ t o, o = Ok tt → timer_inv t ∧ ids_ok t)) as Hr
    by (intros E; unfold runs in Hr; rewrite E in Hr; by apply Hr).
  clear t. unfold startTokenBoughtSubscriptions.
  apply (runs_bind_wrap _ _ _ _ (λ t o, ∀ next, o = Ok next → next_ok next ∧
    (∀ id row, tokens (committed t) !! id = Some row → 0 ≤ id < 2 ^ 63) ∧
    ∀ id row, tokens (committed t) !! id = Some row → covered next row)); [|..|done|done].
  - unfold tokenBoughtSubscriptionsStartupCheck.
    apply (runs_bind_wrap _ _ _ _ (λ t o, ∀ subs, o = Ok subs → committed t = committed s ∧
      ∃ L, subs = (λ r, model r) <$> L ∧ L ≡ₚ map_to_list (tokens (committed s)))); [|..|done|done].
    + unfold getAllTokenBoughtSubscriptions.
      eapply runs_bind_wrap; [exact (NewSession_ends fault s)|..|done|done].
      intros t [] [[Hc Hrest] Hw]. apply runs_deferS, runs_wrap, runs_wrap.
      eapply runs_mono; [exact (Query_ends fault _ t _ Hw)|].
      intros u [subs|e|p] [[Hcu _] Ho]; intros subs' Heq; simplify_eq/=.
      destruct Ho as [Ho _]. simplify_eq. split; [congruence|]. eexists. split; [done|].
      apply scan_perm.
    + intros t subs Hsubs. destruct (Hsubs subs eq_refl) as (Hc & L & -> & HL).
      eapply runs_mono.
      { apply (startupCheck_ends L None t); [| |].
        - apply Forall_forall. intros [id row] Hin. apply Hdb, elem_of_map_to_list. by rewrite <- HL.
        - by intros sub.
        - rewrite Hc. intros id row Hl. left. rewrite HL. by apply elem_of_map_to_list. }
      intros u o (_ & Hsub & Ho) next ->. destruct (Ho next eq_refl) as [Hn Hcov].
      split_and!; [done| |done]. intros id row Hl. rewrite Hc in Hsub.
      apply (Hdb id row). by eapply lookup_weaken.
  - intros t next Hnext. destruct (Hnext next eq_refl) as (Hn & Hk & Hcov). clear Hnext.
    destruct next as [sub|]; unfold runs; simpl; intros _; (split; [|by split]).
    + split; [apply timeUntil_le|]. intros id row Hl. destruct (Hcov id row Hl) as (? & [= <-] & Hle).
      rewrite <- (Z.div_mul row.2 Second) by done. by apply Z.div_le_mono.
    + change (tokens (committed t) = ∅). apply map_eq. intros id. rewrite lookup_empty.
      destruct (tokens (committed t) !! id) as [row|] eqn:E; [|done].
      by destruct (Hcov id row E) as (? & ? & _).
Qed.

(** *** Two handlers at once *)

(** Once the bought event of the timer's token is processed, the timer is for another. *)
Lemma after_bought sub raw row s t :
  ids_ok s → started s → tokenBoughtTimerSubscription (rest s) = Some sub →
  tokens (committed s) !! TokenID sub = Some row →
  tokenBoughtEventHandler (TokenID sub) raw s = (t, Ok (BlockNumber raw)) → BlockNumber raw ≠ 0 →
  ids_ok t ∧ ∀ next, tokenBoughtTimerSubscription (rest t) = Some next → TokenID next ≠ TokenID sub.
Proof.
  intros Hids Hs Hsub Hrow Hrun Hb. pose proof (proj2 Hids sub Hsub) as Hr.
  assert (runs (tokenBoughtEventHandler (TokenID sub) raw) s (λ t o,
    bought_ends (TokenID sub) raw s t o ∧ reset_to (tokens (committed t)) t)) as H'.
  { unfold tokenBoughtEventHandler. eapply runs_deferM; [exact (bought_body_ends fault driver_faults (TokenID sub) raw s Hr)|].
    intros u o [Ho Ha]. assert (started u) as Hu by (unfold started, alarm in *; congruence).
    eapply runs_mono; [exact (resetIfMatch_ends fault pick (TokenID sub) u Hu)|].
    intros v o' (-> & Hd & Hreset). injection Hd as Hc He. split.
    - eapply bought_ends_same; [exact Hc| |exact Ho]. unfold told. by rewrite He.
    - rewrite Hc. destruct Hreset as [Hreset|(_ & cur & Hcur & Hne)]; [done|].
      unfold alarm in Ha. congruence. }
  unfold runs in H'. rewrite Hrun in H'. destruct H' as [Hends Hreset].
  pose proof (bought_ends_tokens _ _ _ _ _ Hends) as Hsubset.
  split; [by apply (reset_ids s)|].
  assert (tokens (committed t) !! TokenID sub = None) as Hgone.
  { remember (Ok (BlockNumber raw)) as o eqn:Eo.
    destruct Hends as [| | |row' c w _ _ Hc _]; try congruence. rewrite Hc. apply lookup_delete_eq. }
  intros next Hnext Heq. destruct Hreset as [[Ha _]|(id & row' & Hpick & Ha)].
  - unfold alarm in Ha. congruence.
  - unfold armed_for, alarm in Ha. rewrite Hnext in Ha. injection Ha as _ ->. simpl in Heq. subst id.
    pose proof (pick_ok (min_timeout_rows (tokens (committed t)))) as Hin. rewrite Hpick in Hin.
    apply min_timeout_rows_spec in Hin as [Hin _]. congruence.
Qed.

(** *** The spinning timer *)
Lemma spin_step id row status s :
  0 ≤ id < 2 ^ 63 →
  pick (min_timeout_rows (tokens (committed s))) = Some (id, row) →
  (∀ w, (svc_GetBookingStatus None id w).2 = Ok status) → status ≠ StatusReserved →
  row.2 * Second < Now (env (rest s)) → started s →
  tokenBoughtTimerSubscription (rest s) = Some (modelFromTokenBoughtSubscription id row) →
  let t := (tokenBoughtTimeoutHandler s).1 in
  committed t = committed s ∧ told t = told s ∧ later s t ∧
  ∃ at_, at_ ≤ Now (env (rest t)) ∧
    alarm t = (TimerArmed at_, Some (modelFromTokenBoughtSubscription id row)).
Proof.
  intros Hr Hpick Hst Hne Hpast Hs Hsub.
  pose proof (runs_and _ _ _ _ (timeout_ends fault pick recordTokenExpiration (modelFromTokenBoughtSubscription id row) s Hr Hs Hsub) (runs_later _ s later_timeout)) as Ht.
  unfold runs in Ht. destruct (tokenBoughtTimeoutHandler s) as [t o]. simpl.
  destruct Ht as [(_ & _ & Hsame & Hreset) Hl].
  destruct Hsame as [[Htold Hc]|[w Hw]]; [|simpl in Hw; rewrite Hst in Hw; congruence].
  split_and!; [done..|]. rewrite Hc in Hreset. unfold later in Hl.
  destruct Hreset as [[_ [Hn|(n & e & Hf)]]|(id' & row' & Hp & Ha)];
    [congruence|by destruct (no_fault_at n e)|].
  rewrite Hpick in Hp. injection Hp as <- <-. eexists. split; [|exact Ha].
  unfold timeUntil. simpl. zcase; lia.
Qed.

Definition spin (s : state) : state := (tokenBoughtTimeoutHandler (fired s)).1.
End Alarm.

(** ** Properties *)
Section Properties.
Context `{ListenerEnv W}.
Variable fault : nat → option error.
Variable scan : ∀ A : Type, list A → list A.
Variable pick : list (Z * (string * Z)) → option (Z * (string * Z)).
Variable block : Z.
Variable recordTokenExpiration : bool.

Abbreviation state := (Txn tables (listener W)).


(** The timer spins: when the token due first is no longer reserved but still has
    its subscription, the handler removes nothing and tells nobody, and the timer is
    set to go off at once, any number of times. *)
Lemma timeout_spins n id row status (s : state) at_ :
  (∀ n, fault n = None) →
  0 ≤ id < 2 ^ 63 →
  pick (min_timeout_rows (tokens (committed s))) = Some (id, row) →
  (∀ w, (svc_GetBookingStatus None id w).2 = Ok status) → status ≠ StatusReserved →
  row.2 * Second < Now (env (rest s)) →
  alarm s = (TimerArmed at_, Some (modelFromTokenBoughtSubscription id row)) →
  at_ ≤ Now (env (rest s)) →
  let t := Nat.iter n (spin fault pick recordTokenExpiration) s in
  committed t = committed s ∧ told t = told s ∧
  ∃ at_, at_ ≤ Now (env (rest t)) ∧
    alarm t = (TimerArmed at_, Some (modelFromTokenBoughtSubscription id row)).
Proof.
  intros Hf Hr Hpick Hst Hne Hpast Ha Hat. cbv zeta.
  enough (committed (Nat.iter n (spin fault pick recordTokenExpiration) s) = committed s ∧
    told (Nat.iter n (spin fault pick recordTokenExpiration) s) = told s ∧
    later s (Nat.iter n (spin fault pick recordTokenExpiration) s) ∧
    ∃ at_, at_ ≤ Now (env (rest (Nat.iter n (spin fault pick recordTokenExpiration) s))) ∧
      alarm (Nat.iter n (spin fault pick recordTokenExpiration) s) =
        (TimerArmed at_, Some (modelFromTokenBoughtSubscription id row))) as (? & ? & ? & ?) by done.
  induction n as [|n (Hc & Ht & Hl & at' & Hat' & Ha')]; simpl.
  - split_and!; [done..|unfold later; lia|]. by exists at_.
  - set (t := Nat.iter n _ s) in *. unfold later in Hl.
    destruct (spin_step fault pick recordTokenExpiration Hf id row status (fired t) Hr) as
      (Hc2 & Ht2 & Hl2 & Ha2); [by rewrite <- Hc in Hpick|done|done| |done| |].
    + change (row.2 * Second < Now (env (rest t))). lia.
    + unfold alarm in Ha'. simpl. congruence.
    + split_and!; [by etransitivity|by etransitivity| |exact Ha2].
      unfold later in *. change (Now (env (rest (fired t)))) with (Now (env (rest t))) in Hl2.
      etransitivity; [exact Hl|exact Hl2].
Qed.

(** The timeout handler reads the timer's subscription again after each call: when
    the bought event of its token is handled between its check of the status and the
    rest, it reports the expiration of the token the timer was set to meanwhile, whose
    status it never asked for, or, without one, panics in the timer's goroutine. *)
Lemma timeout_races_bought sub raw row (s0 s1 s2 : state) :
  (∀ n, fault n = None) →
  (∀ l, match pick l with Some x => x ∈ l | None => l = [] end) →
  ids_ok s0 → started s0 → tokenBoughtTimerSubscription (rest s0) = Some sub →
  tokens (committed s0) !! TokenID sub = Some row →
  timeoutStatus s0 = (s1, Ok StatusReserved) →
  tokenBoughtEventHandler fault pick (TokenID sub) raw s1 = (s2, Ok (BlockNumber raw)) →
  BlockNumber raw ≠ 0 →
  let '(s3, o) := timeoutExpired fault recordTokenExpiration StatusReserved s2 in
  match tokenBoughtTimerSubscription (rest s2) with
  | None => o = Panic nilDeref
  | Some next =>
      TokenID next ≠ TokenID sub ∧
      ∃ ack, told s3 = told s2 ++ [(TokenReservationExpired (TokenID next) (MintID next), ack)]
  end.
Proof.
  intros Hf Hp Hids Hs Hsub Hrow Hstatus Hbought Hb.
  assert (∀ n e, fault n = Some e → errors_is e "eventlistener.ErrNotFound" = false) as Hfe
    by (intros n e; by rewrite Hf).
  assert (committed s1 = committed s0 ∧ alarm s1 = alarm s0) as [Hc1 Ha1].
  { assert (runs timeoutStatus s0 (λ t _, committed t = committed s0 ∧ alarm t = alarm s0)) as Hq.
    { eapply runs_timerSubscription; [exact Hsub|].
      eapply runs_mono; [exact (onEnv_quiet _ s0 (GetBookingStatus_quiet _ _))|].
      by intros t o (? & _ & ? & _). }
    unfold runs in Hq. by rewrite Hstatus in Hq. }
  assert (started s1) as Hs1 by (unfold started, alarm in *; congruence).
  assert (ids_ok s1) as Hids1 by (unfold ids_ok, alarm in *; rewrite Hc1; by replace
    (tokenBoughtTimerSubscription (rest s1)) with (tokenBoughtTimerSubscription (rest s0)) by congruence).
  pose proof (proj2 Hids sub Hsub) as Hr.
  pose proof (after_bought fault pick Hfe Hp sub raw row s1 s2 Hids1 Hs1) as Hafter.
  destruct Hafter as [Hids2 Hnext]; [unfold alarm in *; congruence|by rewrite Hc1|done|done|].
  destruct (tokenBoughtTimerSubscription (rest s2)) as [next|] eqn:En.
  - pose proof (timeoutExpired_ends fault recordTokenExpiration next s2 (proj2 Hids2 next En) En) as Hx.
    unfold runs in Hx. destruct (timeoutExpired _ _ _ s2) as [s3 o].
    destruct Hx as (_ & _ & Hends & Hno). split; [by apply Hnext|].
    destruct Hends as [_ Ht|ack _ Ht|_ _ Ht]; eauto.
    destruct (Hno Ht) as (n & e & Hfault). by rewrite Hf in Hfault.
  - unfold timeoutExpired, timerSubscription, getRest, liftO, mbind, M_bind. simpl. by rewrite En.
Qed.
End Properties.

(** ** Witnesses *)
Lemma fresh_db_ok : db_ok Toy.fresh.
Proof.
  intros id row Hl. change (tokens (committed Toy.fresh)) with
    (<[3 := ("m3", 50)]> (<[9 := ("m9", 50)]> (<[4 := ("m4", 500)]> (∅ : bought_table)))) in Hl.
  repeat (apply lookup_insert_Some in Hl as [[<- <-]|[_ Hl]];
    [unfold row_ok; simpl; split; [lia|vm_compute; reflexivity]|]).
  by rewrite lookup_empty in Hl.
Qed.

Definition fresh_started := (startTokenBoughtSubscriptions Toy.fault Toy.scan 1 Toy.fresh).1.


Lemma timeout_spins_witness :
  committed (Nat.iter 100 (spin Toy.fault Toy.pick false) Toy.stuck) = committed Toy.stuck ∧
  told (Nat.iter 100 (spin Toy.fault Toy.pick false) Toy.stuck) = [].
Proof.
  destruct (timeout_spins Toy.fault Toy.pick false 100 9 ("m9", 50) StatusBought Toy.stuck (100 * Second)
    Toy.no_fault ltac:(lia) ltac:(vm_compute; reflexivity) ltac:(reflexivity) ltac:(discriminate)
    ltac:(vm_compute; reflexivity) ltac:(vm_compute; reflexivity) ltac:(vm_compute; discriminate))
    as (Hc & Ht & _).
  split; [exact Hc|exact Ht].
Defined.

Definition checked := (timeoutStatus Toy.two).1.
Definition bought3 := (tokenBoughtEventHandler Toy.fault Toy.pick 3 Toy.raw checked).1.

Lemma two_ids_ok : ids_ok Toy.two.
Proof.
  split.
  - intros id row Hl. change (tokens (committed Toy.two)) with
      (<[3 := ("m3", 50)]> (<[4 := ("m4", 500)]> (∅ : bought_table))) in Hl.
    repeat (apply lookup_insert_Some in Hl as [[<- <-]|[_ Hl]]; [lia|]). by rewrite lookup_empty in Hl.
  - intros sub Hs. injection Hs as <-. vm_compute. split; [discriminate|reflexivity].
Qed.

(** Token 4, due at 500 s, is reported expired at 100 s. *)
Lemma timeout_races_bought_witness :
  ∃ ack, told (timeoutExpired Toy.fault false StatusReserved bought3).1
    = told bought3 ++ [(TokenReservationExpired 4 "m4", ack)].
Proof.
  pose proof (timeout_races_bought Toy.fault Toy.pick false Toy.sub3 Toy.raw ("m3", 50)
    Toy.two checked bought3 Toy.no_fault Toy.pick_ok two_ids_ok ltac:(discriminate) eq_refl
    ltac:(vm_compute; reflexivity) ltac:(vm_compute; reflexivity) ltac:(vm_compute; reflexivity)
    ltac:(discriminate)) as H.
  destruct (timeoutExpired _ _ _ bought3) as [s3 o].
  change (tokenBoughtTimerSubscription (rest bought3)) with
    (Some (modelFromTokenBoughtSubscription 4 ("m4", 500))) in H.
  exact (proj2 H).
Defined.
