(* ===== verification/Scheduler.v ===== *)
(** * The job scheduler (pkg/scheduler, pkg/scheduler/storage/sqlite)

    Named jobs with a period, kept in a table with the time of their last execution.
    [Start] starts, for each job, a goroutine for the first execution, when it is due,
    and one for the periodic ones after it; here a job has one state at a time, and the
    step relation interleaves the jobs.  The handlers are the class [JobHandlers].
    Module [Spec] is what the scheduler promises. *)
From S2P Require Import Prelude Txn.
From stdpp Require Import gmap sets.

#[local] Open Scope Z_scope.

Definition ErrNotFound : error := Sentinel "scheduler.ErrNotFound".

(** ** job.go, storage/sqlite/jobs.go *)
Record Job := { Name : string; LastExecutedAt : Z; Period : Z }.

(** The rows of [jobs], by their primary key: the last execution and the period, in
    whole seconds. *)
Abbreviation jobs_table := (gmap string (Z * Z)).

(** [time.Time{}] is 1 January of the year 1. *)
Definition zeroTime : Z := -62135596800 * Second.

Definition modelFromJob (name : string) (row : Z * Z) : Job :=
  {| Name := name; LastExecutedAt := row.1 * Second; Period := swrap 64 (row.2 * Second) |}.
Definition jobFromModel (model : Job) : string * (Z * Z) :=
  (Name model, (LastExecutedAt model / Second, Z.quot (Period model) Second)).

(** What runs the jobs: a handler may panic. [executed] is the history of executions
    started. *)
Class JobHandlers (W : Type) := {
  Now : W → Z;
  executed : W → list (string * Z);
  run_handler : string → Z → M W unit;
  run_handler_executed name t w :
    executed (run_handler name t w).1 = executed w ++ [(name, t)];
  run_handler_later name t w : Now w ≤ Now (run_handler name t w).1;
  run_handler_no_error name t w e : (run_handler name t w).2 ≠ Err e
}.

(** ** scheduler.go *)

(** A job that [Start] started waits for its first execution, then for the ticks of its
    ticker; it is over when the scheduler stops or its goroutine panics. *)
Inductive goroutine :=
  | FirstAt (deadline period : Z)
  | TickAt (next period : Z)
  | Over.

Inductive stopper := TimerStopper | Ticker.

Record scheduler (W : Type) := mkScheduler {
  env : W;
  registry : gset string;
  timers : gmap string stopper;
  goroutines : gmap string goroutine;
  stopTimers : option bool
}.
Arguments mkScheduler {W} _ _ _ _ _.
Arguments env {W} _.
Arguments registry {W} _.
Arguments timers {W} _.
Arguments goroutines {W} _.
Arguments stopTimers {W} _.

Definition set_env {W} (w : W) (x : scheduler W) : scheduler W :=
  mkScheduler w (registry x) (timers x) (goroutines x) (stopTimers x).
Definition set_registry {W} (r : gset string) (x : scheduler W) : scheduler W :=
  mkScheduler (env x) r (timers x) (goroutines x) (stopTimers x).
Definition set_timers {W} (t : gmap string stopper) (x : scheduler W) : scheduler W :=
  mkScheduler (env x) (registry x) t (goroutines x) (stopTimers x).
Definition set_goroutines {W} (g : gmap string goroutine) (x : scheduler W) : scheduler W :=
  mkScheduler (env x) (registry x) (timers x) g (stopTimers x).
Definition set_stopTimers {W} (o : option bool) (x : scheduler W) : scheduler W :=
  mkScheduler (env x) (registry x) (timers x) (goroutines x) o.

(** ** What the scheduler promises: a job runs when it is due, and is due again a period
    later at the earliest; an execution may be missed *)
Module Spec.
Record job := { due : Z; period : Z; history : list Z }.
Abbreviation jobs := (gmap string job).

Definition with_due (d : Z) (j : job) : job :=
  {| due := d; period := period j; history := history j |}.
Definition with_run (t d : Z) (j : job) : job :=
  {| due := d; period := period j; history := history j ++ [t] |}.

Inductive step (a : jobs) : jobs → Prop :=
  | step_run name j t next :
      a !! name = Some j → due j ≤ t → due j + period j ≤ next →
      step a (<[name := with_run t next j]> a)
  | step_miss name j next :
      a !! name = Some j → due j ≤ next → step a (<[name := with_due next j]> a).

(** The executions of a job first due at [d] are spread over its periods. *)
Definition spread (d : Z) (j : job) : Prop :=
  d + Z.of_nat (length (history j)) * period j ≤ due j ∧
  ∀ i t, history j !! i = Some t → d + Z.of_nat i * period j ≤ t.

Lemma spread_run d j t next :
  due j ≤ t → due j + period j ≤ next → spread d j → spread d (with_run t next j).
Proof.
  intros Ht Hn [Hd Hh]. split; simpl.
  - rewrite length_app. simpl. lia.
  - intros i x. rewrite lookup_app_Some. intros [Hx|[Hi Hx]]; [by apply Hh|].
    apply list_lookup_singleton_Some in Hx as [Hi' <-].
    replace i with (length (history j)) by lia. lia.
Qed.

Lemma step_spread name d a b :
  step a b → (∃ j, a !! name = Some j ∧ spread d j) → ∃ j, b !! name = Some j ∧ spread d j.
Proof.
  intros Hs (j & Hj & Hsp). destruct Hs as [name' j' t next Hj' Ht Hn|name' j' next Hj' Hn];
    (destruct (decide (name' = name)) as [->|Hne]; [|rewrite lookup_insert_ne by done; eauto]);
    rewrite lookup_insert_eq; simplify_eq; eexists; (split; [done|]).
  - by apply spread_run.
  - destruct Hsp as [Hd Hh]. split; simpl; [lia|done].
Qed.

Lemma steps_spread name d a b :
  rtc step a b → (∃ j, a !! name = Some j ∧ spread d j) → ∃ j, b !! name = Some j ∧ spread d j.
Proof. induction 1; eauto using step_spread. Qed.

Lemma step_period name a b p :
  step a b → (∃ j, a !! name = Some j ∧ period j = p) → ∃ j, b !! name = Some j ∧ period j = p.
Proof.
  intros Hs (j & Hj & Hp). destruct Hs as [name' j' t next Hj' _ _|name' j' next Hj' _];
    (destruct (decide (name' = name)) as [->|Hne]; [|rewrite lookup_insert_ne by done; eauto]);
    rewrite lookup_insert_eq; simplify_eq; by eexists.
Qed.

Lemma steps_period name a b p :
  rtc step a b → (∃ j, a !! name = Some j ∧ period j = p) → ∃ j, b !! name = Some j ∧ period j = p.
Proof. induction 1; eauto using step_period. Qed.
End Spec.

Section Scheduler.
Context `{JobHandlers W}.
Variable fault : nat → option error.
Variable scan : list (string * (Z * Z)) → list (string * (Z * Z)).

Abbreviation state := (Txn jobs_table (scheduler W)).

Definition storage_GetJobByName (jobName : string) : M state Job :=
  getRow fault ErrNotFound "failed to execute get job by name statement: %w" (λ db,
    modelFromJob jobName <$> db !! jobName).

Definition storage_UpsertJob (job : Job) : M state unit :=
  oneRow fault "failed to execute upsert job statement: %w" (λ db,
    let '(name, row) := jobFromModel job in (<[name := row]> db, Ok 1)).

Definition storage_GetAllJobs : M state (list Job) :=
  wrapS "failed to execute get all jobs statement: %w" (Query fault (λ db,
    Ok ((λ r, modelFromJob r.1 r.2) <$> scan (map_to_list db)))).

Definition RegisterJobHandler (jobName : string) : M state unit :=
  modifyRest (λ x, set_registry ({[jobName]} ∪ registry x) x).

Definition getJobHandler (jobName : string) : M state unit :=
  x ← getRest;
  if decide (jobName ∈ registry x) then retS tt
  else throwS (Errorf "job %s not found in registry").

Definition setJobTimer (jobName : string) (t : stopper) : M state unit :=
  modifyRest (λ x, set_timers (<[jobName := t]> (timers x)) x).

Definition getJobTimer (jobName : string) (x : scheduler W) : option stopper := timers x !! jobName.

Definition updateJobExecutionTime (jobName : string) (executionTime : Z) : M state unit :=
  withSession fault "failed to create db session: %w" (
    job ← wrapS "failed to get job %s from db: %w" (storage_GetJobByName jobName);
    wrapS "failed to upsert job %s in db: %w" (storage_UpsertJob
      {| Name := Name job; LastExecutedAt := executionTime; Period := Period job |}) ;;
    wrapS "failed to commit db session: %w" (Commit fault)).

Definition Schedule (period : Z) (jobName : string) : M state unit :=
  withSession fault "failed to create db session: %w" (
    r ← attempt (storage_GetJobByName jobName);
    lastExecutedAt ← liftO (match r with
      | inl job => Ok (LastExecutedAt job)
      | inr e => if errors_is e "scheduler.ErrNotFound" then Ok zeroTime
                 else Err (Wrapf "failed to get job %s from db: %w" e)
      end);
    wrapS "failed to upsert job %s in db: %w" (storage_UpsertJob
      {| Name := jobName; LastExecutedAt := lastExecutedAt; Period := period |}) ;;
    wrapS "failed to commit db session: %w" (Commit fault)).

(** [max(job.LastExecutedAt.Add(job.Period).Sub(now), 0)] *)
Definition durationUntilFirstExecution (job : Job) (now : Z) : Z :=
  Z.max (timeSub (LastExecutedAt job + Period job) now) 0.

Definition set_goroutine (jobName : string) (g : goroutine) : M state unit :=
  modifyRest (λ x, set_goroutines (<[jobName := g]> (goroutines x)) x).

Fixpoint startJobs (jobs : list Job) : M state unit :=
  match jobs with
  | [] => retS tt
  | job :: jobs =>
      wrapS "failed to get job handler for job %s: %w" (getJobHandler (Name job)) ;;
      x ← getRest;
      let now := Now (env x) in
      setJobTimer (Name job) TimerStopper ;;
      set_goroutine (Name job)
        (FirstAt (now + durationUntilFirstExecution job now) (Period job)) ;;
      startJobs jobs
  end.

Definition Start : M state unit :=
  withSession fault "failed to create db session: %w" (
    jobs ← wrapS "failed to get all jobs from db: %w" storage_GetAllJobs;
    modifyRest (set_stopTimers (Some false)) ;;
    startJobs jobs).

(** [s.stopTimers()] and [s.wg.Wait()]: every goroutine is over. *)
Definition Stop : M state unit :=
  modifyRest (λ x, match stopTimers x with
    | None => x
    | Some _ => set_goroutines ((λ _, Over) <$> goroutines x) (set_stopTimers (Some true) x)
    end) ;;
  modifyRest (set_timers ∅).

(** ** The goroutines *)
Definition onEnv {A} (m : M W A) : M state A := λ s,
  let '(w, o) := m (env (rest s)) in
  (mkTxn (committed s) (working s) (ticks s) (set_env w (rest s)), o).

(** The closure [handler] of a job. *)
Definition handler (jobName : string) (tickTime : Z) : M state unit :=
  orRespond (updateJobExecutionTime jobName tickTime) (λ _, tt) (λ _,
  onEnv (run_handler jobName tickTime)).

(** After the first execution, a panic recovered or not, the second goroutine makes the
    ticker; [NewTicker] panics for a period that is not positive. *)
Definition first_execution (jobName : string) (tickTime period : Z) : M state unit :=
  (λ s, ((handler jobName tickTime s).1, Ok tt)) ;;
  x ← getRest;
  if period <=? 0 then set_goroutine jobName Over
  else setJobTimer jobName Ticker ;;
       set_goroutine jobName (TickAt (Now (env x) + period) period).

(** A tick; the ticker drops [missed] ticks of a slow handler, and a panic of the handler
    ends the goroutine. *)
Definition tick (jobName : string) (tickTime next period : Z) (missed : nat) : M state unit := λ s,
  let '(s1, o) := handler jobName tickTime s in
  set_goroutine jobName
    (match o with
     | Panic _ => Over
     | _ => TickAt (next + (1 + Z.of_nat missed) * period) period
     end) s1.

(** A timer or ticker delivers the time it goes off at, once it is due. *)
Inductive sstep (s : state) : state → Prop :=
  | sstep_first name tickTime deadline period :
      goroutines (rest s) !! name = Some (FirstAt deadline period) →
      deadline ≤ tickTime ≤ Now (env (rest s)) →
      sstep s (first_execution name tickTime period s).1
  | sstep_tick name tickTime next period missed :
      goroutines (rest s) !! name = Some (TickAt next period) →
      next ≤ tickTime ≤ Now (env (rest s)) →
      sstep s (tick name tickTime next period missed s).1
  | sstep_schedule period name : sstep s (Schedule period name s).1
  | sstep_register name : sstep s (RegisterJobHandler name s).1
  | sstep_stop : sstep s (Stop s).1
  | sstep_wait w :
      executed w = executed (env (rest s)) → Now (env (rest s)) ≤ Now w →
      sstep s (mkTxn (committed s) (working s) (ticks s) (set_env w (rest s))).

(** ** Lemmas *)

(** The table after an execution at [t] is recorded. *)
Definition recorded (name : string) (t : Z) (db db' : jobs_table) : Prop :=
  ∃ row, db !! name = Some row ∧
    db' = <[name := (t / Second, Z.quot (swrap 64 (row.2 * Second)) Second)]> db.

Lemma Upsert_ends job s w :
  working s = Some w →
  runs (storage_UpsertJob job) s (λ t o, same_data s t ∧ match o with
    | Ok _ => working t = Some (<[(jobFromModel job).1 := (jobFromModel job).2]> w)
    | Err _ => True | Panic _ => False end).
Proof.
  intros Hw. eapply runs_mono; [by apply (oneRow_ends fault _ _ s w Hw)|].
  intros t [[]|e|p] [Hd Ho]; (split; [done|]); try done.
  destruct Ho as (w' & [= <-] & ->). done.
Qed.

(** The tail of an update: the row is replaced and published. *)
Lemma publish_ends job s w :
  working s = Some w →
  runs (wrapS "failed to upsert job %s in db: %w" (storage_UpsertJob job) ;;
        wrapS "failed to commit db session: %w" (Commit fault)) s (λ t o, rest t = rest s ∧
    match o with
    | Ok _ => committed t = <[(jobFromModel job).1 := (jobFromModel job).2]> w
    | Err _ => committed t = committed s | Panic _ => False end).
Proof.
  intros Hw. eapply runs_bind_wrap; [exact (Upsert_ends job s w Hw)|..].
  - intros t [] [[Hc Hr] Hw']. apply runs_wrap.
    eapply runs_mono; [exact (Commit_ends fault t _ Hw')|].
    intros u [[]|e|p] [Hru Hcu]; simpl in *; split; congruence.
  - intros t e [[Hc Hr] _]. done.
  - by intros t p [_ []].
Qed.

Lemma update_ends name t s :
  runs (updateJobExecutionTime name t) s (λ u o, rest u = rest s ∧
    match o with
    | Ok _ => recorded name t (committed s) (committed u)
    | Err _ => committed u = committed s | Panic _ => False end).
Proof.
  unfold updateJobExecutionTime. eapply runs_bind_wrap; [exact (NewSession_ends fault s)|..].
  2: by intros u e [[? ?] _]. 2: by intros u p [_ []].
  intros u [] [[Hc Hr] Hw]. apply runs_deferS.
  eapply runs_bind_wrap; [exact (getRow_ends fault _ _ _ u _ Hw)|..].
  2: { intros v e [[Hcv Hrv] _]. simpl. split; congruence. }
  2: by intros v p [_ []].
  intros v job [[Hcv Hrv] [Hjob Hwv]].
  destruct (committed s !! name) as [row|] eqn:Erow; simplify_eq/=.
  eapply runs_mono; [exact (publish_ends _ v _ Hwv)|].
  intros x [[]|e|p] [Hrx Hx]; simpl in *; (split; [congruence|]); try done; [|congruence].
  exists row. by rewrite Hx.
Qed.

(** An execution: the handler runs after it is recorded, and only then. *)
Lemma job_handler_ends name t s :
  runs (handler name t) s (λ u o, (∀ e, o ≠ Err e) ∧
    (∃ w, rest u = set_env w (rest s)) ∧ Now (env (rest s)) ≤ Now (env (rest u)) ∧
    (executed (env (rest u)) = executed (env (rest s)) ∧ committed u = committed s ∧ o = Ok tt ∨
     executed (env (rest u)) = executed (env (rest s)) ++ [(name, t)] ∧
       recorded name t (committed s) (committed u))).
Proof.
  unfold handler. eapply runs_orRespond; [exact (update_ends name t s)|..].
  - intros u [] [Hr Hrec]. unfold runs, onEnv. rewrite Hr.
    pose proof (run_handler_executed name t (env (rest s))) as He.
    pose proof (run_handler_later name t (env (rest s))) as Hl.
    pose proof (run_handler_no_error name t (env (rest s))) as Hn.
    destruct (run_handler name t (env (rest s))) as [w o]. simpl in *. split_and!; eauto.
  - intros u e [Hr Hc]. rewrite Hr. split_and!; [done| |done|by left].
    exists (env (rest s)). by destruct (rest s).
  - by intros u p [_ []].
Qed.

(** The executions of one job in a history. *)
Definition times (name : string) (l : list (string * Z)) : list Z :=
  snd <$> filter (λ e, e.1 = name) l.

Lemma times_app name l l' : times name (l ++ l') = times name l ++ times name l'.
Proof. unfold times. by rewrite filter_app, fmap_app. Qed.

Lemma times_one name name' t :
  times name [(name', t)] = if decide (name' = name) then [t] else [].
Proof. unfold times. rewrite filter_cons, filter_nil. simpl. by case_decide. Qed.

(** *** The simulation *)
Definition waits (g : goroutine) (j : Spec.job) : Prop :=
  match g with
  | FirstAt d p => Spec.due j ≤ d ∧ Spec.period j = p
  | TickAt d p => Spec.due j ≤ d ∧ Spec.period j = p ∧ 0 < p
  | Over => True
  end.

(** Since the history [e0], the jobs started have run as their specification says. *)
Record sim (e0 : list (string * Z)) (s : state) (a : Spec.jobs) : Prop := {
  sim_jobs name g :
    goroutines (rest s) !! name = Some g → ∃ j, a !! name = Some j ∧ waits g j;
  sim_others name : goroutines (rest s) !! name = None → a !! name = None;
  sim_history : ∃ l, executed (env (rest s)) = e0 ++ l ∧
    ∀ name, times name l = match a !! name with Some j => Spec.history j | None => [] end
}.

(** An execution of a job in the specification, or a missed one. *)
Lemma sim_execution e0 s a name t g next g' j u :
  sim e0 s a → goroutines (rest s) !! name = Some g → a !! name = Some j → Spec.due j ≤ t →
  Spec.due j ≤ next → Spec.due j + Spec.period j ≤ next →
  (∀ j', Spec.due j' = next → Spec.period j' = Spec.period j → waits g' j') →
  goroutines (rest u) = <[name := g']> (goroutines (rest s)) →
  (executed (env (rest u)) = executed (env (rest s)) ∨
   executed (env (rest u)) = executed (env (rest s)) ++ [(name, t)]) →
  ∃ b, Spec.step a b ∧ sim e0 u b.
Proof.
  intros [Hj Ho (l & El & Hl)] Hg Ea Ht Hn Hp Hw Egs Hex.
  assert (∀ j', Spec.due j' = next → Spec.period j' = Spec.period j →
    (∀ name' h, goroutines (rest u) !! name' = Some h →
       ∃ x, <[name := j']> a !! name' = Some x ∧ waits h x) ∧
    ∀ name', goroutines (rest u) !! name' = None → <[name := j']> a !! name' = None) as Hgs.
  { intros j' Hd' Hp'. rewrite Egs. split; intros name'.
    - intros h [[<- <-]|[Hne Hh]]%lookup_insert_Some; [rewrite lookup_insert_eq; eauto|].
      rewrite lookup_insert_ne by done. by apply Hj.
    - rewrite lookup_insert_None. intros [Hn' Hne]. rewrite lookup_insert_ne by done. by apply Ho. }
  destruct Hex as [Hex|Hex].
  - exists (<[name := Spec.with_due next j]> a). split; [by apply Spec.step_miss|].
    destruct (Hgs (Spec.with_due next j) eq_refl eq_refl) as [H1 H2]. split; [done|done|].
    exists l. split; [congruence|]. intros name'. rewrite Hl.
    destruct (decide (name = name')) as [->|Hne]; [by rewrite Ea, lookup_insert_eq|].
    by rewrite lookup_insert_ne.
  - exists (<[name := Spec.with_run t next j]> a). split; [by apply Spec.step_run|].
    destruct (Hgs (Spec.with_run t next j) eq_refl eq_refl) as [H1 H2]. split; [done|done|].
    exists (l ++ [(name, t)]). split; [by rewrite Hex, El, (assoc_L (++))|].
    intros name'. rewrite times_app, times_one, Hl. case_decide as Hne; subst.
    + by rewrite Ea, lookup_insert_eq.
    + by rewrite lookup_insert_ne, app_nil_r.
Qed.

Lemma sim_quiet e0 s a t :
  sim e0 s a → goroutines (rest t) = goroutines (rest s) →
  executed (env (rest t)) = executed (env (rest s)) → sim e0 t a.
Proof. intros [Hj Ho Hl] Hg He. split; rewrite ?Hg, ?He; done. Qed.

Lemma Schedule_ends period name s :
  (∀ n e, fault n = Some e → errors_is e "scheduler.ErrNotFound" = false) →
  runs (Schedule period name) s (λ t o, rest t = rest s ∧ match o with
    | Ok _ => committed t =
        <[name := (match committed s !! name with Some row => row.1 | None => zeroTime / Second end,
                   Z.quot period Second)]> (committed s)
    | Err _ => committed t = committed s | Panic _ => False end).
Proof.
  intros Hf. unfold Schedule. eapply runs_bind_wrap; [exact (NewSession_ends fault s)|..].
  2: by intros u e [[? ?] _]. 2: by intros u p [_ []].
  intros u [] [[Hc Hr] Hw]. apply runs_deferS.
  set (last := match committed s !! name with Some row => row.1 * Second | None => zeroTime end).
  set (Q := λ (t : state) (o : outcome unit), rest (Abort t) = rest s ∧ match o with
    | Ok _ => committed (Abort t) = <[name := (match committed s !! name with
        Some row => row.1 | None => zeroTime / Second end, Z.quot period Second)]> (committed s)
    | Err _ => committed (Abort t) = committed s | Panic _ => False end).
  set (publish := λ l, wrapS "failed to upsert job %s in db: %w" (storage_UpsertJob
      {| Name := name; LastExecutedAt := l; Period := period |}) ;;
    wrapS "failed to commit db session: %w" (Commit fault)).
  assert (∀ v, committed v = committed s → rest v = rest s → working v = Some (committed s) →
    runs (publish last) v Q) as Hpublish.
  { intros v Hcv Hrv Hwv. eapply runs_mono; [exact (publish_ends _ v _ Hwv)|].
    intros x [[]|e|p] [Hrx Hx]; simpl in *; (split; [simpl; congruence|]); try done; [|simpl; congruence].
    simpl. rewrite Hx. unfold last. destruct (committed s !! name); [|done].
    by rewrite Z.div_mul. }
  change (runs (r ← attempt (storage_GetJobByName name);
    lastExecutedAt ← liftO (match r with
      | inl job => Ok (LastExecutedAt job)
      | inr e => if errors_is e "scheduler.ErrNotFound" then Ok zeroTime
                 else Err (Wrapf "failed to get job %s from db: %w" e)
      end);
    publish lastExecutedAt) u Q).
  eapply runs_attempt; [exact (getRow_ends fault _ _ _ u _ Hw)|..].
  - intros v job [[Hcv Hrv] [Hjob Hwv]]. change (runs (publish (LastExecutedAt job)) v Q).
    replace (LastExecutedAt job) with last; [apply Hpublish; congruence|].
    unfold last. destruct (committed s !! name) as [row|]; by simplify_eq/=.
  - intros v e [[Hcv Hrv] He]. destruct He as [Hwv [[Hnone ->]|(n & e' & Hn & ->)]].
    + change (runs (publish zeroTime) v Q). apply fmap_None in Hnone.
      replace zeroTime with last by (unfold last; by rewrite Hnone). apply Hpublish; congruence.
    + unfold runs, liftO, mbind, M_bind. simpl. rewrite (Hf n e' Hn). split; simpl; congruence.
  - by intros v p [_ []].
Qed.

Lemma runs_fst {S A} (m : M S A) x (Q : S → Prop) : runs m x (λ t _, Q t) → Q (m x).1.
Proof. unfold runs. by destruct (m x). Qed.

Lemma first_execution_ends name t p s :
  runs (first_execution name t p) s (λ u _,
    goroutines (rest u) = <[name := if p <=? 0 then Over else TickAt (Now (env (rest u)) + p) p]>
      (goroutines (rest s)) ∧
    Now (env (rest s)) ≤ Now (env (rest u)) ∧
    (executed (env (rest u)) = executed (env (rest s)) ∨
     executed (env (rest u)) = executed (env (rest s)) ++ [(name, t)])).
Proof.
  pose proof (job_handler_ends name t s) as Hh. unfold runs in *. unfold first_execution, mbind, M_bind, getRest.
  destruct (handler name t s) as [u o]. destruct Hh as (_ & [w Hr] & Hl & Hex). simpl.
  assert (executed (env (rest u)) = executed (env (rest s)) ∨
     executed (env (rest u)) = executed (env (rest s)) ++ [(name, t)]) as Hex'
    by (destruct Hex as [(? & _)|(? & _)]; auto).
  destruct (p <=? 0); simpl; (split; [|done]); by rewrite Hr.
Qed.

Lemma tick_ends name t next p missed s :
  runs (tick name t next p missed) s (λ u _,
    (∃ g, goroutines (rest u) = <[name := g]> (goroutines (rest s)) ∧
       (g = Over ∨ g = TickAt (next + (1 + Z.of_nat missed) * p) p)) ∧
    (executed (env (rest u)) = executed (env (rest s)) ∨
     executed (env (rest u)) = executed (env (rest s)) ++ [(name, t)])).
Proof.
  pose proof (job_handler_ends name t s) as Hh. unfold runs in *. unfold tick.
  destruct (handler name t s) as [u o]. destruct Hh as (_ & [w Hr] & Hl & Hex). simpl.
  split; [|destruct Hex as [(? & _)|(? & _)]; auto].
  eexists. split; [by rewrite Hr|]. destruct o; auto.
Qed.

Lemma Schedule_rest period name s : rest (Schedule period name s).1 = rest s.
Proof.
  apply (runs_fst _ s (λ t, rest t = rest s)). unfold Schedule.
  assert (keeps rest (Schedule period name)) as Hk.
  { apply withSession_keeps_rest. apply keeps_bind; [|intros r].
    - apply keeps_attempt. unfold storage_GetJobByName, getRow. auto 10 with ttm.
    - unfold storage_UpsertJob, oneRow. auto 20 with ttm. }
  specialize (Hk s). unfold runs. unfold Schedule in Hk. by destruct (withSession _ _ _ s).
Qed.

Lemma sstep_sim e0 s t a : sstep s t → sim e0 s a → ∃ b, rtc Spec.step a b ∧ sim e0 t b.
Proof.
  intros Hs Hsim. destruct Hs as
    [name x d p Hg [Hd Hx]|name x next p missed Hg [Hd Hx]|p name|name| |w He Hw].
  - destruct (sim_jobs _ _ _ Hsim name _ Hg) as (j & Ej & Hj & Hp). subst p.
    apply (runs_fst _ s (λ u, ∃ b, rtc Spec.step a b ∧ sim e0 u b)).
    eapply runs_mono; [exact (first_execution_ends name x (Spec.period j) s)|].
    intros u _ (Eg & Hl & Hex).
    destruct (sim_execution e0 s a name x (FirstAt d (Spec.period j))
      (if Spec.period j <=? 0 then Spec.due j else Now (env (rest u)) + Spec.period j)
      (if Spec.period j <=? 0 then Over else TickAt (Now (env (rest u)) + Spec.period j) (Spec.period j))
      j u Hsim Hg Ej) as (b & Hb & Hsb); try done; try (zcase; lia).
    + zcase; simpl; [done|]. intros j' -> ->. lia.
    + exists b. split; [by apply rtc_once|done].
  - destruct (sim_jobs _ _ _ Hsim name _ Hg) as (j & Ej & Hj & Hp & Hpos). subst p.
    apply (runs_fst _ s (λ u, ∃ b, rtc Spec.step a b ∧ sim e0 u b)).
    eapply runs_mono; [exact (tick_ends name x next (Spec.period j) missed s)|].
    intros u _ ((g & Eg & Hgo) & Hex).
    destruct (sim_execution e0 s a name x (TickAt next (Spec.period j))
      (next + (1 + Z.of_nat missed) * Spec.period j) g j u Hsim Hg Ej) as (b & Hb & Hsb);
      try done; try nia.
    + intros j' Hd' Hp'. destruct Hgo as [->| ->]; simpl; [done|]. lia.
    + exists b. split; [by apply rtc_once|done].
  - exists a. split; [done|]. by apply (sim_quiet e0 s); rewrite ?Schedule_rest.
  - exists a. split; [done|]. by apply (sim_quiet e0 s).
  - exists a. split; [done|]. destruct Hsim as [Hj Ho Hl].
    unfold Stop, modifyRest, mbind, M_bind. simpl. destruct (stopTimers (rest s)); split; simpl; try done.
    + intros name g. rewrite lookup_fmap. destruct (goroutines (rest s) !! name) as [g'|] eqn:E; [|done].
      intros [= <-]. destruct (Hj name g' E) as (j & ? & _). by exists j.
    + intros name. rewrite lookup_fmap. intros Hn%fmap_None. by apply Ho.
  - exists a. split; [done|]. by apply (sim_quiet e0 s).
Qed.

(** *** Starting *)

(** A period after the last execution, or at once; a wait is at most 2^63-1 ns. *)
Definition first_due (now : Z) (row : Z * Z) : Z :=
  Z.max now (Z.min (now + MaxInt64) (row.1 * Second + swrap 64 (row.2 * Second))).

Lemma first_due_duration now name row :
  first_due now row = now + durationUntilFirstExecution (modelFromJob name row) now.
Proof.
  unfold first_due, durationUntilFirstExecution, timeSub. cbn [modelFromJob LastExecutedAt Period].
  assert (MinInt64 ≤ 0) by (vm_compute; discriminate).
  assert (0 ≤ MaxInt64) by (vm_compute; discriminate). lia.
Qed.

(** What a start promises for the jobs of the table. *)
Definition promised (now : Z) (db : jobs_table) : Spec.jobs :=
  (λ row, {| Spec.due := first_due now row; Spec.period := swrap 64 (row.2 * Second);
             Spec.history := [] |}) <$> db.

Lemma startJobs_ends jobs s :
  NoDup (Name <$> jobs) →
  runs (startJobs jobs) s (λ t o, committed t = committed s ∧ env (rest t) = env (rest s) ∧
    (o = Ok tt →
      (∀ job, job ∈ jobs → goroutines (rest t) !! Name job = Some (FirstAt
         (Now (env (rest s)) + durationUntilFirstExecution job (Now (env (rest s)))) (Period job))) ∧
      ∀ name, name ∉ Name <$> jobs → goroutines (rest t) !! name = goroutines (rest s) !! name)).
Proof.
  revert s. induction jobs as [|job jobs IH]; intros s Hnd.
  - apply runs_ret. split_and!; [done|done|]. intros _. split; [|done].
    by intros job Hj%not_elem_of_nil.
  - apply NoDup_cons in Hnd as [Hnew Hnd]. cbn [startJobs].
    eapply (runs_bind_wrap _ _ _ _ (λ t o, t = s)); [|intros t [] ->|by intros t e ->|by intros t p ->].
    { unfold runs, getJobHandler, getRest, mbind, M_bind. by destruct (decide _). }
    set (u := mkTxn (committed s) (working s) (ticks s) (set_goroutines
      (<[Name job := FirstAt (Now (env (rest s)) + durationUntilFirstExecution job (Now (env (rest s))))
          (Period job)]> (goroutines (rest s)))
      (set_timers (<[Name job := TimerStopper]> (timers (rest s))) (rest s)))).
    change (runs (startJobs jobs) u (λ t o, committed t = committed s ∧ env (rest t) = env (rest s) ∧
      (o = Ok tt →
        (∀ job', job' ∈ job :: jobs → goroutines (rest t) !! Name job' = Some (FirstAt
           (Now (env (rest s)) + durationUntilFirstExecution job' (Now (env (rest s)))) (Period job'))) ∧
        ∀ name, name ∉ Name <$> job :: jobs → goroutines (rest t) !! name = goroutines (rest s) !! name))).
    eapply runs_mono; [exact (IH u Hnd)|]. intros t o (Hc & He & Ho).
    split_and!; [done|done|]. intros Hok. destruct (Ho Hok) as [H1 H2]. split.
    + intros job' [->|Hin]%elem_of_cons; [|by apply H1].
      rewrite H2 by done. simpl. by rewrite lookup_insert_eq.
    + intros name Hn. rewrite fmap_cons, not_elem_of_cons in Hn. destruct Hn as [Hne Hn].
      rewrite H2 by done. simpl. by rewrite lookup_insert_ne.
Qed.

Hypothesis scan_perm : ∀ l, scan l ≡ₚ l.

Lemma Start_sim s s1 :
  goroutines (rest s) = ∅ → Start s = (s1, Ok tt) →
  sim (executed (env (rest s))) s1 (promised (Now (env (rest s))) (committed s)) ∧
  committed s1 = committed s.
Proof.
  intros Hg HS.
  enough (runs Start s (λ t o, o = Ok tt →
    sim (executed (env (rest s))) t (promised (Now (env (rest s))) (committed s)) ∧
    committed t = committed s)) as Hr
    by (unfold runs in Hr; rewrite HS in Hr; by apply Hr).
  clear s1 HS. unfold Start. eapply runs_bind_wrap; [exact (NewSession_ends fault s)|..|done|done].
  intros t [] [[Hc Hr] Hw]. apply runs_deferS.
  apply (runs_bind_wrap _ _ _ _ (λ u o, same_data s u ∧ ∀ jobs, o = Ok jobs →
    ∃ L, jobs = (λ r, modelFromJob r.1 r.2) <$> L ∧ L ≡ₚ map_to_list (committed s))); [|..|done|done].
  { apply runs_wrap. eapply runs_mono; [exact (Query_ends fault _ t _ Hw)|].
    intros u [jobs|e|p] [[Hcu Hru] Ho]; (split; [split; congruence|]); intros jobs' Heq; simplify_eq/=.
    destruct Ho as [Ho _]. simplify_eq. eexists. split; [done|]. apply scan_perm. }
  intros u jobs [[Hcu Hru] Hjobs]. destruct (Hjobs jobs eq_refl) as (L & -> & HL).
  set (v := mkTxn (committed u) (working u) (ticks u) (set_stopTimers (Some false) (rest u))).
  change (runs (startJobs ((λ r, modelFromJob r.1 r.2) <$> L)) v (λ t o, o = Ok tt →
    sim (executed (env (rest s))) (Abort t) (promised (Now (env (rest s))) (committed s)) ∧
    committed (Abort t) = committed s)).
  assert (Name <$> ((λ r, modelFromJob r.1 r.2) <$> L) = L.*1) as HN
    by (rewrite <- list_fmap_compose; by apply list_fmap_ext).
  eapply runs_mono; [apply (startJobs_ends _ v)|].
  { rewrite HN, HL. apply NoDup_fst_map_to_list. }
  intros x o (Hcx & Hex & Hox) Hok. destruct (Hox Hok) as [H1 H2]. rewrite HN in H2.
  assert (env (rest v) = env (rest s)) as Hev by (simpl; congruence).
  assert (goroutines (rest v) = ∅) as Hgv by (simpl; congruence).
  assert (committed v = committed s) as Hcv by (simpl; congruence).
  clearbody v. rewrite Hev in *. split; [|change (committed x = committed s); congruence]. split.
  - intros name g Hlook. destruct (decide (name ∈ L.*1)) as [Hin|Hin].
    + apply list_elem_of_fmap in Hin as ([name' row] & -> & Hin). simpl in *.
      assert (committed s !! name' = Some row) as Hrow
        by (apply elem_of_map_to_list; by rewrite <- HL).
      exists {| Spec.due := first_due (Now (env (rest s))) row;
                Spec.period := swrap 64 (row.2 * Second); Spec.history := [] |}.
      split; [unfold promised; by rewrite lookup_fmap, Hrow|].
      specialize (H1 (modelFromJob name' row)). simpl in H1. rewrite H1 in Hlook; [|by
        apply list_elem_of_fmap; exists (name', row)]. injection Hlook as <-.
      split; [|done]. simpl. by rewrite <- first_due_duration.
    + simpl in Hlook. rewrite H2, Hgv in Hlook by done. by rewrite lookup_empty in Hlook.
  - intros name Hnone. unfold promised. rewrite lookup_fmap.
    destruct (committed s !! name) as [row|] eqn:Erow; [|done].
    apply elem_of_map_to_list in Erow. rewrite <- HL in Erow.
    specialize (H1 (modelFromJob name row)). simpl in *. rewrite H1 in Hnone; [done|].
    apply list_elem_of_fmap. by exists (name, row).
  - exists []. split; [simpl; by rewrite Hex, app_nil_r|]. intros name. unfold promised.
    rewrite lookup_fmap. by destruct (committed s !! name).
Qed.

Lemma steps_sim e0 s t a :
  rtc (sstep) s t → sim e0 s a → ∃ b, rtc Spec.step a b ∧ sim e0 t b.
Proof.
  intros Hst. revert a. induction Hst as [s|s u t Hsu _ IH]; intros a Hsim; [by exists a|].
  destruct (sstep_sim e0 s u a Hsu Hsim) as (b & Hab & Hb).
  destruct (IH b Hb) as (c & Hbc & Hc). exists c. split; [by etransitivity|done].
Qed.

(** *** A job that has only its first execution *)
Definition once (name : string) (e0 : list (string * Z)) (s : state) : Prop :=
  ∃ l, executed (env (rest s)) = e0 ++ l ∧
    match goroutines (rest s) !! name with
    | Some (FirstAt _ p) => p ≤ 0 ∧ times name l = []
    | Some (TickAt _ _) => False
    | _ => (length (times name l) ≤ 1)%nat
    end.

Lemma once_other name name' e0 s u g t :
  name' ≠ name → once name e0 s →
  goroutines (rest u) = <[name' := g]> (goroutines (rest s)) →
  (executed (env (rest u)) = executed (env (rest s)) ∨
   executed (env (rest u)) = executed (env (rest s)) ++ [(name', t)]) → once name e0 u.
Proof.
  intros Hne (l & El & Hl) Eg Hex. unfold once. rewrite Eg, lookup_insert_ne by done.
  destruct Hex as [Hex|Hex]; rewrite Hex, El.
  - by exists l.
  - exists (l ++ [(name', t)]). split; [by rewrite (assoc_L (++))|].
    rewrite times_app, times_one, decide_False by done. by rewrite app_nil_r.
Qed.

Lemma sstep_once name e0 s t : sstep s t → once name e0 s → once name e0 t.
Proof.
  intros Hs Hon. destruct Hs as
    [name' x d p Hg _|name' x next p missed Hg _|p name'|name'| |w He _].
  - apply (runs_fst _ s (once name e0)).
    eapply runs_mono; [exact (first_execution_ends name' x p s)|]. intros u _ (Eg & _ & Hex).
    destruct (decide (name' = name)) as [->|Hne]; [|by eapply once_other].
    destruct Hon as (l & El & Hl). rewrite Hg in Hl. destruct Hl as [Hp Hl].
    unfold once. rewrite Eg, lookup_insert_eq. apply Z.leb_le in Hp as ->.
    destruct Hex as [Hex|Hex]; rewrite Hex, El.
    + exists l. rewrite Hl. simpl. split; [done|lia].
    + exists (l ++ [(name, x)]). split; [by rewrite (assoc_L (++))|].
      rewrite times_app, times_one, decide_True, Hl by done. simpl. lia.
  - apply (runs_fst _ s (once name e0)).
    eapply runs_mono; [exact (tick_ends name' x next p missed s)|]. intros u _ ((g & Eg & _) & Hex).
    destruct (decide (name' = name)) as [->|Hne]; [|by eapply once_other].
    destruct Hon as (l & El & Hl). by rewrite Hg in Hl.
  - unfold once in *. by rewrite Schedule_rest.
  - done.
  - destruct Hon as (l & El & Hl). exists l. unfold Stop, modifyRest, mbind, M_bind. simpl.
    destruct (stopTimers (rest s)); simpl; [|done]. split; [done|]. rewrite lookup_fmap.
    destruct (goroutines (rest s) !! name) as [[]|]; simpl; try done. destruct Hl as [_ ->]. simpl. lia.
  - unfold once in *. simpl. by rewrite He.
Qed.

Lemma steps_once name e0 s t : rtc sstep s t → once name e0 s → once name e0 t.
Proof. induction 1; eauto using sstep_once. Qed.
End Scheduler.

(** ** Properties *)
Section Properties.
Context `{JobHandlers W}.
Variable fault : nat → option error.
Variable scan : list (string * (Z * Z)) → list (string * (Z * Z)).

Abbreviation state := (Txn jobs_table (scheduler W)).


(** A job scheduled with a period below one second is stored with the period 0: after
    the next start it is executed at most once. *)
Lemma subsecond_runs_once period name (s s1 s2 t : state) :
  (∀ n e, fault n = Some e → errors_is e "scheduler.ErrNotFound" = false) →
  (∀ l, scan l ≡ₚ l) →
  0 ≤ period < Second → goroutines (rest s) = ∅ →
  Schedule fault period name s = (s1, Ok tt) → Start fault scan s1 = (s2, Ok tt) →
  rtc (sstep fault) s2 t →
  ∃ l, executed (env (rest t)) = executed (env (rest s)) ++ l ∧ (length (times name l) ≤ 1)%nat.
Proof.
  intros Hf Hscan Hp Hg Hsched Hstart Hst.
  pose proof (Schedule_ends fault period name s Hf) as H1. unfold runs in H1. rewrite Hsched in H1.
  destruct H1 as [Hr Hc].
  destruct (Start_sim fault scan Hscan s1 s2 ltac:(by rewrite Hr) Hstart) as [Hsim _].
  assert (once name (executed (env (rest s))) s2) as Hon.
  { rewrite Hr in Hsim. destruct Hsim as [Hj Hno (l & El & Hl)]. exists l. split; [done|].
    specialize (Hl name). unfold promised in *. rewrite lookup_fmap, Hc, lookup_insert_eq in Hl. simpl in Hl.
    destruct (goroutines (rest s2) !! name) as [g|] eqn:Eg; [|rewrite Hl; simpl; lia].
    destruct (Hj name g Eg) as (j & Ej & Hw). rewrite lookup_fmap, Hc, lookup_insert_eq in Ej.
    simpl in Ej. rewrite Z.quot_small in Ej by done. injection Ej as <-.
    destruct g as [d p|d p|]; simpl in Hw; [|by destruct Hw as (_ & <- & ?)|rewrite Hl; simpl; lia].
    destruct Hw as [_ <-]. split; [|done]. vm_compute. discriminate. }
  destruct (steps_once fault name _ s2 t Hst Hon) as (l & El & Hl). exists l. split; [done|].
  destruct (goroutines (rest t) !! name) as [[]|]; try done. destruct Hl as [_ ->]. simpl. lia.
Qed.
End Properties.

(** ** Handlers that run, and witnesses *)
Module Toy.
Record world := { clock : Z; log : list (string * Z) }.

#[global] Instance job_handlers : JobHandlers world.
Proof.
  refine {| Now := clock; executed := log;
    run_handler name t := λ w, ({| clock := clock w; log := log w ++ [(name, t)] |}, Ok tt) |}.
  - done.
  - done.
  - done.
Defined.

Definition fault (_ : nat) : option error := None.
Definition scan (l : list (string * (Z * Z))) : list (string * (Z * Z)) := l.

(** At 1000 s, a job that ran at 990 s and runs every 60 s. *)
Definition idle : Txn jobs_table (scheduler world) :=
  mkTxn {[ "clean" := (990, 60) ]} None 0
    (mkScheduler {| clock := 1000 * Second; log := [] |} {["clean"; "fast"]} ∅ ∅ None).
Definition started := (Start fault scan idle).1.
Definition waited (t : Z) (s : Txn jobs_table (scheduler world)) : Txn jobs_table (scheduler world) :=
  mkTxn (committed s) (working s) (ticks s)
    (set_env {| clock := t; log := log (env (rest s)) |} (rest s)).
Definition ran := (first_execution fault "clean" (1050 * Second) (60 * Second)
  (waited (1050 * Second) started)).1.

Lemma run : rtc (sstep fault) started ran.
Proof.
  apply (rtc_l _ _ (waited (1050 * Second) started)).
  - apply (sstep_wait fault started {| clock := 1050 * Second; log := [] |});
      vm_compute; [reflexivity|discriminate].
  - apply rtc_once. apply (sstep_first fault _ "clean" (1050 * Second) (1050 * Second) (60 * Second));
      vm_compute; [reflexivity|split; discriminate].
Qed.

Definition scheduled := (Schedule fault (Second / 2) "fast" idle).1.
Definition started_fast := (Start fault scan scheduled).1.

Lemma scan_ok l : scan l ≡ₚ l.
Proof. done. Qed.

Lemma idle_no_goroutines : goroutines (rest idle) = ∅.
Proof. reflexivity. Qed.

Lemma start_ok : Start fault scan idle = (started, Ok tt).
Proof. vm_compute. reflexivity. Qed.

Lemma scheduled_ok : Schedule fault (Second / 2) "fast" idle = (scheduled, Ok tt).
Proof. vm_compute. reflexivity. Qed.

Lemma start_fast_ok : Start fault scan scheduled = (started_fast, Ok tt).
Proof. vm_compute. reflexivity. Qed.

Lemma half_second : 0 ≤ Second / 2 < Second.
Proof. vm_compute. split; [discriminate|reflexivity]. Qed.

Lemma nothing_fails n e : fault n = Some e → errors_is e "scheduler.ErrNotFound" = false.
Proof. done. Qed.

Lemma ran_executed : executed (env (rest ran)) = [("clean", 1050 * Second)].
Proof. vm_compute. reflexivity. Qed.

Lemma idle_executed : executed (env (rest idle)) = [].
Proof. reflexivity. Qed.
End Toy.


Lemma subsecond_runs_once_witness :
  ∃ l, executed (env (rest Toy.started_fast)) = executed (env (rest Toy.idle)) ++ l ∧
    (length (times "fast" l) ≤ 1)%nat.
Proof.
  exact (subsecond_runs_once Toy.fault Toy.scan (Second / 2) "fast" Toy.idle Toy.scheduled
    Toy.started_fast Toy.started_fast Toy.nothing_fails Toy.scan_ok Toy.half_second Toy.idle_no_goroutines
    Toy.scheduled_ok Toy.start_fast_ok (rtc_refl _ _)).
Defined.
