(* ===== verification/Resolver.v ===== *)
(** * The resolver (internal/resolver, internal/resolver/storage/sqlite)

    Which bot of a TTM account a request goes to.  The table of bots is a map
    from (account, bot), its primary key, to the status of the bot; the chain is
    reached through the class [TtmAccounts].  [SELECT ... LIMIT 1] has no order in
    SQL: which row it picks is a parameter. *)
From S2P Require Import Prelude Txn TtmAccounts.

#[local] Open Scope Z_scope.

Definition ErrNotFound : error := Sentinel "resolver.ErrNotFound".

Definition BotStatusUnknown : Z := 0.
Definition BotStatusReachable : Z := 1.
Definition BotStatusUnreachable : Z := 2.

Abbreviation bots_table := (@gmap (Z * Z) _ (prod_countable (A := Z) (B := Z)) Z).

(** The rows [WHERE ttm_account = ? AND status = ?] selects. *)
Definition bots_with_status (db : bots_table) (ttmAccount status : Z) : list Z :=
  (λ r, r.1.2) <$> filter (λ r, r.1.1 = ttmAccount ∧ r.2 = status) (map_to_list db).

(** The rows [WHERE bot = ?] selects. *)
Definition rows_of_bot (db : bots_table) (botAddress : Z) : bots_table :=
  filter (λ r, r.1.2 = botAddress) db.

Section Resolver.
Context {X : Type} `{TtmAccounts X}.
Variable fault : nat → option error.
Variable pick : list Z → option Z.

Abbreviation state := (Txn bots_table X).

(** ** storage/sqlite/bots.go *)
Definition storage_GetFirstBotWithStatus (ttmAccount status : Z) : M state Z :=
  Query fault (λ db,
    match pick (bots_with_status db ttmAccount status) with
    | Some botAddr => Ok botAddr
    | None => Err ErrNotFound
    end).

Definition storage_SetBotStatus (botAddress status : Z) : M state unit :=
  Exec fault (λ db,
    let rows := rows_of_bot db botAddress in
    (((λ _, status) <$> rows) ∪ db,
     if Nat.eqb (size rows) 1 then Ok tt
     else Err (Errorf "failed to set bot status: expected to affect 1 row, but affected %d"))).

Definition deleteBotsByTTMAccount (ttmAccount : Z) : M state unit :=
  Exec fault (λ db, (filter (λ r, r.1.1 ≠ ttmAccount) db, Ok tt)).

Definition insertBot (ttmAccount botAddr : Z) : M state unit :=
  Exec fault (λ db,
    match db !! (ttmAccount, botAddr) with
    | Some _ => (db, Err (Errorf "UNIQUE constraint failed: bots.ttm_account, bots.bot"))
    | None => (<[(ttmAccount, botAddr) := BotStatusUnknown]> db, Ok tt)
    end).

Fixpoint insertBots (ttmAccount : Z) (bots : list Z) : M state unit :=
  match bots with
  | [] => retS tt
  | botAddr :: bots => insertBot ttmAccount botAddr ;; insertBots ttmAccount bots
  end.

Definition storage_SetBots (ttmAccount : Z) (bots : list Z) : M state unit :=
  deleteBotsByTTMAccount ttmAccount ;; insertBots ttmAccount bots.

(** ** resolver.go *)
Definition onRest {A} (m : M X A) : M state A := λ s,
  let '(x, o) := m (rest s) in (mkTxn (committed s) (working s) (ticks s) x, o).

(** The last resort of [GetBotAddress]: the bots the chain lists. *)
Definition fetchBots (recipientTTMAccount : Z) : M state Z :=
  recipientBots ← onRest (api_GetAllMessengerBots recipientTTMAccount);
  wrapS "failed to set bots in db: %w" (storage_SetBots recipientTTMAccount recipientBots) ;;
  wrapS "failed to commit session: %w" (Commit fault) ;;
  match recipientBots with
  | [] => throwS (Wrapf "no bots found for recipient TTM account %s: %w" ErrNotFound)
  | bot :: _ => retS bot
  end.

(** [switch] on the result of a lookup: found, failed, or nothing there. *)
Definition orElse (failed : string) (m next : M state Z) : M state Z :=
  r ← attempt m;
  match r with
  | inl bot => retS bot
  | inr e =>
      if negb (errors_is e "resolver.ErrNotFound") then throwS (Wrapf failed e) else next
  end.

Definition GetBotAddress (recipientTTMAccount : Z) : M state Z :=
  NewSession fault ;;
  deferS Abort (
    orElse "failed to get first reachable bot from db: %w"
      (storage_GetFirstBotWithStatus recipientTTMAccount BotStatusReachable)
      (orElse "failed to get first bot with unknown reachability status from db: %w"
        (storage_GetFirstBotWithStatus recipientTTMAccount BotStatusUnknown)
        (fetchBots recipientTTMAccount))).

Definition SetBotStatus (botAddress status : Z) : M state unit :=
  NewSession fault ;;
  deferS Abort (
    wrapS "failed to set bot status in db: %w" (storage_SetBotStatus botAddress status) ;;
    wrapS "failed to commit session: %w" (Commit fault)).

(** ** Lemmas *)

(** What the insertions make of the table. *)
Fixpoint insert_all (ttmAccount : Z) (db : bots_table) (bots : list Z) : bots_table :=
  match bots with
  | [] => db
  | bot :: bots => insert_all ttmAccount (<[(ttmAccount, bot) := BotStatusUnknown]> db) bots
  end.

(** What the table holds after [SetBots]. *)
Definition with_bots (db : bots_table) (ttmAccount : Z) (bots : list Z) : bots_table :=
  insert_all ttmAccount (filter (λ r, r.1.1 ≠ ttmAccount) db) bots.

Lemma bots_with_status_spec db a st b :
  b ∈ bots_with_status db a st ↔ db !! (a, b) = Some st.
Proof.
  unfold bots_with_status. rewrite list_elem_of_fmap. split.
  - intros ([[a' b'] st'] & -> & [[Ha Hs] Hin]%list_elem_of_filter). simpl in *. subst.
    by apply elem_of_map_to_list.
  - intros Hl. exists ((a, b), st). rewrite list_elem_of_filter, elem_of_map_to_list. auto.
Qed.

Lemma insert_all_other db a a' bots b :
  a ≠ a' →
  insert_all a db bots !! (a', b) = db !! (a', b).
Proof.
  intros Hne. revert db. induction bots as [|x bots IH]; intros db; simpl; [done|].
  rewrite IH. rewrite lookup_insert_ne; [done|]. congruence.
Qed.

Lemma insert_all_in db a bots b :
  b ∈ bots →
  insert_all a db bots !! (a, b) = Some BotStatusUnknown.
Proof.
  revert db. induction bots as [|x bots IH]; intros db Hin; [by apply not_elem_of_nil in Hin|].
  simpl. destruct (decide (b ∈ bots)) as [Hb|Hb]; [by apply IH|].
  apply elem_of_cons in Hin as [->|Hin]; [|done]. clear IH.
  assert (∀ d, d !! (a, x) = Some BotStatusUnknown →
    insert_all a d bots !! (a, x) = Some BotStatusUnknown)
    as Hk; [|apply Hk, lookup_insert_eq].
  induction bots as [|y bots IH]; intros d Hd; simpl; [done|]. apply IH.
  - intros Hin. apply Hb. by right.
  - rewrite lookup_insert_ne; [done|]. intros [= ->]. apply Hb. by left.
Qed.

Lemma insert_all_notin db a bots b :
  b ∉ bots →
  insert_all a db bots !! (a, b) = db !! (a, b).
Proof.
  revert db. induction bots as [|x bots IH]; intros db Hin; simpl; [done|].
  apply not_elem_of_cons in Hin as [Hne Hin]. rewrite IH by done.
  rewrite lookup_insert_ne; [done|]. congruence.
Qed.

Lemma with_bots_other db a bots a' b :
  a ≠ a' → with_bots db a bots !! (a', b) = db !! (a', b).
Proof.
  intros Hne. unfold with_bots. rewrite insert_all_other by done.
  rewrite map_lookup_filter. destruct (db !! (a', b)) as [st|]; simpl; [|done].
  by rewrite option_guard_True by (simpl; congruence).
Qed.

Lemma with_bots_lookup db a bots b :
  with_bots db a bots !! (a, b) = if decide (b ∈ bots) then Some BotStatusUnknown else None.
Proof.
  unfold with_bots. case_decide as Hin; [by apply insert_all_in|].
  rewrite insert_all_notin by done. apply map_lookup_filter_None. right.
  intros st _ Hne. by apply Hne.
Qed.

(** The statements of [SetBots] change the snapshot only. *)
Lemma insertBots_spec a bots s w :
  working s = Some w →
  committed (insertBots a bots s).1 = committed s ∧
  ((insertBots a bots s).2 = Ok tt →
   working (insertBots a bots s).1 =
     Some (insert_all a w bots)).
Proof.
  revert s w. induction bots as [|b bots IH]; intros s w Hw; simpl; [done|].
  unfold insertBot, Exec, external, mbind, M_bind.
  destruct (fault (ticks s)); simpl; [done|]. rewrite Hw.
  destruct (w !! (a, b)); simpl; [done|].
  by apply (IH (set_working (Some _) (mkTxn (committed s) _ (S (ticks s)) (rest s)))).
Qed.

Lemma SetBots_spec a bots s w :
  working s = Some w →
  committed (storage_SetBots a bots s).1 = committed s ∧
  ((storage_SetBots a bots s).2 = Ok tt →
   working (storage_SetBots a bots s).1 = Some (with_bots w a bots)).
Proof.
  intros Hw. unfold storage_SetBots, deleteBotsByTTMAccount, Exec, external, mbind, M_bind.
  destruct (fault (ticks s)); simpl; [done|]. rewrite Hw. simpl.
  by apply (insertBots_spec a bots
    (set_working (Some _) (mkTxn (committed s) _ (S (ticks s)) (rest s)))).
Qed.

Lemma insertBots_runs a bots s w :
  (∀ n, fault n = None) → working s = Some w → NoDup bots → (∀ b, b ∈ bots → w !! (a, b) = None) →
  ∃ s', insertBots a bots s = (s', Ok tt) ∧ ∃ w', working s' = Some w'.
Proof.
  intros Hf. revert s w. induction bots as [|b bots IH]; intros s w Hw Hnd Hnone; simpl; [eauto|].
  apply NoDup_cons in Hnd as [Hb Hnd].
  unfold insertBot, Exec, external, mbind, M_bind. rewrite Hf. simpl. rewrite Hw, (Hnone b) by left. simpl.
  eapply IH; [done|done|]. intros b' Hb'. rewrite lookup_insert_ne by congruence.
  apply Hnone. by right.
Qed.

Lemma rows_of_bot_two (db : bots_table) b a1 a2 st1 st2 :
  a1 ≠ a2 → db !! (a1, b) = Some st1 → db !! (a2, b) = Some st2 →
  size (rows_of_bot db b) ≠ 1%nat.
Proof.
  intros Hne H1 H2 Hs. unfold rows_of_bot in Hs.
  set (m := filter _ db) in *.
  assert (m !! (a1, b) = Some st1) as L1 by (by apply map_lookup_filter_Some).
  assert (m !! (a2, b) = Some st2) as L2 by (by apply map_lookup_filter_Some).
  assert (delete (a1, b) m = ∅) as Hd.
  { apply map_size_empty_inv. rewrite map_size_delete, L1. lia. }
  assert (delete (a1, b) m !! (a2, b) = Some st2) as L3
    by (rewrite lookup_delete_ne; [done|congruence]).
  by rewrite Hd in L3.
Qed.

Lemma set_status_lookup (db : bots_table) b st a b' :
  (((λ _, st) <$> rows_of_bot db b) ∪ db) !! (a, b') =
  if decide (b' = b) then (λ _, st) <$> db !! (a, b') else db !! (a, b').
Proof.
  rewrite lookup_union, lookup_fmap. unfold rows_of_bot. rewrite map_lookup_filter.
  destruct (db !! (a, b')) as [st'|]; simpl; [|by case_decide].
  case_decide; simpl; subst; [by rewrite option_guard_True|by rewrite option_guard_False].
Qed.

(** The account's bots on the chain are now those of the table, all unknown, and the
    answer is the first of them. *)
Definition fetched (a : Z) (db : bots_table) (r : state * outcome Z) : Prop :=
  ∃ bots, committed r.1 = with_bots db a bots ∧
    r.2 = match bots with
          | [] => Err (Wrapf "no bots found for recipient TTM account %s: %w" ErrNotFound)
          | bot :: _ => Ok bot
          end.

Definition untouched (db : bots_table) (r : state * outcome Z) : Prop :=
  committed r.1 = db ∧ is_ok r.2 = false.

Lemma fetchBots_spec a s w :
  working s = Some w →
  untouched (committed s) (fetchBots a s) ∨ fetched a w (fetchBots a s).
Proof.
  intros Hw. enough (∀ r, fetchBots a s = r → untouched (committed s) r ∨ fetched a w r) by eauto.
  intros r <-. unfold fetchBots, mbind, M_bind, onRest.
  destruct (api_GetAllMessengerBots a (rest s)) as [x [bots|e|p]]; [|by left..].
  destruct (SetBots_spec a bots (mkTxn (committed s) (working s) (ticks s) x) w Hw) as [Hc Hset].
  simpl in Hc. unfold wrapS.
  destruct (storage_SetBots a bots _) as [s1 [[]|e|p]]; simpl in *; [|by left..].
  specialize (Hset eq_refl). rewrite <- Hc.
  destruct (Commit_cases fault s1) as [(e & E & Ec & _)|(w' & E1 & E2 & Ec & _)];
    destruct (Commit fault s1) as [s2 o2]; simpl in *; subst o2; simpl; [by left|right].
  exists bots. rewrite Hset in E1. injection E1 as <-. by destruct bots.
Qed.

(** The three sources of [GetBotAddress] in turn, over the snapshot [db]. *)
Definition chosen (a : Z) (db : bots_table) (r : state * outcome Z) : Prop :=
  (∃ bot, committed r.1 = db ∧ r.2 = Ok bot ∧ db !! (a, bot) = Some BotStatusReachable) ∨
  bots_with_status db a BotStatusReachable = [] ∧
    ((∃ bot, committed r.1 = db ∧ r.2 = Ok bot ∧ db !! (a, bot) = Some BotStatusUnknown) ∨
     bots_with_status db a BotStatusUnknown = [] ∧ fetched a db r).

(** [LIMIT 1]: a row of the result, when it has one. *)
Hypothesis pick_some : ∀ l b, pick l = Some b → b ∈ l.
Hypothesis pick_none : ∀ l, pick l = None → l = [].

(** The driver does not make up the resolver's sentinel. *)
Hypothesis driver_errors : ∀ n e, fault n = Some e → errors_is e "resolver.ErrNotFound" = false.

Lemma orElse_lookup (failed : string) (a st : Z) (next : M state Z) (s : state) (db : bots_table) (Q : state * outcome Z → Prop) :
  committed s = db → working s = Some db →
  (∀ s' bot, committed s' = db → db !! (a, bot) = Some st → Q (s', Ok bot)) →
  (∀ s' o, committed s' = db → is_ok o = false → Q (s', o)) →
  (∀ s', committed s' = db → working s' = Some db → bots_with_status db a st = [] → Q (next s')) →
  Q (orElse failed (storage_GetFirstBotWithStatus a st) next s).
Proof.
  intros Hc Hw Hfound Herr Hnext.
  unfold orElse, attempt, storage_GetFirstBotWithStatus, Query, Exec, external, mbind, M_bind.
  destruct (fault (ticks s)) as [e|] eqn:Ef; simpl.
  { rewrite (driver_errors _ _ Ef). simpl. by apply Herr. }
  rewrite Hw. destruct (pick _) as [bot|] eqn:Ep; simpl.
  - apply Hfound; [done|]. by apply bots_with_status_spec, pick_some.
  - apply Hnext; [done|done|]. by apply pick_none.
Qed.

Lemma GetBotAddress_spec a s :
  untouched (committed s) (GetBotAddress a s) ∨ chosen a (committed s) (GetBotAddress a s).
Proof.
  unfold GetBotAddress, NewSession, wrapS, external, mbind, M_bind.
  destruct (fault (ticks s)) as [e|]; simpl; [by left|].
  set (s1 := set_working _ _).
  assert (∀ m : M state Z,
    untouched (committed s) (m s1) ∨ chosen a (committed s) (m s1) →
    untouched (committed s) (deferS Abort m s1) ∨ chosen a (committed s) (deferS Abort m s1))
    as Hdefer by (intros m; unfold deferS; by destruct (m s1)).
  apply Hdefer. clear Hdefer.
  apply orElse_lookup with (db := committed s); [done|done| | |].
  { intros s' bot Hs Hl. right. left. eauto. }
  { by left. }
  intros s2 Hc2 Hw2 Hnil. apply orElse_lookup with (db := committed s); [done|done| | |].
  { intros s' bot Hs Hl. right. right. eauto 10. }
  { by left. }
  intros s3 Hc3 Hw3 Hnil'. destruct (fetchBots_spec a s3 _ Hw3) as [Hu|Hf].
  - left. by rewrite <- Hc3 at 1.
  - right. right. split; [done|]. right. done.
Qed.
End Resolver.

Lemma SetBots_runs {X} (a : Z) (bots : list Z) (s : Txn bots_table X) w :
  working s = Some w → NoDup bots →
  ∃ s', storage_SetBots (λ _, None) a bots s = (s', Ok tt) ∧ ∃ w', working s' = Some w'.
Proof.
  intros Hw Hnd. unfold storage_SetBots, deleteBotsByTTMAccount, Exec, external, mbind, M_bind.
  simpl. rewrite Hw. simpl. eapply insertBots_runs; [done|done|done|].
  intros b _. apply map_lookup_filter_None. right. simpl. naive_solver.
Qed.

(** ** Properties *)
Section Properties.
Context {X : Type} `{TtmAccounts X}.
Variable pick : list Z → option Z.
Hypothesis pick_some : ∀ l b, pick l = Some b → b ∈ l.
Hypothesis pick_none : ∀ l, pick l = None → l = [].

(** The bot [GetBotAddress] answers is never one known to be unreachable: it is
    marked reachable, or, when the account has no reachable bot, of unknown
    status; the bots of the other accounts are left alone, and the account's own
    change only when it had neither kind, to the bots the chain lists. *)
Lemma GetBotAddress_choice fault a (s s' : Txn bots_table X) bot :
  (∀ n e, fault n = Some e → errors_is e "resolver.ErrNotFound" = false) →
  GetBotAddress fault pick a s = (s', Ok bot) →
  (committed s' !! (a, bot) = Some BotStatusReachable ∨
   committed s' !! (a, bot) = Some BotStatusUnknown ∧
   ∀ b, committed s !! (a, b) ≠ Some BotStatusReachable) ∧
  (∀ a' b, a ≠ a' → committed s' !! (a', b) = committed s !! (a', b)) ∧
  (committed s' = committed s ∨
   ∀ b, committed s !! (a, b) ≠ Some BotStatusReachable ∧
        committed s !! (a, b) ≠ Some BotStatusUnknown ∧
        (committed s' !! (a, b) = None ∨ committed s' !! (a, b) = Some BotStatusUnknown)).
Proof.
  intros Hdrv E. pose proof (GetBotAddress_spec fault pick pick_some pick_none Hdrv a s) as Hs.
  rewrite E in Hs. assert (∀ st, bots_with_status (committed s) a st = [] →
    ∀ b, committed s !! (a, b) ≠ Some st) as Hnone.
  { intros st Hnil b Hl. apply bots_with_status_spec in Hl. rewrite Hnil in Hl.
    by apply not_elem_of_nil in Hl. }
  destruct Hs as [[_ ?]|[(b & Hc & Hb & Hl)|[Hr [(b & Hc & Hb & Hl)|[Hu (bots & Hc & Hb)]]]]];
    simpl in *; try done; simplify_eq;
    [rewrite Hc; naive_solver|rewrite Hc; naive_solver|].
  destruct bots as [|b bots]; simplify_eq. rewrite Hc. split_and!.
  - right. split; [|by apply Hnone]. rewrite with_bots_lookup, decide_True; [done|left].
  - intros a' b' Hne. by apply with_bots_other.
  - right. intros b'. split; [by apply Hnone|]. split; [by apply Hnone|].
    rewrite with_bots_lookup. case_decide; auto.
Qed.

(** With a working database, [GetBotAddress] finds a bot whenever there is one to
    try: a reachable or unknown one in the table, or else any the chain lists (each
    once); otherwise its error is [ErrNotFound]. *)
Lemma GetBotAddress_finds a bots (s : Txn bots_table X) :
  (api_GetAllMessengerBots a (rest s)).2 = Ok bots → NoDup bots →
  let o := (GetBotAddress (λ _, None) pick a s).2 in
  if decide (bots_with_status (committed s) a BotStatusReachable = [] ∧
             bots_with_status (committed s) a BotStatusUnknown = [] ∧ bots = [])
  then ∃ e, o = Err e ∧ errors_is e "resolver.ErrNotFound" = true
  else is_ok o = true.
Proof.
  intros Hapi Hnd. cbv zeta. 
  unfold GetBotAddress, NewSession, external, orElse, attempt, storage_GetFirstBotWithStatus,
    Query, Exec, external, deferS, wrapS, mbind, M_bind. simpl.
  destruct (pick (bots_with_status (committed s) a BotStatusReachable)) as [b|] eqn:E1; simpl.
  { rewrite decide_False; [done|]. intros (E & _). apply pick_some in E1. rewrite E in E1.
    by apply not_elem_of_nil in E1. }
  destruct (pick (bots_with_status (committed s) a BotStatusUnknown)) as [b|] eqn:E2; simpl.
  { rewrite decide_False; [done|]. intros (_ & E & _). apply pick_some in E2. rewrite E in E2.
    by apply not_elem_of_nil in E2. }
  apply pick_none in E1, E2.
  unfold fetchBots, onRest, mbind, M_bind. simpl.
  destruct (api_GetAllMessengerBots a (rest s)) as [x o]. simpl in Hapi. subst o.
  unfold wrapS. simpl.
  match goal with |- context [storage_SetBots _ _ _ ?s1] =>
    destruct (SetBots_runs a bots s1 (committed s) eq_refl Hnd) as (s2 & E & w & Ew);
    rewrite E end.
  simpl. unfold Commit, external, wrapS. rewrite Ew. simpl. destruct bots as [|b bots]; simpl.
  - rewrite decide_True by done. eexists. split; [done|]. done.
  - rewrite decide_False; [done|]. by intros (_ & _ & ?).
Qed.

(** [SetBotStatus] succeeds only if exactly one row of the table has the bot,
    whose status it changes; a bot listed under two accounts can never be marked,
    and a failure leaves the table as it was. *)
Lemma SetBotStatus_one_row fault b st (s s' : Txn bots_table X) o :
  SetBotStatus fault b st s = (s', o) →
  (o = Ok tt → size (rows_of_bot (committed s) b) = 1%nat ∧
     ∀ a b', committed s' !! (a, b') =
       if decide (b' = b) then (λ _, st) <$> committed s !! (a, b') else committed s !! (a, b')) ∧
  (o ≠ Ok tt → committed s' = committed s) ∧
  ((∀ n, fault n = None) → size (rows_of_bot (committed s) b) = 1%nat → o = Ok tt) ∧
  (∀ a1 a2 st1 st2, a1 ≠ a2 → committed s !! (a1, b) = Some st1 →
     committed s !! (a2, b) = Some st2 → o ≠ Ok tt).
Proof.
  unfold SetBotStatus, NewSession, storage_SetBotStatus, Commit, Exec, external, deferS, wrapS,
    mbind, M_bind. intros E.
  assert (∀ a1 a2 st1 st2, a1 ≠ a2 → committed s !! (a1, b) = Some st1 →
     committed s !! (a2, b) = Some st2 → size (rows_of_bot (committed s) b) ≠ 1%nat) as Htwo.
  { intros. by eapply rows_of_bot_two. }
  destruct (fault (ticks s)) as [e|] eqn:F1; simpl in E.
  { injection E as <- <-. split_and!; [done|done| |done]. intros Hn. by rewrite Hn in F1. }
  destruct (fault (S (ticks s))) as [e|] eqn:F2; simpl in E.
  { injection E as <- <-. split_and!; [done|done| |done]. intros Hn. by rewrite Hn in F2. }
  destruct (Nat.eqb_spec (size (rows_of_bot (committed s) b)) 1) as [H1|H1]; simpl in E.
  2:{ injection E as <- <-. by split_and!. }
  destruct (fault (S (S (ticks s)))) as [e|] eqn:F3; simpl in E; injection E as <- <-.
  { split_and!; [done|done| |done]. intros Hn. by rewrite Hn in F3. }
  split_and!; [|done|done|].
  - intros _. split; [done|]. intros a b'. apply set_status_lookup.
  - intros a1 a2 st1 st2 Hne L1 L2. by destruct (Htwo a1 a2 st1 st2 Hne L1 L2).
Qed.
End Properties.

(** ** Witnesses *)
Module Toy.
(** The chain lists two bots of every account. *)
#[global] Instance accounts : TtmAccounts unit := {
  api_GetAllMessengerBots _ := λ x, (x, Ok [31; 32]);
  api_IsBotAllowed _ _ := λ x, (x, Ok true);
  api_IsServiceSupported _ _ := λ x, (x, Ok true)
}.

Definition start (db : bots_table) : Txn bots_table unit := mkTxn db None 0 tt.
Definition table : bots_table :=
  {[ (7, 70) := BotStatusUnreachable; (7, 71) := BotStatusUnknown; (9, 31) := BotStatusReachable ]}.
Definition calm (n : nat) : option error := None.

Lemma head_some (l : list Z) b : head l = Some b → b ∈ l.
Proof. destruct l; [done|]. intros [= <-]. left. Qed.

Lemma head_none (l : list Z) : head l = None → l = [].
Proof. by destruct l. Qed.
End Toy.

Lemma GetBotAddress_choice_witness :
  ∃ s', GetBotAddress Toy.calm head 7 (Toy.start Toy.table) = (s', Ok 71) ∧
    committed s' !! (7, 71) = Some BotStatusUnknown.
Proof.
  destruct (GetBotAddress Toy.calm head 7 (Toy.start Toy.table)) as [s' o] eqn:E.
  assert (o = Ok 71) as -> by (revert E; vm_compute; congruence).
  destruct (GetBotAddress_choice head Toy.head_some Toy.head_none Toy.calm 7 _ s' 71
    ltac:(done) E) as [[Hr|[Hu _]] _]; exists s'; (split; [exact eq_refl|]); [|exact Hu].
  revert E Hr. vm_compute (GetBotAddress _ _ _ _). intros [= <-]. vm_compute. congruence.
Defined.

