(* ===== verification/Encoding.v ===== *)
(** * Message encoding (internal/messaging/encoding, internal/messaging/encryption)

    Module [Slices] is the Go slice arithmetic the decoder relies on, Module
    [Chunks] the splitting of the encoded bytes, Module [Encryption] the session
    keys; the rest is [EncodeMessage], [DecodeAndVerifyMessage] and the store of
    public keys behind them.  Cryptography, compression, JSON
    and protobuf are third-party or standard packages: they are the operations
    of the class [Codec], and what the program relies on is [CodecLaws]. *)
From S2P Require Import Prelude Cache Conversion Message Txn.

#[local] Open Scope Z_scope.

(** ** Slices and big-endian integers *)
Module Slices.
(** A byte slice: its backing array from the first element to the capacity, of
    which the first [len] bytes are visible. *)
Record slice := { backing : bytes; len : nat }.

Definition contents (s : slice) : bytes := take (len s) (backing s).
Definition of_bytes (spare b : bytes) : slice := {| backing := b ++ spare; len := length b |}.

Definition out_of_range : string := "slice bounds out of range".

(** [s[a:b]]: bounded by the capacity, not by the length. *)
Definition reslice (a b : Z) (s : slice) : outcome slice :=
  if (0 <=? a) && (a <=? b) && (b <=? Z.of_nat (length (backing s)))
  then Ok {| backing := drop (Z.to_nat a) (backing s); len := Z.to_nat (b - a) |}
  else Panic out_of_range.

(** [s[a:]] *)
Definition slice_from (a : Z) (s : slice) : outcome slice :=
  if (0 <=? a) && (a <=? Z.of_nat (len s))
  then Ok {| backing := drop (Z.to_nat a) (backing s); len := len s - Z.to_nat a |}
  else Panic out_of_range.

Definition BigEndian_Uint16 (s : slice) : outcome Z :=
  match contents s with
  | b0 :: b1 :: _ => Ok (b0 * 256 + b1)
  | _ => Panic "index out of range"
  end.

Definition BigEndian_Uint32 (s : slice) : outcome Z :=
  match contents s with
  | b0 :: b1 :: b2 :: b3 :: _ => Ok (((b0 * 256 + b1) * 256 + b2) * 256 + b3)
  | _ => Panic "index out of range"
  end.

Definition PutUint16 (v : Z) : bytes := [Z.shiftr v 8 mod 256; v mod 256].
Definition PutUint32 (v : Z) : bytes :=
  [Z.shiftr v 24 mod 256; Z.shiftr v 16 mod 256; Z.shiftr v 8 mod 256; v mod 256].

Lemma contents_of_bytes spare b : contents (of_bytes spare b) = b.
Proof. unfold contents, of_bytes. simpl. by rewrite take_app_length. Qed.

Lemma PutUint16_value v : 0 ≤ v < 2 ^ 16 → (Z.shiftr v 8 mod 256) * 256 + v mod 256 = v.
Proof.
  intros Hv. rewrite Z.shiftr_div_pow2 by lia. change (2 ^ 8) with 256.
  rewrite (Z.mod_small (v / 256)).
  - pose proof (Z.div_mod v 256). lia.
  - split; [apply Z.div_pos; lia|]. apply Z.div_lt_upper_bound; lia.
Qed.

(** The slices of a concatenation whose first part has length [n]. *)
Lemma reslice_app spare p q r :
  reslice (Z.of_nat (length p)) (Z.of_nat (length p + length q)) (of_bytes spare (p ++ q ++ r)) =
  Ok {| backing := q ++ r ++ spare; len := length q |}.
Proof.
  unfold reslice, of_bytes. simpl. rewrite !length_app. zcase; try lia. simpl.
  do 2 f_equal; [|lia]. rewrite Nat2Z.id, <- !(assoc_L (++)). by rewrite drop_app_length.
Qed.

Lemma slice_from_app spare p q :
  slice_from (Z.of_nat (length p)) (of_bytes spare (p ++ q)) = Ok (of_bytes spare q).
Proof.
  unfold slice_from, of_bytes. simpl. rewrite !length_app. zcase; try lia. simpl.
  f_equal. rewrite Nat2Z.id, <- (assoc_L (++)), drop_app_length. f_equal. lia.
Qed.

Lemma contents_app q r n : n = length q → contents {| backing := q ++ r; len := n |} = q.
Proof. intros ->. unfold contents. simpl. by rewrite take_app_length. Qed.
End Slices.

(** ** Chunks *)
Module Chunks.
(** The body of the loop, [n] chunks left, [start] the next byte. *)
Fixpoint chunk_loop (maxChunkSize : Z) (data : bytes) (n : nat) (start : Z) : list bytes :=
  match n with
  | O => []
  | S n =>
      let last := Z.min (start + maxChunkSize) (Z.of_nat (length data)) in
      take (Z.to_nat (last - start)) (drop (Z.to_nat start) data)
        :: chunk_loop maxChunkSize data n last
  end.

Definition chunk (maxChunkSize : Z) (data : bytes) : outcome (list bytes) :=
  if maxChunkSize =? 0 then Panic "integer divide by zero"
  else
    let numChunks := (Z.of_nat (length data) + maxChunkSize - 1) ÷ maxChunkSize in
    if numChunks <? 0 then Panic "makeslice: len out of range"
    else Ok (chunk_loop maxChunkSize data (Z.to_nat numChunks) 0).

Lemma chunk_loop_spec max data n start :
  0 < max → 0 ≤ start →
  (Z.of_nat n - 1) * max < Z.of_nat (length data) - start ≤ Z.of_nat n * max →
  concat (chunk_loop max data n start) = drop (Z.to_nat start) data ∧
  Forall (λ c, 0 < Z.of_nat (length c) ≤ max) (chunk_loop max data n start).
Proof.
  revert start. induction n as [|n IH]; intros start Hmax Hs Hn; simpl.
  - split; [|constructor]. symmetry. apply drop_ge. lia.
  - set (last := Z.min (start + max) (Z.of_nat (length data))).
    assert (start < Z.of_nat (length data)) as Hlt by nia.
    destruct (decide (n = 0%nat)) as [->|Hn0].
    + assert (last = Z.of_nat (length data)) as -> by nia. simpl. rewrite app_nil_r.
      rewrite take_ge by (rewrite length_drop; lia). split; [done|].
      constructor; [|constructor]. rewrite length_drop. nia.
    + assert (last = start + max) as -> by nia.
      destruct (IH (start + max)) as [-> Hall]; [done|lia|nia|]. split.
      * rewrite <- (take_drop (Z.to_nat (start + max - start)) (drop (Z.to_nat start) data)) at 2.
        f_equal. rewrite drop_drop. f_equal. lia.
      * constructor; [|done]. rewrite length_take, length_drop. nia.
Qed.

Lemma chunk_spec max data :
  0 < max →
  ∃ cs, chunk max data = Ok cs ∧ concat cs = data ∧
    Forall (λ c, 0 < Z.of_nat (length c) ≤ max) cs ∧
    Z.of_nat (length cs) = (Z.of_nat (length data) + max - 1) / max.
Proof.
  intros Hmax. unfold chunk. destruct (Z.eqb_spec max 0) as [E0|E0]; [lia|].
  rewrite Z.quot_div_nonneg by lia.
  set (n := (Z.of_nat (length data) + max - 1) / max).
  pose proof (Z.div_mod (Z.of_nat (length data) + max - 1) max) as Hd.
  pose proof (Z.mod_pos_bound (Z.of_nat (length data) + max - 1) max Hmax) as Hm.
  assert (0 ≤ n) as Hn by (apply Z.div_pos; lia). fold n in Hd.
  destruct (Z.ltb_spec n 0); [lia|]. eexists. split; [done|].
  destruct (chunk_loop_spec max data (Z.to_nat n) 0) as [E Hall]; [done|lia|nia|].
  split; [by rewrite E|]. split; [done|].
  assert (∀ k s, length (chunk_loop max data k s) = k) as Hl
    by (clear; induction k; intros; simpl; auto).
  rewrite Hl. lia.
Qed.
End Chunks.

(** ** Session keys (encryption/aes_gcm.go) *)
Module Encryption.
Class AEAD := {
  Seal : bytes → bytes → bytes → bytes;          (* key, nonce, plaintext *)
  Open : bytes → bytes → bytes → outcome bytes;  (* key, nonce, ciphertext *)
  aead_open_seal k n d : Open k n (Seal k n d) = Ok d
}.

Definition NonceSize : nat := 12.

Inductive Key :=
  | Aead (sessionKey : bytes)
  | NopKey (SessionKey : bytes).

#[global] Instance Key_eq_dec : EqDecision Key.
Proof. solve_decision. Defined.

(** [aes.NewCipher] accepts keys of 16, 24 and 32 bytes; [cipher.NewGCM] never
    refuses an AES block. *)
Definition aeadFromSessionKey (sessionKey : bytes) : outcome Key :=
  if bool_decide (length sessionKey ∈ [16; 24; 32]%nat)
  then Ok (Aead sessionKey)
  else Err (Wrapf "failed to create AES cipher: %w" (Sentinel "aes.KeySizeError")).

Definition KeyFromBytes (sessionKey : bytes) : outcome Key := aeadFromSessionKey sessionKey.

(** [random] is what [rand.Read] fills its buffer with, or its error. *)
Definition NewKey (random : outcome bytes) : outcome Key :=
  sessionKey ← wrapO "failed to generate random session key: %w" random;
  wrapO "failed to create AEAD from session key: %w" (aeadFromSessionKey sessionKey).

Section Ops.
Context `{AEAD}.

Definition Encrypt (nonce : outcome bytes) (k : Key) (data : bytes) : outcome bytes :=
  match k with
  | Aead sessionKey => n ← nonce; Ok (n ++ Seal sessionKey n data)
  | NopKey _ => Ok data
  end.

Definition Decrypt (k : Key) (encryptedData : bytes) : outcome bytes :=
  match k with
  | Aead sessionKey =>
      if Nat.ltb (length encryptedData) NonceSize
      then Err (Errorf "encryptedData is too short: %d < %d")
      else Open sessionKey (take NonceSize encryptedData) (drop NonceSize encryptedData)
  | NopKey _ => Ok encryptedData
  end.

Definition Bytes (k : Key) : bytes :=
  match k with Aead sessionKey => sessionKey | NopKey sessionKey => sessionKey end.

(** [rand.Read] fills the whole nonce buffer. *)
Definition full_nonce (nonce : outcome bytes) : Prop :=
  ∀ n, nonce = Ok n → length n = NonceSize.

Lemma Decrypt_Encrypt nonce k data c :
  full_nonce nonce → Encrypt nonce k data = Ok c → Decrypt k c = Ok data.
Proof.
  intros Hn. destruct k as [sk|sk]; simpl; [|congruence].
  destruct nonce as [n| |] eqn:En; simpl; intros; simplify_eq.
  specialize (Hn n eq_refl). rewrite length_app, Hn.
  replace (Nat.ltb _ NonceSize) with false by (symmetry; apply Nat.ltb_ge; lia).
  rewrite <- Hn, take_app_length, drop_app_length. apply aead_open_seal.
Qed.
End Ops.
End Encryption.

(** ** The third-party codecs *)
Import Slices Chunks Encryption.

Record publicMetadata := {
  RequestID : string;
  EncryptedSharedKey : bytes;
  ExpiresAt : Z;
  SenderTTMAccount : string
}.

Record privateMetadata := { pm_Type : string; pm_Timestamps : Timestamps }.

Definition messageVersion : Z := 1.
Definition defaultExpirationTime : Z := 5 * Minute.
Definition messageVersionSize : Z := 4.
Definition publicMetadataLenSize : Z := 2.
Definition privateMetadataLenSize : Z := 2.

Class Codec (PubKey PrivKey Content : Type) := {
  pub : PrivKey → PubKey;
  Keccak256 : bytes → bytes;
  Sign : bytes → PrivKey → outcome bytes;
  SigToPub : bytes → bytes → outcome PubKey;
  PubkeyToAddress : PubKey → Z;
  ecies_Encrypt : bytes → PubKey → bytes → outcome bytes;   (* randomness first *)
  ecies_Decrypt : PrivKey → bytes → outcome bytes;
  CompressPubkey : PubKey → bytes;
  DecompressPubkey : bytes → outcome PubKey;
  zstd_EncodeAll : bytes → bytes;
  zstd_DecodeAll : bytes → outcome slice;
  public_Marshal : publicMetadata → outcome bytes;
  public_Unmarshal : bytes → outcome publicMetadata;
  private_Marshal : privateMetadata → outcome bytes;
  private_Unmarshal : bytes → outcome privateMetadata;
  proto_Marshal : Content → outcome bytes;
  UnmarshalContent : bytes → string → outcome Content;
  content_type : Content → string;
  ValidUTF8 : string → bool;
  Hex : Z → string;
  HexToAddress : string → Z
}.

(** What the packages document of these operations. *)
Class CodecLaws `(Codec PubKey PrivKey Content) : Prop := {
  law_sign h sk sig : Sign h sk = Ok sig → SigToPub h sig = Ok (pub sk);
  law_ecies r sk m c : ecies_Encrypt r (pub sk) m = Ok c → ecies_Decrypt sk c = Ok m;
  law_ecies_nonempty r pk m c : ecies_Encrypt r pk m = Ok c → c ≠ [];
  law_pubkey pk : DecompressPubkey (CompressPubkey pk) = Ok pk;
  law_zstd d : ∃ spare, zstd_DecodeAll (zstd_EncodeAll d) = Ok (of_bytes spare d);
  law_public m b : ValidUTF8 (RequestID m) = true → ValidUTF8 (SenderTTMAccount m) = true →
    public_Marshal m = Ok b → public_Unmarshal b = Ok m;
  law_private m b : ValidUTF8 (pm_Type m) = true →
    map_Forall (λ k _, ValidUTF8 k = true) (default ∅ (pm_Timestamps m)) →
    private_Marshal m = Ok b → private_Unmarshal b = Ok m;
  law_proto c b : proto_Marshal c = Ok b → UnmarshalContent b (content_type c) = Ok c;
  law_hex a : in_uint 160 a → HexToAddress (Hex a) = a;
  law_hex_utf8 a : ValidUTF8 (Hex a) = true
}.

(** ** Encoding and decoding *)
Section Codecs.
Context `{Codec PubKey PrivKey Content} `{AEAD}.
Context {C : Type} `{!LruCache Z (option PubKey) C}.
Variable fault : nat → option error.
Variable maxChunkSize : Z.
Variable botKey : PrivKey.

(** The bot's storage of compressed public keys, with the cache as the rest. *)
Abbreviation state := (Txn (gmap Z bytes) C).

(** storage/sqlite/pub_keys.go *)
Definition storage_GetBotPubKey (address : Z) : M state (option PubKey) :=
  wrapS "failed to execute get public key statement: %w"
    (Query fault (λ db, Ok (db !! address))) ≫= λ row,
  match row with
  | None => retS None
  | Some b =>
      pubKey ← liftO (wrapO "failed to decompress public key bytes: %w" (DecompressPubkey b));
      retS (Some pubKey)
  end.

(** The upsert affects exactly one row. *)
Definition storage_SetBotPubKey (address : Z) (pubKey : PubKey) : M state unit :=
  wrapS "failed to execute set public key statement: %w"
    (Exec fault (λ db, (<[address := CompressPubkey pubKey]> db, Ok tt))).

Definition cache_Get (a : Z) : M state (option (option PubKey)) := λ s,
  let '(c, o) := lru_get a (rest s) in
  (mkTxn (committed s) (working s) (ticks s) c, Ok o).

Definition getBotPubKey (botAddress : Z) : M state (option PubKey) :=
  cached ← cache_Get botAddress;
  match cached with
  | Some pubKey => retS pubKey
  | None =>
      withSession fault "failed to create new session: %w" (
        pubKey ← wrapS "failed to get bot public key: %w" (storage_GetBotPubKey botAddress);
        modifyRest (lru_add botAddress pubKey) ;;
        retS pubKey)
  end.

Definition setBotPubKey (botAddress : Z) (botPubKey : PubKey) : M state unit :=
  withSession fault "failed to create new session: %w" (
    wrapS "failed to store bot public key: %w" (storage_SetBotPubKey botAddress botPubKey) ;;
    wrapS "failed to commit session: %w" (Commit fault) ;;
    modifyRest (lru_add botAddress (Some botPubKey))).

(** [now] is a Unix time in nanoseconds. *)
Definition unix (now : Z) : Z := now / Second.

(** [time.Time.Before] on [time.Unix(sec, 0)] and [time.Now()]: Go counts the
    seconds from year 1 in an [int64], and the sum wraps. *)
Definition unixToInternal : Z := 62135596800.
Definition unix_before (sec now : Z) : bool :=
  let s := swrap 64 (sec + unixToInternal) in
  let n := unix now + unixToInternal in
  (s <? n) || ((s =? n) && (0 <? now mod Second)).

(** The layout of an encoded message, before compression and encryption of the
    private part, and as a whole. *)
Definition private_frame (privateMeta content : bytes) : outcome bytes :=
  l ← MustIntToUInt16 (Z.of_nat (length privateMeta));
  Ok (PutUint16 l ++ privateMeta ++ content).

Definition public_frame (publicMeta encryptedData : bytes) : outcome bytes :=
  l ← MustIntToUInt16 (Z.of_nat (length publicMeta));
  Ok (PutUint32 messageVersion ++ PutUint16 l ++ publicMeta ++ encryptedData).

(** The key encrypted for the recipient, when both keys are known. *)
Definition encryptSharedKey (rnd : bytes) (recipient : option PubKey) (sharedKey : option Key)
    : outcome (option bytes) :=
  match recipient, sharedKey with
  | Some pk, Some k =>
      c ← wrapO "failed to encrypt session key: %w" (ecies_Encrypt rnd pk (Bytes k));
      Ok (Some c)
  | _, _ => Ok None
  end.

Definition encodeWith (now : Z) (rnd : bytes) (nonce : outcome bytes) (recipient : option PubKey)
    (msg : Message Content) (sharedKey : option Key) (senderTTMAccount : Z)
    : outcome EncodedSignedMessage :=
  encryptedSharedKey ← encryptSharedKey rnd recipient sharedKey;
  privateMeta ← wrapO "failed to marshal private metadata: %w"
    (private_Marshal {| pm_Type := msg_Type msg; pm_Timestamps := msg_Timestamps msg |});
  expiresAt ← MustInt64ToUInt64 (unix (now + defaultExpirationTime));
  publicMeta ← wrapO "failed to marshal public metadata: %w"
    (public_Marshal {| RequestID := msg_RequestID msg;
                       EncryptedSharedKey := default [] encryptedSharedKey;
                       ExpiresAt := expiresAt; SenderTTMAccount := Hex senderTTMAccount |});
  content ← wrapO "failed to marshal message content: %w" (proto_Marshal (msg_Content msg));
  privateData ← private_frame privateMeta content;
  let compressed := zstd_EncodeAll privateData in
  encryptedData ← match encryptedSharedKey, sharedKey with
                  | Some _, Some k =>
                      wrapO "failed to encrypt data with shared key: %w" (Encrypt nonce k compressed)
                  | _, _ => Ok compressed
                  end;
  encodedData ← public_frame publicMeta encryptedData;
  signature ← wrapO "failed to sign message: %w" (Sign (Keccak256 encodedData) botKey);
  chunked ← chunk maxChunkSize encodedData;
  Ok {| ChunkedEncodedMessage := chunked; Signature := signature |}.

Definition EncodeMessage (now : Z) (rnd : bytes) (nonce : outcome bytes) (msg : Message Content)
    (toBot : Z) (sharedKey : option Key) (senderTTMAccount : Z) : M state EncodedSignedMessage :=
  recipient ← wrapS "failed to get recipient public key: %w" (getBotPubKey toBot);
  liftO (encodeWith now rnd nonce recipient msg sharedKey senderTTMAccount).

(** [encodedData[off : off+l]] and what follows, with [off+l] in [uint16]. *)
Definition metadata_slice (l : Z) (s : slice) : outcome slice :=
  reslice publicMetadataLenSize (uwrap 16 (publicMetadataLenSize + l)) s.
Definition after_metadata (l : Z) (s : slice) : outcome slice :=
  slice_from (uwrap 16 (publicMetadataLenSize + l)) s.
Definition read_len (s : slice) : outcome Z :=
  h ← reslice 0 publicMetadataLenSize s; BigEndian_Uint16 h.

Definition decryptSharedKey (pm : publicMetadata) (data : slice)
    : outcome (option Key * bytes) :=
  if Nat.ltb 0 (length (EncryptedSharedKey pm)) then
    sharedKeyBytes ← wrapO "failed to decrypt shared key: %w"
      (ecies_Decrypt botKey (EncryptedSharedKey pm));
    k ← KeyFromBytes sharedKeyBytes;
    d ← wrapO "failed to decrypt data with shared key: %w" (Decrypt k (contents data));
    Ok (Some k, d)
  else Ok (None, contents data).

Definition decodeAndVerifyMessageV1 (now : Z) (encodedData : slice)
    : outcome (Message Content * option Key * Z) :=
  publicMetadataLen ← read_len encodedData;
  pub_bytes ← metadata_slice publicMetadataLen encodedData;
  pm ← wrapO "failed to unmarshal metadata: %w" (public_Unmarshal (contents pub_bytes));
  expires ← MustUInt64ToInt64 (ExpiresAt pm);
  if unix_before expires now then Err (Errorf "message has expired at %s") else
  compressedData ← after_metadata publicMetadataLen encodedData;
  '(sharedKey, compressed) ← decryptSharedKey pm compressedData;
  privateData ← wrapO "failed to decompress data: %w" (zstd_DecodeAll compressed);
  privateMetadataLen ← read_len privateData;
  priv_bytes ← metadata_slice privateMetadataLen privateData;
  prm ← wrapO "failed to unmarshal private metadata: %w" (private_Unmarshal (contents priv_bytes));
  content_bytes ← after_metadata privateMetadataLen privateData;
  content ← wrapO "failed to unmarshal content: %w"
    (UnmarshalContent (contents content_bytes) (pm_Type prm));
  Ok ({| msg_Type := pm_Type prm; msg_Content := content; msg_RequestID := RequestID pm;
         msg_Timestamps := pm_Timestamps prm |},
      sharedKey, HexToAddress (SenderTTMAccount pm)).

(** [spare] is the capacity [bytes.Join] leaves behind the joined chunks. *)
Definition verifyAndDecode (now : Z) (spare : bytes) (encodedMessage : EncodedSignedMessage)
    (senderBotAddress : Z) : outcome (PubKey * (Message Content * option Key * Z)) :=
  let encodedData := of_bytes spare (concat (ChunkedEncodedMessage encodedMessage)) in
  h ← reslice 0 messageVersionSize encodedData;
  version ← BigEndian_Uint32 h;
  if negb (version =? messageVersion) then Err (Errorf "unsupported message version: %d") else
  senderPubKey ← wrapO "failed to recover public key from signature: %w"
    (SigToPub (Keccak256 (contents encodedData)) (Signature encodedMessage));
  if negb (PubkeyToAddress senderPubKey =? senderBotAddress)
  then Err (Errorf "sender address %s does not match recovered address %s") else
  body ← slice_from messageVersionSize encodedData;
  decoded ← wrapO "failed to decode and verify message: %w" (decodeAndVerifyMessageV1 now body);
  Ok (senderPubKey, decoded).

Definition with_timestamps (msg : Message Content) : Message Content :=
  {| msg_Type := msg_Type msg; msg_Content := msg_Content msg;
     msg_RequestID := msg_RequestID msg;
     msg_Timestamps := Some (default ∅ (msg_Timestamps msg)) |}.

Definition DecodeAndVerifyMessage (now : Z) (spare : bytes)
    (encodedMessage : EncodedSignedMessage) (senderBotAddress : Z)
    : M state (Message Content * option Key * Z) :=
  '(senderPubKey, (msg, encryptionKey, senderTTMAccountAddr)) ←
    liftO (verifyAndDecode now spare encodedMessage senderBotAddress);
  wrapS "failed to store sender public key: %w" (setBotPubKey senderBotAddress senderPubKey) ;;
  retS (with_timestamps msg, encryptionKey, senderTTMAccountAddr).
End Codecs.

(** ** Lemmas *)
Section Laws.
Context `{CodecLaws PubKey PrivKey Content} `{AEAD}.
Context {C : Type} `{!LruCache Z (option PubKey) C}.

(** Metadata the decoder can step over: its length, plus the two bytes of the
    length itself, fits the [uint16] the decoder adds them in. *)
Definition short (b : bytes) : Prop := Z.of_nat (length b) ≤ 65533.

Definition frame (meta payload : bytes) : bytes :=
  PutUint16 (Z.of_nat (length meta)) ++ meta ++ payload.

#[local] Arguments PutUint32 : simpl never.
#[local] Arguments PutUint16 : simpl never.
#[local] Arguments frame : simpl never.

Lemma private_frame_ok b payload : short b → private_frame b payload = Ok (frame b payload).
Proof.
  intros Hb. unfold private_frame, short in *.
  rewrite MustIntToUInt16_ok; [done|]. change (2 ^ 16) with 65536. lia.
Qed.

Lemma public_frame_ok b payload :
  short b → public_frame b payload = Ok (PutUint32 messageVersion ++ frame b payload).
Proof.
  intros Hb. unfold public_frame, short in *.
  rewrite MustIntToUInt16_ok; [done|]. change (2 ^ 16) with 65536. lia.
Qed.

Lemma read_len_frame spare b payload :
  Z.of_nat (length b) < 2 ^ 16 →
  read_len (of_bytes spare (frame b payload)) = Ok (Z.of_nat (length b)).
Proof.
  intros Hb. unfold read_len, frame, publicMetadataLenSize in *.
  set (h := PutUint16 _).
  assert (reslice 0 2 (of_bytes spare (h ++ b ++ payload)) =
          Ok {| backing := h ++ (b ++ payload) ++ spare; len := length h |}) as ->
    by exact (reslice_app spare [] h (b ++ payload)).
  cbn [mbind outcome_bind].
  unfold BigEndian_Uint16. rewrite contents_app by done. simpl.
  rewrite PutUint16_value; [done|lia].
Qed.

Lemma short_lt b : short b → Z.of_nat (length b) < 2 ^ 16.
Proof. unfold short. change (2 ^ 16) with 65536. lia. Qed.

Lemma metadata_bound b :
  short b →
  uwrap 16 (publicMetadataLenSize + Z.of_nat (length b)) = Z.of_nat (2 + length b).
Proof.
  intros Hb. unfold short, publicMetadataLenSize in *. rewrite uwrap_small; [lia|].
  unfold in_uint. change (2 ^ 16) with 65536. lia.
Qed.

Lemma metadata_slice_frame spare b payload :
  short b →
  ∃ s, metadata_slice (Z.of_nat (length b)) (of_bytes spare (frame b payload)) = Ok s ∧
       contents s = b.
Proof.
  intros Hb. unfold metadata_slice, frame. rewrite metadata_bound by done.
  set (h := PutUint16 _). eexists. split.
  - exact (reslice_app spare h b payload).
  - by apply contents_app.
Qed.

Lemma after_metadata_frame spare b payload :
  short b →
  after_metadata (Z.of_nat (length b)) (of_bytes spare (frame b payload)) =
  Ok (of_bytes spare payload).
Proof.
  intros Hb. unfold after_metadata, frame. rewrite metadata_bound by done.
  set (h := PutUint16 _).
  pose proof (slice_from_app spare (h ++ b) payload) as E.
  rewrite length_app, <- (assoc_L (++)) in E. exact E.
Qed.

Lemma version_frame spare payload :
  let s := of_bytes spare (PutUint32 messageVersion ++ payload) in
  (∃ h, reslice 0 messageVersionSize s = Ok h ∧ BigEndian_Uint32 h = Ok messageVersion) ∧
  slice_from messageVersionSize s = Ok (of_bytes spare payload).
Proof.
  set (v := PutUint32 messageVersion). split.
  - assert (reslice 0 4 (of_bytes spare (v ++ payload)) =
            Ok {| backing := v ++ payload ++ spare; len := length v |}) as E
      by exact (reslice_app spare [] v payload).
    eexists. split; [exact E|].
    unfold BigEndian_Uint32. by rewrite contents_app.
  - exact (slice_from_app spare v payload).
Qed.

(** The expiry check of a time that fits. *)
Lemma unix_before_false sec now :
  0 ≤ sec < 2 ^ 62 → now ≤ sec * Second → unix_before sec now = false.
Proof.
  intros Hs Hn. unfold unix_before, unix, Second in *.
  rewrite swrap_small; [|lia|].
  2:{ unfold in_sint, unixToInternal. change (2 ^ (64 - 1)) with (2 * 2 ^ 62). lia. }
  pose proof (Z.div_mod now 1000000000). pose proof (Z.mod_pos_bound now 1000000000).
  destruct (Z.ltb_spec (sec + unixToInternal) (now / 1000000000 + unixToInternal)); [lia|].
  destruct (Z.eqb_spec (sec + unixToInternal) (now / 1000000000 + unixToInternal)); [|done].
  simpl. apply Z.ltb_ge. lia.
Qed.

Lemma decodeV1_frame dec now spare pm pub_b payload e key prm priv_b content_b content :
  short pub_b → short priv_b →
  public_Unmarshal pub_b = Ok pm →
  MustUInt64ToInt64 (ExpiresAt pm) = Ok e → unix_before e now = false →
  decryptSharedKey dec pm (of_bytes spare payload) =
    Ok (key, zstd_EncodeAll (frame priv_b content_b)) →
  private_Unmarshal priv_b = Ok prm →
  UnmarshalContent content_b (pm_Type prm) = Ok content →
  decodeAndVerifyMessageV1 dec now (of_bytes spare (frame pub_b payload)) =
  Ok ({| msg_Type := pm_Type prm; msg_Content := content; msg_RequestID := RequestID pm;
         msg_Timestamps := pm_Timestamps prm |}, key, HexToAddress (SenderTTMAccount pm)).
Proof.
  intros Hpub Hpriv Epub Ee Hexp Ekey Epriv Ec. unfold decodeAndVerifyMessageV1.
  rewrite read_len_frame by by apply short_lt. cbn [mbind outcome_bind].
  destruct (metadata_slice_frame spare pub_b payload Hpub) as (s & -> & Es).
  cbn [mbind outcome_bind]. rewrite Es, Epub. cbn [wrapO mbind outcome_bind].
  rewrite Ee. cbn [mbind outcome_bind]. rewrite Hexp.
  rewrite after_metadata_frame by done. cbn [mbind outcome_bind].
  rewrite Ekey. cbn [mbind outcome_bind].
  destruct (law_zstd (frame priv_b content_b)) as [spare' ->]. cbn [wrapO mbind outcome_bind].
  rewrite read_len_frame by by apply short_lt. cbn [mbind outcome_bind].
  destruct (metadata_slice_frame spare' priv_b content_b Hpriv) as (s' & -> & Es').
  cbn [mbind outcome_bind]. rewrite Es', Epriv. cbn [wrapO mbind outcome_bind].
  rewrite after_metadata_frame by done. cbn [mbind outcome_bind].
  by rewrite contents_of_bytes, Ec.
Qed.

(** What the sender has to guarantee of a message and of the key it sends it with. *)
Record encodable (msg : Message Content) (sharedKey : option Key) (sender : Z) : Prop := {
  enc_type : msg_Type msg = content_type (msg_Content msg);
  enc_utf8_type : ValidUTF8 (msg_Type msg) = true;
  enc_utf8_id : ValidUTF8 (msg_RequestID msg) = true;
  enc_utf8_stamps : map_Forall (λ k _, ValidUTF8 k = true) (default ∅ (msg_Timestamps msg));
  enc_short_private b :
    private_Marshal {| pm_Type := msg_Type msg; pm_Timestamps := msg_Timestamps msg |} = Ok b →
    short b;
  enc_short_public p b :
    RequestID p = msg_RequestID msg → SenderTTMAccount p = Hex sender →
    public_Marshal p = Ok b → short b;
  enc_key k : sharedKey = Some k → KeyFromBytes (Bytes k) = Ok k;
  enc_sender : in_uint 160 sender
}.

(** The key that travels with the message: none unless the recipient's is known. *)
Definition travelling (recipient : option PubKey) (sharedKey : option Key) : option Key :=
  match recipient with Some _ => sharedKey | None => None end.

Lemma decryptSharedKey_encrypt dec rnd nonce recipient sharedKey c pm d payload spare :
  full_nonce nonce →
  (∀ pk, recipient = Some pk → pk = pub dec) →
  (∀ k, sharedKey = Some k → KeyFromBytes (Bytes k) = Ok k) →
  encryptSharedKey rnd recipient sharedKey = Ok c →
  EncryptedSharedKey pm = default [] c →
  match c, sharedKey with
  | Some _, Some k => wrapO "failed to encrypt data with shared key: %w" (Encrypt nonce k d)
  | _, _ => Ok d
  end = Ok payload →
  decryptSharedKey dec pm (of_bytes spare payload) = Ok (travelling recipient sharedKey, d).
Proof.
  intros Hn Hrec Hkey. unfold encryptSharedKey, decryptSharedKey, travelling.
  destruct recipient as [pk|], sharedKey as [k|]; intros Ec Epm Ep; inv_ok;
    rewrite ?Epm in *; simpl in *;
    try (by rewrite contents_of_bytes).
  rewrite (Hrec pk eq_refl) in *.
  match goal with E : ecies_Encrypt _ _ _ = Ok ?c' |- _ =>
    pose proof (law_ecies_nonempty _ _ _ _ E); apply law_ecies in E; rename E into Edec;
    destruct c' end; [done|].
  simpl. rewrite Edec. simpl. rewrite (Hkey k eq_refl). simpl. rewrite contents_of_bytes.
  by rewrite (Decrypt_Encrypt nonce k d payload).
Qed.

(** The instants at which a message encoded at [now] is still accepted. *)
Definition in_time (now now' : Z) : Prop :=
  0 ≤ now ∧ unix (now + defaultExpirationTime) < 2 ^ 62 ∧
  now' ≤ unix (now + defaultExpirationTime) * Second.

Lemma verifyAndDecode_encodeWith max bot dec now now' rnd nonce recipient msg sharedKey
    sender enc spare :
  0 < max → encodable msg sharedKey sender → full_nonce nonce → in_time now now' →
  (∀ pk, recipient = Some pk → pk = pub dec) →
  encodeWith max bot now rnd nonce recipient msg sharedKey sender = Ok enc →
  verifyAndDecode dec now' spare enc (PubkeyToAddress (pub bot)) =
  Ok (pub bot, (msg, travelling recipient sharedKey, sender)).
Proof.
  intros Hmax He Hn (Hnow & Hfit & Hexp) Hrec. unfold encodeWith. intros Henc. inv_ok.
  set (sec := unix (now + defaultExpirationTime)) in *.
  assert (0 ≤ sec) as Hsec by (apply Z.div_pos; unfold defaultExpirationTime, Minute, Second; lia).
  match goal with E : MustInt64ToUInt64 _ = Ok _ |- _ =>
    rewrite MustInt64ToUInt64_ok in E by lia end.
  inv_ok.
  match goal with E : private_Marshal _ = Ok ?b |- _ =>
    pose proof (enc_short_private _ _ _ He b E) as Hpriv; apply law_private in E as Epriv;
    [rewrite private_frame_ok in * by done | apply He | apply He] end.
  match goal with E : public_Marshal ?p = Ok ?b |- _ =>
    pose proof (enc_short_public _ _ _ He p b eq_refl eq_refl E) as Hpub;
    apply law_public in E as Epub; [rewrite public_frame_ok in * by done | apply He | apply law_hex_utf8]
  end.
  inv_ok. unfold verifyAndDecode. cbn [ChunkedEncodedMessage Signature].
  match goal with E : chunk max ?d = Ok ?cs |- _ =>
    destruct (chunk_spec max d Hmax) as (cs' & Ecs & Ejoin & _); rewrite Ecs in E; inv_ok; rewrite Ejoin end.
  match goal with |- context [of_bytes spare (PutUint32 messageVersion ++ ?p)] =>
    destruct (version_frame spare p) as [(h & -> & Eh) Eb]; cbn [mbind outcome_bind] end.
  rewrite Eh, contents_of_bytes. cbn [mbind outcome_bind]. simpl (negb (_ =? messageVersion)).
  match goal with E : Sign _ bot = Ok _ |- _ => rewrite (law_sign _ _ _ E) end.
  cbn [wrapO mbind outcome_bind]. rewrite Z.eqb_refl, Eb. cbn [negb mbind outcome_bind].
  erewrite (decodeV1_frame dec _ _ _ _ _ _ _ _ _ _ _ Hpub Hpriv Epub); [| | | | exact Epriv |]; cycle 1.
  - apply MustUInt64ToInt64_ok. cbn. lia.
  - by apply unix_before_false.
  - eapply decryptSharedKey_encrypt; [done|done|apply He|eassumption|done|eassumption].
  - cbn. rewrite (enc_type _ _ _ He). by apply law_proto.
  - cbn. rewrite law_hex by apply He. by destruct msg.
Qed.

(** *** The store of public keys *)
Section Keys.
Variable fault : nat → option error.

Abbreviation key_state := (Txn (gmap Z bytes) C).

(** The key the database holds for an address. *)
Definition stored (db : gmap Z bytes) (a : Z) : option PubKey :=
  b ← db !! a; match DecompressPubkey b with Ok pk => Some pk | _ => None end.

Definition db_ok (db : gmap Z bytes) : Prop :=
  ∀ a b, db !! a = Some b → ∃ pk, b = CompressPubkey pk ∧ PubkeyToAddress pk = a.

(** Every stored key hashes to its address, and the cache agrees with the store. *)
Definition keys_inv (s : key_state) : Prop :=
  db_ok (committed s) ∧ cache_all (λ a v, v = stored (committed s) a) (rest s).

Lemma stored_insert db a pk : stored (<[a := CompressPubkey pk]> db) a = Some pk.
Proof. unfold stored. rewrite lookup_insert_eq. simpl. by rewrite law_pubkey. Qed.

Lemma stored_insert_ne db a a' pk :
  a ≠ a' → stored (<[a := CompressPubkey pk]> db) a' = stored db a'.
Proof. intros. unfold stored. by rewrite lookup_insert_ne. Qed.

Lemma getBotPubKey_spec a s :
  keys_inv s →
  keys_inv (getBotPubKey fault a s).1 ∧
  committed (getBotPubKey fault a s).1 = committed s ∧
  ∀ pk, (getBotPubKey fault a s).2 = Ok pk → pk = stored (committed s) a.
Proof.
  intros [Hdb Hc]. unfold getBotPubKey, cache_Get. unM.
  destruct (lru_get a (rest s)) as [c o] eqn:Eg.
  pose proof (cache_all_miss _ _ _ _ _ Hc Eg) as Hc'. destruct o as [pk|]; cbn.
  { destruct (cache_all_hit _ _ _ _ _ Hc Eg) as [Hpk _]. repeat split; auto. congruence. }
  unfold withSession, NewSession, external, storage_GetBotPubKey, Query, Exec, external. unM.
  destruct (fault (ticks s)) as [e|]; cbn; [by repeat split|].
  destruct (fault (S (ticks s))) as [e|]; cbn; [by repeat split|].
  assert (stored (committed s) a =
    b ← committed s !! a; match DecompressPubkey b with Ok pk => Some pk | _ => None end)
    as Est by done.
  destruct (committed s !! a) as [b|] eqn:El; cbn in *.
  - destruct (Hdb a b El) as (pk & -> & _). rewrite law_pubkey in *. cbn.
    repeat split; cbn; auto with ttm; try congruence.
  - repeat split; cbn; auto with ttm; try congruence.
Qed.

Lemma setBotPubKey_spec a pk s :
  PubkeyToAddress pk = a → keys_inv s →
  keys_inv (setBotPubKey fault a pk s).1 ∧
  (((setBotPubKey fault a pk s).2 = Ok tt ∧
    committed (setBotPubKey fault a pk s).1 = <[a := CompressPubkey pk]> (committed s)) ∨
   ((∃ e, (setBotPubKey fault a pk s).2 = Err e) ∧
    committed (setBotPubKey fault a pk s).1 = committed s)).
Proof.
  intros Ha [Hdb Hc].
  unfold setBotPubKey, withSession, NewSession, external, storage_SetBotPubKey, Exec, external,
    Commit, external, modifyRest. unM.
  destruct (fault (ticks s)) as [e|]; cbn; [split; [done|right; eauto]|].
  destruct (fault (S (ticks s))) as [e|]; cbn; [split; [done|right; eauto]|].
  destruct (fault (S (S (ticks s)))) as [e|]; cbn; [split; [done|right; eauto]|].
  split; [|left; done]. split; cbn.
  - intros a' b. destruct (decide (a = a')) as [<-|Hne].
    + rewrite lookup_insert_eq. intros [= <-]. eauto.
    + rewrite lookup_insert_ne by done. apply Hdb.
  - intros a' v. destruct (decide (a = a')) as [<-|Hne].
    + rewrite lru_add_hit, stored_insert. congruence.
    + rewrite stored_insert_ne by done. intros Hv.
      destruct (lru_add_other a a' (Some pk) (rest s) Hne) as [E|E]; rewrite E in Hv; [|done].
      by apply Hc.
Qed.

Lemma setBotPubKey_runs a pk s :
  (∀ n, fault n = None) →
  (setBotPubKey fault a pk s).2 = Ok tt ∧
  committed (setBotPubKey fault a pk s).1 = <[a := CompressPubkey pk]> (committed s).
Proof.
  intros Hf.
  unfold setBotPubKey, withSession, NewSession, storage_SetBotPubKey, Exec, Commit, modifyRest.
  unM. unfold external. rewrite !Hf. cbn. by rewrite !Hf.
Qed.

Lemma verifyAndDecode_authentic dec now spare enc sender pk r :
  verifyAndDecode dec now spare enc sender = Ok (pk, r) →
  SigToPub (Keccak256 (concat (ChunkedEncodedMessage enc))) (Signature enc) = Ok pk ∧
  PubkeyToAddress pk = sender.
Proof.
  unfold verifyAndDecode. intros E. inv_ok.
  destruct (negb _); [done|]. inv_ok. destruct (Z.eqb_spec (PubkeyToAddress x1) sender); [|done].
  simpl in *. inv_ok. simplify_eq. split; [|done].
  match goal with E : SigToPub _ _ = _ |- _ => by rewrite contents_of_bytes in E end.
Qed.
End Keys.
End Laws.

(** ** A codec that meets the laws: no cryptography, one integer per document *)
Module Toy.
Fixpoint pos_str (p : positive) : string :=
  match p with
  | xH => "1"
  | xO p => String (Ascii.ascii_of_nat 48) (pos_str p)
  | xI p => String (Ascii.ascii_of_nat 49) (pos_str p)
  end.

Fixpoint str_pos (s : string) : positive :=
  match s with
  | String _ EmptyString => xH
  | String c s => if bool_decide (c = Ascii.ascii_of_nat 48) then xO (str_pos s) else xI (str_pos s)
  | EmptyString => xH
  end.

Lemma str_pos_str p : str_pos (pos_str p) = p.
Proof. induction p as [p IH|p IH|]; [..|done]; destruct p; simpl in *; by rewrite ?IH. Qed.

Definition doc {A} `{Countable A} (a : A) : bytes := [Z.pos (encode a)].
Definition undoc {A} `{Countable A} (b : bytes) : outcome A :=
  match b with
  | [Z.pos p] => match decode p with Some a => Ok a | None => Err (Errorf "bad document") end
  | _ => Err (Errorf "bad document")
  end.

Lemma undoc_doc {A} `{Countable A} (a : A) : undoc (doc a) = Ok a.
Proof. unfold undoc, doc. by rewrite decode_encode. Qed.

Definition ping_type : string := "ttm.services.ping.v1.PingRequest".

#[global] Instance codec : Codec Z Z Z := {
  pub k := k;
  Keccak256 b := b;
  Sign h k := Ok [k];
  SigToPub h sig := match sig with [k] => Ok k | _ => Err (Errorf "invalid signature length") end;
  PubkeyToAddress k := k;
  ecies_Encrypt r k m := Ok (0 :: m);
  ecies_Decrypt k m := Ok (tail m);
  CompressPubkey k := [k];
  DecompressPubkey b := match b with [k] => Ok k | _ => Err (Errorf "invalid public key") end;
  zstd_EncodeAll b := b;
  zstd_DecodeAll b := Ok (of_bytes [] b);
  public_Marshal m := Ok (doc (RequestID m, EncryptedSharedKey m, ExpiresAt m, SenderTTMAccount m));
  public_Unmarshal b :=
    '(i, k, e, a) ← undoc b;
    Ok {| RequestID := i; EncryptedSharedKey := k; ExpiresAt := e; SenderTTMAccount := a |};
  private_Marshal m := Ok (doc (pm_Type m, pm_Timestamps m));
  private_Unmarshal b := '(t, ts) ← undoc b; Ok {| pm_Type := t; pm_Timestamps := ts |};
  proto_Marshal c := Ok [c];
  UnmarshalContent b t :=
    match b with
    | [c] => if bool_decide (t = ping_type) then Ok c else Err (Errorf "unknown message type: %v")
    | _ => Err (Errorf "bad content")
    end;
  content_type c := ping_type;
  ValidUTF8 s := true;
  Hex a := match a with Z.pos p => pos_str p | _ => "" end;
  HexToAddress s := match s with EmptyString => 0 | _ => Z.pos (str_pos s) end
}.

#[global] Instance aead : AEAD := { Seal k n d := d; Open k n d := Ok d; aead_open_seal k n d := eq_refl }.

#[global] Instance laws : CodecLaws codec.
Proof.
  split; simpl; intros; simplify_eq; auto.
  - eexists. done.
  - destruct m. by rewrite undoc_doc.
  - destruct m. by rewrite undoc_doc.
  - unfold in_uint in *. destruct a as [|p|p]; [done| |lia].
    rewrite str_pos_str. by destruct p.
Qed.

Definition cache := list_lru (K := Z) (V := option Z) 99.
Definition start (db : gmap Z bytes) : Txn (gmap Z bytes) (list (Z * option Z)) := mkTxn db None 0 [].
Definition calm (n : nat) : option error := None.
Definition nonce : outcome bytes := Ok (replicate 12 0).
Definition ping : Message Z :=
  {| msg_Type := ping_type; msg_Content := 7; msg_RequestID := "id-1"; msg_Timestamps := None |}.
Definition key : Key := Aead (replicate 32 5).

Lemma ping_encodable : encodable ping (Some key) 11.
Proof.
  split; try done.
  - by intros b [= <-].
  - by intros p b _ _ [= <-].
  - by intros k [= <-].
Qed.
End Toy.

(** ** Properties *)
Section Properties.
Context `{CodecLaws PubKey PrivKey Content} `{AEAD}.
Context {C : Type} `{!LruCache Z (option PubKey) C}.

(** Encoding reads the store of keys. *)
Lemma EncodeMessage_keys fault max (bot : PrivKey) now rnd nonce (msg : Message Content)
    toBot sharedKey sender (s : Txn (gmap Z bytes) C) :
  keys_inv s →
  keys_inv (EncodeMessage fault max bot now rnd nonce msg toBot sharedKey sender s).1 ∧
  committed (EncodeMessage fault max bot now rnd nonce msg toBot sharedKey sender s).1 = committed s.
Proof.
  intros Hinv. unfold EncodeMessage, mbind, M_bind, wrapS.
  destruct (getBotPubKey_spec fault toBot s Hinv) as (Hk & Hc & _).
  by destruct (getBotPubKey fault toBot s) as [s1 [r|e|p]].
Qed.

(** What was encoded for a bot is what it decodes: the key travels when the encoder's
    store knows the recipient. *)
Lemma EncodeMessage_decodes fault max (bot dec : PrivKey) now now' rnd nonce (msg : Message Content)
    toBot sharedKey sender enc spare (st st' : Txn (gmap Z bytes) C) :
  0 < max → encodable msg sharedKey sender → full_nonce nonce → in_time now now' →
  keys_inv st → (∀ pk, PubkeyToAddress pk = toBot → pk = pub dec) →
  EncodeMessage fault max bot now rnd nonce msg toBot sharedKey sender st = (st', Ok enc) →
  verifyAndDecode dec now' spare enc (PubkeyToAddress (pub bot)) =
    Ok (pub bot, (msg, if decide (toBot ∈ dom (committed st)) then sharedKey else None, sender)).
Proof.
  intros Hmax He Hn Ht Hinv Hdec. unfold EncodeMessage. intros E.
  apply bind_Ok_inv in E as (s1 & recipient & E1 & E2). unfold liftO in E2. injection E2 as <- Henc.
  destruct (getBotPubKey_spec fault toBot st Hinv) as (_ & _ & Hrec).
  assert (recipient = stored (committed st) toBot) as ->.
  { apply Hrec. revert E1. unfold wrapS.
    destruct (getBotPubKey _ _ _) as [s [r|e|p]]; simpl; intros; by simplify_eq. }
  destruct Hinv as [Hdb _].
  assert (stored (committed st) toBot =
    if decide (toBot ∈ dom (committed st)) then Some (pub dec) else None) as Est.
  { unfold stored. case_decide as Hin.
    - apply elem_of_dom in Hin as [b El]. rewrite El. simpl.
      destruct (Hdb _ _ El) as (pk & -> & Ha). rewrite law_pubkey. by rewrite (Hdec pk Ha).
    - apply not_elem_of_dom in Hin. by rewrite Hin. }
  rewrite Est in Henc.
  erewrite (verifyAndDecode_encodeWith _ _ dec _ now' _ _ _ _ _ _ _ spare Hmax He Hn Ht _ Henc).
  by case_decide.
  Unshelve. intros pk. by case_decide; intros; simplify_eq.
Qed.

(** What decodes is handed over once the key of its sender is stored. *)
Lemma DecodeAndVerifyMessage_stores fault (dec : PrivKey) now spare enc senderBot pk
    (msg : Message Content) key acct (st : Txn (gmap Z bytes) C) :
  (∀ n, fault n = None) →
  verifyAndDecode dec now spare enc senderBot = Ok (pk, (msg, key, acct)) →
  ∃ st', DecodeAndVerifyMessage fault dec now spare enc senderBot st =
      (st', Ok (with_timestamps msg, key, acct)) ∧
    committed st' = <[senderBot := CompressPubkey pk]> (committed st).
Proof.
  intros Hf E. unfold DecodeAndVerifyMessage, mbind, M_bind, liftO at 1. rewrite E.
  destruct (setBotPubKey_runs fault senderBot pk st Hf) as [Eo Ec].
  unfold wrapS. destruct (setBotPubKey _ _ _ _) as [st' o]. simpl in *. rewrite Eo. simpl.
  by exists st'.
Qed.


(** What goes on the wire: the chunks of an encoded message are non-empty,
    none exceeds the limit and they are as few as the limit allows; joined, they
    start with version 1 and the length of the public metadata, and carry a
    signature of the whole that recovers to the sender's key. *)
Lemma encoded_wire_format fault max (bot : PrivKey) now rnd nonce (msg : Message Content)
    toBot sharedKey sender enc (s s' : Txn (gmap Z bytes) C) :
  0 < max →
  EncodeMessage fault max bot now rnd nonce msg toBot sharedKey sender s = (s', Ok enc) →
  ∃ meta payload,
    let data := PutUint32 messageVersion ++ frame meta payload in
    concat (ChunkedEncodedMessage enc) = data ∧
    in_uint 16 (Z.of_nat (length meta)) ∧
    Forall (λ c, 0 < Z.of_nat (length c) ≤ max) (ChunkedEncodedMessage enc) ∧
    Z.of_nat (length (ChunkedEncodedMessage enc)) = (Z.of_nat (length data) + max - 1) / max ∧
    SigToPub (Keccak256 data) (Signature enc) = Ok (pub bot).
Proof.
  intros Hmax. unfold EncodeMessage. intros E. apply bind_Ok_inv in E as (s1 & r & _ & E).
  unfold liftO in E. injection E as _ E. unfold encodeWith, public_frame in E. inv_ok.
  match goal with E : MustIntToUInt16 (Z.of_nat (length ?m)) = Ok ?l |- _ =>
    destruct (MustIntToUInt16_inv _ _ E) as [-> Hl]; exists m end.
  match goal with E : chunk max ?d = Ok ?cs |- _ =>
    destruct (chunk_spec max d Hmax) as (cs' & Ecs & Ejoin & Hsize & Hlen);
    rewrite Ecs in E; inv_ok end.
  eexists. cbn. split; [exact Ejoin|]. split; [exact Hl|]. split; [exact Hsize|]. split; [exact Hlen|].
  by eapply law_sign.
Qed.

(** C14: a decoded message is authentic: it carries version 1 and a signature of
    its bytes by the key whose address the sender claims, and that key is the one
    stored.  A message that is refused, or that makes the decoder panic, leaves
    the stored keys as they were. *)
Theorem decode_authentic fault (dec : PrivKey) now spare enc sender
    (s s' : Txn (gmap Z bytes) C) o :
  keys_inv s →
  DecodeAndVerifyMessage fault dec now spare enc sender s = (s', o) →
  match o with
  | Ok _ =>
      ∃ pk, SigToPub (Keccak256 (concat (ChunkedEncodedMessage enc))) (Signature enc) = Ok pk ∧
            PubkeyToAddress pk = sender ∧
            committed s' = <[sender := CompressPubkey pk]> (committed s)
  | _ => committed s' = committed s
  end.
Proof.
  intros Hinv. unfold DecodeAndVerifyMessage, mbind, M_bind, liftO at 1.
  destruct (verifyAndDecode dec now spare enc sender) as [[pk [[msg key] acct]]|e|p] eqn:E;
    intros; simplify_eq; try done.
  destruct (verifyAndDecode_authentic _ _ _ _ _ _ _ E) as [Hs Ha].
  destruct (setBotPubKey_spec fault sender pk s Ha Hinv) as [_ Hset].
  unfold wrapS in *. destruct (setBotPubKey fault sender pk s) as [s1 o1]. simpl in Hset.
  destruct Hset as [[-> Hc]|[[e ->] Hc]]; simpl in *; simplify_eq; [|done].
  unfold retS in *. simplify_eq. eauto.
Qed.

(** C18: under any failures of the database, encoding and decoding keep the store
    of public keys sound: every stored key hashes to the address it is stored
    for, and every cached key (or cached absence of one) is what the database
    holds, so encryption never uses a stale key. *)
Theorem key_store_invariant fault max (bot dec : PrivKey) now rnd nonce (msg : Message Content)
    toBot sharedKey account spare enc sender (s : Txn (gmap Z bytes) C) :
  keys_inv s →
  keys_inv (EncodeMessage fault max bot now rnd nonce msg toBot sharedKey account s).1 ∧
  keys_inv (DecodeAndVerifyMessage fault dec now spare enc sender s).1.
Proof.
  intros Hinv. split.
  - by apply EncodeMessage_keys.
  - unfold DecodeAndVerifyMessage, mbind, M_bind, liftO at 1.
    destruct (verifyAndDecode dec now spare enc sender) as [[pk [[m k] a]]|e|p] eqn:E; try done.
    destruct (verifyAndDecode_authentic _ _ _ _ _ _ _ E) as [_ Ha].
    destruct (setBotPubKey_spec fault sender pk s Ha Hinv) as [Hk _].
    unfold wrapS. by destruct (setBotPubKey fault sender pk s) as [s1 [r|e|p]].
Qed.

(** The two ends disagree on the longest metadata: 65534 and 65535 bytes are
    accepted by the encoder, whose length field they fit, but the decoder adds
    two to the length in 16 bits, and its slice expression panics. *)
Lemma metadata_length_overflow (dec : PrivKey) now spare meta payload :
  65534 ≤ Z.of_nat (length meta) ≤ 65535 →
  public_frame meta payload =
    Ok (PutUint32 messageVersion ++ frame meta payload) ∧
  decodeAndVerifyMessageV1 dec now
    (of_bytes spare (frame meta payload)) =
  (Panic out_of_range : outcome (Message Content * option Key * Z)).
Proof.
  intros Hl.
  assert (Z.of_nat (length meta) < 2 ^ 16) by (change (2 ^ 16) with 65536; lia).
  split; [unfold public_frame; by rewrite MustIntToUInt16_ok by lia|].
  unfold decodeAndVerifyMessageV1. rewrite read_len_frame by done.
  cbn [mbind outcome_bind]. unfold metadata_slice, reslice, uwrap, publicMetadataLenSize.
  change (2 ^ 16) with 65536.
  assert ((2 + Z.of_nat (length meta)) `mod` 65536 = Z.of_nat (length meta) - 65534) as ->.
  { rewrite <- (Z.mod_add _ (-1)) by lia. rewrite Z.mod_small; lia. }
  destruct (Z.leb_spec 2 (Z.of_nat (length meta) - 65534)); [lia|]. done.
Qed.
End Properties.

(** ** Witnesses *)
#[local] Existing Instance Toy.cache.

Definition example_keys : gmap Z bytes := {[ 2 := [2] ]}.

Definition example_encoding :=
  EncodeMessage Toy.calm 2 1 1000 [] Toy.nonce Toy.ping 2 (Some Toy.key) 11
    (Toy.start example_keys).

Lemma example_encoding_runs : ∃ enc st', example_encoding = (st', Ok enc).
Proof. do 2 eexists. vm_compute. reflexivity. Qed.

Lemma example_keys_inv : keys_inv (Toy.start example_keys).
Proof.
  split; [|by apply map_Forall_empty]. intros a b. unfold example_keys, Toy.start. simpl.
  intros [<- <-]%lookup_singleton_Some. by exists 2.
Qed.


Lemma decode_authentic_witness :
  match DecodeAndVerifyMessage Toy.calm 2 0 []
    {| ChunkedEncodedMessage := [[0; 0; 0; 1]]; Signature := [3] |} 4 (Toy.start example_keys) with
  | (s', o) => is_ok o = false ∧ committed s' = example_keys
  end.
Proof.
  destruct (DecodeAndVerifyMessage Toy.calm 2 0 [] _ 4 (Toy.start example_keys)) as [s' o] eqn:E.
  pose proof (decode_authentic _ _ _ _ _ _ _ _ _ example_keys_inv E) as Hc.
  revert E. vm_compute (DecodeAndVerifyMessage _ _ _ _ _ _ _). intros [= <- <-].
  split; [reflexivity|exact Hc].
Defined.

Lemma key_store_invariant_witness :
  keys_inv (example_encoding).1.
Proof.
  apply (key_store_invariant Toy.calm 2 1 2 1000 [] Toy.nonce Toy.ping 2 (Some Toy.key) 11 []
    {| ChunkedEncodedMessage := []; Signature := [] |} 1 (Toy.start example_keys) example_keys_inv).
Defined.

