(* ===== verification/Messenger.v ===== *)
(** * The matrix messenger (pkg/matrix/events.go, internal/matrix/messenger)

    Module [Events] is the wire events and their checks; Module [Reassembly] is
    the receive side of messages.go, a map from message identifiers to partial
    messages; Module [Sending] is its send side. *)
From S2P Require Import Prelude Cache Conversion Message.

#[local] Open Scope Z_scope.

(** ** Events (pkg/matrix/events.go) *)
Module Events.
Record ChunkData := { MessageID : string; Data : bytes }.

Record MessageChunkEventContent := { mce_ChunkData : ChunkData; ChunkIndex : Z }.

Record SignedMessageEventContent := {
  sme_ChunkData : ChunkData;
  ChunksCount : Z;
  sme_Signature : bytes;
  SenderTTMAccountAddress : Z
}.

Definition ErrWrongChunkIndex : error := Sentinel "matrix.ErrWrongChunkIndex".
Definition ErrNoChunks : error := Sentinel "matrix.ErrNoChunks".
Definition ErrNoData : error := Sentinel "matrix.ErrNoData".
Definition ErrNoMessageID : error := Sentinel "matrix.ErrNoMessageID".

(** [nil] is [Ok tt]. *)
Definition ChunkData_Verify (c : ChunkData) : outcome unit :=
  if decide (length (Data c) = 0%nat) then Err ErrNoData
  else if decide (MessageID c = EmptyString) then Err ErrNoMessageID
  else Ok tt.

Definition MessageChunk_Verify (e : MessageChunkEventContent) : outcome unit :=
  if ChunkIndex e =? 0 then Err ErrWrongChunkIndex
  else ChunkData_Verify (mce_ChunkData e).

Definition SignedMessage_Verify (e : SignedMessageEventContent) : outcome unit :=
  if ChunksCount e =? 0 then Err ErrNoChunks
  else ChunkData_Verify (sme_ChunkData e).

(** [evt.Content.Parsed] *)
Inductive Parsed :=
  | ParsedSigned (c : SignedMessageEventContent)
  | ParsedChunk (c : MessageChunkEventContent)
  | ParsedOther.

Record Event := { Sender : string; Content : Parsed }.

#[global] Instance ChunkData_eq_dec : EqDecision ChunkData.
Proof. solve_decision. Defined.
#[global] Instance MessageChunk_eq_dec : EqDecision MessageChunkEventContent.
Proof. solve_decision. Defined.
#[global] Instance SignedMessage_eq_dec : EqDecision SignedMessageEventContent.
Proof. solve_decision. Defined.
End Events.

(** ** Reassembly (messages.go, receive side) *)
Module Reassembly.
Import Events.

Definition partialMessageTTL : Z := 5 * Minute.
Definition partialMessageSweepInterval : Z := Minute.

Record chunkedMessage := {
  chunksCount : Z;
  fromTTMAccount : Z;
  signature : bytes;
  chunks : gmap Z bytes;
  firstSeen : Z
}.

Abbreviation store := (gmap string chunkedMessage).

(** The bounded walk [for i := 0; i < chunksCount; i++]. *)
Definition messageIndexSetComplete (message : chunkedMessage) : bool :=
  if chunksCount message =? 0 then false
  else forallb (λ i, bool_decide (is_Some (chunks message !! i)))
         (seqZ 0 (chunksCount message)).

(** Reading a missing key of the Go map gives [nil]. *)
Definition assembleEncodedMessage (message : chunkedMessage)
    : option EncodedSignedMessageWithSender :=
  if messageIndexSetComplete message then
    Some {| ews_Message :=
              {| ChunkedEncodedMessage :=
                   (λ i, default [] (chunks message !! i)) <$> seqZ 0 (chunksCount message);
                 Signature := signature message |};
            SenderBotAddress := 0;
            ews_SenderTTMAccountAddress := fromTTMAccount message |}
  else None.

Definition assembleOrDropMessage := assembleEncodedMessage.

Definition with_chunk (i : Z) (d : bytes) (m : chunkedMessage) : chunkedMessage :=
  {| chunksCount := chunksCount m; fromTTMAccount := fromTTMAccount m;
     signature := signature m; chunks := <[i := d]> (chunks m); firstSeen := firstSeen m |}.

(** The message is the object the map entry of its identifier points to: each
    write to it is a write to that entry. *)
Definition addMessageChunk (message : chunkedMessage) (chunkData : ChunkData)
    (chunkIndex : Z) (st : store) : store * option chunkedMessage :=
  if negb (chunksCount message =? 0) && (chunksCount message <=? chunkIndex)
  then (st, None)
  else
    let message := with_chunk chunkIndex (Data chunkData) message in
    let st := <[MessageID chunkData := message]> st in
    if messageIndexSetComplete message
    then (delete (MessageID chunkData) st, Some message)
    else (st, None).

Definition newChunkedMessage (now : Z) : chunkedMessage :=
  {| chunksCount := 0; fromTTMAccount := 0; signature := []; chunks := ∅; firstSeen := now |}.

Definition with_header (c : SignedMessageEventContent) (m : chunkedMessage) : chunkedMessage :=
  {| chunksCount := ChunksCount c; fromTTMAccount := SenderTTMAccountAddress c;
     signature := sme_Signature c; chunks := chunks m; firstSeen := firstSeen m |}.

Definition addMessageFirstChunk (now : Z) (c : SignedMessageEventContent) (st : store)
    : store * option chunkedMessage :=
  let id := MessageID (sme_ChunkData c) in
  let message := with_header c (default (newChunkedMessage now) (st !! id)) in
  addMessageChunk message (sme_ChunkData c) 0 (<[id := message]> st).

Definition addMessageNextChunk (now : Z) (c : MessageChunkEventContent) (st : store)
    : store * option chunkedMessage :=
  let id := MessageID (mce_ChunkData c) in
  let message := default (newChunkedMessage now) (st !! id) in
  addMessageChunk message (mce_ChunkData c) (ChunkIndex c) (<[id := message]> st).

Definition tryCompleteMessageWithFirstChunk (now : Z) (c : SignedMessageEventContent)
    (st : store) : store * option EncodedSignedMessageWithSender :=
  if ChunksCount c =? 1 then
    (st, Some {| ews_Message :=
                   {| ChunkedEncodedMessage := [Data (sme_ChunkData c)];
                      Signature := sme_Signature c |};
                 SenderBotAddress := 0;
                 ews_SenderTTMAccountAddress := SenderTTMAccountAddress c |})
  else
    match addMessageFirstChunk now c st with
    | (st, Some message) => (st, assembleOrDropMessage message)
    | (st, None) => (st, None)
    end.

Definition tryCompleteMessage (now : Z) (c : MessageChunkEventContent) (st : store)
    : store * option EncodedSignedMessageWithSender :=
  match addMessageNextChunk now c st with
  | (st, Some message) => (st, assembleOrDropMessage message)
  | (st, None) => (st, None)
  end.

Definition evictStalePartialMessages (now : Z) (st : store) : store :=
  filter (λ p : string * chunkedMessage,
    timeSub now (firstSeen p.2) ≤ partialMessageTTL) st.

Definition with_sender (a : Z) (m : EncodedSignedMessageWithSender)
    : EncodedSignedMessageWithSender :=
  {| ews_Message := ews_Message m; SenderBotAddress := a;
     ews_SenderTTMAccountAddress := ews_SenderTTMAccountAddress m |}.

Section Handlers.
Variable AddressFromUserID : string → Z.
Variable botUserID : string.

(** The handlers recover from panics, here the failed type assertion on the
    parsed content; the option is the message written to [msgChannel]. *)
Definition signedMessageEventHandler (now : Z) (evt : Event) (st : store)
    : store * option EncodedSignedMessageWithSender :=
  if decide (Sender evt = botUserID) then (st, None)
  else match Content evt with
  | ParsedSigned c =>
      match SignedMessage_Verify c with
      | Ok _ =>
          let '(st, msg) := tryCompleteMessageWithFirstChunk now c st in
          (st, with_sender (AddressFromUserID (Sender evt)) <$> msg)
      | _ => (st, None)
      end
  | _ => (st, None)
  end.

Definition messageChunkEventHandler (now : Z) (evt : Event) (st : store)
    : store * option EncodedSignedMessageWithSender :=
  if decide (Sender evt = botUserID) then (st, None)
  else match Content evt with
  | ParsedChunk c =>
      match MessageChunk_Verify c with
      | Ok _ =>
          let '(st, msg) := tryCompleteMessage now c st in
          (st, with_sender (AddressFromUserID (Sender evt)) <$> msg)
      | _ => (st, None)
      end
  | _ => (st, None)
  end.

(** The syncer dispatches on the event type and the sweeper ticks; every
    one of them runs under [messagesMutex]. *)
Inductive input :=
  | EvtSigned (now : Z) (evt : Event)
  | EvtChunk (now : Z) (evt : Event)
  | SweepTick (now : Z).

Definition handle (i : input) (st : store)
    : store * option EncodedSignedMessageWithSender :=
  match i with
  | EvtSigned now evt => signedMessageEventHandler now evt st
  | EvtChunk now evt => messageChunkEventHandler now evt st
  | SweepTick now => (evictStalePartialMessages now st, None)
  end.

(** The message identifier an input is about. *)
Definition input_id (i : input) : option string :=
  match i with
  | EvtSigned _ {| Content := ParsedSigned c |} => Some (MessageID (sme_ChunkData c))
  | EvtChunk _ {| Content := ParsedChunk c |} => Some (MessageID (mce_ChunkData c))
  | _ => None
  end.

(** Run the inputs in order; the second component lists what the inputs
    about [id] wrote to [msgChannel]. *)
Fixpoint run (id : string) (ins : list input) (st : store)
    : store * list EncodedSignedMessageWithSender :=
  match ins with
  | [] => (st, [])
  | i :: ins =>
      let '(st1, o) := handle i st in
      let '(st2, out) := run id ins st1 in
      (st2, (if decide (input_id i = Some id) then option_list o else []) ++ out)
  end.
End Handlers.

(** *** Lemmas on one partial message *)

Definition complete (m : chunkedMessage) : Prop :=
  chunksCount m ≠ 0 ∧ ∀ i, 0 ≤ i < chunksCount m → is_Some (chunks m !! i).

Lemma messageIndexSetComplete_spec m :
  messageIndexSetComplete m = true ↔ complete m.
Proof.
  unfold messageIndexSetComplete, complete. destruct (Z.eqb_spec (chunksCount m) 0) as [E|E].
  - split; [done|]. tauto.
  - rewrite forallb_forall. split.
    + intros H. split; [done|]. intros i Hi. eapply bool_decide_eq_true_1, H.
      apply list_elem_of_In, elem_of_seqZ'. done.
    + intros [_ H] i Hi. apply bool_decide_eq_true_2, H.
      by apply list_elem_of_In, elem_of_seqZ' in Hi.
Qed.

Lemma messageIndexSetComplete_false m :
  messageIndexSetComplete m = false ↔ ¬ complete m.
Proof. rewrite <- messageIndexSetComplete_spec. destruct messageIndexSetComplete; naive_solver. Qed.

(** Whether a chunk is refused because its index is out of range. *)
Definition refused (m : chunkedMessage) (i : Z) : bool :=
  negb (chunksCount m =? 0) && (chunksCount m <=? i).

(** Adding a chunk to the message [m] stored at its identifier. *)
Abbreviation add m cd i st := (addMessageChunk m cd i (<[MessageID cd := m]> st)).

(** The three ways a chunk is taken: refused, completing, or stored. *)
Lemma add_ind (Q : store → option chunkedMessage → Prop) m cd i st :
  let id := MessageID cd in
  let m' := with_chunk i (Data cd) m in
  (refused m i = true → Q (<[id := m]> st) None) →
  (refused m i = false → complete m' → Q (delete id st) (Some m')) →
  (refused m i = false → ¬ complete m' → Q (<[id := m']> st) None) →
  Q (add m cd i st).1 (add m cd i st).2.
Proof.
  intros id m' H1 H2 H3. unfold addMessageChunk. fold (refused m i).
  destruct (refused m i); [by apply H1|].
  rewrite insert_insert_eq. fold m' id. destruct (messageIndexSetComplete m') eqn:E; simpl.
  - rewrite delete_insert_eq. by apply H2, messageIndexSetComplete_spec.
  - by apply H3, messageIndexSetComplete_false.
Qed.

(** The partial message an event finds, or creates. *)
Definition current (now : Z) (id : string) (st : store) : chunkedMessage :=
  default (newChunkedMessage now) (st !! id).

(** The state keeps no message that is already complete. *)
Definition pending (st : store) : Prop := map_Forall (λ _ m, ¬ complete m) st.

Lemma pending_insert id m st : ¬ complete m → pending st → pending (<[id := m]> st).
Proof. unfold pending. intros. by apply map_Forall_insert_2. Qed.

Lemma pending_delete id st : pending st → pending (delete id st).
Proof. unfold pending. intros. by apply map_Forall_delete. Qed.

Lemma current_pending now id st : pending st → ¬ complete (current now id st).
Proof.
  intros H. unfold current. destruct (st !! id) as [m|] eqn:E; simpl.
  - by apply (H id).
  - unfold complete. simpl. tauto.
Qed.

Lemma add_pending m cd i st :
  (refused m i = true → ¬ complete m) → pending st → pending (add m cd i st).1.
Proof.
  intros Hm Hst. apply (add_ind (λ st' _, pending st')); intros.
  - apply pending_insert; auto.
  - by apply pending_delete.
  - by apply pending_insert.
Qed.

Lemma add_frame m cd i st id :
  id ≠ MessageID cd → (add m cd i st).1 !! id = st !! id.
Proof.
  intros Hid. apply (add_ind (λ st' _, st' !! id = st !! id)); intros; simpl.
  - by rewrite lookup_insert_ne.
  - by rewrite lookup_delete_ne.
  - by rewrite lookup_insert_ne.
Qed.

(** *** The steps of the messenger *)
Section Steps.
Variable AddressFromUserID : string → Z.
Variable botUserID : string.
Local Abbreviation handle := (handle AddressFromUserID botUserID).
Local Abbreviation run := (run AddressFromUserID botUserID).

(** What a handler writes to [msgChannel] for a completed message. *)
Definition finish (sender : string) (o : option chunkedMessage)
    : option EncodedSignedMessageWithSender :=
  with_sender (AddressFromUserID sender) <$> (m ← o; assembleOrDropMessage m).

Definition single (sender : string) (c : SignedMessageEventContent)
    : EncodedSignedMessageWithSender :=
  {| ews_Message := {| ChunkedEncodedMessage := [Data (sme_ChunkData c)];
                       Signature := sme_Signature c |};
     SenderBotAddress := AddressFromUserID sender;
     ews_SenderTTMAccountAddress := SenderTTMAccountAddress c |}.

(** The inputs a handler does not drop. *)
Definition accepted (i : input) : Prop :=
  match i with
  | EvtSigned _ {| Sender := s; Content := ParsedSigned c |} =>
      s ≠ botUserID ∧ SignedMessage_Verify c = Ok tt
  | EvtChunk _ {| Sender := s; Content := ParsedChunk c |} =>
      s ≠ botUserID ∧ MessageChunk_Verify c = Ok tt
  | SweepTick _ => True
  | _ => False
  end.

(** The cases of a step: an input that is dropped, a sweep, a message of one
    chunk, a first chunk, and a later chunk. *)
Lemma handle_ind (P : store → option EncodedSignedMessageWithSender → Prop) i st :
  (¬ accepted i → P st None) →
  (∀ now, i = SweepTick now → P (evictStalePartialMessages now st) None) →
  (∀ now s c, i = EvtSigned now {| Sender := s; Content := ParsedSigned c |} →
     ChunksCount c = 1 → P st (Some (single s c))) →
  (∀ now s c, i = EvtSigned now {| Sender := s; Content := ParsedSigned c |} →
     ChunksCount c ≠ 0 → ChunksCount c ≠ 1 →
     P (add (with_header c (current now (MessageID (sme_ChunkData c)) st))
          (sme_ChunkData c) 0 st).1
       (finish s (add (with_header c (current now (MessageID (sme_ChunkData c)) st))
          (sme_ChunkData c) 0 st).2)) →
  (∀ now s c, i = EvtChunk now {| Sender := s; Content := ParsedChunk c |} →
     P (add (current now (MessageID (mce_ChunkData c)) st)
          (mce_ChunkData c) (ChunkIndex c) st).1
       (finish s (add (current now (MessageID (mce_ChunkData c)) st)
          (mce_ChunkData c) (ChunkIndex c) st).2)) →
  P (handle i st).1 (handle i st).2.
Proof.
  intros Hign Hsweep Hone Hfirst Hnext.
  destruct i as [now [s [c|c|]]|now [s [c|c|]]|now]; simpl;
    unfold signedMessageEventHandler, messageChunkEventHandler; simpl;
    repeat case_decide; try (apply Hign; simpl; tauto); [..|by apply Hsweep].
  - destruct (SignedMessage_Verify c) eqn:Ev; try (apply Hign; simpl; rewrite Ev; by intros [_ ?]).
    unfold tryCompleteMessageWithFirstChunk, addMessageFirstChunk.
    destruct (Z.eqb_spec (ChunksCount c) 1) as [E|E]; [by apply (Hone now s c)|].
    assert (ChunksCount c ≠ 0) as E0.
    { unfold SignedMessage_Verify in Ev. zcase; done. }
    specialize (Hfirst now s c eq_refl E0 E). unfold current in Hfirst.
    destruct (addMessageChunk _ _ _ _) as [st' [m|]]; done.
  - destruct (MessageChunk_Verify c) eqn:Ev; try (apply Hign; simpl; rewrite Ev; by intros [_ ?]).
    unfold tryCompleteMessage, addMessageNextChunk.
    specialize (Hnext now s c eq_refl). unfold current in Hnext.
    destruct (addMessageChunk _ _ _ _) as [st' [m|]]; done.
Qed.

(** Inputs carry unsigned counts. *)
Definition well_typed (i : input) : Prop :=
  match i with
  | EvtSigned _ {| Content := ParsedSigned c |} => in_uint 32 (ChunksCount c)
  | EvtChunk _ {| Content := ParsedChunk c |} => in_uint 32 (ChunkIndex c)
  | _ => True
  end.

Lemma handle_pending i st : well_typed i → pending st → pending (handle i st).1.
Proof.
  intros Hi Hst. apply (handle_ind (λ st' _, pending st')); intros; simplify_eq/=; try done.
  - intros id m Hm. apply map_lookup_filter_Some_1_1 in Hm. by apply (Hst id).
  - apply add_pending; [|done]. unfold refused. simpl. intros Hr.
    unfold in_uint in Hi. zcase; simpl in *; try done; lia.
  - apply add_pending; [|done]. intros _. by apply current_pending.
Qed.

Definition is_sweep (i : input) : bool :=
  match i with SweepTick _ => true | _ => false end.

Lemma handle_frame i st id :
  is_sweep i = false → input_id i ≠ Some id → (handle i st).1 !! id = st !! id.
Proof.
  intros Hs Hid. apply (handle_ind (λ st' _, st' !! id = st !! id)); intros; simplify_eq/=; try done.
  - apply add_frame. congruence.
  - apply add_frame. congruence.
Qed.

Lemma singleton_list (l : list bytes) :
  Z.of_nat (length l) = 1 → [default [] (l !! 0%nat)] = l.
Proof. destruct l as [|d [|d' l]]; simpl; [done|done|lia]. Qed.

(** *** One message on the wire *)
Section Original.
Variables (id sender : string) (cs : list bytes) (sig : bytes) (acct : Z).
Let k : Z := Z.of_nat (length cs).

(** The events a sender makes of the chunks [cs]. *)
Definition orig_first : SignedMessageEventContent :=
  {| sme_ChunkData := {| MessageID := id; Data := default [] (cs !! 0%nat) |};
     ChunksCount := k; sme_Signature := sig; SenderTTMAccountAddress := acct |}.

Definition orig_chunk (j : Z) : MessageChunkEventContent :=
  {| mce_ChunkData := {| MessageID := id; Data := default [] (cs !! Z.to_nat j) |};
     ChunkIndex := j |}.

(** The message the receiver should hand over. *)
Definition original : EncodedSignedMessageWithSender :=
  {| ews_Message := {| ChunkedEncodedMessage := cs; Signature := sig |};
     SenderBotAddress := AddressFromUserID sender;
     ews_SenderTTMAccountAddress := acct |}.

(** An input about [id] is one of the message's own events, possibly
    redelivered, or a chunk whose index the message does not have. *)
Definition genuine (i : input) : Prop :=
  match i with
  | EvtSigned _ {| Sender := s; Content := ParsedSigned c |} =>
      MessageID (sme_ChunkData c) = id → s = sender ∧ c = orig_first
  | EvtChunk _ {| Sender := s; Content := ParsedChunk c |} =>
      MessageID (mce_ChunkData c) = id →
      s = sender ∧ ((∃ j, 1 ≤ j < k ∧ c = orig_chunk j) ∨ k ≤ ChunkIndex c)
  | _ => True
  end.

(** [i] delivers the chunk of index [j]. *)
Definition delivers (j : Z) (i : input) : Prop :=
  ∃ now, i = if j =? 0 then EvtSigned now {| Sender := sender; Content := ParsedSigned orig_first |}
             else EvtChunk now {| Sender := sender; Content := ParsedChunk (orig_chunk j) |}.

Definition has_header (m : chunkedMessage) : Prop :=
  chunksCount m = k ∧ signature m = sig ∧ fromTTMAccount m = acct.

(** A partial message that holds nothing but the original's parts. *)
Definition safe (m : chunkedMessage) : Prop :=
  (chunksCount m = 0 ∨ has_header m) ∧
  ∀ j d, 0 ≤ j < k → chunks m !! j = Some d → cs !! Z.to_nat j = Some d.

Definition safe_store (st : store) : Prop := ∀ m, st !! id = Some m → safe m.

Hypothesis cs_nonempty : cs ≠ [].

Lemma k_pos : 1 ≤ k.
Proof. unfold k. destruct cs; [done|]. simpl. lia. Qed.

Lemma lookup_cs_default j : 0 ≤ j < k → cs !! Z.to_nat j = Some (default [] (cs !! Z.to_nat j)).
Proof.
  intros Hj. destruct (lookup_lt_is_Some_2 cs (Z.to_nat j)) as [d ->]; [|done].
  unfold k in Hj. lia.
Qed.

Lemma safe_new now : safe (newChunkedMessage now).
Proof. split; [by left|]. intros j d _. simpl. by rewrite lookup_empty. Qed.

Lemma safe_current now st : safe_store st → safe (current now id st).
Proof.
  intros H. unfold current. destruct (st !! id) as [m|] eqn:E; simpl; [auto|].
  apply safe_new.
Qed.

Lemma safe_with_header m : safe m → safe (with_header orig_first m).
Proof. intros [_ H]. split; [by right|done]. Qed.

Lemma safe_with_chunk j d m :
  (0 ≤ j < k → cs !! Z.to_nat j = Some d) → safe m → safe (with_chunk j d m).
Proof.
  intros Hd [Hh Hc]. split; [done|]. intros i x Hi. simpl.
  rewrite lookup_insert_Some. intros [[<- <-]|[_ Hx]]; eauto.
Qed.

Lemma safe_store_add st m cd j :
  MessageID cd = id → safe_store st → safe m → safe (with_chunk j (Data cd) m) →
  safe_store (add m cd j st).1.
Proof.
  intros Hid Hst Hm Hm'. apply (add_ind (λ st' _, safe_store st')); intros;
    rewrite Hid; intros x; rewrite ?lookup_insert_eq, ?lookup_delete_eq;
    intros; simplify_eq; done.
Qed.

(** A message that is safe and complete assembles to the original. *)
Lemma assemble_original m :
  safe m → complete m → finish sender (Some m) = Some original.
Proof.
  intros [Hh Hc] [H0 Hall]. destruct Hh as [Hh|(Hk & Hs & Ha)]; [done|].
  unfold finish, assembleOrDropMessage, assembleEncodedMessage. simpl.
  replace (messageIndexSetComplete m) with true
    by (symmetry; by apply messageIndexSetComplete_spec).
  unfold original, with_sender. simpl. do 3 f_equal; [|done|done]. f_equal.
  rewrite Hk in *.
  transitivity ((λ i, default [] (cs !! Z.to_nat i)) <$> seqZ 0 k);
    [|apply fmap_seqZ_lookup]. apply list_fmap_ext.
  intros n j Hj. apply list_elem_of_lookup_2, elem_of_seqZ' in Hj.
  destruct (Hall j) as [d Hd]; [lia|]. rewrite Hd. simpl.
  by rewrite (Hc j d).
Qed.

Lemma finish_original m cd j st o :
  safe (with_chunk j (Data cd) m) →
  finish sender (add m cd j st).2 = Some o → o = original.
Proof.
  intros Hm. apply (add_ind (λ _ r, finish sender r = Some o → o = original));
    intros; simplify_eq/=; try done.
  rewrite assemble_original in * by done. congruence.
Qed.

(** The parts of the original an event about [id] can bring. *)
Lemma genuine_chunk now s c :
  genuine (EvtChunk now {| Sender := s; Content := ParsedChunk c |}) →
  MessageID (mce_ChunkData c) = id →
  s = sender ∧ (0 ≤ ChunkIndex c < k →
    cs !! Z.to_nat (ChunkIndex c) = Some (Data (mce_ChunkData c))).
Proof.
  intros Hg Hid. destruct (Hg Hid) as [-> [(j & Hj & ->)|Hk]]; split; try done.
  - intros Hj'. simpl in *. by apply lookup_cs_default.
  - lia.
Qed.

Lemma chunk0 : 0 ≤ 0 < k → cs !! Z.to_nat 0 = Some (Data (sme_ChunkData orig_first)).
Proof. apply (lookup_cs_default 0). Qed.

(** Whatever a genuine step writes is the original, and the store stays safe. *)
Lemma handle_safe i st :
  genuine i → safe_store st →
  safe_store (handle i st).1 ∧
  (input_id i = Some id → ∀ o, (handle i st).2 = Some o → o = original).
Proof.
  intros Hg Hst. apply (handle_ind (λ st' r, safe_store st' ∧
    (input_id i = Some id → ∀ o, r = Some o → o = original)));
    [done| | | |]; intros; simplify_eq/=.
  - split; [|done]. intros m Hm. by apply map_lookup_filter_Some_1_1, Hst in Hm.
  - split; [done|]. intros Hid o ?; simplify_eq.
    destruct (Hg Hid) as [-> ->]. unfold single, original. simpl in *.
    do 2 f_equal. by apply singleton_list.
  - destruct (decide (MessageID (sme_ChunkData c) = id)) as [Hid|Hid].
    + destruct (Hg Hid) as [-> ->]. change (MessageID (sme_ChunkData orig_first)) with id.
      assert (safe (with_header orig_first (current now id st))) as Hm
        by by apply safe_with_header, safe_current.
      pose proof (safe_with_chunk 0 _ _ chunk0 Hm) as Hm'.
      split; [by apply safe_store_add|]. intros _ o. by apply finish_original.
    + split; [|congruence]. intros m. rewrite add_frame by done. apply Hst.
  - destruct (decide (MessageID (mce_ChunkData c) = id)) as [Hid|Hid].
    + destruct (genuine_chunk now s c Hg Hid) as [-> Hd].
      assert (safe (current now (MessageID (mce_ChunkData c)) st)) as Hm
        by (rewrite Hid; by apply safe_current).
      pose proof (safe_with_chunk _ _ _ Hd Hm) as Hm'.
      split; [by apply safe_store_add|]. intros _ o. by apply finish_original.
    + split; [|congruence]. intros m. rewrite add_frame by done. apply Hst.
Qed.

(** *** Progress *)

Definition holds (m : chunkedMessage) (j : Z) : Prop :=
  chunks m !! j = cs !! Z.to_nat j ∧ (j = 0 → has_header m).

(** The store has received the chunk of index [j]. *)
Definition has (st : store) (j : Z) : Prop := ∃ m, st !! id = Some m ∧ holds m j.

Definition seen_since (t0 : Z) (st : store) : Prop :=
  ∀ m, st !! id = Some m → t0 ≤ firstSeen m.

Definition input_time (i : input) : Z :=
  match i with EvtSigned now _ | EvtChunk now _ | SweepTick now => now end.

Lemma has_current now st j : has st j → holds (current now id st) j.
Proof. intros (m & Hm & Hj). unfold current. by rewrite Hm. Qed.

Lemma seen_current t0 now st :
  t0 ≤ now → seen_since t0 st → t0 ≤ firstSeen (current now id st).
Proof. intros Hn Hs. unfold current. destruct (st !! id) eqn:E; simpl; auto. Qed.

Lemma holds_with_header m j : holds m j → holds (with_header orig_first m) j.
Proof. by intros [H _]. Qed.

Lemma holds_with_chunk m i d j :
  (0 ≤ i < k → cs !! Z.to_nat i = Some d) → 0 ≤ j < k → holds m j →
  holds (with_chunk i d m) j.
Proof.
  intros Hd Hj [Hc Hh]. split; [|done]. simpl.
  destruct (decide (i = j)) as [->|Hne].
  - rewrite lookup_insert_eq. symmetry. auto.
  - by rewrite lookup_insert_ne.
Qed.

(** Taking a chunk into a message that holds all [st] had either completes
    the message or keeps all of it and the chunk. *)
Lemma add_progress t0 st m cd i :
  MessageID cd = id → safe m → (0 ≤ i < k → cs !! Z.to_nat i = Some (Data cd)) →
  (i = 0 → has_header m) → t0 ≤ firstSeen m →
  seen_since t0 (add m cd i st).1 ∧
  (finish sender (add m cd i st).2 = Some original ∨
   ∀ j, 0 ≤ j < k → j = i ∨ holds m j → has (add m cd i st).1 j).
Proof.
  intros Hid Hm Hd H0 Ht.
  pose proof (safe_with_chunk i (Data cd) m Hd Hm) as Hm'.
  apply (add_ind (λ st' r, seen_since t0 st' ∧ (finish sender r = Some original ∨
    ∀ j, 0 ≤ j < k → j = i ∨ holds m j → has st' j))); rewrite Hid.
  - intros Hr. split; [intros x; rewrite lookup_insert_eq; intros; by simplify_eq|].
    right. intros j Hj Hh. exists m. rewrite lookup_insert_eq. split; [done|].
    destruct Hh as [->|Hh]; [|done]. exfalso. unfold refused in Hr.
    destruct Hm as [[E|(E & _)] _]; rewrite E in Hr; zcase; simpl in *; (done || lia).
  - intros _ Hc. split; [intros x; by rewrite lookup_delete_eq|].
    left. by apply assemble_original.
  - intros _ _. split; [intros x; rewrite lookup_insert_eq; intros; by simplify_eq|].
    right. intros j Hj Hh. eexists. rewrite lookup_insert_eq. split; [done|].
    destruct Hh as [->|Hh]; [|by apply holds_with_chunk].
    split; [simpl; rewrite lookup_insert_eq; symmetry; by apply Hd|done].
Qed.

Lemma delivers_id j i : delivers j i → input_id i = Some id.
Proof. intros [now ->]. by destruct (j =? 0). Qed.

Lemma delivers_signed j now s c :
  delivers j (EvtSigned now {| Sender := s; Content := ParsedSigned c |}) → j = 0.
Proof. intros [now' E]. destruct (Z.eqb_spec j 0); [done|discriminate]. Qed.

Lemma delivers_chunk j now s c :
  delivers j (EvtChunk now {| Sender := s; Content := ParsedChunk c |}) → j = ChunkIndex c.
Proof. intros [now' E]. destruct (Z.eqb_spec j 0); by simplify_eq. Qed.

Lemma has_frame i st j :
  is_sweep i = false → input_id i ≠ Some id →
  delivers j i ∨ has st j → has (handle i st).1 j.
Proof.
  intros Hs Hid [Hd|Hh]; [by apply delivers_id in Hd|].
  unfold has. by rewrite handle_frame.
Qed.

(** The message can be sent: what [Verify] asks of its events. *)
Definition sendable : Prop :=
  id ≠ EmptyString ∧ Forall (λ d, d ≠ []) cs ∧ k < 2 ^ 32 ∧ sender ≠ botUserID.

Lemma sendable_Verify j :
  sendable → 0 ≤ j < k →
  ChunkData_Verify {| MessageID := id; Data := default [] (cs !! Z.to_nat j) |} = Ok tt.
Proof.
  intros (Hid & Hne & _) Hj. pose proof (lookup_cs_default j Hj) as Hd.
  rewrite Forall_lookup in Hne. apply Hne in Hd. unfold ChunkData_Verify. simpl.
  case_decide as Hl; [by apply nil_length_inv in Hl|]. by case_decide.
Qed.

Lemma delivers_accepted j i : sendable → 0 ≤ j < k → delivers j i → accepted i.
Proof.
  intros Hok Hj [now ->]. destruct (Z.eqb_spec j 0) as [->|Hj0]; simpl;
    (split; [by apply Hok|]).
  - unfold SignedMessage_Verify. simpl. pose proof k_pos. zcase; [lia|].
    by apply (sendable_Verify 0).
  - unfold MessageChunk_Verify. simpl. zcase; [done|]. by apply sendable_Verify.
Qed.

Definition timely (t0 : Z) (i : input) : Prop :=
  t0 ≤ input_time i ≤ t0 + partialMessageTTL.

Lemma evict_keeps t0 now st m :
  now ≤ t0 + partialMessageTTL → seen_since t0 st →
  st !! id = Some m → evictStalePartialMessages now st !! id = Some m.
Proof.
  intros Hn Hs Hm. apply map_lookup_filter_Some_2; [done|]. simpl.
  specialize (Hs m Hm). apply timeSub_le; [done|]. lia.
Qed.

Lemma handle_progress t0 i st :
  sendable → genuine i → timely t0 i → safe_store st → seen_since t0 st →
  seen_since t0 (handle i st).1 ∧
  ((input_id i = Some id ∧ (handle i st).2 = Some original) ∨
   ∀ j, 0 ≤ j < k → delivers j i ∨ has st j → has (handle i st).1 j).
Proof.
  intros Hok Hg Ht Hst Hs.
  destruct (decide (input_id i = Some id)) as [Hid|Hid].
  - apply (handle_ind (λ st' r, seen_since t0 st' ∧ ((input_id i = Some id ∧ r = Some original) ∨
      ∀ j, 0 ≤ j < k → delivers j i ∨ has st j → has st' j))); intros; simplify_eq/=.
    + split; [done|]. right. intros j Hj [Hd|Hh]; [|done].
      by apply delivers_accepted in Hd.
    + split; [done|]. left. split; [congruence|]. destruct (Hg Hid) as [-> ->].
      unfold single, original. simpl in *. do 3 f_equal. by apply singleton_list.
    + destruct (Hg Hid) as [-> ->]. destruct Ht as [Ht _]. simpl in *.
      edestruct (add_progress t0 st (with_header orig_first (current now id st))
        (sme_ChunkData orig_first) 0) as [Hs1 Hs2]; [done|..].
      * by apply safe_with_header, safe_current.
      * apply chunk0.
      * done.
      * by apply seen_current.
      * split; [done|]. destruct Hs2 as [Hs2|Hs2]; [by left|right].
        intros j Hj Hd. apply Hs2; [done|]. destruct Hd as [Hd|Hd];
          [left; by eapply delivers_signed|right; by apply holds_with_header, has_current].
    + destruct (genuine_chunk now s c Hg Hid) as [-> Hd]. destruct Ht as [Ht _]. simpl in *.
      edestruct (add_progress t0 st (current now (MessageID (mce_ChunkData c)) st)
        (mce_ChunkData c) (ChunkIndex c)) as [Hs1 Hs2]; [done|..].
      * rewrite Hid. by apply safe_current.
      * done.
      * intros E. destruct (Hg Hid) as [_ [(j & Hj & ->)|Hk]]; simpl in *; pose proof k_pos; lia.
      * rewrite Hid. by apply seen_current.
      * split; [done|]. destruct Hs2 as [Hs2|Hs2]; [by left; split; [congruence|]|right].
        intros j Hj [Hd'|Hd']; apply Hs2; try done;
          [left; by eapply delivers_chunk|right; rewrite Hid; by apply has_current].
  - destruct i as [now evt|now evt|now].
    + split; [intros m; rewrite handle_frame by done; apply Hs|].
      right. intros j _. by apply has_frame.
    + split; [intros m; rewrite handle_frame by done; apply Hs|].
      right. intros j _. by apply has_frame.
    + simpl. split.
      * intros m Hm. apply map_lookup_filter_Some_1_1 in Hm. by apply Hs.
      * right. intros j _ [Hd|(m & Hm & Hh)]; [by apply delivers_id in Hd|].
        exists m. split; [|done]. destruct Ht as [_ Ht]. by apply (evict_keeps t0).
Qed.

Lemma run_cons i ins st :
  run id (i :: ins) st =
  ((run id ins (handle i st).1).1,
   (if decide (input_id i = Some id) then option_list (handle i st).2 else []) ++
   (run id ins (handle i st).1).2).
Proof. simpl. destruct (handle i st) as [st1 o]. simpl. by destruct (run id ins st1). Qed.

Lemma run_safe ins st :
  Forall genuine ins → safe_store st → Forall (λ o, o = original) (run id ins st).2.
Proof.
  intros Hg. revert st. induction Hg as [|i ins Hi Hg IH]; intros st Hst; [constructor|].
  rewrite run_cons. simpl. destruct (handle_safe i st Hi Hst) as [Hst' Ho].
  apply Forall_app. split; [|by apply IH]. case_decide as Hid; [|constructor].
  destruct (handle i st).2 as [o|] eqn:E; simpl; [|constructor].
  constructor; [by apply Ho|constructor].
Qed.

Lemma run_pending ins st :
  Forall well_typed ins → pending st → pending (run id ins st).1.
Proof.
  intros Hg. revert st. induction Hg as [|i ins Hi Hg IH]; intros st Hst; [done|].
  rewrite run_cons. simpl. by apply IH, handle_pending.
Qed.

Lemma run_progress t0 ins st :
  sendable → Forall genuine ins → Forall (timely t0) ins →
  safe_store st → seen_since t0 st →
  (run id ins st).2 ≠ [] ∨
  ∀ j, 0 ≤ j < k → Exists (delivers j) ins ∨ has st j → has (run id ins st).1 j.
Proof.
  intros Hok Hg Ht. revert st. induction Hg as [|i ins Hi Hg IH]; intros st Hst Hs.
  { right. intros j _ [Hn|Hh]; [by inversion Hn|done]. }
  inversion Ht as [|? ? Hti Ht']; subst. rewrite run_cons. simpl.
  destruct (handle_progress t0 i st Hok Hi Hti Hst Hs) as [Hs' [[Hid Ho]|Hj]].
  { left. rewrite decide_True by done. by rewrite Ho. }
  destruct (IH Ht' (handle i st).1) as [Hne|Hj']; [by apply handle_safe|done|..].
  { left. intros E. apply app_eq_nil in E as [_ E]. done. }
  right. intros j Hjk Hd. apply Hj'; [done|]. rewrite Exists_cons in Hd.
  destruct Hd as [[Hd|Hd]|Hh]; auto.
Qed.

(** All parts in one pending message: contradiction. *)
Lemma all_held_complete st :
  (∀ j, 0 ≤ j < k → has st j) → ¬ pending st.
Proof.
  intros Hall Hp. pose proof k_pos as Hk.
  destruct (Hall 0) as (m & Hm & _ & Hh); [lia|].
  destruct (Hh eq_refl) as [Ek _]. apply (Hp _ _ Hm). split; [lia|].
  rewrite Ek. intros j Hj. destruct (Hall j Hj) as (m' & Hm' & Hc & _). simplify_eq.
  rewrite Hc. eexists. by apply lookup_cs_default.
Qed.
End Original.
End Steps.

(** *** Properties *)

(** C4: reassembly is safe and live.  Deliver the events of one message in any
    order, with any redelivery, mixed with traffic about other messages and
    with chunks of indexes the message does not have, within the time to
    live of a partial message: the messenger then hands over at least one
    message for that identifier, and every one it hands over is the original. *)
Theorem reassembly_correct AddressFromUserID botUserID id sender cs sig acct t0 ins st :
  cs ≠ [] →
  sendable botUserID id sender cs →
  pending st → st !! id = None →
  Forall well_typed ins →
  Forall (genuine id sender cs sig acct) ins →
  Forall (timely t0) ins →
  (∀ j, 0 ≤ j < Z.of_nat (length cs) → Exists (delivers id sender cs sig acct j) ins) →
  let out := (run AddressFromUserID botUserID id ins st).2 in
  out ≠ [] ∧ Forall (λ o, o = original AddressFromUserID sender cs sig acct) out.
Proof.
  intros Hne Hok Hp Hid Hwt Hg Ht Hall out. split.
  - destruct (run_progress AddressFromUserID botUserID id sender cs sig acct Hne t0 ins st)
      as [H|H]; try done.
    + intros m Hm. congruence.
    + intros m Hm. congruence.
    + exfalso. eapply all_held_complete; [done| |by apply run_pending].
      intros j Hj. apply H; [done|]. left. by apply Hall.
  - apply run_safe; try done. intros m Hm. congruence.
Qed.

(** Without any assumption on what was delivered, a partial message is
    completed only by its last missing chunk: no input leaves a complete
    message in the store, and an input about one identifier leaves every
    other partial message alone. *)
Lemma handle_invariant AddressFromUserID botUserID i st :
  well_typed i → pending st →
  pending (handle AddressFromUserID botUserID i st).1 ∧
  (is_sweep i = false → ∀ id, input_id i ≠ Some id →
    (handle AddressFromUserID botUserID i st).1 !! id = st !! id).
Proof.
  intros Hi Hp. split; [by apply handle_pending|].
  intros Hs id Hid. by apply handle_frame.
Qed.

(** The sweeper keeps exactly the partial messages whose first chunk arrived
    at most [partialMessageTTL] ago, unchanged. *)
Lemma evict_exact now st id m :
  evictStalePartialMessages now st !! id = Some m ↔
  st !! id = Some m ∧ now - firstSeen m ≤ partialMessageTTL.
Proof.
  unfold evictStalePartialMessages. rewrite map_lookup_filter_Some. simpl.
  rewrite timeSub_le; [done|]. unfold partialMessageTTL. done.
Qed.

(** *** Witnesses *)

Definition example_chunks : list bytes := [[1; 2]; [3]].

Definition example_first : input :=
  EvtSigned 3 {| Sender := "s"; Content := ParsedSigned (orig_first "m" example_chunks [9] 5) |}.
Definition example_second : input :=
  EvtChunk 1 {| Sender := "s"; Content := ParsedChunk (orig_chunk "m" example_chunks 1) |}.

(** The trailing chunk first, an index the message does not have, the trailing
    chunk again, a message of somebody else, the first chunk, a sweep. *)
Definition example_inputs : list input :=
  [example_second;
   EvtChunk 2 {| Sender := "s"; Content := ParsedChunk
     {| mce_ChunkData := {| MessageID := "m"; Data := [7] |}; ChunkIndex := 5 |} |};
   example_second;
   EvtChunk 2 {| Sender := "t"; Content := ParsedChunk
     {| mce_ChunkData := {| MessageID := "n"; Data := [8] |}; ChunkIndex := 1 |} |};
   example_first; SweepTick 4].

Lemma reassembly_correct_witness :
  let out := (run (λ _, 7) "b" "m" example_inputs ∅).2 in
  out ≠ [] ∧ Forall (λ o, o = original (λ _, 7) "s" example_chunks [9] 5) out.
Proof.
  apply (reassembly_correct (λ _, 7) "b" "m" "s" example_chunks [9] 5 0 example_inputs ∅).
  - discriminate.
  - split; [discriminate|]. split; [|split; [simpl; lia|discriminate]].
    repeat constructor; discriminate.
  - apply map_Forall_empty.
  - reflexivity.
  - repeat constructor; discriminate.
  - repeat apply Forall_cons_2; try apply Forall_nil_2; try exact I; intros Hm; try discriminate.
    + split; [reflexivity|]. left. exists 1. simpl. split; [lia|reflexivity].
    + split; [reflexivity|]. right. simpl. lia.
    + split; [reflexivity|]. left. exists 1. simpl. split; [lia|reflexivity].
    + split; reflexivity.
  - repeat constructor; discriminate.
  - simpl. intros j Hj. assert (j = 0 ∨ j = 1) as [-> | ->] by lia.
    + do 4 right. left. exists 3. reflexivity.
    + left. exists 1. reflexivity.
Defined.

End Reassembly.

(** ** Sending (messages.go, send side, and rooms.go) *)
Module Sending.
Import Events.

(** The matrix client (client.go): every call may change the homeserver [HS]. *)
Record Client (HS : Type) := {
  JoinedRooms : M HS (list string);
  IsUserJoinedRoom : string → string → M HS bool;
  CreateRoomForUser : string → M HS string;
  SendSignedMessageEvent : string → SignedMessageEventContent → M HS unit;
  SendMessageChunkEvent : string → MessageChunkEventContent → M HS unit;
  IsRoomEncrypted : string → M HS bool;
  JoinRoom : string → M HS unit
}.
Arguments JoinedRooms {HS} _.
Arguments IsUserJoinedRoom {HS} _ _ _.
Arguments CreateRoomForUser {HS} _ _.
Arguments SendSignedMessageEvent {HS} _ _ _.
Arguments SendMessageChunkEvent {HS} _ _ _.
Arguments IsRoomEncrypted {HS} _ _.
Arguments JoinRoom {HS} _ _.

Inductive wire_event :=
  | WSigned (c : SignedMessageEventContent)
  | WChunk (c : MessageChunkEventContent).

(** [i+1] is the index of the chunk in [msg.ChunkedEncodedMessage]. *)
Fixpoint chunkEvents (messageID : string) (i : Z) (rest : list bytes)
    : outcome (list MessageChunkEventContent) :=
  match rest with
  | [] => Ok []
  | chunk :: rest =>
      ChunkIndex ← MustIntToUInt32 (i + 1);
      evs ← chunkEvents messageID (i + 1) rest;
      Ok ({| mce_ChunkData := {| MessageID := messageID; Data := chunk |};
             ChunkIndex := ChunkIndex |} :: evs)
  end.

Definition messageEvents (messageID : string) (msg : EncodedSignedMessage)
    (senderTTMAccount : Z)
    : outcome (SignedMessageEventContent * list MessageChunkEventContent) :=
  match ChunkedEncodedMessage msg with
  | [] => Panic "index out of range [0] with length 0"
  | data :: rest =>
      count ← MustIntToUInt32 (Z.of_nat (length (ChunkedEncodedMessage msg)));
      let messageEvent :=
        {| sme_ChunkData := {| MessageID := messageID; Data := data |};
           ChunksCount := count; sme_Signature := Signature msg;
           SenderTTMAccountAddress := senderTTMAccount |} in
      evs ← (if 1 <? count then chunkEvents messageID 0 rest else Ok []);
      Ok (messageEvent, evs)
  end.

Section Rooms.
Context {HS C : Type} `{LruCache string string C}.
Variable client : Client HS.
Variable UserIDFromAddress : Z → string.

(** The rooms cache, the homeserver, and the events it accepted from us. *)
Record state := { rooms : C; hs : HS; sent : list (string * wire_event) }.

Definition call {A} (op : M HS A) : M state A := λ s,
  let '(h, o) := op (hs s) in ({| rooms := rooms s; hs := h; sent := sent s |}, o).

Definition rooms_Get (k : string) : M state (option string) := λ s,
  let '(c, o) := lru_get k (rooms s) in
  ({| rooms := c; hs := hs s; sent := sent s |}, Ok o).

Definition rooms_Add (k v : string) : M state unit := λ s,
  ({| rooms := lru_add k v (rooms s); hs := hs s; sent := sent s |}, Ok tt).

(** A send the homeserver accepts is recorded. *)
Definition send (roomID : string) (e : wire_event) : M state unit := λ s,
  match call (match e with
              | WSigned c => SendSignedMessageEvent client roomID c
              | WChunk c => SendMessageChunkEvent client roomID c
              end) s with
  | (s, Ok _) => ({| rooms := rooms s; hs := hs s; sent := sent s ++ [(roomID, e)] |}, Ok tt)
  | r => r
  end.

Fixpoint firstJoinedRoom (recipient : string) (rs : list string) : M state (option string) :=
  match rs with
  | [] => retS None
  | roomID :: rs =>
      r ← attempt (call (IsUserJoinedRoom client roomID recipient));
      match r with
      | inr _ => retS None
      | inl true => rooms_Add recipient roomID ;; retS (Some roomID)
      | inl false => firstJoinedRoom recipient rs
      end
  end.

Definition findExistingRoomForRecipient (recipient : string) : M state (option string) :=
  cached ← rooms_Get recipient;
  match cached with
  | Some roomID => retS (Some roomID)
  | None =>
      r ← attempt (call (JoinedRooms client));
      match r with
      | inr _ => retS None
      | inl rs => firstJoinedRoom recipient rs
      end
  end.

Definition getRoomForRecipient (recipient : string) : M state string :=
  found ← findExistingRoomForRecipient recipient;
  match found with
  | Some roomID => retS roomID
  | None =>
      roomID ← wrapS "failed to create room for user %s" (call (CreateRoomForUser client recipient));
      rooms_Add recipient roomID ;; retS roomID
  end.

Fixpoint sendChunkEvents (roomID : string) (evs : list MessageChunkEventContent) : M state unit :=
  match evs with
  | [] => retS tt
  | e :: evs => send roomID (WChunk e) ;; sendChunkEvents roomID evs
  end.

Definition SendMessage (messageID : string) (msg : EncodedSignedMessage)
    (sendTo senderTTMAccount : Z) : M state unit :=
  roomID ← getRoomForRecipient (UserIDFromAddress sendTo);
  evs ← liftO (messageEvents messageID msg senderTTMAccount);
  send roomID (WSigned evs.1) ;;
  sendChunkEvents roomID evs.2.

(** rooms.go: an invite for this bot to an unencrypted room is accepted. *)
Definition stateMemberEventHandler (botUserID stateKey : string) (invite : bool)
    (roomID : string) : M state unit :=
  if decide (stateKey = botUserID) then
    if invite then
      r ← attempt (call (IsRoomEncrypted client roomID));
      match r with
      | inr _ | inl true => retS tt
      | inl false =>
          attempt (call (JoinRoom client roomID)) ;; retS tt
      end
    else retS tt
  else retS tt.

(** *** What a send leaves on the wire *)

Lemma call_sent {A} (op : M HS A) : keeps sent (call op).
Proof. intros s. unfold call. by destruct (op (hs s)). Qed.

Lemma rooms_Get_sent k : keeps sent (rooms_Get k).
Proof. intros s. unfold rooms_Get. by destruct (lru_get k (rooms s)). Qed.

Lemma rooms_Add_sent k v : keeps sent (rooms_Add k v).
Proof. done. Qed.

Hint Resolve call_sent rooms_Get_sent rooms_Add_sent : ttm.

Lemma firstJoinedRoom_sent recipient rs : keeps sent (firstJoinedRoom recipient rs).
Proof. induction rs; simpl; auto 20 with ttm. Qed.

Hint Resolve firstJoinedRoom_sent : ttm.

Lemma getRoomForRecipient_sent recipient : keeps sent (getRoomForRecipient recipient).
Proof. unfold getRoomForRecipient, findExistingRoomForRecipient. auto 20 with ttm. Qed.

Lemma send_sent roomID e s :
  sent (send roomID e s).1 =
  sent s ++ (if is_ok (send roomID e s).2 then [(roomID, e)] else []).
Proof.
  unfold send. match goal with |- context [call ?op s] => pose proof (call_sent op s) as Hc end.
  destruct (call _ s) as [s1 [[]|e'|p]]; simpl in *; rewrite Hc; by rewrite ?app_nil_r.
Qed.

Lemma firstJoinedRoom_caches recipient rs s s1 room :
  firstJoinedRoom recipient rs s = (s1, Ok (Some room)) →
  lru_contents (rooms s1) !! recipient = Some room.
Proof.
  revert s. induction rs as [|r rs IH]; intros s; simpl; [done|].
  intros (s2 & [[|]|e] & _ & E)%bind_Ok_inv; [|by apply IH in E|done].
  apply bind_Ok_inv in E as (s3 & [] & E1 & E2).
  unfold rooms_Add, retS in *. simplify_eq/=. by rewrite lru_add_hit.
Qed.

Lemma getRoomForRecipient_caches recipient s s1 room :
  getRoomForRecipient recipient s = (s1, Ok room) →
  lru_contents (rooms s1) !! recipient = Some room.
Proof.
  unfold getRoomForRecipient, findExistingRoomForRecipient.
  intros (s2 & [r|] & E & E')%bind_Ok_inv.
  - unfold retS in E'. simplify_eq. apply bind_Ok_inv in E as (s3 & [r|] & E & E').
    + unfold retS, rooms_Get in *. destruct (lru_get recipient (rooms s)) as [c o] eqn:Ec.
      simplify_eq. simpl. replace c with (lru_get recipient (rooms s)).1 by by rewrite Ec.
      by rewrite lru_get_contents, <- lru_get_value, Ec.
    + apply bind_Ok_inv in E' as (s4 & [rs|e] & _ & E'); [|done].
      by apply firstJoinedRoom_caches in E'.
  - apply bind_Ok_inv in E' as (s3 & r & _ & E').
    apply bind_Ok_inv in E' as (s4 & [] & E1 & E2).
    unfold rooms_Add, retS in *. simplify_eq/=. by rewrite lru_add_hit.
Qed.

(** [o] succeeded only if all of [evs] was sent, and always in order. *)
Definition sent_prefix (roomID : string) (evs : list wire_event) (s : state)
    (r : state * outcome unit) : Prop :=
  ∃ l, l `prefix_of` evs ∧ sent r.1 = sent s ++ (pair roomID <$> l) ∧
       (is_ok r.2 = true → l = evs).

Lemma sent_prefix_nil roomID s : sent_prefix roomID [] s (retS tt s).
Proof. exists []. by rewrite app_nil_r. Qed.

Lemma sent_prefix_cons roomID e evs m s :
  (∀ s, sent_prefix roomID evs s (m s)) →
  sent_prefix roomID (e :: evs) s ((send roomID e ;; m) s).
Proof.
  intros Hm. pose proof (send_sent roomID e s) as He. unfold mbind, M_bind.
  destruct (send roomID e s) as [s1 [[]|e'|p]]; simpl in *.
  - destruct (Hm s1) as (l & Hl & Hs & Hok). exists (e :: l). split; [by apply prefix_cons|].
    rewrite Hs, He, <- (assoc_L (++)). split; [done|]. intros Hr. by rewrite Hok.
  - exists []. split; [apply prefix_nil|]. simpl. by rewrite He.
  - exists []. split; [apply prefix_nil|]. simpl. by rewrite He.
Qed.

Lemma sendChunkEvents_sent roomID evs s :
  sent_prefix roomID (WChunk <$> evs) s (sendChunkEvents roomID evs s).
Proof.
  revert s. induction evs as [|e evs IH]; intros s; simpl.
  - apply sent_prefix_nil.
  - by apply (sent_prefix_cons roomID (WChunk e)).
Qed.
End Rooms.

(** *** The events of a message *)
Import Reassembly.

Lemma chunkEvents_orig id cs rest i :
  0 ≤ i → Z.of_nat (length cs) < 2 ^ 32 → drop (Z.to_nat (i + 1)) cs = rest →
  chunkEvents id i rest =
  Ok (orig_chunk id cs <$> seqZ (i + 1) (Z.of_nat (length cs) - (i + 1))).
Proof.
  revert i. induction rest as [|d rest IH]; intros i Hi Hk Hd; simpl.
  - apply (f_equal length) in Hd. rewrite length_drop in Hd. simpl in Hd.
    by rewrite seqZ_nil by lia.
  - assert (Z.to_nat (i + 1) < length cs)%nat as Hlt.
    { apply (f_equal length) in Hd. rewrite length_drop in Hd. simpl in Hd. lia. }
    rewrite MustIntToUInt32_ok by lia. simpl.
    rewrite IH; [|lia|done|].
    + rewrite (seqZ_cons (i + 1)) by lia. simpl. unfold orig_chunk at 2.
      rewrite <- (Nat.add_0_r (Z.to_nat (i + 1))), <- lookup_drop, Hd. simpl.
      do 3 f_equal. f_equal; lia.
    + replace (Z.to_nat (i + 1 + 1)) with (Z.to_nat (i + 1) + 1)%nat by lia.
      by rewrite <- drop_drop, Hd.
Qed.

(** [messageEvents] makes the events [Reassembly] expects. *)
Lemma messageEvents_orig id msg acct :
  ChunkedEncodedMessage msg ≠ [] →
  Z.of_nat (length (ChunkedEncodedMessage msg)) < 2 ^ 32 →
  messageEvents id msg acct =
  Ok (orig_first id (ChunkedEncodedMessage msg) (Signature msg) acct,
      orig_chunk id (ChunkedEncodedMessage msg) <$>
        seqZ 1 (Z.of_nat (length (ChunkedEncodedMessage msg)) - 1)).
Proof.
  destruct msg as [cs sig]. simpl. intros Hne Hk. unfold messageEvents. simpl.
  destruct cs as [|d rest] eqn:Ecs; [done|]. rewrite <- Ecs in *.
  rewrite MustIntToUInt32_ok by lia. simpl.
  replace (default [] (cs !! 0%nat)) with d by by rewrite Ecs.
  unfold orig_first. replace (cs !! 0%nat) with (Some d) by by rewrite Ecs. simpl.
  zcase.
  - rewrite (chunkEvents_orig id cs rest 0) by (done || lia || by rewrite Ecs). done.
  - rewrite seqZ_nil by lia. done.
Qed.

(** The events of a message, in the order they are sent: the first chunk with the
    signature and the count, and the other chunks by their indexes. *)
Definition message_wire (id : string) (msg : EncodedSignedMessage) (acct : Z) : list wire_event :=
  let cs := ChunkedEncodedMessage msg in
  WSigned (orig_first id cs (Signature msg) acct) ::
    ((λ j, WChunk (orig_chunk id cs j)) <$> seqZ 1 (Z.of_nat (length cs) - 1)).

(** *** Properties *)

(** A send goes to one room, and stops at its first failure. *)
Lemma SendMessage_sent {HS C} `{LruCache string string C} (client : Client HS)
    UserIDFromAddress id msg sendTo acct (s : @state HS C) :
  ChunkedEncodedMessage msg ≠ [] →
  Z.of_nat (length (ChunkedEncodedMessage msg)) < 2 ^ 32 →
  ∃ room, sent_prefix room (message_wire id msg acct) s
    (SendMessage client UserIDFromAddress id msg sendTo acct s).
Proof.
  intros Hne Hk. unfold SendMessage, message_wire.
  set (cs := ChunkedEncodedMessage msg).
  set (evs := WSigned (orig_first id cs (Signature msg) acct) :: _).
  pose proof (getRoomForRecipient_sent client (UserIDFromAddress sendTo) s) as Hroom.
  unfold mbind at 1, M_bind at 1.
  destruct (getRoomForRecipient _ _ s) as [s1 [room|e|p]]; simpl in *.
  - exists room. rewrite messageEvents_orig by done. unfold mbind at 1, M_bind at 1. simpl.
    assert (sent_prefix room evs s1 ((send client room (WSigned (orig_first id cs (Signature msg) acct)) ;;
      sendChunkEvents client room (orig_chunk id cs <$> seqZ 1 (Z.of_nat (length cs) - 1))) s1)) as Hp.
    { apply sent_prefix_cons. intros s2. unfold evs.
      change (λ j, WChunk (orig_chunk id cs j)) with (WChunk ∘ orig_chunk id cs).
      rewrite list_fmap_compose. apply sendChunkEvents_sent. }
    unfold sent_prefix in *. by rewrite <- Hroom.
  - exists EmptyString, []. split; [apply prefix_nil|]. simpl. by rewrite Hroom, app_nil_r.
  - exists EmptyString, []. split; [apply prefix_nil|]. simpl. by rewrite Hroom, app_nil_r.
Qed.

(** Rooms are stable: once a recipient's room is found or created it is
    cached, and asking again gives the same room without any call to the
    homeserver. *)
Lemma getRoomForRecipient_stable {HS C} `{LruCache string string C} (client : Client HS)
    recipient room (s s1 : @state HS C) :
  getRoomForRecipient client recipient s = (s1, Ok room) →
  ∃ s2, getRoomForRecipient client recipient s1 = (s2, Ok room) ∧
    hs s2 = hs s1 ∧ sent s2 = sent s1 ∧
    lru_contents (rooms s2) !! recipient = Some room.
Proof.
  intros E. apply getRoomForRecipient_caches in E.
  assert ((lru_get recipient (rooms s1)).2 = Some room) as Eg by by rewrite lru_get_value.
  unfold getRoomForRecipient, findExistingRoomForRecipient, rooms_Get, mbind, M_bind.
  destruct (lru_get recipient (rooms s1)) as [c o] eqn:Ec. simpl in *. subst o. simpl.
  eexists. split; [done|]. simpl. repeat split.
  replace c with (lru_get recipient (rooms s1)).1 by by rewrite Ec.
  by rewrite lru_get_contents.
Qed.

(** *** Witnesses *)

(** A homeserver that knows no room and accepts everything. *)
Definition example_client : Client nat :=
  {| JoinedRooms := retS []; IsUserJoinedRoom := λ _ _, retS false;
     CreateRoomForUser := λ _ n, (S n, Ok "!room:host"%string);
     SendSignedMessageEvent := λ _ _, retS tt; SendMessageChunkEvent := λ _ _, retS tt;
     IsRoomEncrypted := λ _, retS false; JoinRoom := λ _, retS tt |}.

Definition example_cache : LruCache string string (list (string * string)) := list_lru 99.

Definition example_state : @state nat (list (string * string)) :=
  {| rooms := []; hs := 0%nat; sent := [] |}.

End Sending.
