(* ===== verification/Delivery.v ===== *)
(** * From one bot to another (pkg/matrix/user_id.go, and the path of a message)

    What [Encoding] and [Messenger] do together: a message is encoded and sent by one bot,
    its events travel in any order, more than once and among others, and the other bot
    reassembles and decodes them.  The address of a bot is the local part of its matrix
    user id; the format of an id is mautrix's and the one of an address go-ethereum's, the
    class [UserIDs]. *)
From S2P Require Import Prelude Decimal Conversion Cache Txn Message Encoding Messenger.
From Stdlib Require Import Ascii.
From stdpp Require Import gmap.
Import Messenger.Events Messenger.Reassembly Messenger.Sending Encoding.Encryption.

#[local] Open Scope Z_scope.

Class UserIDs := {
  NewUserID : string → string → string;
  Localpart : string → string;
  Address_Hex : Z → string;
  Address_HexToAddress : string → Z;
  Localpart_address a host :
    Localpart (NewUserID (ToLower (Address_Hex a)) host) = ToLower (Address_Hex a);
  HexToAddress_lower a : in_uint 160 a → Address_HexToAddress (ToLower (Address_Hex a)) = a
}.

Section Delivery.
Context `{UserIDs}.

Definition UserIDFromAddress (address : Z) (host : string) : string :=
  NewUserID (ToLower (Address_Hex address)) host.
Definition AddressFromUserID (userID : string) : Z := Address_HexToAddress (Localpart userID).

Lemma AddressFromUserID_UserIDFromAddress a host :
  in_uint 160 a → AddressFromUserID (UserIDFromAddress a host) = a.
Proof.
  intros Ha. unfold AddressFromUserID, UserIDFromAddress.
  by rewrite Localpart_address, HexToAddress_lower.
Qed.

(** An event a bot sent reaches the syncer of another at some time. *)
Definition delivery (user : string) (e : wire_event) (i : input) : Prop :=
  ∃ now, i = match e with
             | WSigned c => EvtSigned now {| Sender := user; Content := ParsedSigned c |}
             | WChunk c => EvtChunk now {| Sender := user; Content := ParsedChunk c |}
             end.

(** The homeserver does not make up events of a message; other traffic is anybody's. *)
Definition comes_from (user id : string) (wire : list wire_event) (i : input) : Prop :=
  input_id i = Some id → ∃ e, e ∈ wire ∧ delivery user e i.

Lemma wire_of_index id msg acct e :
  e ∈ message_wire id msg acct ↔
  e = WSigned (orig_first id (ChunkedEncodedMessage msg) (Signature msg) acct) ∨
  ∃ j, 1 ≤ j < Z.of_nat (length (ChunkedEncodedMessage msg)) ∧
    e = WChunk (orig_chunk id (ChunkedEncodedMessage msg) j).
Proof.
  unfold message_wire. rewrite elem_of_cons, list_elem_of_fmap. setoid_rewrite elem_of_seqZ.
  split; intros [|(j & Hj)]; try (by left); right; exists j; destruct Hj; split; (done || lia).
Qed.

Lemma comes_from_genuine user id msg acct i :
  comes_from user id (message_wire id msg acct) i →
  genuine id user (ChunkedEncodedMessage msg) (Signature msg) acct i.
Proof.
  unfold comes_from, delivery.
  destruct i as [now [s [c|c|]]|now [s [c|c|]]|now]; simpl; try done; intros Hc E;
    destruct Hc as (e & He & now' & Ei); try congruence;
    apply wire_of_index in He as [->|(j & Hj & ->)]; simplify_eq; [done|].
  split; [done|]. left. eauto.
Qed.

Lemma delivers_wire user id msg acct ins :
  ChunkedEncodedMessage msg ≠ [] →
  (∀ e, e ∈ message_wire id msg acct → Exists (delivery user e) ins) →
  ∀ j, 0 ≤ j < Z.of_nat (length (ChunkedEncodedMessage msg)) →
    Exists (delivers id user (ChunkedEncodedMessage msg) (Signature msg) acct j) ins.
Proof.
  intros Hne Hall j Hj. unfold delivers. destruct (Z.eqb_spec j 0) as [->|Hj0].
  - apply (Hall (WSigned _)), wire_of_index. by left.
  - apply (Hall (WChunk (orig_chunk id (ChunkedEncodedMessage msg) j))), wire_of_index.
    right. exists j. split; [lia|done].
Qed.

(** Every event of a message, delivered in time, makes its receiver hand over the message
    and nothing else. *)
Lemma wire_reassembled botUserID user id msg acct t0 ins st :
  ChunkedEncodedMessage msg ≠ [] →
  sendable botUserID id user (ChunkedEncodedMessage msg) →
  pending st → st !! id = None → Forall well_typed ins → Forall (timely t0) ins →
  Forall (comes_from user id (message_wire id msg acct)) ins →
  (∀ e, e ∈ message_wire id msg acct → Exists (delivery user e) ins) →
  let out := (run AddressFromUserID botUserID id ins st).2 in
  out ≠ [] ∧ Forall (λ o, o =
    original AddressFromUserID user (ChunkedEncodedMessage msg) (Signature msg) acct) out.
Proof.
  intros Hne Hok Hp Hid Hwt Ht Hc Hall out.
  assert (Forall (genuine id user (ChunkedEncodedMessage msg) (Signature msg) acct) ins) as Hg.
  { eapply Forall_impl; [exact Hc|]. apply comes_from_genuine. }
  assert (safe_store id (ChunkedEncodedMessage msg) (Signature msg) acct st) as Hs.
  { intros m Hm. congruence. }
  split; [|by apply run_safe].
  destruct (run_progress AddressFromUserID botUserID id user (ChunkedEncodedMessage msg)
    (Signature msg) acct Hne t0 ins st) as [Hr|Hr]; try done.
  - intros m Hm. congruence.
  - exfalso. eapply all_held_complete; [done| |by apply run_pending].
    intros j Hj. apply Hr; [done|]. left. by apply delivers_wire.
Qed.
End Delivery.

(** A send that succeeds has counted the chunks in 32 bits. *)
Lemma SendMessage_counts {HS R} `{!LruCache string string R} (client : Client HS) toUser id msg
    sendTo acct (s s' : @state HS R) :
  SendMessage client toUser id msg sendTo acct s = (s', Ok tt) →
  ChunkedEncodedMessage msg ≠ [] ∧ Z.of_nat (length (ChunkedEncodedMessage msg)) < 2 ^ 32.
Proof.
  unfold SendMessage. intros E. apply bind_Ok_inv in E as (s1 & room & _ & E).
  apply bind_Ok_inv in E as (s2 & evs & E & _). unfold liftO in E. injection E as _ E.
  unfold messageEvents in E. destruct (ChunkedEncodedMessage msg) as [|d cs]; [done|].
  split; [done|]. inv_ok.
  match goal with E : MustIntToUInt32 _ = Ok _ |- _ => revert E end.
  unfold MustIntToUInt32, MaxUint32. change (2 ^ 32) with 4294967296.
  destruct (Z.ltb_spec 4294967295 (Z.of_nat (length (d :: cs)))); [by rewrite orb_true_r|lia].
Qed.


(** ** Witnesses *)
#[local] Existing Instance Encoding.Toy.cache.
#[local] Existing Instance example_cache.

Module Toy.
(** User ids as mautrix writes them, addresses in decimal. *)
Definition NewUserID (localpart host : string) : string := localpart +:+ String ":"%char host.
Definition Localpart (userID : string) : string := default "" (head (Split ":"%char userID)).
Definition Hex (a : Z) : string := pretty (Z.to_N a).

Lemma lower_digit c : is_digit c → ascii_lower c = c.
Proof.
  destruct c as [[] [] [] [] [] [] [] []]; try reflexivity; intros [x Hx]; vm_compute in Hx; discriminate.
Qed.

Lemma ToLower_id s : (∀ c, ascii_lower c ≠ c → avoids c s) → ToLower s = s.
Proof.
  induction s as [|c s IH]; intros Hs; simpl; [done|]. f_equal.
  - destruct (decide (ascii_lower c = c)) as [|Hc]; [done|]. by destruct (Hs c Hc).
  - apply IH. intros d Hd. by apply (Hs d Hd).
Qed.

Lemma ToLower_Hex a : ToLower (Hex a) = Hex a.
Proof. apply ToLower_id. intros c Hc. apply pretty_N_avoids. by intros ?%lower_digit. Qed.

#[global] Instance ids : UserIDs.
Proof.
  refine {| Delivery.NewUserID := NewUserID; Delivery.Localpart := Localpart; Address_Hex := Hex;
            Address_HexToAddress s := default 0 (SetString10 s) |}.
  - intros a host. rewrite ToLower_Hex. unfold Localpart, NewUserID.
    rewrite Split_app; [done|]. apply pretty_N_avoids. by intros [x Hx].
  - intros a [Ha _]. rewrite ToLower_Hex. unfold Hex. rewrite SetString10_pretty. simpl.
    by rewrite Z2N.id.
Defined.

(** A ping of bot 1 to bot 2, in two chunks. *)
Definition encoded :=
  EncodeMessage Encoding.Toy.calm 16 1 1000 [] Encoding.Toy.nonce Encoding.Toy.ping 2
    (Some Encoding.Toy.key) 11 (Encoding.Toy.start example_keys).
Definition enc : EncodedSignedMessage :=
  match encoded.2 with Ok e => e | _ => {| ChunkedEncodedMessage := []; Signature := [] |} end.
Definition sending :=
  SendMessage example_client (λ a, UserIDFromAddress a "host") "id" enc 2 11 example_state.

Definition deliver (e : wire_event) : input :=
  match e with
  | WSigned c => EvtSigned 3 {| Sender := "1:host"; Content := ParsedSigned c |}
  | WChunk c => EvtChunk 2 {| Sender := "1:host"; Content := ParsedChunk c |}
  end.
(** Delivered backwards, and again. *)
Definition inputs : list input :=
  deliver <$> (reverse (sent sending.1).*2 ++ (sent sending.1).*2).

Definition counted (i : input) : bool :=
  match i with
  | EvtSigned _ {| Content := ParsedSigned c |} => (0 <=? ChunksCount c) && (ChunksCount c <? 2 ^ 32)
  | EvtChunk _ {| Content := ParsedChunk c |} => (0 <=? ChunkIndex c) && (ChunkIndex c <? 2 ^ 32)
  | _ => true
  end && (0 <=? input_time i) && (input_time i <=? partialMessageTTL).

Lemma counted_ok i : counted i = true → well_typed i ∧ timely 0 i.
Proof.
  unfold counted, timely, in_uint. rewrite !andb_true_iff, !Z.leb_le. intros [[Hc ?] ?].
  split; [|lia]. destruct i as [now [u [c|c|]]|now [u [c|c|]]|now]; simpl in *; try done;
    rewrite andb_true_iff, Z.leb_le, Z.ltb_lt in Hc; exact Hc.
Qed.

Lemma inputs_ok : Forall well_typed inputs ∧ Forall (timely 0) inputs.
Proof.
  assert (forallb counted inputs = true) as Hc by (vm_compute; reflexivity).
  rewrite forallb_forall in Hc.
  split; apply Forall_forall; intros i Hi; apply counted_ok, Hc; by apply list_elem_of_In.
Qed.

Definition got := (run AddressFromUserID "2:host" "id" inputs ∅).2.
End Toy.

