(* ===== verification/Exchange.v ===== *)
(** * How two bots come to encrypt (internal/messaging/encoding, internal/messaging/processor.go)

    A request is sent with a new session key, a response with the one its request came
    with; a key travels only to a bot whose public key is stored, and a public key is
    stored when a message of its bot is decoded.  Here are messages between two bots one
    after the other, with what each leaves in the stores of both. *)
From S2P Require Import Prelude Cache Txn Message Encoding.
From stdpp Require Import gmap.
Import Encoding.Encryption.

#[local] Open Scope Z_scope.

Section Exchange.
Context `{CodecLaws PubKey PrivKey Content} `{AEAD}.
Context {C : Type} `{!LruCache Z (option PubKey) C}.

Abbreviation keys := (Txn (gmap Z bytes) C).

Definition address (bot : PrivKey) : Z := PubkeyToAddress (pub bot).

(** Nobody else has the address of the bot. *)
Definition own_address (bot : PrivKey) : Prop := ∀ pk, PubkeyToAddress pk = address bot → pk = pub bot.

(** One message: encoded by a bot with a session key or without, and decoded by another,
    which learns [received]; any call to the two databases may fail on the way. *)
Inductive transfers (from to : PrivKey) (st1 st2 : keys) (msg : Message Content)
    (sharedKey : option Key) (msg' : Message Content) (received : option Key) (st1' st2' : keys) : Prop :=
  | transfer fault1 fault2 max now now' rnd nonce sender sender' enc spare :
      0 < max → encodable msg sharedKey sender → full_nonce nonce → in_time now now' →
      EncodeMessage fault1 max from now rnd nonce msg (address to) sharedKey sender st1 = (st1', Ok enc) →
      DecodeAndVerifyMessage fault2 to now' spare enc (address from) st2 =
        (st2', Ok (msg', received, sender')) →
      transfers from to st1 st2 msg sharedKey msg' received st1' st2'.

Lemma DecodeAndVerifyMessage_keys fault (dec : PrivKey) now spare enc sender
    (s s' : keys) (r : Message Content * option Key * Z) :
  keys_inv s →
  DecodeAndVerifyMessage fault dec now spare enc sender s = (s', Ok r) →
  ∃ pk msg key acct, verifyAndDecode dec now spare enc sender = Ok (pk, (msg, key, acct)) ∧
    r = (with_timestamps msg, key, acct) ∧ keys_inv s' ∧
    committed s' = <[sender := CompressPubkey pk]> (committed s).
Proof.
  intros Hinv. unfold DecodeAndVerifyMessage, mbind, M_bind, liftO at 1.
  destruct (verifyAndDecode dec now spare enc sender) as [[pk [[msg key] acct]]|e|p] eqn:E; try done.
  destruct (verifyAndDecode_authentic _ _ _ _ _ _ _ E) as [_ Ha].
  destruct (setBotPubKey_spec fault sender pk s Ha Hinv) as [Hk Hset].
  unfold wrapS. destruct (setBotPubKey fault sender pk s) as [s1 o1]. simpl in *.
  destruct Hset as [[-> Hc]|[[e ->] Hc]]; simpl; intros [= <- <-]; eauto 10.
Qed.

(** What a message leaves: the receiver has the sender's key, the sender learns nothing;
    the session key travels to a bot whose public key the sender had. *)
Lemma transfer_spec from to st1 st2 msg key msg' received st1' st2' :
  keys_inv st1 → keys_inv st2 → own_address to →
  transfers from to st1 st2 msg key msg' received st1' st2' →
  keys_inv st1' ∧ keys_inv st2' ∧ committed st1' = committed st1 ∧
  committed st2' = <[address from := CompressPubkey (pub from)]> (committed st2) ∧
  msg' = with_timestamps msg ∧
  received = if decide (address to ∈ dom (committed st1)) then key else None.
Proof.
  intros Hst1 Hst2 Hto [fault1 fault2 max now now' rnd nonce sender sender' enc spare Hmax Henc Hn Ht E D].
  pose proof (EncodeMessage_keys fault1 max from now rnd nonce msg (address to) key sender st1 Hst1) as Hk.
  rewrite E in Hk. destruct Hk as [Hk1 Hc1].
  pose proof (EncodeMessage_decodes _ _ _ _ _ _ _ _ _ _ _ _ _ spare _ _ Hmax Henc Hn Ht Hst1 Hto E) as Ed.
  destruct (DecodeAndVerifyMessage_keys _ _ _ _ _ _ _ _ _ Hst2 D) as (pk & m & k & acct & Ed' & Er & Hk2 & Hc2).
  unfold address in *. rewrite Ed in Ed'. by simplify_eq.
Qed.

End Exchange.

(** ** Witnesses *)
#[local] Existing Instance Encoding.Toy.cache.

Module Toy.
Abbreviation keys := (Txn (gmap Z bytes) (list (Z * option Z))).

(** A ping from one bot to another, and the stores it leaves. *)
Definition encoded (from to : Z) (key : option Key) (st : keys) :=
  EncodeMessage Encoding.Toy.calm 16 from 1000 [] Encoding.Toy.nonce Encoding.Toy.ping to key 11 st.
Definition enc (from to : Z) (key : option Key) (st : keys) : EncodedSignedMessage :=
  match (encoded from to key st).2 with
  | Ok e => e
  | _ => {| ChunkedEncodedMessage := []; Signature := [] |}
  end.
Definition decoded (from to : Z) (key : option Key) (st1 st2 : keys) :=
  DecodeAndVerifyMessage (PrivKey := Z) (Content := Z) Encoding.Toy.calm to 2000 []
    (enc from to key st1) from st2.

Definition start : keys := Encoding.Toy.start ∅.
Definition a1 := (encoded 1 2 (Some Encoding.Toy.key) start).1.
Definition b1 := (decoded 1 2 (Some Encoding.Toy.key) start start).1.
Definition b2 := (encoded 2 1 None b1).1.
Definition a2 := (decoded 2 1 None b1 a1).1.
Definition a3 := (encoded 1 2 (Some Encoding.Toy.key) a2).1.
Definition b3 := (decoded 1 2 (Some Encoding.Toy.key) a2 b2).1.

Lemma encodable_ping key : key = None ∨ key = Some Encoding.Toy.key → encodable Encoding.Toy.ping key 11.
Proof.
  intros [-> | ->]; [|apply Encoding.Toy.ping_encodable].
  by destruct Encoding.Toy.ping_encodable; split.
Qed.

Lemma start_keys_inv : keys_inv start.
Proof. split; [intros a b Hl; discriminate|apply map_Forall_empty]. Qed.

Lemma ping_transfers from to key received st1 st2 :
  key = None ∨ key = Some Encoding.Toy.key →
  (encoded from to key st1).2 = Ok (enc from to key st1) →
  (decoded from to key st1 st2).2 = Ok (with_timestamps Encoding.Toy.ping, received, 11) →
  transfers from to st1 st2 Encoding.Toy.ping key (with_timestamps Encoding.Toy.ping) received
    (encoded from to key st1).1 (decoded from to key st1 st2).1.
Proof.
  intros Hkey E D.
  apply (transfer _ _ _ _ _ _ _ _ _ _ Encoding.Toy.calm Encoding.Toy.calm 16 1000 2000 []
    Encoding.Toy.nonce 11 11 (enc from to key st1) []).
  - lia.
  - by apply encodable_ping.
  - by intros n [= <-].
  - vm_compute. split_and!; congruence.
  - rewrite <- E. apply surjective_pairing.
  - rewrite <- D. apply surjective_pairing.
Qed.
End Toy.

