(* ===== verification/Processor.v ===== *)
(** * The message processor (internal/messaging/processor.go)

    The first part is the processor as a program: what one goroutine does with one
    message, over the class [ProcessorEnv] of the components it calls.  Module
    [Rendezvous] is what its goroutines do to each other: requesters that wait on
    a channel of their own, and handlers of incoming responses that look the
    channel up and send on it, in any interleaving. *)
From S2P Require Import Prelude Message TtmAccounts Encoding Resolver.

#[local] Open Scope Z_scope.
#[local] Arguments String.append : simpl nomatch.

Definition ErrUnknownMessageCategory : error := Sentinel "messaging.ErrUnknownMessageCategory".
Definition ErrUnsupportedService : error := Sentinel "messaging.ErrUnsupportedService".
Definition ErrExceededResponseTimeout : error := Sentinel "messaging.ErrExceededResponseTimeout".
Definition ErrBusinessProcess : error := Sentinel "rpc.ErrBusinessProcess".
Definition ErrBlockchain : error := Sentinel "rpc.ErrBlockchain".
Definition ErrInvalidProto : error := Sentinel "rpc.ErrInvalidProto".
Definition ErrServiceNotSupported : error := Sentinel "ttmaccounts.ErrServiceNotSupported".

Definition CheckpointP2PRequestMessageSentToServer := "p2p_request_message_sent_to_server".
Definition CheckpointP2PRequestMessageReceivedFromServer := "p2p_request_message_received_from_server".
Definition CheckpointP2PRequestMessageSentToPP := "p2p_request_message_sent_to_pp".
Definition CheckpointP2PResponseMessageReceivedFromPP := "p2p_response_message_received_from_pp".
Definition CheckpointP2PResponseMessageSentToServer := "p2p_response_message_sent_to_server".
Definition CheckpointP2PResponseMessageReceivedFromServer :=
  "p2p_response_message_received_from_server".

(** The context a call is made with: the caller's, or one that is never done. *)
Inductive Ctx := CallerCtx | BackgroundCtx.

(** The components the processor calls. *)
Class ProcessorEnv (X Content Svc : Type) := {
  env_accounts :: TtmAccounts X;
  GetBotAddress : Z → M X Z;
  SetBotStatus : Ctx → Z → Z → M X unit;
  NewKey : M X Encryption.Key;
  EncodeMessage : Message Content → Z → option Encryption.Key → Z → M X EncodedSignedMessage;
  DecodeAndVerifyMessage : EncodedSignedMessage → Z →
    M X (Message Content * option Encryption.Key * Z);
  SendMessage : EncodedSignedMessage → Z → Z → M X unit;
  PrepareRequest : Content → Content;
  ProcessResponseMessage : Content → Content → M X Content;
  PrepareResponseMessage : Content → Content → M X Content;
  DoServiceRequest : string → Svc → Content → Z → Z → M X (Content * string);
  GetService : string → option Svc;
  InvalidProtoErrResponseAndType : Svc → string → Content * string;
  protovalidate_Validate : Content → option error;
  UnixMilli : M X Z;
  (** [select] of the response channel and the end of the context. *)
  await : nat → M X (option (Message Content));
  (** [responseChan <- msg; close(responseChan)] *)
  deliver : nat → Message Content → M X unit
}.

Section Processor.
Context {X Content Svc : Type} `{!ProcessorEnv X Content Svc}.
Variable botAddress ttmAccountAddress : Z.

Record messageProcessor := {
  responseChannels : gmap string nat;
  next_chan : nat;
  env : X
}.

Definition on_env {A} (m : M X A) : M messageProcessor A := λ p,
  let '(x, o) := m (env p) in
  ({| responseChannels := responseChannels p; next_chan := next_chan p; env := x |}, o).

Definition set_channels (f : gmap string nat → gmap string nat) (p : messageProcessor)
    : messageProcessor :=
  {| responseChannels := f (responseChannels p); next_chan := next_chan p; env := env p |}.

(** [make(chan *message.Message)] *)
Definition make_chan : M messageProcessor nat := λ p,
  ({| responseChannels := responseChannels p; next_chan := S (next_chan p); env := env p |},
   Ok (next_chan p)).

Definition getResponseChannel (requestID : string) : M messageProcessor (option nat) := λ p,
  (p, Ok (responseChannels p !! requestID)).
Definition setResponseChannel (requestID : string) (ch : nat) : M messageProcessor unit := λ p,
  (set_channels <[requestID := ch]> p, Ok tt).
Definition deleteResponseChannel (requestID : string) (p : messageProcessor) : messageProcessor :=
  set_channels (delete requestID) p.

(** [msg.Timestamps.Stamp(checkpoint)] *)
Definition stamp (checkpoint : string) (msg : Message Content) : M messageProcessor (Message Content) :=
  now ← on_env UnixMilli;
  ts ← liftO (Stamp now checkpoint (msg_Timestamps msg));
  retS {| msg_Type := msg_Type msg; msg_Content := msg_Content msg;
          msg_RequestID := msg_RequestID msg; msg_Timestamps := ts |}.

Definition with_content (c : Content) (msg : Message Content) : Message Content :=
  {| msg_Type := msg_Type msg; msg_Content := c; msg_RequestID := msg_RequestID msg;
     msg_Timestamps := msg_Timestamps msg |}.

(** ** Responding *)

(** The response shares the map of timestamps of the request: it carries every stamp
    made until it is sent. *)
Definition validateAndRespond (requestMsg : Message Content) (serviceClient : Svc)
    (fromTTMAccount toTTMAccount : Z) : M messageProcessor (Message Content) :=
  match protovalidate_Validate (msg_Content requestMsg) with
  | Some e =>
      let '(content, type) :=
        InvalidProtoErrResponseAndType serviceClient "request message validation failed: %v" in
      retS {| msg_Type := type; msg_Content := content; msg_RequestID := msg_RequestID requestMsg;
              msg_Timestamps := msg_Timestamps requestMsg |}
  | None =>
      requestMsg ← stamp CheckpointP2PRequestMessageSentToPP requestMsg;
      '(content, type) ← on_env (DoServiceRequest (msg_RequestID requestMsg) serviceClient
        (msg_Content requestMsg) fromTTMAccount toTTMAccount);
      requestMsg ← stamp CheckpointP2PResponseMessageReceivedFromPP requestMsg;
      content ← on_env (PrepareResponseMessage (msg_Content requestMsg) content);
      retS {| msg_Type := type; msg_Content := content; msg_RequestID := msg_RequestID requestMsg;
              msg_Timestamps := msg_Timestamps requestMsg |}
  end.

Definition respond (requestMsg : Message Content) (senderBotAddress senderTTMAccountAddress : Z)
    (sharedKey : option Encryption.Key) : M messageProcessor unit :=
  match GetService (msg_Type requestMsg) with
  | None => throwS (Wrapf "%w: %s" ErrUnsupportedService)
  | Some service =>
      responseMsg ← validateAndRespond requestMsg service senderTTMAccountAddress ttmAccountAddress;
      responseMsg ← stamp CheckpointP2PResponseMessageSentToServer responseMsg;
      encodedResponseMessage ← wrapS "failed to encode response message: %w"
        (on_env (EncodeMessage responseMsg senderBotAddress sharedKey ttmAccountAddress));
      on_env (SendMessage encodedResponseMessage senderBotAddress ttmAccountAddress)
  end.

Definition forwardToHandler (msg : Message Content) : M messageProcessor unit :=
  responseChan ← getResponseChannel (msg_RequestID msg);
  match responseChan with
  | None => throwS (Errorf "no response channel for request ID: %s")
  | Some responseChan => on_env (deliver responseChan msg)
  end.

(** ** Receiving *)
Definition processIncomingMessage (msg : Message Content)
    (senderBotAddress senderTTMAccountAddress : Z) (sharedKey : option Encryption.Key)
    : M messageProcessor unit :=
  allowed ← wrapS "failed to verify bot authorization for TTM account %s and bot %s: %w"
    (on_env (api_IsBotAllowed senderTTMAccountAddress senderBotAddress));
  if negb allowed then throwS (Errorf "bot %s is not authorized for TTM account %s") else
  match Type_Category (msg_Type msg) with
  | Request =>
      msg ← stamp CheckpointP2PRequestMessageReceivedFromServer msg;
      wrapS "failed to respond to request message %s (id %s): %w"
        (respond msg senderBotAddress senderTTMAccountAddress sharedKey)
  | Response =>
      msg ← stamp CheckpointP2PResponseMessageReceivedFromServer msg;
      wrapS "failed to forward response message %s (id %s) to its handler: %w"
        (forwardToHandler msg)
  | Unknown => throwS ErrUnknownMessageCategory
  end.

(** The goroutine [Start] makes for a received message; the errors are logged and a
    panic is recovered from, so its outcome goes nowhere. *)
Definition handleReceived (m : EncodedSignedMessageWithSender) : M messageProcessor unit :=
  if SenderBotAddress m =? botAddress then retS tt
  else if ews_SenderTTMAccountAddress m =? ttmAccountAddress then retS tt
  else
    '(msg, sharedKey, senderTTMAccountAddress) ←
      on_env (DecodeAndVerifyMessage (ews_Message m) (SenderBotAddress m));
    if senderTTMAccountAddress =? ttmAccountAddress then retS tt
    else processIncomingMessage msg (SenderBotAddress m) senderTTMAccountAddress sharedKey.

(** ** Requesting *)

(** The end of [SendRequestMessage]: wait for the response or the timeout. *)
Definition awaitResponse (requestMsg : Message Content) (responseChan : nat) (recipientBotAddr : Z)
    : M messageProcessor (Message Content) :=
  received ← on_env (await responseChan);
  match received with
  | Some responseMsg =>
      attempt (on_env (SetBotStatus CallerCtx recipientBotAddr BotStatusReachable)) ;;
      match protovalidate_Validate (msg_Content responseMsg) with
      | Some e => throwS (Wrapf2 "response validation failed: %w: %w" ErrInvalidProto e)
      | None =>
          content ← on_env (ProcessResponseMessage (msg_Content requestMsg) (msg_Content responseMsg));
          retS (with_content content responseMsg)
      end
  | None =>
      attempt (on_env (SetBotStatus BackgroundCtx recipientBotAddr BotStatusUnreachable)) ;;
      throwS (Wrapf "%w of %v seconds for request: %s" ErrExceededResponseTimeout)
  end.

(** What [SendRequestMessage] does with its response channel registered. *)
Definition requestWith (responseChan : nat) (requestMsg : Message Content)
    (recipientTTMAccount : Z) : M messageProcessor (Message Content) :=
  resolved ← attempt (on_env (GetBotAddress recipientTTMAccount));
  match resolved with
  | inr e => throwS (Wrapf2 "%w: failed to resolve bot address for TTM account %s: %w"
                       ErrBusinessProcess e)
  | inl recipientBotAddr =>
      checked ← attempt (on_env (api_IsServiceSupported recipientTTMAccount
        (ToServiceName (msg_Type requestMsg))));
      match checked with
      | inr e => throwS (Wrapf2 "%w: %w" ErrBlockchain
                           (Wrapf "failed to check service support for service %s: %w" e))
      | inl false => throwS (Wrapf2 "%w: %w" ErrBusinessProcess
                               (Wrapf "service %s not supported by TTMAccount %s: %w"
                                  ErrServiceNotSupported))
      | inl true =>
          let requestMsg := with_content (PrepareRequest (msg_Content requestMsg)) requestMsg in
          sharedKey ← wrapS "failed to create new encryption key: %w" (on_env NewKey);
          requestMsg ← stamp CheckpointP2PRequestMessageSentToServer requestMsg;
          encodedRequestMessage ← wrapS "failed to encode request message: %w"
            (on_env (EncodeMessage requestMsg recipientBotAddr (Some sharedKey) ttmAccountAddress));
          wrapS "failed to send request message: %w"
            (on_env (SendMessage encodedRequestMessage recipientBotAddr ttmAccountAddress)) ;;
          awaitResponse requestMsg responseChan recipientBotAddr
      end
  end.

Definition SendRequestMessage (requestMsg : Message Content) (recipientTTMAccount : Z)
    : M messageProcessor (Message Content) :=
  responseChan ← make_chan;
  setResponseChannel (msg_RequestID requestMsg) responseChan ;;
  deferS (deleteResponseChannel (msg_RequestID requestMsg))
    (requestWith responseChan requestMsg recipientTTMAccount).
End Processor.

(** ** Requesters and forwarders, interleaved *)
Module Rendezvous.
Section Rendezvous.
Context {Content : Type}.

(** Where a goroutine in [SendRequestMessage] is, holding its channel. *)
Inductive requester :=
  | Preparing (id : string)                       (* registered, not waiting yet *)
  | Selecting (id : string)                       (* in the [select] *)
  | Received (id : string) (m : Message Content)
  | ReceivedNil (id : string)                     (* the zero value of a closed channel *)
  | GaveUp (id : string)                          (* timeout, or an earlier error *)
  | Returned (id : string) (m : option (Message Content)).

(** Where a goroutine in [forwardToHandler] is. *)
Inductive forwarder :=
  | Looking (m : Message Content)                 (* before [getResponseChannel] *)
  | Sending (m : Message Content) (c : nat)       (* blocked in [responseChan <- msg] *)
  | Closing (m : Message Content) (c : nat)
  | Done (m : Message Content) (c : nat)          (* delivered and closed *)
  | NoChannel (m : Message Content)
  | Panicked (m : Message Content).               (* send on, or close of, a closed channel *)

(** Requesters by their channel, forwarders by their number. *)
Record pool := {
  channels : gmap string nat;
  closed : gset nat;
  requesters : gmap nat requester;
  forwarders : gmap nat forwarder
}.

Definition initial : pool :=
  {| channels := ∅; closed := ∅; requesters := ∅; forwarders := ∅ |}.

Definition set_requester (c : nat) (r : requester) (p : pool) : pool :=
  {| channels := channels p; closed := closed p; requesters := <[c := r]> (requesters p);
     forwarders := forwarders p |}.
Definition set_forwarder (f : nat) (w : forwarder) (p : pool) : pool :=
  {| channels := channels p; closed := closed p; requesters := requesters p;
     forwarders := <[f := w]> (forwarders p) |}.
Definition register (id : string) (c : nat) (p : pool) : pool :=
  {| channels := <[id := c]> (channels p); closed := closed p; requesters := requesters p;
     forwarders := forwarders p |}.
Definition unregister (id : string) (p : pool) : pool :=
  {| channels := delete id (channels p); closed := closed p; requesters := requesters p;
     forwarders := forwarders p |}.
Definition close (c : nat) (p : pool) : pool :=
  {| channels := channels p; closed := {[c]} ∪ closed p; requesters := requesters p;
     forwarders := forwarders p |}.

Inductive step : pool → pool → Prop :=
  (** a request starts: a new channel, registered under the request's id *)
  | step_request id c p :
      requesters p !! c = None →
      step p (set_requester c (Preparing id) (register id c p))
  | step_select id c p :
      requesters p !! c = Some (Preparing id) → step p (set_requester c (Selecting id) p)
  (** an error before the [select] *)
  | step_fail id c p :
      requesters p !! c = Some (Preparing id) → step p (set_requester c (GaveUp id) p)
  | step_timeout id c p :
      requesters p !! c = Some (Selecting id) → step p (set_requester c (GaveUp id) p)
  | step_nil id c p :
      requesters p !! c = Some (Selecting id) → c ∈ closed p →
      step p (set_requester c (ReceivedNil id) p)
  (** the deferred deletion and the return *)
  | step_return id c p :
      requesters p !! c = Some (GaveUp id) →
      step p (set_requester c (Returned id None) (unregister id p))
  | step_answer id c m p :
      requesters p !! c = Some (Received id m) →
      step p (set_requester c (Returned id (Some m)) (unregister id p))
  (** a response arrives *)
  | step_arrive f m p :
      forwarders p !! f = None → step p (set_forwarder f (Looking m) p)
  | step_lookup f m c p :
      forwarders p !! f = Some (Looking m) → channels p !! msg_RequestID m = Some c →
      step p (set_forwarder f (Sending m c) p)
  | step_no_channel f m p :
      forwarders p !! f = Some (Looking m) → channels p !! msg_RequestID m = None →
      step p (set_forwarder f (NoChannel m) p)
  (** the rendezvous on an unbuffered channel *)
  | step_rendezvous f m c id p :
      forwarders p !! f = Some (Sending m c) → requesters p !! c = Some (Selecting id) →
      c ∉ closed p →
      step p (set_requester c (Received id m) (set_forwarder f (Closing m c) p))
  | step_send_closed f m c p :
      forwarders p !! f = Some (Sending m c) → c ∈ closed p →
      step p (set_forwarder f (Panicked m) p)
  | step_close f m c p :
      forwarders p !! f = Some (Closing m c) → c ∉ closed p →
      step p (set_forwarder f (Done m c) (close c p))
  | step_close_closed f m c p :
      forwarders p !! f = Some (Closing m c) → c ∈ closed p →
      step p (set_forwarder f (Panicked m) p).

Definition reachable : pool → Prop := rtc step initial.

(** ** Invariant *)
Definition req_id (r : requester) : string :=
  match r with
  | Preparing id | Selecting id | Received id _ | ReceivedNil id | GaveUp id | Returned id _ => id
  end.

Definition waiting (r : requester) : Prop :=
  match r with Preparing _ | Selecting _ => True | _ => False end.

Definition got (r : requester) : option (Message Content) :=
  match r with Received _ m => Some m | Returned _ m => m | _ => None end.

(** A forwarder that holds a channel took it from the registration of a request with
    the id of its message; the closed channels, and those about to be closed, belong
    to requesters that are past their [select]; each channel is closed once. *)
Record inv (p : pool) : Prop := {
  inv_registered id c :
    channels p !! id = Some c → ∃ r, requesters p !! c = Some r ∧ req_id r = id;
  inv_sending f m c :
    forwarders p !! f = Some (Sending m c) →
    ∃ r, requesters p !! c = Some r ∧ req_id r = msg_RequestID m;
  inv_closing f m c :
    forwarders p !! f = Some (Closing m c) →
    c ∉ closed p ∧ ∃ r, requesters p !! c = Some r ∧ got r = Some m;
  inv_one_closing f f' m m' c :
    forwarders p !! f = Some (Closing m c) → forwarders p !! f' = Some (Closing m' c) → f = f';
  inv_closed c : c ∈ closed p → ∃ r, requesters p !! c = Some r ∧ is_Some (got r);
  inv_got c r m :
    requesters p !! c = Some r → got r = Some m →
    msg_RequestID m = req_id r ∧
    ∃ f w, forwarders p !! f = Some w ∧ (w = Closing m c ∨ w = Done m c);
  inv_no_nil c id : requesters p !! c ≠ Some (ReceivedNil id)
}.

Ltac look :=
  repeat match goal with
  | H : <[_ := _]> _ !! _ = Some _ |- _ =>
      apply lookup_insert_Some in H as [[? H]|[? H]]; simplify_eq/=
  | H : delete _ _ !! _ = Some _ |- _ => apply lookup_delete_Some in H as [? H]
  end.

(** A requester moves on, keeping its request and its message. *)
Lemma inv_move c r r' p :
  inv p → requesters p !! c = Some r → req_id r' = req_id r → got r' = got r →
  (∀ id, r' ≠ ReceivedNil id) → inv (set_requester c r' p).
Proof.
  intros [H1 H2 H3 H4 H5 H6 H7] Hr Hid Hgot Hnil.
  assert (∀ (P : requester → Prop) c', (P r → P r') →
    (∃ r0, requesters p !! c' = Some r0 ∧ P r0) →
    ∃ r0, <[c := r']> (requesters p) !! c' = Some r0 ∧ P r0) as Hex.
  { intros P c' HP (r0 & Hr0 & HPr0). destruct (decide (c = c')) as [<-|Hne].
    - exists r'. rewrite lookup_insert_eq. simplify_eq. auto.
    - exists r0. by rewrite lookup_insert_ne. }
  split; simpl.
  - intros id c' Hc. apply Hex; [by rewrite Hid|by apply H1].
  - intros f m c' Hf. apply Hex; [by rewrite Hid|by eapply H2].
  - intros f m c' Hf. destruct (H3 f m c' Hf) as [Hc Hg]. split; [done|].
    apply (Hex (λ r, got r = Some m)); [by rewrite Hgot|done].
  - done.
  - intros c' Hc. apply (Hex (λ r, is_Some (got r))); [by rewrite Hgot|by apply H5].
  - intros c' r0 m Hr0 Hg. look; [|by eapply H6]. rewrite Hid. rewrite Hgot in Hg. by eapply H6.
  - intros c' id Hc. look; [by eapply Hnil|by eapply H7].
Qed.

(** A forwarder that delivers nothing moves on. *)
Lemma inv_forward f w p :
  inv p → (∀ m c, forwarders p !! f ≠ Some (Closing m c) ∧ forwarders p !! f ≠ Some (Done m c)) →
  (∀ m c, w ≠ Closing m c) →
  (∀ m c, w = Sending m c → ∃ r, requesters p !! c = Some r ∧ req_id r = msg_RequestID m) →
  inv (set_forwarder f w p).
Proof.
  intros [H1 H2 H3 H4 H5 H6 H7] Hold Hnew Hsend. split; simpl; try done.
  - intros f' m c Hf. look; [by eapply Hsend|by eapply H2].
  - intros f' m c Hf. look; [by destruct (Hnew m c)|by eapply H3].
  - intros f1 f2 m m' c Hf1 Hf2. look; try (by edestruct Hnew); by eapply H4.
  - intros c r m Hr Hg. destruct (H6 c r m Hr Hg) as [Hid (f' & w' & Hf' & Hw')].
    split; [done|]. exists f', w'. split; [|done]. rewrite lookup_insert_ne; [done|].
    intros ->. destruct (Hold m c) as [? ?]. destruct Hw' as [-> | ->]; done.
Qed.

Lemma inv_unregister id p : inv p → inv (unregister id p).
Proof.
  intros [H1 H2 H3 H4 H5 H6 H7]. split; simpl; try done.
  intros id' c Hc. look. by apply H1.
Qed.

Lemma inv_request id c p :
  inv p → requesters p !! c = None → inv (set_requester c (Preparing id) (register id c p)).
Proof.
  intros [H1 H2 H3 H4 H5 H6 H7] Hc.
  assert (∀ (P : requester → Prop) c', (∃ r0, requesters p !! c' = Some r0 ∧ P r0) →
    ∃ r0, <[c := Preparing id]> (requesters p) !! c' = Some r0 ∧ P r0) as Hex.
  { intros P c' (r0 & Hr0 & HP). exists r0. rewrite lookup_insert_ne; [done|]. congruence. }
  split; simpl.
  - intros id' c' Hl. look; [|by apply Hex, H1]. exists (Preparing id'). by rewrite lookup_insert_eq.
  - intros f m c' Hf. by eapply Hex, H2.
  - intros f m c' Hf. destruct (H3 f m c' Hf) as [? Hg]. split; [done|].
    by apply (Hex (λ r, got r = Some m)).
  - done.
  - intros c' Hl. by apply (Hex (λ r, is_Some (got r))), H5.
  - intros c' r m Hr Hg. look. by eapply H6.
  - intros c' id' Hr. look. by eapply H7.
Qed.

Lemma inv_rendezvous f m c id p :
  inv p → forwarders p !! f = Some (Sending m c) → requesters p !! c = Some (Selecting id) →
  c ∉ closed p → inv (set_requester c (Received id m) (set_forwarder f (Closing m c) p)).
Proof.
  intros [H1 H2 H3 H4 H5 H6 H7] Hf Hr Hc.
  assert (id = msg_RequestID m) as Hid by (destruct (H2 f m c Hf) as (r & ? & <-); by simplify_eq).
  assert (∀ (P : requester → Prop) c', (P (Selecting id) → P (Received id m)) →
    (∃ r0, requesters p !! c' = Some r0 ∧ P r0) →
    ∃ r0, <[c := Received id m]> (requesters p) !! c' = Some r0 ∧ P r0) as Hex.
  { intros P c' HP (r0 & Hr0 & HPr0). destruct (decide (c = c')) as [<-|Hne].
    - eexists. rewrite lookup_insert_eq. simplify_eq. auto.
    - exists r0. by rewrite lookup_insert_ne. }
  assert (∀ f' m', forwarders p !! f' ≠ Some (Closing m' c)) as Hnone.
  { intros f' m' Hf'. destruct (H3 f' m' c Hf') as [_ (r & ? & Hg)]. by simplify_eq. }
  split; simpl.
  - intros id' c' Hl. apply (Hex (λ r, req_id r = id')); [done|by apply H1].
  - intros f' m' c' Hf'. look. apply (Hex (λ r, req_id r = msg_RequestID m')); [done|by eapply H2].
  - intros f' m' c' Hf'. look.
    + split; [done|]. eexists. by rewrite lookup_insert_eq.
    + destruct (H3 f' m' c' Hf') as [? Hg]. split; [done|].
      by apply (Hex (λ r, got r = Some m')).
  - intros f1 f2 m1 m2 c' Hf1 Hf2. look; try done; try (by edestruct Hnone). by eapply H4.
  - intros c' Hl. apply (Hex (λ r, is_Some (got r))); [by intros [? ?]|by apply H5].
  - intros c' r m' Hr' Hg. look.
    + split; [done|]. exists f. eexists. rewrite lookup_insert_eq. eauto.
    + destruct (H6 c' r m' Hr' Hg) as [? (f' & w & Hf' & Hw)]. split; [done|].
      exists f', w. rewrite lookup_insert_ne; [done|]. intros <-. destruct Hw; simplify_eq.
  - intros c' id' Hr'. look. by eapply H7.
Qed.

Lemma inv_close f m c p :
  inv p → forwarders p !! f = Some (Closing m c) → inv (set_forwarder f (Done m c) (close c p)).
Proof.
  intros [H1 H2 H3 H4 H5 H6 H7] Hf. destruct (H3 f m c Hf) as [Hc (r & Hr & Hg)].
  split; simpl.
  - done.
  - intros f' m' c' Hf'. look. by eapply H2.
  - intros f' m' c' Hf'. look. destruct (H3 f' m' c' Hf') as [Hc' Hg']. split; [|done].
    intros [->%elem_of_singleton|?]%elem_of_union; [|done].
    by destruct (H4 f f' m m' c Hf Hf').
  - intros f1 f2 m1 m2 c' Hf1 Hf2. look. by eapply H4.
  - intros c' [->%elem_of_singleton|Hc']%elem_of_union; [|by apply H5]. exists r. eauto.
  - intros c' r' m' Hr' Hg'. destruct (H6 c' r' m' Hr' Hg') as [? (f' & w & Hf' & Hw)].
    split; [done|]. destruct (decide (f = f')) as [<-|Hne].
    + exists f. eexists. rewrite lookup_insert_eq. split; [done|]. simplify_eq.
      destruct Hw as [[= -> ->]|[=]]; auto.
    + exists f', w. by rewrite lookup_insert_ne.
  - done.
Qed.

Lemma step_inv p p' : inv p → step p p' → inv p'.
Proof.
  intros Hp Hs. destruct Hs.
  - by apply inv_request.
  - by eapply inv_move.
  - by eapply inv_move.
  - by eapply inv_move.
  - destruct (inv_closed _ Hp c) as (r & Hr & [m Hm]); [done|]. by simplify_eq.
  - apply (inv_move c (GaveUp id)); try done. by apply inv_unregister.
  - apply (inv_move c (Received id m)); try done. by apply inv_unregister.
  - apply inv_forward; try done. intros m' c'. by rewrite H.
  - apply inv_forward; try done; [intros m' c'; by rewrite H|]. intros m' c' [= <- <-].
    by apply (inv_registered _ Hp).
  - apply inv_forward; try done. intros m' c'. by rewrite H.
  - by apply inv_rendezvous.
  - apply inv_forward; try done. intros m' c'. by rewrite H.
  - by apply inv_close.
  - by destruct (inv_closing _ Hp f m c).
Qed.

Lemma reachable_inv p : reachable p → inv p.
Proof.
  intros Hr. unfold reachable in Hr.
  assert (inv initial) as H0.
  { split; simpl; try done; intros; by rewrite ?lookup_empty in *. }
  revert H0. induction Hr as [|p p1 p2 Hs _ IH]; [done|]. intros Hp. apply IH. by eapply step_inv.
Qed.

(** *** The registrations when no two requests share an id *)
Definition distinct_ids (p : pool) : Prop :=
  ∀ c c' r r', requesters p !! c = Some r → requesters p !! c' = Some r' →
    req_id r = req_id r' → c = c'.

Definition finished (r : requester) : bool :=
  match r with Returned _ _ => true | _ => false end.

(** The registered channels are those of the unfinished requests. *)
Definition registered_exactly (p : pool) : Prop :=
  ∀ id c, channels p !! id = Some c ↔
    ∃ r, requesters p !! c = Some r ∧ req_id r = id ∧ finished r = false.

Lemma distinct_insert p c r0 r m :
  requesters p !! c = r0 → (∀ r', r0 = Some r' → req_id r' = req_id r) →
  (∀ c1 c2 r1 r2, m !! c1 = Some r1 → m !! c2 = Some r2 → req_id r1 = req_id r2 → c1 = c2) →
  m = <[c := r]> (requesters p) → distinct_ids p.
Proof.
  intros Hr0 Hid Hm -> c1 c2 r1 r2 H1 H2 Heq.
  assert (∀ c' r', requesters p !! c' = Some r' →
    ∃ r'', <[c := r]> (requesters p) !! c' = Some r'' ∧ req_id r'' = req_id r') as Hl.
  { intros c' r' Hc'. destruct (decide (c = c')) as [<-|Hne].
    - exists r. rewrite lookup_insert_eq. split; [done|]. symmetry. apply Hid. congruence.
    - exists r'. by rewrite lookup_insert_ne. }
  destruct (Hl c1 r1 H1) as (r1' & L1 & E1), (Hl c2 r2 H2) as (r2' & L2 & E2).
  eapply Hm; [exact L1|exact L2|congruence].
Qed.

Lemma distinct_step p p' : step p p' → distinct_ids p' → distinct_ids p.
Proof.
  intros Hs Hd.
  destruct Hs; try exact Hd;
    (match goal with H : requesters ?p !! ?c = ?r0 |- _ =>
       eapply (distinct_insert p c r0 _ _ H); [|exact Hd|reflexivity] end);
    by intros ? [=]; subst.
Qed.

Lemma registered_move p c r r' :
  registered_exactly p → requesters p !! c = Some r → req_id r' = req_id r →
  finished r = false → finished r' = false → registered_exactly (set_requester c r' p).
Proof.
  intros Hp Hr Hid Hf Hf' id c'. simpl. rewrite (Hp id c'). split.
  - intros (r0 & Hr0 & Hi & Hfin). destruct (decide (c = c')) as [<-|Hne].
    + exists r'. rewrite lookup_insert_eq. simplify_eq. auto.
    + exists r0. by rewrite lookup_insert_ne.
  - intros (r0 & Hr0 & Hi & Hfin). look; eauto.
Qed.

Lemma registered_finish p c r r' :
  distinct_ids p → registered_exactly p → requesters p !! c = Some r → req_id r' = req_id r →
  finished r = false → finished r' = true →
  registered_exactly (set_requester c r' (unregister (req_id r) p)).
Proof.
  intros Hd Hp Hr Hid Hf Hf' id c'. simpl. split.
  - intros Hl. look. apply Hp in Hl as (r0 & Hr0 & Hi & Hfin). exists r0.
    rewrite lookup_insert_ne; [done|]. intros <-. simplify_eq.
  - intros (r0 & Hr0 & Hi & Hfin). look; [congruence|].
    rewrite lookup_delete_ne; [apply Hp; eauto|]. intros E.
    assert (c = c') as -> by (by eapply Hd). done.
Qed.

Lemma registered_step p p' :
  distinct_ids p' → registered_exactly p → step p p' → registered_exactly p'.
Proof.
  intros Hd Hp Hs. pose proof (distinct_step _ _ Hs Hd) as Hd0. destruct Hs; try exact Hp;
    try (by eapply registered_move).
  - intros id' c'. simpl. split.
    + intros Hl. look; [exists (Preparing id'); by rewrite lookup_insert_eq|].
      apply Hp in Hl as (r & Hr & Hi & Hf). exists r. rewrite lookup_insert_ne; [done|]. congruence.
    + intros (r & Hr & Hi & Hf). look; [by rewrite lookup_insert_eq|].
      rewrite lookup_insert_ne; [apply Hp; eauto|]. intros ->.
      assert (c = c') as ->; [|done]. eapply Hd; simpl;
        [apply lookup_insert_eq|rewrite lookup_insert_ne; eassumption|done].
  - by apply (registered_finish p c (GaveUp id)).
  - by apply (registered_finish p c (Received id m)).
Qed.

Lemma reachable_registered p : reachable p → distinct_ids p → registered_exactly p.
Proof.
  revert p. apply (rtc_ind_r (λ p, distinct_ids p → registered_exactly p) initial).
  - intros _ id c. simpl. split; [done|]. by intros (r & ? & _).
  - intros p1 p2 _ Hs IH Hd. eapply registered_step; [done| |done]. apply IH. by eapply distinct_step.
Qed.

(** *** A forwarder left behind *)
Definition abandoned (f : nat) (m : Message Content) (c : nat) (p : pool) : Prop :=
  forwarders p !! f = Some (Sending m c) ∧ c ∉ closed p ∧
  ∃ id, requesters p !! c = Some (GaveUp id) ∨ requesters p !! c = Some (Returned id None).

Lemma abandoned_requester f m c p c' r r' :
  abandoned f m c p → requesters p !! c' = r →
  (∀ id, r = Some (GaveUp id) → r' = Returned id None) → (∀ id, r ≠ Some (Returned id None)) →
  abandoned f m c (set_requester c' r' p).
Proof.
  intros (Hf & Hc & id & Hr) Hr' Hgave Hret. split; [done|]. split; [done|]. exists id. simpl.
  destruct (decide (c' = c)) as [->|Hne]; [|by rewrite lookup_insert_ne].
  rewrite lookup_insert_eq. rewrite Hr' in Hr. destruct Hr as [Hr|Hr].
  - right. f_equal. by apply Hgave.
  - by destruct (Hret id).
Qed.

Lemma abandoned_forwarder f m c p f' w :
  abandoned f m c p → f' ≠ f → abandoned f m c (set_forwarder f' w p).
Proof. intros (Hf & Hc & Hr) Hne. split; [|done]. simpl. by rewrite lookup_insert_ne. Qed.

Lemma abandoned_step f m c p p' : inv p → abandoned f m c p → step p p' → abandoned f m c p'.
Proof.
  intros Hp Ha Hs. pose proof Ha as (Hf & Hc & id & Hr).
  assert (∀ f' w, forwarders p !! f' = Some w → (∀ m' c', w = Sending m' c' → c' ≠ c) →
    f' ≠ f) as Hf' by (intros f' w Hw Hne ->; simplify_eq; by eapply Hne).
  destruct Hs;
    try (match goal with H : requesters p !! ?c0 = _ |- abandoned _ _ _ (set_requester ?c0 _ _) =>
      by eapply abandoned_requester; [exact Ha|exact H|..]; simplify_eq; intros; simplify_eq end).
  - apply abandoned_forwarder; [done|]. congruence.
  - apply abandoned_forwarder; [done|]. by eapply Hf'.
  - apply abandoned_forwarder; [done|]. by eapply Hf'.
  - assert (c0 ≠ c) as Hne by (intros ->; destruct Hr; simplify_eq).
    apply (abandoned_requester _ _ _ _ _ (Some (Selecting id0))); [|done|done|done].
    apply abandoned_forwarder; [done|]. eapply Hf'; [done|]. by intros ? ? [= <- <-].
  - apply abandoned_forwarder; [done|]. eapply Hf'; [done|]. intros ? ? [= <- <-] ->. done.
  - assert (f0 ≠ f) as Hne by (by eapply Hf').
    assert (c0 ≠ c) as Hcne.
    { intros ->. destruct (inv_closing _ Hp f0 m0 c H) as (_ & r & Hr' & Hg).
      destruct Hr; simplify_eq. }
    destruct (abandoned_forwarder _ _ _ _ f0 (Done m0 c0) Ha Hne) as (Hf2 & _ & Hr2).
    split; [done|]. split; [|done]. simpl.
    by intros [->%elem_of_singleton|?]%elem_of_union.
  - apply abandoned_forwarder; [done|]. by eapply Hf'.
Qed.
End Rendezvous.
End Rendezvous.

(** ** Lemmas on the sequential part *)
Section Facts.
Context {X Content Svc : Type} `{!ProcessorEnv X Content Svc}.

Abbreviation proc := (messageProcessor (X := X)).

Lemma keeps_on_env {A} (m : M X A) : keeps (responseChannels (X := X)) (on_env m).
Proof. intros p. unfold on_env. by destruct (m (env p)). Qed.

Lemma attempt_on_env {A} (m : M X A) (p : proc) :
  attempt (on_env m) p =
  ({| responseChannels := responseChannels p; next_chan := next_chan p; env := (m (env p)).1 |},
   match (m (env p)).2 with
   | Ok a => Ok (inl a) | Err e => Ok (inr e) | Panic q => Panic q
   end).
Proof. unfold attempt, on_env. by destruct (m (env p)) as [x [a|e|q]]. Qed.

Lemma keeps_stamp cp (msg : Message Content) : keeps (responseChannels (X := X)) (stamp cp msg).
Proof.
  apply keeps_bind; [apply keeps_on_env|]. intros now. apply keeps_bind; [done|]. done.
Qed.

Lemma awaitResponse_keeps (msg : Message Content) c bot :
  keeps (responseChannels (X := X)) (awaitResponse msg c bot).
Proof.
  apply keeps_bind; [apply keeps_on_env|]. intros [m|].
  - apply keeps_bind; [apply keeps_attempt, keeps_on_env|]. intros _.
    destruct (protovalidate_Validate (msg_Content m)); [done|].
    apply keeps_bind; [apply keeps_on_env|done].
  - apply keeps_bind; [apply keeps_attempt, keeps_on_env|done].
Qed.

Lemma requestWith_keeps acct c (msg : Message Content) recipient :
  keeps (responseChannels (X := X)) (requestWith acct c msg recipient).
Proof.
  apply keeps_bind; [apply keeps_attempt, keeps_on_env|]. intros [bot|e]; [|done].
  apply keeps_bind; [apply keeps_attempt, keeps_on_env|]. intros [[|]|e]; [|done..].
  apply keeps_bind; [apply keeps_wrap, keeps_on_env|]. intros key.
  apply keeps_bind; [apply keeps_stamp|]. intros msg'.
  apply keeps_bind; [apply keeps_wrap, keeps_on_env|]. intros enc.
  apply keeps_bind; [apply keeps_wrap, keeps_on_env|]. intros _.
  apply awaitResponse_keeps.
Qed.

(** [r] is a message that came through the channel [c] and validates, with the content
    made of it for the request. *)
Definition answered (c : nat) (request : Content) (r : Message Content) : Prop :=
  ∃ x x' m y y' content, await c x = (x', Ok (Some m)) ∧
    protovalidate_Validate (msg_Content m) = None ∧
    ProcessResponseMessage request (msg_Content m) y = (y', Ok content) ∧ r = with_content content m.

Lemma awaitResponse_Ok (msg : Message Content) c bot (p p' : proc) r :
  awaitResponse msg c bot p = (p', Ok r) → answered c (msg_Content msg) r.
Proof.
  unfold awaitResponse. intros E. apply bind_Ok_inv in E as (p1 & [m|] & E1 & E2);
    apply bind_Ok_inv in E2 as (p2 & ? & _ & E2); [|done].
  unfold on_env in E1. destruct (await c (env p)) as [x' o] eqn:Ea. injection E1 as _ ->.
  destruct (protovalidate_Validate (msg_Content m)) eqn:Ev; [done|].
  apply bind_Ok_inv in E2 as (p3 & content & E3 & E2). injection E2 as _ <-. unfold on_env in E3.
  destruct (ProcessResponseMessage (msg_Content msg) (msg_Content m) (env p2)) as [y' o'] eqn:Ep.
  injection E3 as _ ->. by exists (env p), x', m, (env p2), y', content.
Qed.

Lemma stamp_content cp (msg : Message Content) (p p' : proc) r :
  stamp cp msg p = (p', Ok r) → msg_Content r = msg_Content msg.
Proof.
  intros E. unfold stamp in E. apply bind_Ok_inv in E as (p1 & now & _ & E).
  apply bind_Ok_inv in E as (p2 & ts & _ & E). by injection E as _ <-.
Qed.

Lemma stamp_Ok cp (msg : Message Content) (p p' : proc) r ts :
  msg_Timestamps msg = Some ts → stamped ts → stamp cp msg p = (p', Ok r) →
  ∃ ts', msg_Timestamps r = Some ts' ∧ stamped ts' ∧ ts ⊆ ts' ∧ size ts' = S (size ts) ∧
    msg_RequestID r = msg_RequestID msg ∧ msg_Content r = msg_Content msg ∧
    msg_Type r = msg_Type msg.
Proof.
  intros Hts Hst E. unfold stamp in E. apply bind_Ok_inv in E as (p1 & now & _ & E).
  rewrite Hts in E. apply bind_Ok_inv in E as (p2 & t & E1 & E2). injection E2 as _ <-.
  unfold liftO in E1. injection E1 as _ E1.
  destruct (stamp_once now cp ts Hst) as (ts' & Es & H1 & H2 & H3 & _).
  unfold Stamp in E1. simpl in *. simplify_eq. eauto 10.
Qed.

(** What is registered before a request is made, and deleted after it. *)
Definition registered (msg : Message Content) (p : messageProcessor (X := X)) : messageProcessor (X := X) :=
  {| responseChannels := <[msg_RequestID msg := next_chan p]> (responseChannels p);
     next_chan := S (next_chan p); env := env p |}.

Lemma SendRequestMessage_unfold acct (msg : Message Content) recipient (p : messageProcessor (X := X)) :
  SendRequestMessage acct msg recipient p =
    let '(p', o) := requestWith acct (next_chan p) msg recipient (registered msg p) in
    (deleteResponseChannel (msg_RequestID msg) p', o).
Proof. reflexivity. Qed.

Lemma SendRequestMessage_channels acct (msg : Message Content) recipient (p p' : messageProcessor (X := X)) o :
  SendRequestMessage acct msg recipient p = (p', o) →
  responseChannels p' = delete (msg_RequestID msg) (responseChannels p).
Proof.
  rewrite SendRequestMessage_unfold.
  pose proof (requestWith_keeps acct (next_chan p) msg recipient (registered msg p)) as Hk.
  destruct (requestWith _ _ _ _ _) as [p2 o2]. intros [= <- _]. simpl in *. rewrite Hk. simpl.
  by rewrite delete_insert_eq.
Qed.

Lemma SendRequestMessage_answer acct (msg : Message Content) recipient (p p' : messageProcessor (X := X)) r :
  SendRequestMessage acct msg recipient p = (p', Ok r) →
  answered (next_chan p) (PrepareRequest (msg_Content msg)) r.
Proof.
  rewrite SendRequestMessage_unfold.
  destruct (requestWith _ _ _ _ _) as [p2 o2] eqn:Er. intros [= <- ->]. unfold requestWith in Er.
  apply bind_Ok_inv in Er as (q1 & [bot|e] & _ & Er); [|done].
  apply bind_Ok_inv in Er as (q2 & [[|]|e] & _ & Er); [|done..].
  apply bind_Ok_inv in Er as (q3 & key & _ & Er).
  apply bind_Ok_inv in Er as (q4 & msg' & Es & Er). apply stamp_content in Es.
  apply bind_Ok_inv in Er as (q5 & enc & _ & Er).
  apply bind_Ok_inv in Er as (q6 & ? & _ & Er).
  apply awaitResponse_Ok in Er. by rewrite Es in Er.
Qed.

(** Without a bot that supports the service: where it stops, and its error. *)
Lemma SendRequestMessage_refused acct (msg : Message Content) recipient (p : messageProcessor (X := X)) :
  let '(p', o) := SendRequestMessage acct msg recipient p in
  match GetBotAddress recipient (env p) with
  | (x1, Ok bot) =>
      match api_IsServiceSupported recipient (ToServiceName (msg_Type msg)) x1 with
      | (_, Ok true) => True
      | (x2, Ok false) => env p' = x2 ∧ o = Err (Wrapf2 "%w: %w" ErrBusinessProcess
          (Wrapf "service %s not supported by TTMAccount %s: %w" ErrServiceNotSupported))
      | (x2, Err e) => env p' = x2 ∧ o = Err (Wrapf2 "%w: %w" ErrBlockchain
          (Wrapf "failed to check service support for service %s: %w" e))
      | (x2, Panic q) => env p' = x2 ∧ o = Panic q
      end
  | (x1, Err e) => env p' = x1 ∧ o = Err (Wrapf2
      "%w: failed to resolve bot address for TTM account %s: %w" ErrBusinessProcess e)
  | (x1, Panic q) => env p' = x1 ∧ o = Panic q
  end.
Proof.
  rewrite SendRequestMessage_unfold. unfold requestWith, mbind, M_bind. rewrite attempt_on_env.
  unfold throwS. change (env (registered msg p)) with (env p).
  destruct (GetBotAddress recipient (env p)) as [x1 [bot|e|q]]; cbn; [|done..].
  rewrite attempt_on_env. cbn [env].
  destruct (api_IsServiceSupported recipient _ x1) as [x2 [[|]|e|q]]; cbn; [|done..].
  match goal with |- context [let (_, _) := ?m in _] => by destruct m end.
Qed.
End Facts.

(** ** Properties *)
Section Properties.
Context {X Content Svc : Type} `{!ProcessorEnv X Content Svc}.

(** C16: nothing acts on a message before its sender is known and allowed: a message
    from the bot's own address or account changes nothing; one that does not decode
    goes no further than the decoder, and one whose bot is not allowed for its
    account no further than that question, whatever its type and content. *)
Theorem handleReceived_gate bot acct m (p p' : messageProcessor (X := X)) o :
  handleReceived bot acct m p = (p', o) →
  if (SenderBotAddress m =? bot) || (ews_SenderTTMAccountAddress m =? acct) then p' = p
  else
    let '(x1, decoded) := DecodeAndVerifyMessage (ews_Message m) (SenderBotAddress m) (env p) in
    match decoded with
    | Ok (msg, _, sender) =>
        if sender =? acct then env p' = x1
        else
          let '(x2, allowed) := api_IsBotAllowed sender (SenderBotAddress m) x1 in
          allowed = Ok true ∨ (env p' = x2 ∧ is_ok o = false)
    | _ => env p' = x1 ∧ is_ok o = false
    end.
Proof.
  unfold handleReceived. destruct (SenderBotAddress m =? bot); [by intros [= <- _]|].
  destruct (ews_SenderTTMAccountAddress m =? acct); [by intros [= <- _]|].
  cbn [orb]. unfold mbind at 1, M_bind, on_env at 1.
  destruct (DecodeAndVerifyMessage (ews_Message m) (SenderBotAddress m) (env p))
    as [x1 [[[msg key] sender]|e|q]]; [|by intros [= <- <-]..].
  destruct (sender =? acct); [by intros [= <- _]|].
  unfold processIncomingMessage, mbind at 1, M_bind, wrapS at 1, on_env at 1. cbn [env].
  destruct (api_IsBotAllowed sender (SenderBotAddress m) x1) as [x2 [[|]|e|q]]; [by left|..];
    intros [= <- <-]; by right.
Qed.

(** C20: sending a request leaves no response channel behind, however it ends, panics
    included.  It answers only with a message that came through the channel it
    made itself and that passes validation, with its content processed; and without
    a bot to talk to that supports the service it stops there, with a business or a
    blockchain error, and sends nothing. *)
Theorem SendRequestMessage_ends acct (msg : Message Content) recipient
    (p p' : messageProcessor (X := X)) o :
  SendRequestMessage acct msg recipient p = (p', o) →
  responseChannels p' = delete (msg_RequestID msg) (responseChannels p) ∧
  (∀ r, o = Ok r → answered (next_chan p) (PrepareRequest (msg_Content msg)) r) ∧
  match GetBotAddress recipient (env p) with
  | (x1, Ok bot) =>
      match api_IsServiceSupported recipient (ToServiceName (msg_Type msg)) x1 with
      | (_, Ok true) => True
      | (x2, Ok false) => env p' = x2 ∧ ∃ e, o = Err e ∧
          errors_is e "rpc.ErrBusinessProcess" = true ∧
          errors_is e "ttmaccounts.ErrServiceNotSupported" = true
      | (x2, Err _) => env p' = x2 ∧ ∃ e, o = Err e ∧ errors_is e "rpc.ErrBlockchain" = true
      | (x2, Panic _) => env p' = x2 ∧ is_ok o = false
      end
  | (x1, Err _) => env p' = x1 ∧ ∃ e, o = Err e ∧ errors_is e "rpc.ErrBusinessProcess" = true
  | (x1, Panic _) => env p' = x1 ∧ is_ok o = false
  end.
Proof.
  intros E. split; [by eapply SendRequestMessage_channels|].
  split; [intros r ->; by eapply SendRequestMessage_answer|].
  pose proof (SendRequestMessage_refused acct msg recipient p) as Hr. rewrite E in Hr. simpl in Hr.
  destruct (GetBotAddress recipient (env p)) as [x1 [bot|e|q]]; [|by destruct Hr as [? ->]; eauto..].
  destruct (api_IsServiceSupported recipient _ x1) as [x2 [[|]|e|q]];
    [done|by destruct Hr as [? ->]; eauto 6..].
Qed.

(** A response is made for its request: it carries the request's id, and, since
    the two share their map, every stamp of the request, with the two of the
    partner plugin when that was called. *)
Lemma validateAndRespond_correlated (request : Message Content) svc from to ts
    (p p' : messageProcessor (X := X)) response :
  msg_Timestamps request = Some ts → stamped ts →
  validateAndRespond request svc from to p = (p', Ok response) →
  msg_RequestID response = msg_RequestID request ∧
  ∃ ts', msg_Timestamps response = Some ts' ∧ stamped ts' ∧ ts ⊆ ts' ∧
    size ts' = (size ts +
      match protovalidate_Validate (msg_Content request) with Some _ => 0 | None => 2 end)%nat.
Proof.
  intros Hts Hst. unfold validateAndRespond.
  destruct (protovalidate_Validate (msg_Content request)) as [e|].
  - destruct (InvalidProtoErrResponseAndType svc _) as [c t]. intros [= _ <-]. simpl.
    split; [done|]. exists ts. by rewrite Nat.add_0_r.
  - intros E. apply bind_Ok_inv in E as (p1 & r1 & E1 & E).
    destruct (stamp_Ok _ _ _ _ _ _ Hts Hst E1) as (ts1 & Hts1 & Hst1 & Hsub1 & Hs1 & Hid1 & _).
    apply bind_Ok_inv in E as (p2 & [c t] & _ & E).
    apply bind_Ok_inv in E as (p3 & r2 & E2 & E).
    destruct (stamp_Ok _ _ _ _ _ _ Hts1 Hst1 E2) as (ts2 & Hts2 & Hst2 & Hsub2 & Hs2 & Hid2 & _).
    apply bind_Ok_inv in E as (p4 & c' & _ & E). injection E as _ <-. simpl.
    split; [congruence|]. exists ts2. split; [done|]. split; [done|].
    split; [by etrans|lia].
Qed.
End Properties.

Section Concurrency.
Import Rendezvous.
Context {Content : Type}.

(** C6: in every interleaving, a request that returns a response returns one that was
    delivered to it and carries its own request id, and it never receives the nil
    of a closed channel; once all requests of a pool with distinct ids have
    returned, no channel is left registered. *)
Theorem responses_correlated (p : pool (Content := Content)) :
  reachable p →
  (∀ c id m, requesters p !! c = Some (Returned id (Some m)) →
     msg_RequestID m = id ∧
     ∃ f, forwarders p !! f = Some (Closing m c) ∨ forwarders p !! f = Some (Done m c)) ∧
  (∀ c id, requesters p !! c ≠ Some (ReceivedNil id)) ∧
  (distinct_ids p → (∀ c r, requesters p !! c = Some r → finished r = true) → channels p = ∅).
Proof.
  intros Hr. pose proof (reachable_inv p Hr) as Hi. split; [|split].
  - intros c id m Hc. destruct (inv_got _ Hi c _ m Hc eq_refl) as (Hid & f & w & Hf & Hw).
    split; [done|]. exists f. destruct Hw as [-> | ->]; auto.
  - apply Hi.
  - intros Hd Hfin. apply map_empty. intros id. destruct (channels p !! id) as [c|] eqn:El; [|done].
    apply (reachable_registered p Hr Hd) in El as (r & Hc & _ & Hf).
    rewrite (Hfin c r Hc) in Hf. done.
Qed.

(** A response that was matched to its request just before that request gave up
    is never delivered nor dropped: the goroutine that carries it stays blocked on
    the channel in every continuation. *)
Lemma late_response_blocks (p p' : pool (Content := Content)) f m c :
  reachable p → abandoned f m c p → rtc step p p' → abandoned f m c p'.
Proof.
  intros Hr Ha Hs. pose proof (reachable_inv p Hr) as Hi. clear Hr.
  induction Hs as [p|p p1 p2 Hs _ IH]; [done|].
  apply IH; [by eapply abandoned_step|by eapply step_inv].
Qed.
End Concurrency.

(** ** Witnesses *)
Module Toy.
Definition wire : EncodedSignedMessage := {| ChunkedEncodedMessage := []; Signature := [] |}.
Definition response : Message Z :=
  {| msg_Type := "ttm.services.ping.v1.Ping.Response"; msg_Content := 8; msg_RequestID := "id-1";
     msg_Timestamps := Some ∅ |}.
Definition request : Message Z :=
  {| msg_Type := "ttm.services.ping.v1.Ping.Request"; msg_Content := 7; msg_RequestID := "id-1";
     msg_Timestamps := Some ∅ |}.

(** Bot 20 is allowed; every request is answered; the state counts the calls. *)
Definition tick {A} (a : A) : M Z A := λ n, (n + 1, Ok a).

#[global] Instance environment : ProcessorEnv Z Z unit := {
  env_accounts := {| api_GetAllMessengerBots _ := tick [20];
                     api_IsBotAllowed _ b := tick (b =? 20);
                     api_IsServiceSupported _ _ := tick true |};
  GetBotAddress _ := tick 20;
  SetBotStatus _ _ _ := tick tt;
  NewKey := tick (Encryption.NopKey []);
  EncodeMessage _ _ _ _ := tick wire;
  DecodeAndVerifyMessage _ _ := tick (request, None, 5);
  SendMessage _ _ _ := tick tt;
  PrepareRequest c := c;
  ProcessResponseMessage _ c := tick (c + 100);
  PrepareResponseMessage _ c := tick c;
  DoServiceRequest _ _ c _ _ := tick (c + 1, "ttm.services.ping.v1.Ping.Response");
  GetService _ := Some tt;
  InvalidProtoErrResponseAndType _ _ := (0, "invalid");
  protovalidate_Validate c := if c =? 0 then Some (Errorf "invalid") else None;
  UnixMilli := λ n, (n, Ok n);
  await _ := tick (Some response);
  deliver _ _ := tick tt
}.

Definition start : messageProcessor (X := Z) :=
  {| responseChannels := ∅; next_chan := 0; env := 0 |}.
Definition incoming (bot : Z) : EncodedSignedMessageWithSender :=
  {| ews_Message := wire; SenderBotAddress := bot; ews_SenderTTMAccountAddress := 5 |}.

(** A request that times out between the lookup and the delivery of its response. *)
Definition late : Rendezvous.pool :=
  Rendezvous.set_requester 0 (Rendezvous.GaveUp "id-1")
   (Rendezvous.set_forwarder 0 (Rendezvous.Sending response 0)
    (Rendezvous.set_forwarder 0 (Rendezvous.Looking response)
     (Rendezvous.set_requester 0 (Rendezvous.Selecting "id-1")
      (Rendezvous.set_requester 0 (Rendezvous.Preparing "id-1")
       (Rendezvous.register "id-1" 0 Rendezvous.initial))))).

Lemma late_reachable : Rendezvous.reachable late.
Proof.
  eapply rtc_l; [by apply (Rendezvous.step_request "id-1" 0)|].
  eapply rtc_l; [by apply (Rendezvous.step_select "id-1" 0)|].
  eapply rtc_l; [by apply (Rendezvous.step_arrive 0 response)|].
  eapply rtc_l; [by apply (Rendezvous.step_lookup 0 response 0)|].
  eapply rtc_l; [by apply (Rendezvous.step_timeout "id-1" 0)|].
  apply rtc_refl.
Qed.
End Toy.

Lemma handleReceived_gate_witness :
  env (handleReceived 1 2 (Toy.incoming 21) Toy.start).1 = 2.
Proof.
  destruct (handleReceived 1 2 (Toy.incoming 21) Toy.start) as [p' o] eqn:E.
  pose proof (handleReceived_gate 1 2 (Toy.incoming 21) Toy.start p' o E) as H.
  vm_compute in H. destruct H as [[=]|[H _]]. exact H.
Defined.

Lemma SendRequestMessage_ends_witness :
  ∃ p' r, SendRequestMessage 2 Toy.request 5 Toy.start = (p', Ok r) ∧ msg_Content r = 108 ∧
    responseChannels p' = ∅.
Proof.
  destruct (SendRequestMessage 2 Toy.request 5 Toy.start) as [p' o] eqn:E.
  destruct (SendRequestMessage_ends 2 Toy.request 5 Toy.start p' o E) as (Hc & _ & _).
  assert (∃ r, o = Ok r ∧ msg_Content r = 108) as (r & -> & Hr)
    by (revert E; vm_compute; intros [= _ <-]; eexists; split; reflexivity).
  exists p', r. split; [reflexivity|]. split; [exact Hr|]. rewrite Hc. vm_compute. reflexivity.
Defined.

Lemma responses_correlated_witness :
  Rendezvous.requesters Toy.late !! 0%nat ≠ Some (Rendezvous.ReceivedNil "id-1").
Proof. apply (responses_correlated Toy.late Toy.late_reachable). Defined.

(** The request has returned; its response is still being sent. *)
Lemma late_response_blocks_witness :
  Rendezvous.abandoned 0 Toy.response 0
    (Rendezvous.set_requester 0 (Rendezvous.Returned "id-1" None)
       (Rendezvous.unregister "id-1" Toy.late)).
Proof.
  apply (late_response_blocks Toy.late _ 0 Toy.response 0 Toy.late_reachable).
  - split; [reflexivity|]. split; [by apply not_elem_of_empty|]. exists "id-1". left. reflexivity.
  - apply rtc_once. by apply (Rendezvous.step_return "id-1" 0).
Defined.
