(* ===== verification/Subscriber.v ===== *)
(** * The subscriber (internal/eventlistener/subscriber)

    One subscription per topic: the resubscriber asks the node for the events from the
    block [blockNumber] on, whenever the connection is lost, and a goroutine hands them to
    the handler one by one; the block of an event that was handled is stored in
    [blockNumber], which all the subscriptions share.  The chain, the connection and the
    handlers are the environment, here the steps of a relation. *)
From S2P Require Import Prelude.
From stdpp Require Import gmap sets sorting.

#[local] Open Scope Z_scope.

Inductive topic :=
  | ServiceAdded (ttmAccountAddr : Z)
  | TokenBought
  | CancellationPending
  | CancellationFinalized
  | CancellationWithdrawn
  | CancellationRejected.
#[global] Instance topic_eq_dec : EqDecision topic.
Proof. solve_decision. Defined.
#[global] Instance topic_countable : Countable topic.
Proof.
  refine (inj_countable'
    (λ t, match t with
      | ServiceAdded a => inl a
      | TokenBought => inr 0 | CancellationPending => inr 1 | CancellationFinalized => inr 2
      | CancellationWithdrawn => inr 3 | CancellationRejected => inr 4 end)
    (λ x, match x with
      | inl a => ServiceAdded a
      | inr 0 => TokenBought | inr 1 => CancellationPending | inr 2 => CancellationFinalized
      | inr 3 => CancellationWithdrawn | inr _ => CancellationRejected end) _).
  by intros [].
Defined.

(** An event of the chain; [ev_index] tells the events of a block apart. *)
Record event := { ev_topic : topic; ev_block : Z; ev_index : Z }.
#[global] Instance event_eq_dec : EqDecision event.
Proof. solve_decision. Defined.

(** The event subscription: lost, or with the events it has still to hand over. *)
Inductive connection := Down | Up (pending : list event).

(** [running]: the goroutine that calls the handler has not panicked. *)
Record subscription := { conn : connection; running : bool }.

Record subscriber := mkSubscriber {
  blockNumber : Z;
  subscriptions : gmap topic subscription;
  errChan : list error
}.

Definition New (blockNumber : Z) : subscriber := mkSubscriber blockNumber ∅ [].

Definition Stop (s : subscriber) : subscriber :=
  mkSubscriber (blockNumber s) (subscriptions s) [].

(** The next error, when there is one. *)
Definition ErrChan (s : subscriber) : option error := head (errChan s).

Definition set_subscription (k : topic) (x : subscription) (s : subscriber) : subscriber :=
  mkSubscriber (blockNumber s) (<[k := x]> (subscriptions s)) (errChan s).
Definition set_conn (k : topic) (c : connection) (s : subscriber) : subscriber :=
  match subscriptions s !! k with
  | Some x => set_subscription k {| conn := c; running := running x |} s
  | None => s
  end.

Definition startResubscriber (k : topic) : subscriber → subscriber :=
  set_subscription k {| conn := Down; running := true |}.

Definition SubscribeTokenBought := startResubscriber TokenBought.
Definition SubscribeCancellationPending := startResubscriber CancellationPending.
Definition SubscribeCancellationFinalized := startResubscriber CancellationFinalized.
Definition SubscribeCancellationWithdrawn := startResubscriber CancellationWithdrawn.
Definition SubscribeCancellationRejected := startResubscriber CancellationRejected.
Definition SubscribeServiceAdded (TTMAccount : Z → outcome Z) (addr : Z) : M subscriber unit :=
  ttmAccount ← liftO (TTMAccount addr);
  modifyS (startResubscriber (ServiceAdded ttmAccount)).

(** The function a subscription returns: [close] panics when it is called again. *)
Definition unsubscribe (k : topic) : M subscriber unit := λ s,
  match subscriptions s !! k with
  | None => (s, Panic "close of closed channel")
  | Some _ => (mkSubscriber (blockNumber s) (delete k (subscriptions s)) (errChan s), Ok tt)
  end.

(** [WatchOpts.Start]: the events of a topic from a block on. *)
Definition watch (chain : list event) (k : topic) (start : Z) : list event :=
  filter (λ e, start ≤ ev_block e) (filter (λ e, ev_topic e = k) chain).

Definition resubscribe (chain : list event) (k : topic) (s : subscriber) : subscriber :=
  set_conn k (Up (watch chain k (blockNumber s))) s.

(** The loop body of the handler's goroutine; the handler panics or returns the block it
    processed, or 0. *)
Definition handle (k : topic) (successfullyProcessedBlockNumber : option Z) (s : subscriber) : subscriber :=
  match successfullyProcessedBlockNumber with
  | Some n => if n =? 0 then s else mkSubscriber n (subscriptions s) (errChan s)
  | None =>
      match subscriptions s !! k with
      | Some x => mkSubscriber (blockNumber s)
          (<[k := {| conn := conn x; running := false |}]> (subscriptions s))
          (errChan s ++ [Errorf "%T event handler panic: %v"])
      | None => s
      end
  end.

(** A new event reaches the connection of its topic. *)
Definition emit (e : event) (s : subscriber) : subscriber :=
  match conn <$> subscriptions s !! ev_topic e with
  | Some (Up q) => set_conn (ev_topic e) (Up (q ++ [e])) s
  | _ => s
  end.

(** The subscriber, the events of the chain, and the events handled with what the
    handler returned. *)
Record world := mkWorld { chain : list event; handled : list (event * option Z); sub : subscriber }.

Inductive step (w : world) : world → Prop :=
  | step_mine e :
      0 < ev_block e → Forall (λ x, ev_block x ≤ ev_block e) (chain w) →
      step w (mkWorld (chain w ++ [e]) (handled w) (emit e (sub w)))
  | step_subscribe k :
      subscriptions (sub w) !! k = None →
      step w (mkWorld (chain w) (handled w) (startResubscriber k (sub w)))
  | step_unsubscribe k : step w (mkWorld (chain w) (handled w) (unsubscribe k (sub w)).1)
  | step_disconnect k : step w (mkWorld (chain w) (handled w) (set_conn k Down (sub w)))
  | step_resubscribe k b :
      subscriptions (sub w) !! k = Some {| conn := Down; running := b |} →
      step w (mkWorld (chain w) (handled w) (resubscribe (chain w) k (sub w)))
  | step_handle k e q n :
      subscriptions (sub w) !! k = Some {| conn := Up (e :: q); running := true |} →
      n = None ∨ n = Some 0 ∨ n = Some (ev_block e) →
      step w (mkWorld (chain w) (handled w ++ [(e, n)]) (handle k n (set_conn k (Up q) (sub w))))
  | step_stop : step w (mkWorld (chain w) (handled w) (Stop (sub w))).

Definition initial (c : list event) (b : Z) : world := mkWorld c [] (New b).

(** ** Lemmas *)
Definition queue (c : connection) : option (list event) :=
  match c with Up q => Some q | Down => None end.
Definition pending (k : topic) (s : subscriber) : option (list event) :=
  subscriptions s !! k ≫= λ x, queue (conn x).

Lemma pending_set_subscription k x k' s :
  pending k' (set_subscription k x s) = if decide (k' = k) then queue (conn x) else pending k' s.
Proof.
  unfold pending. simpl. destruct (decide (k' = k)) as [->|Hne].
  - by rewrite lookup_insert_eq.
  - by rewrite lookup_insert_ne.
Qed.

Lemma pending_set_conn k c k' s :
  is_Some (subscriptions s !! k) →
  pending k' (set_conn k c s) = if decide (k' = k) then queue c else pending k' s.
Proof. intros [x Hx]. unfold set_conn. by rewrite Hx, pending_set_subscription. Qed.

Lemma pending_disconnect k k' s q :
  pending k' (set_conn k Down s) = Some q → pending k' s = Some q.
Proof.
  destruct (subscriptions s !! k) as [x|] eqn:E; [|by unfold set_conn; rewrite E].
  rewrite pending_set_conn by done. by case_decide.
Qed.

Lemma pending_unsubscribe k k' s q :
  pending k' (unsubscribe k s).1 = Some q → pending k' s = Some q.
Proof.
  unfold pending, unsubscribe. destruct (subscriptions s !! k); [simpl|done].
  destruct (decide (k = k')) as [->|Hne]; [by rewrite lookup_delete_eq|by rewrite lookup_delete_ne].
Qed.

Lemma pending_emit e k s :
  pending k (emit e s) =
    if decide (k = ev_topic e) then (λ q, q ++ [e]) <$> pending k s else pending k s.
Proof.
  unfold emit. destruct (subscriptions s !! ev_topic e) as [[[|q] b]|] eqn:E; simpl.
  - case_decide; subst; [|done]. unfold pending. by rewrite E.
  - rewrite pending_set_conn by done. case_decide; subst; [|done]. unfold pending. by rewrite E.
  - case_decide; subst; [|done]. unfold pending. by rewrite E.
Qed.

Lemma pending_handle k n k' s : pending k' (handle k n s) = pending k' s.
Proof.
  unfold handle. destruct n as [n|]; [by case_match|].
  destruct (subscriptions s !! k) as [x|] eqn:E; [|done]. unfold pending. simpl.
  destruct (decide (k' = k)) as [->|Hne]; [by rewrite lookup_insert_eq, E|by rewrite lookup_insert_ne].
Qed.

(** What [blockNumber] is after an operation. *)
Lemma blockNumber_set_conn k c s : blockNumber (set_conn k c s) = blockNumber s.
Proof. unfold set_conn. by case_match. Qed.
Lemma blockNumber_unsubscribe k s : blockNumber (unsubscribe k s).1 = blockNumber s.
Proof. unfold unsubscribe. by case_match. Qed.
Lemma blockNumber_emit e s : blockNumber (emit e s) = blockNumber s.
Proof. unfold emit. repeat case_match; rewrite ?blockNumber_set_conn; done. Qed.
Lemma blockNumber_handle k n s :
  blockNumber (handle k n s) =
    match n with Some n => if n =? 0 then blockNumber s else n | None => blockNumber s end.
Proof. unfold handle. repeat case_match; done. Qed.

Definition ordered : list event → Prop := StronglySorted (λ a b, ev_block a ≤ ev_block b).

Lemma ordered_snoc c e :
  ordered c → Forall (λ x, ev_block x ≤ ev_block e) c → ordered (c ++ [e]).
Proof.
  intros Hs Hf. apply StronglySorted_app_2; [|done|by repeat constructor].
  intros x y Hx ->%list_elem_of_singleton. by eapply Forall_forall in Hf.
Qed.

Lemma filter_true {A} (P : A → Prop) `{∀ x, Decision (P x)} (l : list A) :
  (∀ x, x ∈ l → P x) → filter P l = l.
Proof.
  induction l as [|x l IH]; intros Hl; [done|]. rewrite filter_cons_True by (apply Hl; left).
  f_equal. apply IH. intros y Hy. apply Hl. by right.
Qed.

Lemma ordered_filter (P : event → Prop) `{∀ x, Decision (P x)} c :
  ordered c → ordered (filter P c).
Proof.
  induction 1 as [|x c _ IH Hf]; [constructor|]. rewrite filter_cons.
  case_decide; [|done]. constructor; [done|].
  apply Forall_forall. intros y [_ Hy]%list_elem_of_filter. by eapply Forall_forall in Hf.
Qed.

(** In an ordered list the events from a block on are a suffix. *)
Lemma ordered_suffix b c :
  ordered c → ∃ pre, c = pre ++ filter (λ e, b ≤ ev_block e) c ∧
    ∀ e, e ∈ pre → ev_block e < b.
Proof.
  induction 1 as [|x c Hc IH Hf]; [by exists []; split; [|intros e ?%not_elem_of_nil]|].
  rewrite filter_cons. case_decide as Hb.
  - exists []. split; [|intros e ?%not_elem_of_nil; done]. simpl. f_equal. symmetry.
    apply filter_true. intros y Hy. eapply Forall_forall in Hf; [|done]. lia.
  - destruct IH as (pre & E & Hpre). exists (x :: pre). split; [simpl; by f_equal|].
    intros e [->|He]%elem_of_cons; [lia|auto].
Qed.

(** Every event pending is one of its topic on the chain, and the start of the watch is
    the first one or the block of an event of the chain. *)
Record well_formed (b0 : Z) (w : world) : Prop := {
  wf_ordered : ordered (chain w);
  wf_positive : ∀ e, e ∈ chain w → 0 < ev_block e;
  wf_pending k q e : pending k (sub w) = Some q → e ∈ q → e ∈ chain w ∧ ev_topic e = k;
  wf_start : blockNumber (sub w) = b0 ∨ ∃ e, e ∈ chain w ∧ blockNumber (sub w) = ev_block e
}.

Lemma elem_of_watch c k b e : e ∈ watch c k b ↔ b ≤ ev_block e ∧ ev_topic e = k ∧ e ∈ c.
Proof. unfold watch. by rewrite !list_elem_of_filter. Qed.

Lemma pending_resubscribe c k k' s :
  is_Some (subscriptions s !! k) →
  pending k' (resubscribe c k s) =
    if decide (k' = k) then Some (watch c k (blockNumber s)) else pending k' s.
Proof. intros Hs. unfold resubscribe. by rewrite pending_set_conn. Qed.

Lemma pending_here k e q b s :
  subscriptions s !! k = Some {| conn := Up (e :: q); running := b |} → pending k s = Some (e :: q).
Proof. intros E. unfold pending. by rewrite E. Qed.

(** What is pending after a step was pending before, or is the new event, or is watched
    again. *)
Lemma step_pending w v k q x :
  step w v → pending k (sub v) = Some q → x ∈ q →
  (∃ q', pending k (sub w) = Some q' ∧ x ∈ q') ∨
  (chain v = chain w ++ [x] ∧ k = ev_topic x) ∨ x ∈ watch (chain w) k (blockNumber (sub w)).
Proof.
  intros Hs Hq Hx. destruct Hs as [e _ _|k' _|k'|k'|k' b E|k' e q' n E _|]; simpl in *.
  - rewrite pending_emit in Hq. case_decide; subst; [|eauto].
    apply fmap_Some in Hq as (q' & Hq' & ->).
    apply elem_of_app in Hx as [Hx| ->%list_elem_of_singleton]; eauto 10.
  - unfold startResubscriber in Hq. rewrite pending_set_subscription in Hq. case_decide; [done|eauto].
  - apply pending_unsubscribe in Hq. eauto.
  - apply pending_disconnect in Hq. eauto.
  - rewrite pending_resubscribe in Hq by done. case_decide; simplify_eq; eauto.
  - rewrite pending_handle, pending_set_conn in Hq by done. case_decide; simplify_eq/=; [|eauto].
    apply pending_here in E. left. eexists. split; [done|]. by right.
  - eauto.
Qed.

Lemma step_chain w v : step w v → chain v = chain w ∨
  ∃ e, chain v = chain w ++ [e] ∧ 0 < ev_block e ∧ Forall (λ x, ev_block x ≤ ev_block e) (chain w).
Proof. destruct 1; simpl; eauto. Qed.

Lemma step_blockNumber w v :
  step w v → blockNumber (sub v) = blockNumber (sub w) ∨
  ∃ k q e, pending k (sub w) = Some q ∧ e ∈ q ∧ blockNumber (sub v) = ev_block e.
Proof.
  destruct 1 as [e _ _|k' _|k'|k'|k' b E|k' e q' n E Hn|]; simpl; auto;
    rewrite ?blockNumber_emit, ?blockNumber_unsubscribe, ?blockNumber_set_conn; auto.
  - left. unfold resubscribe. by rewrite blockNumber_set_conn.
  - rewrite blockNumber_handle, blockNumber_set_conn.
    destruct Hn as [->|[->| ->]]; [by left|by left|]. case_match; [by left|]. right.
    exists k', (e :: q'), e. split_and!; [by eapply pending_here|left|done].
Qed.

Lemma step_well_formed b0 w v : step w v → well_formed b0 w → well_formed b0 v.
Proof.
  intros Hs [Ho Hp Hq Hb].
  assert (∀ e, e ∈ chain w → e ∈ chain v) as Hmono.
  { destruct (step_chain w v Hs) as [->|(x & -> & _)]; [done|]. intros. apply elem_of_app. by left. }
  split.
  - destruct (step_chain w v Hs) as [->|(x & -> & _ & Hx)]; [done|by apply ordered_snoc].
  - destruct (step_chain w v Hs) as [->|(x & -> & Hx & _)]; [done|].
    intros e [?| ->%list_elem_of_singleton]%elem_of_app; auto.
  - intros k q e Hk He. destruct (step_pending w v k q e Hs Hk He) as [(q' & Hq' & He')|[(Ec & ->)|Hw]].
    + destruct (Hq k q' e Hq' He'). auto.
    + rewrite Ec. split; [|done]. apply elem_of_app. right. by left.
    + apply elem_of_watch in Hw as (_ & ? & ?). auto.
  - destruct (step_blockNumber w v Hs) as [->|(k & q & e & Hk & He & ->)].
    + destruct Hb as [|(e & He & ?)]; [by left|right; eauto].
    + right. exists e. destruct (Hq k q e Hk He). auto.
Qed.

Lemma step_handled w v : step w v → ∃ l, handled v = handled w ++ l.
Proof. destruct 1; simpl; try (exists []; by rewrite app_nil_r); eauto. Qed.

Lemma steps_handled w v : rtc step w v → ∃ l, handled v = handled w ++ l.
Proof.
  induction 1 as [w|w u v Hs _ (l & IH)]; [exists []; by rewrite app_nil_r|].
  destruct (step_handled w u Hs) as (l' & E). exists (l' ++ l). by rewrite IH, E, (assoc_L (++)).
Qed.

(** One topic, every event of it acknowledged: what of it is on the chain is handled, or
    pending, or on the side of [blockNumber] that is watched again. *)
Record served (k : topic) (b0 : Z) (w : world) : Prop := {
  sv_kept e : e ∈ chain w → ev_topic e = k → b0 ≤ ev_block e →
    e ∈ (handled w).*1 ∨ blockNumber (sub w) ≤ ev_block e;
  sv_queue q : pending k (sub w) = Some q →
    ∃ pre, filter (λ e, ev_topic e = k) (chain w) = pre ++ q ∧
      ∀ e, e ∈ pre → b0 ≤ ev_block e → e ∈ (handled w).*1
}.

Definition acknowledged (k : topic) (x : event * option Z) : Prop :=
  ev_topic x.1 = k ∧ x.2 = Some (ev_block x.1).

Lemma handled_mono l l' (e : event) : e ∈ (l : list (event * option Z)).*1 → e ∈ (l ++ l').*1.
Proof. rewrite fmap_app. intros. apply elem_of_app. by left. Qed.

Lemma served_mine k b0 w e :
  well_formed b0 w → Forall (λ x, ev_block x ≤ ev_block e) (chain w) → served k b0 w →
  served k b0 (mkWorld (chain w ++ [e]) (handled w) (emit e (sub w))).
Proof.
  intros [_ _ _ Hb] Hf [Hk Hq]. rewrite Forall_forall in Hf. split; simpl.
  - intros x [Hx| ->%list_elem_of_singleton]%elem_of_app Ht Hx0; rewrite blockNumber_emit; [auto|].
    right. destruct Hb as [->|(y & Hy & ->)]; auto.
  - intros q. rewrite pending_emit, filter_app, filter_cons, filter_nil.
    destruct (decide (k = ev_topic e)) as [->|Hne].
    + rewrite decide_True by done. intros (q' & Hq' & ->)%fmap_Some.
      destruct (Hq q' Hq') as (pre & -> & Hpre). exists pre. by rewrite (assoc_L (++)).
    + rewrite decide_False, app_nil_r by done. apply Hq.
Qed.

Lemma served_handle k b0 w e q :
  well_formed b0 w → served k b0 w →
  subscriptions (sub w) !! k = Some {| conn := Up (e :: q); running := true |} →
  served k b0 (mkWorld (chain w) (handled w ++ [(e, Some (ev_block e))])
                (handle k (Some (ev_block e)) (set_conn k (Up q) (sub w)))).
Proof.
  intros [Ho Hp Hwq _] [Hk Hq] E. pose proof (pending_here _ _ _ _ _ E) as Epend.
  destruct (Hq _ Epend) as (pre & Epre & Hpre).
  assert (0 < ev_block e) as Hpos by (apply Hp; apply (Hwq k _ e Epend); left).
  assert (e ∈ (handled w ++ [(e, Some (ev_block e))]).*1) as Hdone
    by (rewrite fmap_app; apply elem_of_app; right; by left).
  split; cbn [chain handled sub].
  - intros x Hx Ht Hx0. rewrite blockNumber_handle. rewrite (proj2 (Z.eqb_neq _ _)) by lia.
    assert (x ∈ pre ++ e :: q) as Hin by (rewrite <- Epre; by apply list_elem_of_filter).
    apply elem_of_app in Hin as [Hin|[->|Hin]%elem_of_cons]; [|by left|].
    + left. apply handled_mono. auto.
    + right. assert (ordered (pre ++ e :: q)) as Hs by (rewrite <- Epre; by apply ordered_filter).
      apply StronglySorted_app in Hs as (_ & _ & Hs). apply StronglySorted_cons in Hs as [Hs _].
      by eapply Forall_forall in Hs.
  - intros q'. rewrite pending_handle, pending_set_conn, decide_True by done. intros [= <-].
    exists (pre ++ [e]). split; [by rewrite Epre, <- (assoc_L (++))|].
    intros x [Hx| ->%list_elem_of_singleton]%elem_of_app Hx0; [|done]. apply handled_mono. auto.
Qed.

Lemma served_resubscribe k b0 w :
  well_formed b0 w → served k b0 w → is_Some (subscriptions (sub w) !! k) →
  served k b0 (mkWorld (chain w) (handled w) (resubscribe (chain w) k (sub w))).
Proof.
  intros [Ho _ _ _] [Hk Hq] Hs. split; simpl.
  - intros x Hx Ht Hx0. unfold resubscribe. rewrite blockNumber_set_conn. auto.
  - intros q. rewrite pending_resubscribe, decide_True by done. intros [= <-].
    destruct (ordered_suffix (blockNumber (sub w)) _ (ordered_filter (λ e, ev_topic e = k) _ Ho))
      as (pre & E & Hpre).
    exists pre. split; [exact E|]. intros x Hx Hx0.
    assert (x ∈ filter (λ e, ev_topic e = k) (chain w)) as [Ht Hin]%list_elem_of_filter
      by (rewrite E; apply elem_of_app; by left).
    specialize (Hpre x Hx). destruct (Hk x Hin Ht Hx0); [done|lia].
Qed.

Lemma step_served k b0 w v :
  step w v → well_formed b0 w → Forall (acknowledged k) (handled v) → served k b0 w →
  served k b0 v.
Proof.
  intros Hs Hwf Hack Hsv.
  assert (∀ s, blockNumber s = blockNumber (sub w) →
    (∀ q, pending k s = Some q → pending k (sub w) = Some q) →
    served k b0 (mkWorld (chain w) (handled w) s)) as Hquiet.
  { intros s Hb Hq. destruct Hsv as [H1 H2]. split; simpl; [rewrite Hb; apply H1|auto]. }
  destruct Hs as [e He Hf|k' _|k'|k'|k' b E|k' e q n E _|].
  - by apply served_mine.
  - apply Hquiet; [done|]. intros q. unfold startResubscriber. rewrite pending_set_subscription.
    by case_decide.
  - apply Hquiet; [apply blockNumber_unsubscribe|apply pending_unsubscribe].
  - apply Hquiet; [apply blockNumber_set_conn|apply pending_disconnect].
  - destruct (decide (k = k')) as [->|Hne]; [by apply served_resubscribe|].
    apply Hquiet; [unfold resubscribe; apply blockNumber_set_conn|].
    intros q. by rewrite pending_resubscribe, decide_False.
  - simpl in Hack. apply Forall_app in Hack as [_ [[Ht Hn] _]%Forall_cons]. simpl in Ht, Hn. subst n.
    assert (k' = k) as -> by (destruct (wf_pending _ _ Hwf k' _ e (pending_here _ _ _ _ _ E)); [left|congruence]).
    by apply served_handle.
  - by apply Hquiet.
Qed.

Lemma steps_served k b0 w v :
  rtc step w v → well_formed b0 w → Forall (acknowledged k) (handled v) → served k b0 w →
  served k b0 v.
Proof.
  induction 1 as [w|w u v Hs Hst IH]; [done|]. intros Hwf Hack Hsv.
  apply IH; [by eapply step_well_formed|done|].
  apply (step_served k b0 w); [done|done| |done].
  destruct (steps_handled u v Hst) as (l & E). rewrite E in Hack. by apply Forall_app in Hack as [? _].
Qed.

Lemma initial_well_formed c b : ordered c → (∀ e, e ∈ c → 0 < ev_block e) → well_formed b (initial c b).
Proof. intros Ho Hp. split; simpl; [done|done|done|by left]. Qed.

Lemma initial_served k c b : served k b (initial c b).
Proof. split; simpl; [by right|done]. Qed.

(** *** Events behind the start of the watch *)

(** Nothing pending is at or before block [b], and neither is what is watched next. *)
Record passed (b : Z) (w : world) : Prop := {
  ps_start : b < blockNumber (sub w);
  ps_chain : ∃ e, e ∈ chain w ∧ b < ev_block e;
  ps_pending k q e : pending k (sub w) = Some q → e ∈ q → b < ev_block e
}.

Lemma step_passed b w v : step w v → passed b w → passed b v.
Proof.
  intros Hs [Hb (y & Hy & Hyb) Hq]. split.
  - destruct (step_blockNumber w v Hs) as [->|(k & q & e & Hk & He & ->)]; [done|eauto].
  - destruct (step_chain w v Hs) as [->|(x & -> & _)]; [eauto|].
    exists y. split; [apply elem_of_app; by left|done].
  - intros k q e Hk He.
    destruct (step_pending w v k q e Hs Hk He) as [(q' & Hq' & He')|[(Ec & ->)|Hw]]; [eauto| |].
    + destruct (step_chain w v Hs) as [Ec'|(x & Ec' & _ & Hx)]; rewrite Ec in Ec'.
      * apply (f_equal length) in Ec'. rewrite length_app in Ec'. simpl in Ec'. lia.
      * apply app_inj_tail in Ec' as [_ ->]. rewrite Forall_forall in Hx. specialize (Hx y Hy). lia.
    + apply elem_of_watch in Hw. lia.
Qed.

Lemma step_passed_handled b w v :
  step w v → passed b w → ∃ l, handled v = handled w ++ l ∧ Forall (λ x, b < ev_block x.1) l.
Proof.
  intros Hs [_ _ Hq]. destruct Hs as [e _ _|k' _|k'|k'|k' b' E|k' e q n E _|]; simpl;
    try (exists []; by rewrite app_nil_r).
  eexists. split; [done|]. apply Forall_singleton. simpl.
  eapply Hq; [by eapply pending_here|left].
Qed.

Lemma steps_passed b w v :
  rtc step w v → passed b w → ∃ l, handled v = handled w ++ l ∧ Forall (λ x, b < ev_block x.1) l.
Proof.
  induction 1 as [w|w u v Hs _ IH]; intros Hp; [exists []; by rewrite app_nil_r|].
  destruct (step_passed_handled b w u Hs Hp) as (l1 & E1 & F1).
  destruct (IH (step_passed b w u Hs Hp)) as (l2 & E2 & F2).
  exists (l1 ++ l2). split; [by rewrite E2, E1, (assoc_L (++))|by apply Forall_app].
Qed.

(** ** Properties *)


(** The subscriptions share one block number: once an event of any topic is
    acknowledged and what is pending is later, an earlier event that no handler
    acknowledged, or that a lost connection had not yet handed over, is never handled
    again. *)
Lemma passed_event_lost (b : Z) (w v : world) :
  b < blockNumber (sub w) → (∃ e, e ∈ chain w ∧ b < ev_block e) →
  (∀ k q e, pending k (sub w) = Some q → e ∈ q → b < ev_block e) →
  rtc step w v →
  ∃ l, handled v = handled w ++ l ∧ Forall (λ x, b < ev_block x.1) l.
Proof. intros Hb Hc Hq Hst. by apply (steps_passed b w v Hst). Qed.

(** ** Witnesses *)
Module Toy.
Definition bought : event := {| ev_topic := TokenBought; ev_block := 7; ev_index := 0 |}.
Definition cancelled : event := {| ev_topic := CancellationPending; ev_block := 8; ev_index := 0 |}.

(** A block mined, an event of it pending, acknowledged, the connection lost. *)
Definition w0 := initial [] 5.
Definition w1 := mkWorld [] [] (startResubscriber TokenBought (New 5)).
Definition w2 := mkWorld [] [] (resubscribe [] TokenBought (sub w1)).
Definition w3 := mkWorld [bought] [] (emit bought (sub w2)).
Definition w4 := mkWorld [bought] [] (set_conn TokenBought Down (sub w3)).
Definition w5 := mkWorld [bought] [] (startResubscriber CancellationPending (sub w4)).
Definition w6 := mkWorld [bought] [] (resubscribe [bought] CancellationPending (sub w5)).
Definition w7 := mkWorld [bought; cancelled] [] (emit cancelled (sub w6)).
Definition w8 := mkWorld [bought; cancelled] [(cancelled, Some 8)]
  (handle CancellationPending (Some 8) (set_conn CancellationPending (Up []) (sub w7))).
Definition w9 := mkWorld [bought; cancelled] [(cancelled, Some 8)]
  (resubscribe [bought; cancelled] TokenBought (sub w8)).

Lemma lost_connection : rtc step w0 w4.
Proof.
  apply (rtc_l _ _ w1); [by apply (step_subscribe w0)|].
  apply (rtc_l _ _ w2); [by apply (step_resubscribe w1 TokenBought true)|].
  apply (rtc_l _ _ w3); [by apply (step_mine w2)|].
  apply rtc_once. apply (step_disconnect w3 TokenBought).
Qed.

(** The bought event of block 7 is not handed over before the connection is lost, and
    then passed by a cancellation event of block 8. *)
Lemma overtaken : rtc step w0 w8.
Proof.
  transitivity w4; [apply lost_connection|].
  apply (rtc_l _ _ w5); [by apply (step_subscribe w4)|].
  apply (rtc_l _ _ w6); [by apply (step_resubscribe w5 CancellationPending true)|].
  apply (rtc_l _ _ w7). { apply (step_mine w6); [done|]. by repeat constructor. }
  apply rtc_once. apply (step_handle w7 CancellationPending cancelled [] (Some 8)); [done|].
  by right; right.
Qed.

Lemma w8_subscriptions : subscriptions (sub w8) =
  <[CancellationPending := {| conn := Up []; running := true |}]>
    {[TokenBought := {| conn := Down; running := true |}]}.
Proof. vm_compute. reflexivity. Qed.

Lemma w8_pending k q : pending k (sub w8) = Some q → q = [].
Proof.
  unfold pending. rewrite w8_subscriptions. intros (x & Hx & Hq)%bind_Some. revert Hx.
  intros [[_ <-]|[_ [_ <-]%lookup_singleton_Some]]%lookup_insert_Some; simpl in Hq; congruence.
Qed.

Lemma w8_start : 7 < blockNumber (sub w8).
Proof. vm_compute. reflexivity. Qed.

Lemma w8_later : ∃ e, e ∈ chain w8 ∧ 7 < ev_block e.
Proof. exists cancelled. split; [by right; left|by vm_compute]. Qed.

Lemma reconnected : rtc step w8 w9.
Proof.
  apply rtc_once. apply (step_resubscribe w8 TokenBought true).
  rewrite w8_subscriptions. reflexivity.
Qed.
End Toy.


Lemma passed_event_lost_witness :
  rtc step (initial [] 5) Toy.w8 ∧ Toy.bought ∈ chain Toy.w8 ∧
  ∃ l, handled Toy.w9 = [(Toy.cancelled, Some 8)] ++ l ∧ Forall (λ x, 7 < ev_block x.1) l.
Proof.
  split; [exact Toy.overtaken|]. split; [left|].
  apply (passed_event_lost 7 Toy.w8 Toy.w9 Toy.w8_start Toy.w8_later); [|exact Toy.reconnected].
  intros k q e Hq He. rewrite (Toy.w8_pending k q Hq) in He. by apply not_elem_of_nil in He.
Defined.
