(* ===== verification/Services.v ===== *)
(** * Services (internal/rpc/generated, internal/rpc/rpc.go,
    internal/messaging/service_registry.go)

    The services the bot was generated for, the registry of the ones it serves, made at
    start-up from what its account supports on chain, and the type of the content of a
    message.  The contracts' calls and Keccak-256 are the class [RegistryChain]. *)
From S2P Require Import Prelude Message.
From stdpp Require Import gmap sets.

#[local] Open Scope Z_scope.
#[local] Arguments String.append : simpl nomatch.

(** ** The generated code *)

(** The template of a service: how its errors are reported. *)
Inductive template := V1 | V2.
#[global] Instance template_eq_dec : EqDecision template.
Proof. solve_decision. Defined.

(** In the order of the generated functions. *)
Definition serviceTable : list (string * template) := [
  ("ttm.services.accommodation.v3.AccommodationProductInfoService", V1);
  ("ttm.services.accommodation.v3.AccommodationProductListService", V1);
  ("ttm.services.accommodation.v3.AccommodationSearchService", V1);
  ("ttm.services.accommodation.v4.AccommodationProductInfoService", V2);
  ("ttm.services.accommodation.v4.AccommodationProductListService", V2);
  ("ttm.services.accommodation.v4.AccommodationSearchService", V2);
  ("ttm.services.accommodation.v4.AccommodationProductShortListService", V2);
  ("ttm.services.accommodation.v5.AccommodationProductInfoService", V2);
  ("ttm.services.accommodation.v5.AccommodationProductListService", V2);
  ("ttm.services.accommodation.v5.AccommodationSearchService", V2);
  ("ttm.services.accommodation.v5.AccommodationProductShortListService", V2);
  ("ttm.services.activity.v3.ActivityProductInfoService", V1);
  ("ttm.services.activity.v3.ActivityProductListService", V1);
  ("ttm.services.activity.v3.ActivitySearchService", V1);
  ("ttm.services.activity.v4.ActivityProductInfoService", V2);
  ("ttm.services.activity.v4.ActivityProductListService", V2);
  ("ttm.services.activity.v4.ActivitySearchService", V2);
  ("ttm.services.activity.v4.ActivityProductShortListService", V2);
  ("ttm.services.activity.v5.ActivityProductInfoService", V2);
  ("ttm.services.activity.v5.ActivityProductListService", V2);
  ("ttm.services.activity.v5.ActivitySearchService", V2);
  ("ttm.services.activity.v5.ActivityProductShortListService", V2);
  ("ttm.services.book.v3.MintService", V1);
  ("ttm.services.book.v3.ValidationService", V1);
  ("ttm.services.book.v4.MintService", V2);
  ("ttm.services.book.v4.ValidationService", V2);
  ("ttm.services.book.v5.MintService", V2);
  ("ttm.services.book.v5.ValidationService", V2);
  ("ttm.services.cancellation.v1.CheckCancellationService", V1);
  ("ttm.services.cancellation.v2.CheckCancellationService", V2);
  ("ttm.services.cancellation.v3.CheckCancellationService", V2);
  ("ttm.services.info.v1.CountryEntryRequirementsService", V1);
  ("ttm.services.info.v2.CountryEntryRequirementsService", V1);
  ("ttm.services.info.v3.CountryEntryRequirementsService", V2);
  ("ttm.services.ping.v1.PingService", V1);
  ("ttm.services.ping.v2.PingService", V2);
  ("ttm.services.seat_map.v2.SeatMapAvailabilityService", V1);
  ("ttm.services.seat_map.v2.SeatMapService", V1);
  ("ttm.services.seat_map.v3.SeatMapAvailabilityService", V1);
  ("ttm.services.seat_map.v3.SeatMapService", V1);
  ("ttm.services.seat_map.v4.SeatMapAvailabilityService", V2);
  ("ttm.services.seat_map.v4.SeatMapService", V2);
  ("ttm.services.transport.v3.TransportProductListService", V1);
  ("ttm.services.transport.v3.TransportSearchService", V1);
  ("ttm.services.transport.v4.TransportProductListService", V2);
  ("ttm.services.transport.v4.TransportSearchService", V2);
  ("ttm.services.transport.v5.TransportProductListService", V2);
  ("ttm.services.transport.v5.TransportSearchService", V2)].

Definition serviceNames : list string := serviceTable.*1.

Definition ServiceRequest (name : string) : string := name +:+ ".Request".
Definition ServiceResponse (name : string) : string := name +:+ ".Response".

(** [rpc.NewService(client, name)]: the client is the generated one of the service. *)
Record Service := { Name : string; service_template : template }.
#[global] Instance Service_eq_dec : EqDecision Service.
Proof. solve_decision. Defined.

(** The services by their request type, and the names that are left over. *)
Definition registerService (acc : gmap string Service * gset string) (row : string * template)
    : gmap string Service * gset string :=
  if decide (row.1 ∈ acc.2)
  then (<[ServiceRequest row.1 := {| Name := row.1; service_template := row.2 |}]> acc.1,
        acc.2 ∖ {[row.1]})
  else acc.
Definition RegisterServiceClients (names : gset string) : gmap string Service * gset string :=
  foldl registerService (∅, names) serviceTable.
Arguments RegisterServiceClients : simpl never.

Definition ErrUnknownMessageType : error := Sentinel "message.ErrUnknownMessageType".

(** The cases of [UnmarshalContent]: the protobuf message a content is parsed as, the
    request or the response of a service. *)
Definition contentTypes : list (string * (string * Category)) :=
  serviceNames ≫= λ name,
    [(ServiceRequest name, (name, Request)); (ServiceResponse name, (name, Response))].
Definition contentType (msgType : string) : option (string * Category) :=
  snd <$> find (λ c, String.eqb c.1 msgType) contentTypes.

Definition UnmarshalContent {Content} (proto_Unmarshal : string * Category → bytes → outcome Content)
    (src : bytes) (msgType : string) : outcome Content :=
  match contentType msgType with
  | None => Err ErrUnknownMessageType
  | Some type => proto_Unmarshal type src
  end.

(** ** The registry *)
Definition errUnsupportedService : error := Sentinel "messaging.errUnsupportedService".

(** The bindings of the account and of its manager. *)
Class RegistryChain := {
  Keccak256Hash : string → Z;
  NewTtmaccount : outcome unit;
  GetSupportedServices : outcome (list Z);
  GetManagerAddress : outcome Z;
  NewTtmaccountmanager : Z → outcome unit;
  GetAllRegisteredServiceNames : Z → outcome (list string);
  GetServiceNameByHash : Z → Z → outcome string
}.

Record serviceRegistry := { services : option (gmap string Service) }.

Section Registry.
Context `{!RegistryChain}.

Definition ttmAccountManager : outcome Z :=
  managerAddress ← wrapO "failed to fetch TTM account manager address: %w" GetManagerAddress;
  wrapO "failed to fetch TTM account manager: %w" (NewTtmaccountmanager managerAddress) ;;
  Ok managerAddress.

Definition addName (m : gmap Z string) (serviceName : string) : gmap Z string :=
  <[Keccak256Hash serviceName := serviceName]> m.
Definition nameByHash (registeredServiceNames : list string) : gmap Z string :=
  foldl addName ∅ registeredServiceNames.

(** The name of a supported hash and whether the manager has unregistered it; a hash
    without a name is skipped. *)
Definition resolveName (manager : Z) (names : gmap Z string) (serviceHash : Z)
    : outcome (option (string * bool)) :=
  match names !! serviceHash with
  | Some serviceName => Ok (Some (serviceName, false))
  | None =>
      serviceName ← wrapO "failed to resolve service name for hash %s: %w"
        (GetServiceNameByHash manager serviceHash);
      if String.eqb serviceName "" then Ok None else Ok (Some (serviceName, true))
  end.

(** The loop over the supported hashes: the names and the deprecated ones. *)
Fixpoint resolveNames (manager : Z) (names : gmap Z string) (hashes : list Z)
    (servicesNames : gset string) (deprecatedServiceNames : list string)
    : outcome (gset string * list string) :=
  match hashes with
  | [] => Ok (servicesNames, deprecatedServiceNames)
  | serviceHash :: hashes =>
      r ← resolveName manager names serviceHash;
      match r : option (string * bool) with
      | None => resolveNames manager names hashes servicesNames deprecatedServiceNames
      | Some (serviceName, deprecated) =>
          resolveNames manager names hashes ({[serviceName]} ∪ servicesNames)
            (if deprecated then deprecatedServiceNames ++ [serviceName] else deprecatedServiceNames)
      end
  end.

Definition NewServiceRegistry (partnerPluginClientEnabled : bool) : outcome serviceRegistry :=
  wrapO "failed to fetch TTM account: %w" NewTtmaccount ;;
  supportedServices ← wrapO "failed to fetch Registered services: %w" GetSupportedServices;
  match supportedServices, partnerPluginClientEnabled with
  | _ :: _, false =>
      Err (Errorf "bot supports some services, but doesn't have partner plugin rpc client enabled")
  | [], _ => Ok {| services := None |}
  | _ :: _, true =>
      manager ← ttmAccountManager;
      registeredServiceNames ← wrapO "failed to fetch registered service names: %w"
        (GetAllRegisteredServiceNames manager);
      '(servicesNames, _) ← resolveNames manager (nameByHash registeredServiceNames)
        supportedServices ∅ [];
      let '(registered, servicesNames) := RegisterServiceClients servicesNames in
      if decide (servicesNames = ∅) then Ok {| services := Some registered |}
      else Err errUnsupportedService
  end.

Definition GetService (s : serviceRegistry) (requestType : string) : option Service :=
  m ← services s; m !! requestType.
End Registry.

(** ** Lemmas *)
Lemma serviceNames_NoDup : NoDup serviceNames.
Proof. apply (bool_decide_unpack _). vm_compute. exact I. Qed.

Lemma ServiceRequest_inj a b : ServiceRequest a = ServiceRequest b → a = b.
Proof.
  unfold ServiceRequest. intros E. apply (f_equal before_last_dot) in E.
  rewrite !before_last_dot_request in E. by injection E.
Qed.

Lemma registerService_names acc row n :
  n ∈ (registerService acc row).2 ↔ n ∈ acc.2 ∧ n ≠ row.1.
Proof. unfold registerService. case_decide; simpl; set_solver. Qed.

Lemma registerService_services acc row t s :
  (registerService acc row).1 !! t = Some s ↔
    (Name s, service_template s) = row ∧ row.1 ∈ acc.2 ∧ t = ServiceRequest row.1 ∨
    acc.1 !! t = Some s ∧ ¬ (row.1 ∈ acc.2 ∧ t = ServiceRequest row.1).
Proof.
  unfold registerService. destruct row as [n v]. case_decide as Hn; simpl; [|naive_solver].
  rewrite lookup_insert_Some. destruct s as [n' v']. simpl. naive_solver.
Qed.

Lemma registered_names table acc n :
  n ∈ (foldl registerService acc table).2 ↔ n ∈ acc.2 ∧ n ∉ table.*1.
Proof.
  revert acc. induction table as [|row table IH]; intros acc; simpl; [set_solver|].
  rewrite IH, registerService_names. set_solver.
Qed.

Lemma registered_services table acc t s :
  NoDup table.*1 →
  (foldl registerService acc table).1 !! t = Some s ↔
    (Name s, service_template s) ∈ table ∧ Name s ∈ acc.2 ∧ t = ServiceRequest (Name s) ∨
    acc.1 !! t = Some s ∧ ∀ n, n ∈ table.*1 → n ∈ acc.2 → t ≠ ServiceRequest n.
Proof.
  revert acc. induction table as [|row table IH]; intros acc Hnd; simpl; [set_solver|].
  apply NoDup_cons in Hnd as [Hnew Hnd]. rewrite IH by done.
  rewrite registerService_services, registerService_names.
  assert (∀ n, n ∈ table.*1 → n ∈ (registerService acc row).2 ↔ n ∈ acc.2) as Hn.
  { intros n Hin. rewrite registerService_names. set_solver. }
  split.
  - intros [(Hin & [Hs _] & ->)|[[(<- & Hr & ->)|[Hs Hr]] Hall]]; [left|left|right].
    + split_and!; [by right|done|done].
    + split_and!; [by left|done|done].
    + split; [done|]. intros n [->|Hin]%elem_of_cons Hin' ->; [by apply Hr|].
      by apply (Hall n); [|apply Hn|].
  - intros [([Heq|Hin]%elem_of_cons & Hs & ->)|[Hs Hall]].
    + right. subst row. split; [left; done|]. intros n Hin _ Heq%ServiceRequest_inj. by subst n.
    + left. split; [done|]. split; [split; [done|]|done]. intros Heq. apply Hnew. rewrite <- Heq.
      apply list_elem_of_fmap. by exists (Name s, service_template s).
    + right. split; [right; split; [done|]|].
      * intros [Hr ->]. by apply (Hall row.1); [left|..].
      * intros n Hin Hin' ->. apply (Hall n); [by right|by apply Hn|done].
Qed.

Lemma ServiceRequest_type t n :
  t = ServiceRequest n ↔ Type_Category t = Request ∧ ToServiceName t = n.
Proof.
  split.
  - intros ->. destruct (message_type_roundtrip n) as (? & ? & _). done.
  - intros [Hc <-]. unfold Type_Category in Hc. destruct (HasSuffix t ".Request") eqn:E.
    + apply HasSuffix_inv in E as [p ->]. unfold ToServiceName, ServiceRequest.
      by rewrite before_last_dot_request.
    + by destruct (HasSuffix t ".Response").
Qed.

Lemma ServiceResponse_type t n :
  t = ServiceResponse n ↔ Type_Category t = Response ∧ ToServiceName t = n.
Proof.
  split.
  - intros ->. destruct (message_type_roundtrip n) as (_ & _ & ? & ?). done.
  - intros [Hc <-]. unfold Type_Category in Hc. destruct (HasSuffix t ".Request"); [done|].
    destruct (HasSuffix t ".Response") eqn:E; [|done].
    apply HasSuffix_inv in E as [p ->]. unfold ToServiceName, ServiceResponse.
    by rewrite before_last_dot_response.
Qed.

Lemma elem_of_contentTypes t n c :
  (t, (n, c)) ∈ contentTypes ↔
    n ∈ serviceNames ∧ n = ToServiceName t ∧ c = Type_Category t ∧ c ≠ Unknown.
Proof.
  unfold contentTypes. rewrite list_elem_of_bind. split.
  - intros (x & [E|[E|E%not_elem_of_nil]%elem_of_cons]%elem_of_cons & Hx); [| |done];
      injection E as -> -> ->.
    + destruct (proj1 (ServiceRequest_type _ x) eq_refl) as [-> ->]. done.
    + destruct (proj1 (ServiceResponse_type _ x) eq_refl) as [-> ->]. done.
  - intros (Hn & -> & -> & Hc). exists (ToServiceName t). split; [|done].
    destruct (Type_Category t) eqn:E; [done|..].
    + rewrite (proj2 (ServiceRequest_type t (ToServiceName t)) (conj E eq_refl)) at 1. by left.
    + rewrite (proj2 (ServiceResponse_type t (ToServiceName t)) (conj E eq_refl)) at 1. by right; left.
Qed.

Section RegistryLemmas.
Context `{!RegistryChain}.

Lemma nameByHash_elem names acc h n :
  foldl addName acc names !! h = Some n → n ∈ names ∧ Keccak256Hash n = h ∨ acc !! h = Some n.
Proof.
  revert acc. induction names as [|x names IH]; intros acc; simpl; [by right|].
  intros [[Hin Hh]|Hl]%IH; [left; split; [by right|done]|].
  unfold addName in Hl. apply lookup_insert_Some in Hl as [[<- <-]|[_ Hl]]; [left; split; [by left|done]|by right].
Qed.

Lemma resolveNames_spec manager names hashes S D :
  (∀ h, h ∈ hashes → is_ok (resolveName manager names h) = true) →
  ∃ S' D', resolveNames manager names hashes S D = Ok (S', D') ∧
    ∀ n, n ∈ S' ↔ n ∈ S ∨ ∃ h b, h ∈ hashes ∧ resolveName manager names h = Ok (Some (n, b)).
Proof.
  revert S D. induction hashes as [|h hashes IH]; intros S D Hok.
  - exists S, D. split; [done|]. intros n. split; [by left|].
    intros [?|(h & b & Hh & _)]; [done|by apply not_elem_of_nil in Hh].
  - simpl. pose proof (Hok h (list_elem_of_here h hashes)) as Hh.
    assert (∀ h, h ∈ hashes → is_ok (resolveName manager names h) = true) as Hok'
      by (intros; apply Hok; by right).
    destruct (resolveName manager names h) as [[[n b]|]| |] eqn:Er; try done; simpl;
      match goal with |- context [resolveNames _ _ hashes ?S1 ?D1] =>
        destruct (IH S1 D1 Hok') as (S' & D' & E & HS) end; exists S', D'; (split; [exact E|]);
      intros x; rewrite HS; split.
    + intros [[->%elem_of_singleton|Hx]%elem_of_union|(h' & b' & Hin & E')]; [|by left|].
      * right. exists h, b. split; [by left|done].
      * right. exists h', b'. split; [by right|done].
    + intros [Hx|(h' & b' & [->|Hin]%elem_of_cons & E')]; [left; set_solver| |].
      * left. rewrite Er in E'. set_solver.
      * right. eauto.
    + intros [Hx|(h' & b' & Hin & E')]; [by left|]. right. exists h', b'. split; [by right|done].
    + intros [Hx|(h' & b' & [->|Hin]%elem_of_cons & E')]; [by left|congruence|]. right. eauto.
Qed.

(** What the contracts promise: a name is stored under its hash, an account supports
    registered services only, and no service of the bot has the hash of another one. *)
Class RegistryPromises := {
  name_of_hash m h n : GetServiceNameByHash m h = Ok n → n ≠ "" → Keccak256Hash n = h;
  supported_named m hs h : GetSupportedServices = Ok hs → h ∈ hs → GetServiceNameByHash m h ≠ Ok "";
  no_collision a n : a ∈ serviceNames → Keccak256Hash n = Keccak256Hash a → n = a
}.
Context `{!RegistryPromises}.

Definition supports (hashes : list Z) (name : string) : Prop := Keccak256Hash name ∈ hashes.

Lemma resolveName_hash manager names h n b :
  resolveName manager (nameByHash names) h = Ok (Some (n, b)) → Keccak256Hash n = h.
Proof.
  unfold resolveName. destruct (nameByHash names !! h) as [x|] eqn:E.
  - intros [= <- _]. apply nameByHash_elem in E as [[_ ?]|E]; [done|by rewrite lookup_empty in E].
  - destruct (GetServiceNameByHash manager h) as [x| |] eqn:Eh; try done. simpl.
    destruct (String.eqb x "") eqn:Ex; [done|]. intros [= <- _].
    apply name_of_hash in Eh; [done|]. by intros ->.
Qed.

(** A hash the bot has a service for resolves to the name of the service. *)
Lemma resolveName_known manager names hs h n :
  GetSupportedServices = Ok hs → h ∈ hs →
  is_ok (resolveName manager (nameByHash names) h) = true →
  n ∈ serviceNames → Keccak256Hash n = h →
  ∃ b, resolveName manager (nameByHash names) h = Ok (Some (n, b)).
Proof.
  intros Hs Hin Hok Hn Hh.
  assert (∃ x b, resolveName manager (nameByHash names) h = Ok (Some (x, b))) as (x & b & E).
  { revert Hok. unfold resolveName. destruct (nameByHash names !! h) as [y|]; [eauto|].
    pose proof (supported_named manager hs h Hs Hin) as Hne.
    destruct (GetServiceNameByHash manager h) as [y| |]; try done. simpl.
    destruct (String.eqb_spec y "") as [->|]; [done|eauto]. }
  exists b. rewrite E. pose proof (resolveName_hash _ _ _ _ _ E) as Hx.
  by rewrite (no_collision n x Hn) by congruence.
Qed.

(** The services registered for the names the supported hashes resolve to. *)
Lemma registered_supported manager names hashes L t s :
  GetSupportedServices = Ok hashes →
  (∀ h, h ∈ hashes → is_ok (resolveName manager (nameByHash names) h) = true) →
  (∀ n, n ∈ L ↔ ∃ h b, h ∈ hashes ∧ resolveName manager (nameByHash names) h = Ok (Some (n, b))) →
  (RegisterServiceClients L).1 !! t = Some s ↔
    (Name s, service_template s) ∈ serviceTable ∧ supports hashes (Name s) ∧
    Type_Category t = Request ∧ ToServiceName t = Name s.
Proof.
  intros Hs Hok HL. unfold RegisterServiceClients.
  rewrite registered_services by apply serviceNames_NoDup. simpl. rewrite lookup_empty, ServiceRequest_type.
  split.
  - intros [(Hin & (h & b & Hh & E)%HL & Ht)|[? _]]; [|done]. split_and!; [done| |tauto..].
    unfold supports. by rewrite (resolveName_hash _ _ _ _ _ E).
  - intros (Hin & Hsup & Ht). left. split_and!; [done| |tauto..]. apply HL.
    assert (Name s ∈ serviceNames) as Hn.
    { apply list_elem_of_fmap. by exists (Name s, service_template s). }
    destruct (resolveName_known manager names hashes _ (Name s) Hs Hsup (Hok _ Hsup) Hn eq_refl) as (b & E).
    eauto.
Qed.

(** Nothing is left over exactly when the bot has every service supported. *)
Lemma leftover_known manager names hashes L :
  GetSupportedServices = Ok hashes →
  (∀ h, h ∈ hashes → is_ok (resolveName manager (nameByHash names) h) = true) →
  (∀ n, n ∈ L ↔ ∃ h b, h ∈ hashes ∧ resolveName manager (nameByHash names) h = Ok (Some (n, b))) →
  (RegisterServiceClients L).2 = ∅ ↔ ∀ h, h ∈ hashes → ∃ n, n ∈ serviceNames ∧ Keccak256Hash n = h.
Proof.
  intros Hs Hok HL. unfold RegisterServiceClients. split.
  - intros E h Hh.
    assert (∃ n b, resolveName manager (nameByHash names) h = Ok (Some (n, b))) as (n & b & En).
    { specialize (Hok h Hh). revert Hok. unfold resolveName.
      destruct (nameByHash names !! h) as [y|]; [eauto|].
      pose proof (supported_named manager hashes h Hs Hh) as Hne.
      destruct (GetServiceNameByHash manager h) as [y| |]; try done. simpl.
      destruct (String.eqb_spec y "") as [->|]; [done|eauto]. }
    exists n. split; [|by eapply resolveName_hash].
    destruct (decide (n ∈ serviceNames)) as [?|Hn]; [done|]. exfalso.
    apply (not_elem_of_empty (C := gset string) n). rewrite <- E. apply registered_names.
    split; [apply HL; eauto|done].
  - intros Hknown. apply set_eq. intros n. rewrite registered_names, HL.
    split; [|intros Hn; by apply not_elem_of_empty in Hn].
    intros [(h & b & Hh & E) Hn]. exfalso. apply Hn.
    destruct (Hknown h Hh) as (a & Ha & Hk). apply resolveName_hash in E.
    by rewrite (no_collision a n Ha) by congruence.
Qed.
End RegistryLemmas.

(** ** Properties *)
Section Properties.
Context `{!RegistryChain, !RegistryPromises}.

(** C26: at start-up, with the account and its manager answering, the bot serves exactly
    the requests of the services its account supports on chain, whether the manager still
    has them registered or not; it does not start when one of them is not a service it was
    generated for, nor when there are any and it has no partner plugin. *)
Theorem registry_serves_supported (enabled : bool) (hashes : list Z) (manager : Z) (names : list string) :
  NewTtmaccount = Ok tt → GetSupportedServices = Ok hashes → ttmAccountManager = Ok manager →
  GetAllRegisteredServiceNames manager = Ok names →
  (∀ h, h ∈ hashes → is_ok (GetServiceNameByHash manager h) = true) →
  let known := ∀ h, h ∈ hashes → ∃ n, n ∈ serviceNames ∧ Keccak256Hash n = h in
  match NewServiceRegistry enabled with
  | Ok r => known ∧ (hashes = [] ∨ enabled = true) ∧
      ∀ t s, GetService r t = Some s ↔
        (Name s, service_template s) ∈ serviceTable ∧ supports hashes (Name s) ∧
        Type_Category t = Request ∧ ToServiceName t = Name s
  | Err e => hashes ≠ [] ∧ (enabled = false ∨ e = errUnsupportedService ∧ ¬ known)
  | Panic _ => False
  end.
Proof.
  intros Ha Hs Hm Hr Hh known. unfold NewServiceRegistry. rewrite Ha, Hs.
  cbn [wrapO mbind outcome_bind].
  destruct hashes as [|h0 hashes]; cbn [wrapO mbind outcome_bind].
  - split; [intros h Hin; by apply not_elem_of_nil in Hin|]. split; [by left|].
    intros t s. split; [done|]. intros (_ & Hsup & _). by apply not_elem_of_nil in Hsup.
  - destruct enabled; [|by auto]. rewrite Hm. cbn [wrapO mbind outcome_bind]. rewrite Hr. cbn [wrapO mbind outcome_bind].
    assert (∀ h, h ∈ h0 :: hashes → is_ok (resolveName manager (nameByHash names) h) = true) as Hok.
    { intros h Hin. unfold resolveName. destruct (nameByHash names !! h); [done|].
      specialize (Hh h Hin). destruct (GetServiceNameByHash manager h) as [y| |]; try done. simpl.
      by destruct (String.eqb y ""). }
    destruct (resolveNames_spec manager (nameByHash names) (h0 :: hashes) ∅ [] Hok) as (L & D & EL & HL).
    rewrite EL. cbn [mbind outcome_bind].
    assert (∀ n, n ∈ L ↔ ∃ h b, h ∈ h0 :: hashes ∧
      resolveName manager (nameByHash names) h = Ok (Some (n, b))) as HL'.
    { intros n. rewrite HL. split; [intros [Hn|Hn]; [by apply not_elem_of_empty in Hn|done]|by right]. }
    pose proof (leftover_known manager names _ L Hs Hok HL') as Hleft.
    pose proof (λ t s, registered_supported manager names _ L t s Hs Hok HL') as Hreg.
    destruct (RegisterServiceClients L) as [registered rest]. cbn [fst snd] in *.
    destruct (decide (rest = ∅)) as [He|He].
    + split; [exact (proj1 Hleft He)|]. split; [by right|]. exact Hreg.
    + split; [done|]. right. split; [done|]. intros Hk. exact (He (proj2 Hleft Hk)).
Qed.

(** The content of a message is parsed for its type alone: a type has a protobuf
    message exactly when it is the request or the response of a service of the bot, and it
    is that of the service. *)
Lemma UnmarshalContent_types {Content} (proto_Unmarshal : string * Category → bytes → outcome Content)
    (src : bytes) (t : string) :
  UnmarshalContent proto_Unmarshal src t =
    if decide (ToServiceName t ∈ serviceNames ∧ Type_Category t ≠ Unknown)
    then proto_Unmarshal (ToServiceName t, Type_Category t) src
    else Err ErrUnknownMessageType.
Proof.
  unfold UnmarshalContent, contentType. destruct (find _ _) as [[k [n c]]|] eqn:E; simpl.
  - apply find_some in E as [Hin%list_elem_of_In E]. apply String.eqb_eq in E. simpl in E. subst k.
    apply elem_of_contentTypes in Hin as (Hn & -> & -> & Hc). by rewrite decide_True.
  - case_decide as Hd; [|done]. destruct Hd as [Hn Hc]. exfalso.
    assert ((t, (ToServiceName t, Type_Category t)) ∈ contentTypes) as Hin%list_elem_of_In
      by (by apply elem_of_contentTypes).
    pose proof (find_none _ _ E _ Hin) as Hf. simpl in Hf. by rewrite String.eqb_refl in Hf.
Qed.
End Properties.

(** ** A chain with a deprecated service, and witnesses *)
Module Toy.
(** Different strings have different hashes. *)
Definition hash (s : string) : Z := Z.pos (encode s).
Definition ping := "ttm.services.ping.v2.PingService".
Definition mint := "ttm.services.book.v4.MintService".

Lemma hash_inj a b : hash a = hash b → a = b.
Proof. unfold hash. intros [= E]. by apply (inj encode). Qed.

(** The manager has unregistered the ping service. *)
#[global] Instance chain : RegistryChain := {|
  Keccak256Hash := hash;
  NewTtmaccount := Ok tt;
  GetSupportedServices := Ok [hash mint; hash ping];
  GetManagerAddress := Ok 3;
  NewTtmaccountmanager _ := Ok tt;
  GetAllRegisteredServiceNames _ := Ok [mint];
  GetServiceNameByHash _ h :=
    if decide (h = hash ping) then Ok ping else if decide (h = hash mint) then Ok mint else Ok ""
|}.

#[global] Instance promises : RegistryPromises.
Proof.
  split; simpl.
  - intros _ h n. repeat case_decide; intros [= <-]; done.
  - intros _ hs h [= <-] [->|[->|Hn%not_elem_of_nil]%elem_of_cons]%elem_of_cons; [..|done];
      repeat case_decide; try discriminate; done.
  - intros a n _. apply hash_inj.
Qed.

Definition registry : serviceRegistry :=
  match NewServiceRegistry true with Ok r => r | _ => {| services := None |} end.

Lemma registry_ok : NewServiceRegistry true = Ok registry.
Proof. vm_compute. reflexivity. Qed.
End Toy.

Lemma registry_serves_supported_witness :
  GetService Toy.registry (ServiceRequest Toy.ping) = Some {| Name := Toy.ping; service_template := V2 |}.
Proof.
  pose proof (registry_serves_supported true [Toy.hash Toy.mint; Toy.hash Toy.ping] 3 [Toy.mint]
    eq_refl eq_refl eq_refl eq_refl) as H.
  rewrite Toy.registry_ok in H.
  destruct H as (_ & _ & H).
  - intros h Hh. unfold GetServiceNameByHash, Toy.chain.
    destruct (decide _); [reflexivity|]. destruct (decide _); reflexivity.
  - apply H. split; [apply list_elem_of_In; vm_compute; tauto|]. split; [right; left|].
    split; vm_compute; reflexivity.
Defined.
