(* ===== verification/Version.v ===== *)
(** * The version of the bot (internal/version)

    The version of the build, parsed at start-up into the two protobuf messages that go
    into the header of every response. *)
From Stdlib Require Import Ascii.
From S2P Require Import Prelude Decimal Conversion.

#[local] Open Scope Z_scope.
#[local] Arguments String.append : simpl nomatch.

Record Version := { Major : Z; Minor : Z; Patch : Z }.

(** [VersionV1] and [VersionV4], nil until they are initialised. *)
Record versions := { VersionV1 : option Version; VersionV4 : option Version }.

(** [strconv.Atoi(s)], [conversion.IntToInt32(n)]: the error is replaced. *)
Definition orError {A} (fmt : string) (o : option A) : outcome A :=
  match o with Some a => Ok a | None => Err (Errorf fmt) end.
Definition replaceError {A} (fmt : string) (o : outcome A) : outcome A :=
  match o with Err _ => Err (Errorf fmt) | _ => o end.

(** The three fields of the version. *)
Definition splitAppVersion (AppVersion : string) (allowInvalid : bool) : outcome (list string) :=
  match Split "-"%char AppVersion with
  | [] => Err (Errorf "invalid version format: %q, expected format is vMAJOR.MINOR.PATCH")
  | head :: _ =>
      let splittedAppVersion := Split "."%char (TrimPrefix "v"%char head) in
      if decide (length splittedAppVersion = 3%nat) then Ok splittedAppVersion
      else if allowInvalid then Ok ["0"; "0"; "0"]
      else Err (Errorf "invalid version format: %q, expected format is vMAJOR.MINOR.PATCH")
  end.

Definition InitProtoVersion (AppVersion : string) (allowInvalid : bool) : M versions unit :=
  splittedAppVersion ← liftO (splitAppVersion AppVersion allowInvalid);
  match splittedAppVersion : list string with
  | [major; minor; patch] =>
      appVersionMajor ← liftO (orError "major version must be an integer" (Atoi major));
      appVersionMinor ← liftO (orError "minor version must be an integer" (Atoi minor));
      appVersionPatch ← liftO (orError "patch version must be an integer" (Atoi patch));
      appVersionMajorInt32 ← liftO (replaceError "major version %d exceeds int32 limit" (IntToInt32 appVersionMajor));
      appVersionMinorInt32 ← liftO (replaceError "minor version %d exceeds int32 limit" (IntToInt32 appVersionMinor));
      appVersionPatchInt32 ← liftO (replaceError "patch version %d exceeds int32 limit" (IntToInt32 appVersionPatch));
      appVersionMajorUInt32 ← liftO (replaceError "major version %d exceeds int32 limit" (IntToUInt32 appVersionMajor));
      appVersionMinorUInt32 ← liftO (replaceError "minor version %d exceeds int32 limit" (IntToUInt32 appVersionMinor));
      appVersionPatchUInt32 ← liftO (replaceError "patch version %d exceeds int32 limit" (IntToUInt32 appVersionPatch));
      putS {| VersionV1 := Some {| Major := appVersionMajorInt32; Minor := appVersionMinorInt32;
                                   Patch := appVersionPatchInt32 |};
              VersionV4 := Some {| Major := appVersionMajorUInt32; Minor := appVersionMinorUInt32;
                                   Patch := appVersionPatchUInt32 |} |}
  | _ => panicS "index out of range"
  end.

(** ** Lemmas *)
Definition valid (v : Version) : Prop :=
  0 ≤ Major v ≤ MaxInt32 ∧ 0 ≤ Minor v ≤ MaxInt32 ∧ 0 ≤ Patch v ≤ MaxInt32.

(** Three fields give the version they spell, or an error. *)
Lemma InitProtoVersion_fields a allow s x y z :
  splitAppVersion a allow = Ok [x; y; z] →
  (∃ v, InitProtoVersion a allow s = ({| VersionV1 := Some v; VersionV4 := Some v |}, Ok tt) ∧ valid v ∧
     Atoi x = Some (Major v) ∧ Atoi y = Some (Minor v) ∧ Atoi z = Some (Patch v)) ∨
  (∃ e, InitProtoVersion a allow s = (s, Err e)) ∧
  ¬ ∃ v, valid v ∧ Atoi x = Some (Major v) ∧ Atoi y = Some (Minor v) ∧ Atoi z = Some (Patch v).
Proof.
  intros E. unfold InitProtoVersion. rewrite E. unfold mbind, M_bind, liftO, orError.
  destruct (Atoi x) as [nx|]; [|right; split; [by eexists|by intros (? & _ & ? & _)]].
  destruct (Atoi y) as [ny|]; [|right; split; [by eexists|by intros (? & _ & _ & ? & _)]].
  destruct (Atoi z) as [nz|]; [|right; split; [by eexists|by intros (? & _ & _ & _ & ?)]].
  assert (∀ n, IntToInt32 n = Ok n ∧ IntToUInt32 n = Ok n ∧ 0 ≤ n ≤ MaxInt32 ∨
    (∃ e, IntToInt32 n = Err e) ∧ ¬ (0 ≤ n ≤ MaxInt32)) as Hc.
  { intros n. unfold IntToInt32, IntToUInt32. zcase; simpl; [right; split; [by eexists|lia]..|left].
    assert (MaxInt32 < 2 ^ 31) by (vm_compute; reflexivity).
    rewrite swrap_small by (unfold in_sint; simpl; lia). unfold uwrap.
    rewrite Z.mod_small by (simpl; lia). done. }
  destruct (Hc nx) as [(-> & -> & Hx)|[[e ->] Hx]]; simpl;
    [|right; split; [by eexists|intros (v & (? & _ & _) & [= ->] & _); done]].
  destruct (Hc ny) as [(-> & -> & Hy)|[[e ->] Hy]]; simpl;
    [|right; split; [by eexists|intros (v & (_ & ? & _) & _ & [= ->] & _); done]].
  destruct (Hc nz) as [(-> & -> & Hz)|[[e ->] Hz]]; simpl;
    [|right; split; [by eexists|intros (v & (_ & _ & ?) & _ & _ & [= ->]); done]].
  left. by exists {| Major := nx; Minor := ny; Patch := nz |}.
Qed.

Lemma splitAppVersion_fields a allow l :
  splitAppVersion a allow = Ok l → ∃ x y z, l = [x; y; z].
Proof.
  unfold splitAppVersion. destruct (Split _ a) as [|h t]; [done|].
  destruct (decide _) as [Hl|_]; [|destruct allow; [intros [= <-]; eauto|done]].
  intros [= <-]. revert Hl. set (l := Split _ _). clearbody l.
  destruct l as [|x [|y [|z [|? ?]]]]; try done. eauto.
Qed.

(** A version as the build spells it. *)
Definition printField (n : Z) : string := pretty (Z.to_N n).
Definition printVersion (v : Version) : string :=
  printField (Major v) +:+ "." +:+ printField (Minor v) +:+ "." +:+ printField (Patch v).

Lemma printField_avoids c n : ¬ is_digit c → avoids c (printField n).
Proof. apply pretty_N_avoids. Qed.

Lemma Atoi_printField n : 0 ≤ n ≤ MaxInt32 → Atoi (printField n) = Some n.
Proof.
  intros Hn. unfold printField. assert (MaxInt32 ≤ MaxInt64) by (vm_compute; discriminate).
  rewrite Atoi_pretty by lia. f_equal. lia.
Qed.

Lemma Split_printVersion v :
  Split "."%char (printVersion v) = [printField (Major v); printField (Minor v); printField (Patch v)].
Proof.
  assert (¬ is_digit "."%char) as Hd by by intros [].
  unfold printVersion. cbn [String.append].
  rewrite Split_app by by apply printField_avoids. cbn [String.append].
  rewrite Split_app by by apply printField_avoids.
  by rewrite Split_avoids by by apply printField_avoids.
Qed.

Lemma printVersion_dash v : avoids "-"%char (printVersion v).
Proof.
  assert (¬ is_digit "-"%char) as Hd by by intros [].
  unfold printVersion. rewrite !avoids_app. split_and!; try done; by apply printField_avoids.
Qed.

Lemma TrimPrefix_printVersion v (prefix : bool) :
  TrimPrefix "v"%char ((if prefix then "v" else "") +:+ printVersion v) = printVersion v.
Proof.
  destruct prefix; [done|]. simpl. unfold printVersion, printField.
  destruct (pretty_N_head (Z.to_N (Major v))) as (c & t & -> & Hc). simpl.
  destruct (Ascii.eqb_spec c "v"%char) as [->|_]; [by destruct Hc|done].
Qed.

(** ** Properties *)

(** Initialising the version is the inverse of spelling it: the version of a build,
    with or without the leading [v] and with any suffix after a dash, gives both messages
    its numbers exactly; anything else that is accepted has numbers below [2^31] that are
    the same in both messages; and an error leaves both as they were. *)
Lemma version_roundtrip (a : string) (allow : bool) (s : versions) :
  (∀ v (prefix : bool) suffix,
     valid v → suffix = "" ∨ (∃ t, suffix = "-" +:+ t) →
     a = (if prefix then "v" else "") +:+ printVersion v +:+ suffix →
     InitProtoVersion a allow s = ({| VersionV1 := Some v; VersionV4 := Some v |}, Ok tt)) ∧
  match InitProtoVersion a allow s with
  | (t, Ok _) => ∃ v, valid v ∧ t = {| VersionV1 := Some v; VersionV4 := Some v |}
  | (t, Err _) => t = s
  | (_, Panic _) => False
  end.
Proof.
  split.
  - intros v prefix suffix (HM & Hm & Hp) Hsuf ->.
    assert (splitAppVersion ((if prefix then "v" else "") +:+ printVersion v +:+ suffix) allow =
      Ok [printField (Major v); printField (Minor v); printField (Patch v)]) as E.
    { unfold splitAppVersion.
      assert (∃ r, Split "-"%char ((if prefix then "v" else "") +:+ printVersion v +:+ suffix) =
        ((if prefix then "v" else "") +:+ printVersion v) :: r) as [r ->].
      { assert (avoids "-"%char ((if prefix then "v" else "") +:+ printVersion v)) as Ha
          by (apply avoids_app; split; [by destruct prefix|apply printVersion_dash]).
        rewrite string_app_assoc. destruct Hsuf as [->|[t ->]].
        - exists []. rewrite string_app_nil. by apply Split_avoids.
        - exists (Split "-"%char t). by apply Split_app. }
      rewrite TrimPrefix_printVersion, Split_printVersion. done. }
    destruct (InitProtoVersion_fields _ allow s _ _ _ E) as [(w & -> & _ & Ew)|[_ Hn]].
    + rewrite !Atoi_printField in Ew by done. destruct Ew as ([= E1] & [= E2] & [= E3]).
      destruct v, w. by simplify_eq/=.
    + exfalso. apply Hn. exists v. rewrite !Atoi_printField by done. done.
  - destruct (splitAppVersion a allow) as [l|e|p] eqn:E.
    + destruct (splitAppVersion_fields _ _ _ E) as (x & y & z & ->).
      destruct (InitProtoVersion_fields a allow s x y z E) as [(v & -> & Hv & _)|[[e ->] _]]; eauto.
    + unfold InitProtoVersion. by rewrite E.
    + exfalso. revert E. unfold splitAppVersion. destruct (Split _ a); [done|].
      destruct (decide _); [done|]. by destruct allow.
Qed.

