(* ===== verification/Gateway.v ===== *)
(** * The gRPC server and the generated services (internal/rpc/server, internal/rpc/generated,
    internal/partnerplugin, internal/version)

    A service has two ends.  As a distributor the bot takes a gRPC request, sends it to
    the recipient's bot through the processor and answers with its response: the generated
    server methods over [HandleMessageRequest].  As a supplier it calls its partner plugin
    with a request it received: the generated [Call].  Both come in two templates, which
    differ in how an error is answered.  The wire, validation and the versions of the
    contents are below; the rest of a message is a parameter. *)
From S2P Require Import Prelude Message TtmAccounts Encoding Processor Services Version.
From stdpp Require Import gmap.

#[local] Open Scope Z_scope.

Definition ErrNilResponseHeader : error := Sentinel "rpc.ErrNilResponseHeader".
Definition CheckpointGRPCRequestReceived := "grpc_request_received".
Definition CheckpointGRPCResponseSent := "grpc_response_sent".
Definition KeyRequestID := "request_id".
Definition KeyRecipientTTMAccount := "recipient_ttm_account".
Definition KeySenderTTMAccount := "sender_ttm_account".
Definition KeyTimestamps := "timestamps".

(** ** Contents: the requests and responses of the services

    A pointer is an [option]; what the bot does not touch is of the type [Body]. *)
Section Contents.
Context {Body : Type}.

Record Header := { hd_Version : option Version; hd_rest : Body }.

Inductive ErrorCode :=
  | ERROR_CODE_INTERNAL
  | ERROR_CODE_INVALID_PROTO
  | ERROR_CODE_BLOCKCHAIN_ERROR
  | ERROR_CODE_BUSINESS_PROCESS_ERROR
  | ERROR_CODE_OTHER (code : Z).

Record ErrorResponseHeader := {
  er_BaseHeader : option Header;
  Errors : list (ErrorCode * string)
}.

(** Template 1: a header with a status and alerts. *)
Inductive StatusType := STATUS_TYPE_FAILURE | STATUS_TYPE_OTHER (status : Z).
Record ResponseHeader := {
  rh_BaseHeader : option Header;
  Status : StatusType;
  Alerts : list string
}.
Record responseV1 := { v1_Header : option ResponseHeader; v1_body : option Body }.

(** Template 2: one of an error response and a success response. *)
Inductive responseV2 :=
  | ErrorResponse (header : option ErrorResponseHeader)
  | SuccessResponse (header : option (option Header)) (body : Body)
  | NoResponse.

(** [RequestMsg service header body] is the request message of a service, with
    [request.Header] and its [BaseHeader]. *)
Inductive content :=
  | RequestMsg (service : string) (header : option (option Header)) (body : Body)
  | ResponseV1Msg (service : string) (response : responseV1)
  | ResponseV2Msg (service : string) (response : responseV2).
End Contents.
Arguments Header : clear implicits.
Arguments ErrorResponseHeader : clear implicits.
Arguments ResponseHeader : clear implicits.
Arguments responseV1 : clear implicits.
Arguments responseV2 : clear implicits.
Arguments content : clear implicits.

Section Gateway.
Context {Body : Type}.
Variable emptyBody : Body.
(** What [InitProtoVersion] set. *)
Variable version : versions.
Variable Validate : content Body → option error.
(** [err.Error()] *)
Variable Error : error → string.

Definition set_version (v : option Version) (h : Header Body) : Header Body :=
  {| hd_Version := v; hd_rest := hd_rest h |}.

(** ** Answering with an error *)

(** The type assertion on the response. *)
Definition is_response (s : Service) (c : content Body) : bool :=
  match c, service_template s with
  | ResponseV1Msg service _, V1 | ResponseV2Msg service _, V2 => String.eqb service (Name s)
  | _, _ => false
  end.

(** [switch { case errors.Is(err, ...) }] *)
Definition errorCode (err : error) : ErrorCode :=
  if errors_is err "rpc.ErrInvalidProto" then ERROR_CODE_INVALID_PROTO
  else if errors_is err "rpc.ErrBlockchain" then ERROR_CODE_BLOCKCHAIN_ERROR
  else if errors_is err "rpc.ErrBusinessProcess" then ERROR_CODE_BUSINESS_PROCESS_ERROR
  else ERROR_CODE_INTERNAL.

Definition errorResponseV2 (service : string) (code : ErrorCode) (errorMessage : string) : content Body :=
  ResponseV2Msg service (ErrorResponse (Some {|
    er_BaseHeader := Some {| hd_Version := VersionV4 version; hd_rest := emptyBody |};
    Errors := [(code, errorMessage)] |})).

Definition errorResponseV1 (service : string) (errorMessage : string) : content Body :=
  ResponseV1Msg service {|
    v1_Header := Some {|
      rh_BaseHeader := Some {| hd_Version := VersionV1 version; hd_rest := emptyBody |};
      Status := STATUS_TYPE_FAILURE;
      Alerts := [errorMessage] |};
    v1_body := None |}.

Definition errorResponse (s : Service) (code : ErrorCode) (errorMessage : string) : content Body :=
  match service_template s with
  | V1 => errorResponseV1 (Name s) errorMessage
  | V2 => errorResponseV2 (Name s) code errorMessage
  end.

Definition InvalidProtoErrResponseAndType (s : Service) (errorMessage : string) : content Body * string :=
  (errorResponse s ERROR_CODE_INVALID_PROTO errorMessage, ServiceResponse (Name s)).

(** ** Calling the partner plugin *)
Section Client.
Context {X : Type}.
(** The gRPC clients of the services, with the pairs of their outgoing context. *)
Variable grpc_v1 : string → list (string * string) → content Body → M X (responseV1 Body).
Variable grpc_v2 : string → list (string * string) → content Body → M X (responseV2 Body).

(** The type assertion on the request. *)
Definition is_request (service : string) (c : content Body) : bool :=
  match c with RequestMsg s _ _ => String.eqb s service | _ => false end.

(** [errResp.Header.BaseHeader.Version = version.VersionV4], or the success response's. *)
Definition stampVersionV2 (response : responseV2 Body) : outcome (responseV2 Body) :=
  match response with
  | ErrorResponse h =>
      h ← deref h;
      b ← deref (er_BaseHeader h);
      Ok (ErrorResponse (Some {| er_BaseHeader := Some (set_version (VersionV4 version) b); Errors := Errors h |}))
  | SuccessResponse h body =>
      h ← deref h;
      b ← deref h;
      Ok (SuccessResponse (Some (Some (set_version (VersionV4 version) b))) body)
  | NoResponse => Panic nilDeref
  end.

Definition CallV2 (service : string) (pairs : list (string * string)) (requestIntf : content Body)
    : M X (content Body * string) :=
  let messageType := ServiceResponse service in
  if negb (is_request service requestIntf) then
    retS (errorResponseV2 service ERROR_CODE_INTERNAL "invalid request type: expected %s, got %T", messageType)
  else
    orRespond (grpc_v2 service pairs requestIntf)
      (λ err, (errorResponseV2 service (errorCode err) (Error err), messageType)) (λ response,
    match Validate (ResponseV2Msg service response) with
    | Some _ => retS (errorResponseV2 service ERROR_CODE_INVALID_PROTO "response validation failed: %v", messageType)
    | None =>
        response ← liftO (stampVersionV2 response);
        retS (ResponseV2Msg service response, messageType)
    end).

Definition CallV1 (service : string) (pairs : list (string * string)) (requestIntf : content Body)
    : M X (content Body * string) :=
  let messageType := ServiceResponse service in
  if negb (is_request service requestIntf) then
    retS (errorResponseV1 service "invalid request type: expected %s, got %T", messageType)
  else
    orRespond (grpc_v1 service pairs requestIntf)
      (λ err, (errorResponseV1 service (Error err), messageType)) (λ response,
    match v1_Header response with
    | Some {| rh_BaseHeader := Some b; Status := st; Alerts := al |} =>
        retS (ResponseV1Msg service {|
          v1_Header := Some {| rh_BaseHeader := Some (set_version (VersionV1 version) b);
                               Status := st; Alerts := al |};
          v1_body := v1_body response |}, messageType)
    | _ => retS (errorResponseV1 service (Error ErrNilResponseHeader), messageType)
    end).

Definition Call (s : Service) (pairs : list (string * string)) (requestIntf : content Body)
    : M X (content Body * string) :=
  match service_template s with
  | V1 => CallV1 (Name s) pairs requestIntf
  | V2 => CallV2 (Name s) pairs requestIntf
  end.

(** [p.DoServiceRequest]; [Hex] is [common.Address.Hex]. *)
Definition DoServiceRequest (Hex : Z → string) (requestID : string) (serviceClient : Service)
    (requestContent : content Body) (fromTTMAccount toTTMAccount : Z) : M X (content Body * string) :=
  Call serviceClient
    [(KeyRequestID, requestID); (KeyRecipientTTMAccount, Hex toTTMAccount);
     (KeySenderTTMAccount, Hex fromTTMAccount)] requestContent.
End Client.

(** ** Serving a distributor *)
Section Server.
Context {X Svc : Type} `{!ProcessorEnv X (content Body) Svc}.
Variable ttmAccountAddress : Z.
Variable IsHexAddress : string → bool.
Variable HexToAddress : string → Z.
Variable MarshalToString : Timestamps → outcome string.
Variable uuid_New : M X string.
Variable SendHeader : list (string * string) → M X unit.

Abbreviation state := (messageProcessor (X := X)).

(** The pairs of the incoming context; [None] when it has none. *)
Abbreviation context := (option (gmap string (list string))).

Definition getRecipientAddress (ctx : context) : outcome Z :=
  match ctx with
  | None => Err (Errorf "metadata not found in incoming context")
  | Some mdPairs =>
      match mdPairs !! KeyRecipientTTMAccount with
      | Some [recipient] =>
          if IsHexAddress recipient then Ok (HexToAddress recipient)
          else Err (Errorf "invalid recipient address: %s")
      | _ => Err (Errorf "invalid recipient address: %s")
      end
  end.

(** With an error of [SendHeader] the content is returned too; the callers drop it. *)
Definition HandleMessageRequest (ctx : context) (requestType : string) (request : content Body)
    : M state (content Body) :=
  recipientTTMAccountAddress ←
    wrapS "failed to get recipient ttm account address from request context: %w"
      (liftO (getRecipientAddress ctx));
  id ← on_env uuid_New;
  requestMsg ← stamp CheckpointGRPCRequestReceived
    {| msg_Type := requestType; msg_Content := request; msg_RequestID := id; msg_Timestamps := Some ∅ |};
  responseMsg ← wrapS "error sending request message: %w"
    (SendRequestMessage ttmAccountAddress requestMsg recipientTTMAccountAddress);
  responseMsg ← stamp CheckpointGRPCResponseSent responseMsg;
  timestampsStr ← wrapS "error marshalling timestamps: %w" (liftO (MarshalToString (msg_Timestamps responseMsg)));
  on_env (SendHeader [(KeyRequestID, msg_RequestID responseMsg); (KeyTimestamps, timestampsStr)]) ;;
  retS (msg_Content responseMsg).

(** [request.Header.BaseHeader.Version = version.VersionV4] *)
Definition with_version (v : option Version) (c : content Body) : outcome (content Body) :=
  match c with
  | RequestMsg s h body =>
      h ← deref h;
      b ← deref h;
      Ok (RequestMsg s (Some (Some (set_version v b))) body)
  | _ => Panic nilDeref
  end.

(** The generated method of a service; the gRPC library only passes requests of its
    request type. *)
Definition methodV2 (s : Service) (ctx : context) (request : content Body) : M state (content Body) :=
  match Validate request with
  | Some _ => retS (errorResponseV2 (Name s) ERROR_CODE_INVALID_PROTO "request validation failed: %v")
  | None =>
      request ← liftO (with_version (VersionV4 version) request);
      orRespond (HandleMessageRequest ctx (ServiceRequest (Name s)) request)
        (λ err, errorResponseV2 (Name s) (errorCode err) (Error err)) (λ responseIntf,
      if is_response s responseIntf then retS responseIntf
      else retS (errorResponseV2 (Name s) ERROR_CODE_INTERNAL "invalid response type: expected %s, got %T"))
  end.

Definition methodV1 (s : Service) (ctx : context) (request : content Body) : M state (content Body) :=
  match request with
  | RequestMsg _ (Some (Some _)) _ =>
      request ← liftO (with_version (VersionV1 version) request);
      orRespond (HandleMessageRequest ctx (ServiceRequest (Name s)) request)
        (λ err, errorResponseV1 (Name s) (Error err)) (λ responseIntf,
      if is_response s responseIntf then retS responseIntf
      else retS (errorResponseV1 (Name s) "invalid response type: expected %s, got %T"))
  | _ => retS (errorResponseV1 (Name s) (Error ErrNilResponseHeader))
  end.

Definition method (s : Service) : context → content Body → M state (content Body) :=
  match service_template s with V1 => methodV1 s | V2 => methodV2 s end.

(** A panic of a handler becomes an error of the call. *)
Definition unaryRecoverInterceptor {A} (handler : M state A) : M state A := λ p,
  match handler p with
  | (p', Panic _) => (p', Err (Errorf "gRPC %s (recipient %s) handler panicked: %v"))
  | r => r
  end.

Definition serve (s : Service) (ctx : context) (request : content Body) : M state (content Body) :=
  unaryRecoverInterceptor (method s ctx request).

(** Around the cancellation services: the header is sent whatever the handler did. *)
Definition tracingInterceptor {A} (handler : M state A) : M state A :=
  now ← on_env UnixMilli;
  ts ← liftO (Stamp now CheckpointGRPCRequestReceived (Some ∅));
  deferM
    (now ← on_env UnixMilli;
     ts ← liftO (Stamp now CheckpointGRPCResponseSent ts);
     let timestampsStr := match MarshalToString ts with Ok str => str | _ => "" end in
     attempt (on_env (SendHeader [(KeyTimestamps, timestampsStr)])) ;;
     retS tt)
    handler.
End Server.
End Gateway.

(** ** Lemmas *)
Section Lemmas.
Context {Body : Type}.
Variable emptyBody : Body.
Variable version : versions.
Variable Validate : content Body → option error.
Variable Error : error → string.

(** The version in the header of a response. *)
Definition response_version (c : content Body) : option (option Version) :=
  match c with
  | ResponseV1Msg _ {| v1_Header := Some {| rh_BaseHeader := b |} |} => hd_Version <$> b
  | ResponseV2Msg _ (ErrorResponse (Some h)) => hd_Version <$> er_BaseHeader h
  | ResponseV2Msg _ (SuccessResponse (Some b) _) => hd_Version <$> b
  | _ => None
  end.

Definition own_version (s : Service) : option Version :=
  match service_template s with V1 => VersionV1 version | V2 => VersionV4 version end.

(** A response of the service with the version of the bot. *)
Definition answers (s : Service) (c : content Body) : Prop :=
  is_response s c = true ∧ response_version c = Some (own_version s).

Lemma errorResponse_answers s code msg : answers s (errorResponse emptyBody version s code msg).
Proof.
  unfold answers, errorResponse, is_response, own_version. destruct s as [n []]; simpl;
    by rewrite String.eqb_refl.
Qed.

(** What validation promises of a response of the second template. *)
Definition headed (r : responseV2 Body) : Prop :=
  match r with
  | ErrorResponse (Some h) => is_Some (er_BaseHeader h)
  | SuccessResponse (Some (Some _)) _ => True
  | _ => False
  end.

Lemma stampVersionV2_headed n r :
  headed r → ∃ r', stampVersionV2 version r = Ok r' ∧
    response_version (ResponseV2Msg n r') = Some (VersionV4 version).
Proof.
  destruct r as [[[[b|] es]|]|[[b|]|] body|]; simpl; try done; try (by intros [? ?]); eexists; done.
Qed.

Section Client.
Context {X : Type}.
Variable grpc_v1 : string → list (string * string) → content Body → M X (responseV1 Body).
Variable grpc_v2 : string → list (string * string) → content Body → M X (responseV2 Body).
Hypothesis validated_headed : ∀ n r, Validate (ResponseV2Msg n r) = None → headed r.

Definition called (s : Service) (pairs : list (string * string)) (request : content Body) (x : X)
    (x' : X) (o : outcome (content Body * string)) : Prop :=
  match o with
  | Ok (c, t) => t = ServiceResponse (Name s) ∧ answers s c ∧
      (is_request (Name s) request = false → x' = x)
  | Err _ => False
  | Panic p => (grpc_v1 (Name s) pairs request x).2 = Panic p ∨ (grpc_v2 (Name s) pairs request x).2 = Panic p
  end.

Lemma CallV2_called n pairs request x :
  runs (CallV2 emptyBody version Validate Error grpc_v2 n pairs request) x
    (called {| Name := n; service_template := V2 |} pairs request x).
Proof.
  pose proof (errorResponse_answers {| Name := n; service_template := V2 |}) as He.
  unfold CallV2. destruct (is_request n request) eqn:Er; simpl.
  - eapply (runs_orRespond _ _ _ _ (λ x' o, (grpc_v2 n pairs request x) = (x', o))).
    + unfold runs. by destruct (grpc_v2 n pairs request x).
    + intros x' r Eg. destruct (Validate (ResponseV2Msg n r)) as [e|] eqn:Ev.
      * apply runs_ret. simpl. split_and!; [done|apply He|congruence].
      * destruct (stampVersionV2_headed n r (validated_headed n r Ev)) as (r' & -> & Hv).
        apply runs_ret. simpl. split_and!; [done| |congruence].
        split; [apply String.eqb_refl|done].
    + intros x' e Eg. simpl. split_and!; [done|apply He|congruence].
    + intros x' p Eg. right. simpl. by rewrite Eg.
  - apply runs_ret. simpl. split_and!; [done|apply He|done].
Qed.

Lemma CallV1_called n pairs request x :
  runs (CallV1 emptyBody version Error grpc_v1 n pairs request) x
    (called {| Name := n; service_template := V1 |} pairs request x).
Proof.
  pose proof (λ msg, errorResponse_answers {| Name := n; service_template := V1 |} ERROR_CODE_INTERNAL msg) as He.
  unfold CallV1. destruct (is_request n request) eqn:Er; simpl.
  - eapply (runs_orRespond _ _ _ _ (λ x' o, (grpc_v1 n pairs request x) = (x', o))).
    + unfold runs. by destruct (grpc_v1 n pairs request x).
    + intros x' r Eg.
      destruct (v1_Header r) as [[[b|] st al]|]; apply runs_ret; simpl;
        (split_and!; [done| |congruence]); try apply He.
      split; [apply String.eqb_refl|done].
    + intros x' e Eg. simpl. split_and!; [done|apply He|congruence].
    + intros x' p Eg. left. simpl. by rewrite Eg.
  - apply runs_ret. simpl. split_and!; [done|apply He|done].
Qed.
End Client.
End Lemmas.

Section ServerLemmas.
Context {Body X Svc : Type} `{!ProcessorEnv X (content Body) Svc}.
Variable emptyBody : Body.
Variable version : versions.
Variable Validate : content Body → option error.
Variable Error : error → string.
Variable ttmAccountAddress : Z.
Variable IsHexAddress : string → bool.
Variable HexToAddress : string → Z.
Variable MarshalToString : Timestamps → outcome string.
Variable uuid_New : M X string.
Variable SendHeader : list (string * string) → M X unit.

Abbreviation state := (messageProcessor (X := X)).
Abbreviation context := (option (gmap string (list string))).
Abbreviation Handle := (HandleMessageRequest ttmAccountAddress IsHexAddress HexToAddress
  MarshalToString uuid_New SendHeader).
Abbreviation serve_ := (serve emptyBody version Validate Error ttmAccountAddress IsHexAddress
  HexToAddress MarshalToString uuid_New SendHeader).

(** The channels left are among those there were. *)
Definition fewer (p p' : state) : Prop := responseChannels p' ⊆ responseChannels p.

#[local] Instance fewer_preorder : PreOrder fewer.
Proof.
  split; [intros p; unfold fewer; reflexivity|].
  intros p q r Hq Hr. unfold fewer in *. etransitivity; [exact Hr|exact Hq].
Qed.

Lemma fewer_on_env {A} (m : M X A) : respects fewer (on_env m).
Proof. intros p. unfold on_env. destruct (m (env p)). simpl. unfold fewer. reflexivity. Qed.

Lemma fewer_request (msg : Message (content Body)) recipient :
  respects fewer (SendRequestMessage ttmAccountAddress msg recipient).
Proof.
  intros p. destruct (SendRequestMessage _ msg recipient p) as [p' o] eqn:E.
  unfold fewer. simpl. rewrite (SendRequestMessage_channels _ _ _ _ _ _ E). apply delete_subseteq.
Qed.

Ltac goes_fewer := goes_up ltac:(first [apply fewer_on_env | apply fewer_request]).

Lemma fewer_Handle ctx type request : respects fewer (Handle ctx type request).
Proof. unfold HandleMessageRequest, stamp. goes_fewer. Qed.

Lemma fewer_method s ctx request :
  respects fewer (method emptyBody version Validate Error ttmAccountAddress IsHexAddress
    HexToAddress MarshalToString uuid_New SendHeader s ctx request).
Proof.
  unfold method, methodV1, methodV2. destruct (service_template s); goes_fewer; apply fewer_Handle.
Qed.

(** A request with a recipient reaches the processor. *)
Lemma Handle_sends ctx type request recipient p x1 id x2 now :
  getRecipientAddress IsHexAddress HexToAddress ctx = Ok recipient →
  uuid_New (env p) = (x1, Ok id) → UnixMilli x1 = (x2, Ok now) →
  ∃ k, Handle ctx type request p =
    (r ← wrapS "error sending request message: %w"
       (SendRequestMessage ttmAccountAddress
          {| msg_Type := type; msg_Content := request; msg_RequestID := id;
             msg_Timestamps := Some (<[stamp_key 0 CheckpointGRPCRequestReceived := now]> ∅) |} recipient);
     k r) {| responseChannels := responseChannels p; next_chan := next_chan p; env := x2 |}.
Proof.
  intros Ha Hu Ht. eexists. unfold HandleMessageRequest. rewrite Ha.
  unfold mbind at 1 2 3, M_bind at 1 2 3, wrapS at 1, liftO at 1, on_env at 1. cbn [wrapO]. rewrite Hu.
  unfold stamp at 1, mbind at 1, M_bind at 1, on_env at 1. cbn [env]. rewrite Ht. reflexivity.
Qed.

(** Without a bot that supports the service: where a request stops, and its error. *)
Lemma Handle_refused ctx type request recipient p x1 id x2 now :
  getRecipientAddress IsHexAddress HexToAddress ctx = Ok recipient →
  uuid_New (env p) = (x1, Ok id) → UnixMilli x1 = (x2, Ok now) →
  let '(p', o) := Handle ctx type request p in
  match GetBotAddress recipient x2 with
  | (x3, Ok bot) =>
      match api_IsServiceSupported recipient (ToServiceName type) x3 with
      | (_, Ok true) => True
      | (x4, Ok false) => env p' = x4 ∧ o = Err (Wrapf "error sending request message: %w"
          (Wrapf2 "%w: %w" ErrBusinessProcess
             (Wrapf "service %s not supported by TTMAccount %s: %w" ErrServiceNotSupported)))
      | (x4, Err e) => env p' = x4 ∧ o = Err (Wrapf "error sending request message: %w"
          (Wrapf2 "%w: %w" ErrBlockchain
             (Wrapf "failed to check service support for service %s: %w" e)))
      | (x4, Panic q) => env p' = x4 ∧ o = Panic q
      end
  | (x3, Err e) => env p' = x3 ∧ o = Err (Wrapf "error sending request message: %w"
      (Wrapf2 "%w: failed to resolve bot address for TTM account %s: %w" ErrBusinessProcess e))
  | (x3, Panic q) => env p' = x3 ∧ o = Panic q
  end.
Proof.
  intros Ha Hu Ht. destruct (Handle_sends ctx type request recipient p x1 id x2 now Ha Hu Ht) as [k ->].
  set (p2 := {| responseChannels := _; next_chan := _; env := x2 |}). set (msg := {| msg_Type := type |}).
  pose proof (SendRequestMessage_refused ttmAccountAddress msg recipient p2) as Hr.
  cbn [env p2] in Hr. change (msg_Type msg) with type in Hr. unfold mbind, M_bind, wrapS.
  destruct (SendRequestMessage ttmAccountAddress msg recipient p2) as [p' o].
  destruct (GetBotAddress recipient x2) as [x3 [bot|e|q]]; [|by destruct Hr as [? ->]..].
  destruct (api_IsServiceSupported recipient (ToServiceName type) x3) as [x4 [[|]|e|q]];
    [|by destruct Hr as [? ->]..].
  by destruct o as [r|e|q]; simpl; [destruct (k r p')|..].
Qed.

Lemma on_env_next_chan {A} (m : M X A) : keeps (next_chan (X := X)) (on_env m).
Proof. intros p. unfold on_env. by destruct (m (env p)). Qed.

Lemma stamp_next_chan cp (msg : Message (content Body)) : keeps (next_chan (X := X)) (stamp cp msg).
Proof.
  unfold stamp. apply keeps_bind; [apply on_env_next_chan|]. intros now. auto with ttm.
Qed.

(** An answer of a request is what was made of the response received for it. *)
Lemma Handle_Ok ctx type request p p' c :
  Handle ctx type request p = (p', Ok c) →
  ∃ r, answered (next_chan p) (PrepareRequest request) r ∧ c = msg_Content r.
Proof.
  intros E. unfold HandleMessageRequest in E.
  apply bind_Ok_inv in E as (p1 & recipient & E1 & E).
  assert (p1 = p) as -> by (revert E1; unfold wrapS, liftO; by destruct (getRecipientAddress _ _ _); intros [= <- _]).
  apply bind_Ok_inv in E as (p2 & id & E2 & E).
  apply bind_Ok_inv in E as (p3 & msg & E3 & E).
  apply bind_Ok_inv in E as (p4 & r & E4 & E).
  apply bind_Ok_inv in E as (p5 & r' & E5 & E). apply stamp_content in E5.
  apply bind_Ok_inv in E as (p6 & str & _ & E).
  apply bind_Ok_inv in E as (p7 & ? & _ & E). injection E as _ <-.
  pose proof (on_env_next_chan uuid_New p) as N2. rewrite E2 in N2. simpl in N2.
  pose proof (stamp_next_chan CheckpointGRPCRequestReceived
    {| msg_Type := type; msg_Content := request; msg_RequestID := id; msg_Timestamps := Some ∅ |} p2) as N3.
  rewrite E3 in N3. simpl in N3. apply stamp_content in E3. simpl in E3.
  unfold wrapS in E4. destruct (SendRequestMessage ttmAccountAddress msg recipient p3) as [q o] eqn:Es.
  destruct o as [r0|e|pn]; try done. injection E4 as <- <-.
  apply SendRequestMessage_answer in Es. exists r0. split; [|done]. by rewrite <- E3, <- N2, <- N3.
Qed.

Lemma getRecipientAddress_Err ctx e :
  getRecipientAddress IsHexAddress HexToAddress ctx = Err e → ∃ f, e = Errorf f.
Proof.
  unfold getRecipientAddress. destruct ctx as [m|]; [|intros [= <-]; eauto].
  destruct (m !! KeyRecipientTTMAccount) as [[|r [|? ?]]|]; try (intros [= <-]; eauto).
  destruct (IsHexAddress r); [done|]. intros [= <-]. eauto.
Qed.

(** How a method ends. *)
Lemma method_ends s ctx request p :
  runs (method emptyBody version Validate Error ttmAccountAddress IsHexAddress HexToAddress
    MarshalToString uuid_New SendHeader s ctx request) p (λ p' o, match o with
    | Ok c => is_response s c = true ∧
        ((∃ code msg, c = errorResponse emptyBody version s code msg) ∨
         (∃ sent r, answered (next_chan p) (PrepareRequest sent) r ∧ c = msg_Content r))
    | Err _ => False
    | Panic _ => True
    end).
Proof.
  assert (∀ code msg, is_response s (errorResponse emptyBody version s code msg) = true ∧
    ((∃ code' msg', errorResponse emptyBody version s code msg = errorResponse emptyBody version s code' msg') ∨
     (∃ sent r, answered (next_chan p) (PrepareRequest sent) r ∧
        errorResponse emptyBody version s code msg = msg_Content r))) as Herr.
  { intros code msg. split; [apply errorResponse_answers|left; by exists code, msg]. }
  assert (∀ sent respond, (∀ e, ∃ code msg, respond e = errorResponse emptyBody version s code msg) →
    ∀ code msg, runs (orRespond (Handle ctx (ServiceRequest (Name s)) sent) respond (λ responseIntf,
      if is_response s responseIntf then retS responseIntf
      else retS (errorResponse emptyBody version s code msg))) p (λ p' o, match o with
        | Ok c => is_response s c = true ∧
            ((∃ code msg, c = errorResponse emptyBody version s code msg) ∨
             (∃ sent r, answered (next_chan p) (PrepareRequest sent) r ∧ c = msg_Content r))
        | Err _ => False | Panic _ => True end)) as Hmain.
  { intros sent respond Hresp code msg.
    eapply (runs_orRespond _ _ _ _ (λ p' o, Handle ctx (ServiceRequest (Name s)) sent p = (p', o))).
    - unfold runs. by destruct (Handle ctx (ServiceRequest (Name s)) sent p).
    - intros t c E. apply Handle_Ok in E. destruct (is_response s c) eqn:Er; apply runs_ret; [|apply Herr].
      split; [done|]. right. by exists sent.
    - intros t e _. destruct (Hresp e) as (code' & msg' & ->). apply Herr.
    - done. }
  unfold method. destruct s as [n []]; cbn [service_template Name] in *.
  - unfold methodV1. destruct request as [rn [[b|]|] body|rn r|rn r]; try (apply runs_ret; apply (Herr ERROR_CODE_INTERNAL)).
    apply (Hmain _ _ (λ e, ex_intro _ ERROR_CODE_INTERNAL (ex_intro _ (Error e) eq_refl)) ERROR_CODE_INTERNAL).
  - unfold methodV2. destruct (Validate request) as [e|]; [apply runs_ret; apply Herr|].
    destruct (with_version (VersionV4 version) request) as [sent|e|q] eqn:Ew.
    + apply (Hmain sent _ (λ e, ex_intro _ (errorCode e) (ex_intro _ (Error e) eq_refl)) ERROR_CODE_INTERNAL).
    + exfalso. revert Ew. destruct request as [rn [[b|]|] body|rn r|rn r]; done.
    + done.
Qed.
End ServerLemmas.

(** ** Properties *)
Section Properties.
Context {Body : Type}.
Variable emptyBody : Body.
Variable version : versions.
Variable Validate : content Body → option error.
Variable Error : error → string.

(** C38: a call of the partner plugin always ends with a response of the called service,
    of its response type, with the bot's version in the header: an error of the call, a
    response that does not validate or has no header, and a request of another type, for
    which the partner plugin is not called, are all answered.  Only a panic of the gRPC
    client itself goes through. *)
Theorem Call_answers {X} (grpc_v1 : string → list (string * string) → content Body → M X (responseV1 Body))
    (grpc_v2 : string → list (string * string) → content Body → M X (responseV2 Body))
    (s : Service) pairs request (x : X) :
  (∀ n r, Validate (ResponseV2Msg n r) = None → headed r) →
  runs (Call emptyBody version Validate Error grpc_v1 grpc_v2 s pairs request) x (λ x' o, match o with
    | Ok (c, t) => t = ServiceResponse (Name s) ∧ answers version s c ∧
        (is_request (Name s) request = false → x' = x)
    | Err _ => False
    | Panic p => (grpc_v1 (Name s) pairs request x).2 = Panic p ∨
        (grpc_v2 (Name s) pairs request x).2 = Panic p
    end).
Proof.
  intros Hv. unfold Call. destruct s as [n []]; [by apply CallV1_called|by apply CallV2_called].
Qed.

Section Server.
Context {X Svc : Type} `{!ProcessorEnv X (content Body) Svc}.
Variable ttmAccountAddress : Z.
Variable IsHexAddress : string → bool.
Variable HexToAddress : string → Z.
Variable MarshalToString : Timestamps → outcome string.
Variable uuid_New : M X string.
Variable SendHeader : list (string * string) → M X unit.
Abbreviation state := (messageProcessor (X := X)).
Abbreviation serve_ := (serve emptyBody version Validate Error ttmAccountAddress IsHexAddress
  HexToAddress MarshalToString uuid_New SendHeader).

(** C8: a call of the server never panics, leaves no response channel behind, and is
    answered with a message of the service's response type: an error response made here,
    or what was made of a validated response received through the channel of the
    request.  It fails, without a response, only when the handler panicked. *)
Theorem serve_answers (s : Service) ctx request (p : state) :
  runs (serve_ s ctx request) p (λ p' o, responseChannels p' ⊆ responseChannels p ∧
    match o with
    | Ok c => is_response s c = true ∧
        ((∃ code msg, c = errorResponse emptyBody version s code msg) ∨
         (∃ sent r, answered (next_chan p) (PrepareRequest sent) r ∧ c = msg_Content r))
    | Err e => e = Errorf "gRPC %s (recipient %s) handler panicked: %v" ∧
        ∃ q, (method emptyBody version Validate Error ttmAccountAddress IsHexAddress HexToAddress
                MarshalToString uuid_New SendHeader s ctx request p).2 = Panic q
    | Panic _ => False
    end).
Proof.
  pose proof (fewer_method emptyBody version Validate Error ttmAccountAddress IsHexAddress HexToAddress
    MarshalToString uuid_New SendHeader s ctx request p) as Hf.
  pose proof (method_ends emptyBody version Validate Error ttmAccountAddress IsHexAddress HexToAddress
    MarshalToString uuid_New SendHeader s ctx request p) as He.
  unfold serve, unaryRecoverInterceptor, runs in *.
  destruct (method _ _ _ _ _ _ _ _ _ _ s ctx request p) as [p' [c|e|q]]; simpl in *; [done|done|].
  split; [done|]. split; [done|]. by exists q.
Qed.

(** How a service of the second template refuses a request, and what it has done by
    then: a request that does not validate and one without a recipient reach nobody; with
    no bot to talk to, or a service the recipient's account does not support, the answer
    is a business error, and a blockchain error when the account cannot be asked; in each
    case nothing was sent. *)
Lemma serve_refuses (s : Service) ctx request (p : state) :
  service_template s = V2 →
  let p' := (serve_ s ctx request p).1 in
  let answer code := ∃ msg, (serve_ s ctx request p).2 = Ok (errorResponse emptyBody version s code msg) in
  match Validate request, with_version (VersionV4 version) request,
    getRecipientAddress IsHexAddress HexToAddress ctx with
  | Some _, _, _ => p' = p ∧ answer ERROR_CODE_INVALID_PROTO
  | None, Ok _, Err _ => p' = p ∧ answer ERROR_CODE_INTERNAL
  | None, Ok _, Ok recipient => ∀ x1 id x2 now,
      uuid_New (env p) = (x1, Ok id) → UnixMilli x1 = (x2, Ok now) →
      match GetBotAddress recipient x2 with
      | (x3, Ok bot) =>
          match api_IsServiceSupported recipient (Name s) x3 with
          | (x4, Ok supported) => supported = true ∨ env p' = x4 ∧ answer ERROR_CODE_BUSINESS_PROCESS_ERROR
          | (x4, Err e) => env p' = x4 ∧
              (errors_is e "rpc.ErrInvalidProto" = false → answer ERROR_CODE_BLOCKCHAIN_ERROR)
          | (x4, Panic _) => env p' = x4
          end
      | (x3, Err e) => env p' = x3 ∧
          (errors_is e "rpc.ErrInvalidProto" = false → errors_is e "rpc.ErrBlockchain" = false →
           answer ERROR_CODE_BUSINESS_PROCESS_ERROR)
      | (x3, Panic _) => env p' = x3
      end
  | _, _, _ => True
  end.
Proof.
  destruct s as [n t]. simpl. intros ->. unfold serve, method, unaryRecoverInterceptor. simpl.
  unfold methodV2, errorResponse. simpl.
  destruct (Validate request) as [e|]; [simpl; eauto|].
  destruct (with_version (VersionV4 version) request) as [sent|e|q]; [|done..].
  unfold mbind, M_bind, liftO. unfold orRespond, attempt, mbind, M_bind.
  destruct (getRecipientAddress IsHexAddress HexToAddress ctx) as [recipient|e|q] eqn:Ea; [| |done].
  - intros x1 id x2 now Hu Ht.
    pose proof (Handle_refused ttmAccountAddress IsHexAddress HexToAddress MarshalToString uuid_New SendHeader
      ctx (ServiceRequest n) sent recipient p x1 id x2 now Ea Hu Ht) as Hr.
    assert (ToServiceName (ServiceRequest n) = n) as Hn by (by apply (message_type_roundtrip n)).
    rewrite Hn in Hr.
    destruct (HandleMessageRequest _ _ _ _ _ _ _ _ _ p) as [p' o].
    destruct (GetBotAddress recipient x2) as [x3 [bot|e|q]].
    + destruct (api_IsServiceSupported recipient n x3) as [x4 [[|]|e|q]].
      * by left.
      * destruct Hr as [<- ->]. right. eauto.
      * destruct Hr as [<- ->]. split; [done|]. intros He. eexists. simpl. unfold errorCode. simpl. by rewrite He.
      * by destruct Hr as [<- ->].
    + destruct Hr as [<- ->]. split; [done|]. intros He1 He2. eexists. simpl. unfold errorCode. simpl.
      by rewrite He1, He2.
    + by destruct Hr as [<- ->].
  - unfold HandleMessageRequest. rewrite Ea. simpl. split; [done|].
    apply getRecipientAddress_Err in Ea as [f ->]. eexists. reflexivity.
Qed.
End Server.
End Properties.

(** ** A distributor without a supplier, and witnesses *)
Module Toy.
Definition mint : Service := {| Name := "ttm.services.book.v4.MintService"; service_template := V2 |}.
Definition nobody : versions := {| VersionV1 := None; VersionV4 := None |}.
Definition request : content Z := RequestMsg (Name mint) (Some (Some {| hd_Version := None; hd_rest := 1 |})) 7.

(** The state counts the calls; no account but 5 supports a service. *)
Definition tick {A} (a : A) : M Z A := λ n, (n + 1, Ok a).

#[global] Instance environment : ProcessorEnv Z (content Z) unit := {
  env_accounts := {| api_GetAllMessengerBots _ := tick [20];
                     api_IsBotAllowed _ b := tick (b =? 20);
                     api_IsServiceSupported a _ := tick (a =? 5) |};
  GetBotAddress _ := tick 20;
  SetBotStatus _ _ _ := tick tt;
  NewKey := tick (Encryption.NopKey []);
  EncodeMessage _ _ _ _ := tick {| ChunkedEncodedMessage := []; Signature := [] |};
  DecodeAndVerifyMessage _ _ := λ n, (n, Err (Errorf "no message"));
  SendMessage _ _ _ := tick tt;
  PrepareRequest c := c;
  ProcessResponseMessage _ c := tick c;
  PrepareResponseMessage _ c := tick c;
  Processor.DoServiceRequest _ _ c _ _ := tick (c, "");
  Processor.GetService _ := None;
  Processor.InvalidProtoErrResponseAndType _ _ := (request, "");
  protovalidate_Validate _ := None;
  UnixMilli := λ n, (n, Ok n);
  await _ := λ n, (n, Ok None);
  deliver _ _ := tick tt
}.

Definition Validate (c : content Z) : option error :=
  match c with
  | ResponseV2Msg _ (SuccessResponse (Some (Some _)) _) | RequestMsg _ (Some (Some _)) _ => None
  | _ => Some (Errorf "no header")
  end.
Definition start : messageProcessor (X := Z) := {| responseChannels := ∅; next_chan := 0; env := 0 |}.
Definition ctx : option (gmap string (list string)) := Some {[ KeyRecipientTTMAccount := ["0x3"] ]}.
Definition served := serve 0 nobody Validate (λ _, "") 1 (λ _, true) (λ _, 3) (λ _, Ok "{}")
  (tick "id-1") (λ _, tick tt) mint ctx request start.

Lemma validated n r : Validate (ResponseV2Msg n r) = None → headed r.
Proof. by destruct r as [|[[b|]|]|]. Qed.
End Toy.

Lemma Call_answers_witness :
  ∃ c, (Call 0 Toy.nobody Toy.Validate (λ _, "") (λ _ _ _, throwS (Errorf "unused"))
     (λ _ _ _, Toy.tick NoResponse) Toy.mint [] Toy.request 0).2 =
       Ok (c, "ttm.services.book.v4.MintService.Response") ∧ answers Toy.nobody Toy.mint c.
Proof.
  pose proof (Call_answers 0 Toy.nobody Toy.Validate (λ _, "") (λ _ _ _, throwS (Errorf "unused"))
    (λ _ _ _, Toy.tick NoResponse) Toy.mint [] Toy.request 0 Toy.validated) as H.
  unfold runs in H. revert H.
  set (r := Call _ _ _ _ _ _ _ _ _ _). vm_compute in r. subst r.
  intros (-> & Ha & _). eexists. split; [reflexivity|exact Ha].
Defined.

Lemma serve_refuses_witness :
  env Toy.served.1 = 3 ∧
  ∃ msg, Toy.served.2 = Ok (errorResponse 0 Toy.nobody Toy.mint ERROR_CODE_BUSINESS_PROCESS_ERROR msg).
Proof.
  pose proof (serve_refuses (X := Z) (Svc := unit) 0 Toy.nobody Toy.Validate (λ _, "") 1 (λ _, true)
    (λ _, 3) (λ _, Ok "{}") (Toy.tick "id-1") (λ _, Toy.tick tt) Toy.mint Toy.ctx Toy.request Toy.start
    eq_refl) as H.
  destruct (H 1 "id-1" 1 1 eq_refl eq_refl) as [Hs|Hs]; [discriminate Hs|exact Hs].
Defined.
