(* ===== verification/App.v ===== *)
(** * The application (internal/app)

    [Run] launches a goroutine for each component that starts and for each that stops, in
    a group: the first error cancels the context they share, the starters wait for each
    other through channels that are closed when a component has started, and the stoppers
    wait for the context.  Here the goroutines are the processes of a step relation.  The
    start and the stop of the event listener are split where they read and write the
    fields they share without a lock, and the error channel of its subscriber is closed
    when no handler is running. *)
From S2P Require Import Prelude EventListener.
From stdpp Require Import gmap sets relations.

#[local] Open Scope Z_scope.

(** The goroutines of [Run]; the ones of a disabled component are not launched. *)
Inductive goroutine :=
  | EventListener | MessageProcessor | MatrixMessenger | GRPCServer
  | StopGRPCClient | StopGRPCServer | StopMatrixMessenger | StopEventListener.
#[global] Instance goroutine_eq_dec : EqDecision goroutine.
Proof. solve_decision. Defined.

(** The components in the order they start; a channel each tells that it has. *)
Inductive component := Listener | Processor | Messenger | Server.
#[global] Instance component_eq_dec : EqDecision component.
Proof. solve_decision. Defined.

(** Where a goroutine is.  The start of the event listener makes its subscriptions after
    a check that uses the context, and keeps their unsubscribe functions after that. *)
Inductive phase :=
  | CheckTokenBought | SubscribeTokenBought | KeepTokenBought
  | CheckCancellation | SubscribeCancellation | KeepCancellation
  | StartProcessor
  | AwaitProcessor | AwaitListener | StartMessenger
  | AwaitMessenger | StartServer
  | Receiving                      (* from the error channel of the component *)
  | AwaitCancel                    (* [<-ctx.Done()] *)
  | UnsubscribeCancellation        (* the second half of the stop of the event listener *)
  | Returned (e : option error).

(** Subscriptions made together: their unsubscribe function, and whether a handler runs. *)
Record subscriptions := { unsub : unsubscriber; handling : bool }.

Record app := {
  phases : goroutine → phase;
  cancelled : bool;
  groupErr : option error;
  started : list component;        (* the channels that are closed *)
  tokenBought : subscriptions;
  cancellation : subscriptions;
  errChanClosed : bool;            (* of the subscriber *)
  serverStopped : bool
}.

Definition go (g : goroutine) (ph : phase) (s : app) : app :=
  {| phases := λ h, if decide (h = g) then ph else phases s h; cancelled := cancelled s;
     groupErr := groupErr s; started := started s; tokenBought := tokenBought s;
     cancellation := cancellation s; errChanClosed := errChanClosed s;
     serverStopped := serverStopped s |}.
Definition has_started (c : component) (s : app) : app :=
  {| phases := phases s; cancelled := cancelled s; groupErr := groupErr s;
     started := started s ++ [c]; tokenBought := tokenBought s;
     cancellation := cancellation s; errChanClosed := errChanClosed s;
     serverStopped := serverStopped s |}.
Definition cancel (s : app) : app :=
  {| phases := phases s; cancelled := true; groupErr := groupErr s; started := started s;
     tokenBought := tokenBought s; cancellation := cancellation s;
     errChanClosed := errChanClosed s; serverStopped := serverStopped s |}.
Definition set_tokenBought (u : unsubscriber) (b : bool) (s : app) : app :=
  {| phases := phases s; cancelled := cancelled s; groupErr := groupErr s; started := started s;
     tokenBought := {| unsub := u; handling := b |}; cancellation := cancellation s;
     errChanClosed := errChanClosed s; serverStopped := serverStopped s |}.
Definition set_cancellation (u : unsubscriber) (b : bool) (s : app) : app :=
  {| phases := phases s; cancelled := cancelled s; groupErr := groupErr s; started := started s;
     tokenBought := tokenBought s; cancellation := {| unsub := u; handling := b |};
     errChanClosed := errChanClosed s; serverStopped := serverStopped s |}.
Definition close_errChan (s : app) : app :=
  {| phases := phases s; cancelled := cancelled s; groupErr := groupErr s; started := started s;
     tokenBought := tokenBought s; cancellation := cancellation s; errChanClosed := true;
     serverStopped := serverStopped s |}.
Definition stop_server (s : app) : app :=
  {| phases := phases s; cancelled := cancelled s; groupErr := groupErr s; started := started s;
     tokenBought := tokenBought s; cancellation := cancellation s;
     errChanClosed := errChanClosed s; serverStopped := true |}.

(** [errgroup]: the first error is kept and cancels the context. *)
Definition returns (g : goroutine) (e : option error) (s : app) : app :=
  let s := go g (Returned e) s in
  match e with
  | None => s
  | Some _ =>
      {| phases := phases s; cancelled := true;
         groupErr := match groupErr s with Some f => Some f | None => e end;
         started := started s; tokenBought := tokenBought s; cancellation := cancellation s;
         errChanClosed := errChanClosed s; serverStopped := serverStopped s |}
  end.

(** What [Run] launches, by what the configuration enables. *)
Definition Run (rpcServerEnabled rpcClientEnabled : bool) : app := {|
  phases g := match g with
    | EventListener => CheckTokenBought
    | MessageProcessor => StartProcessor
    | MatrixMessenger => AwaitProcessor
    | GRPCServer => if rpcServerEnabled then AwaitMessenger else Returned None
    | StopGRPCServer => if rpcServerEnabled then AwaitCancel else Returned None
    | StopGRPCClient => if rpcClientEnabled then AwaitCancel else Returned None
    | StopMatrixMessenger | StopEventListener => AwaitCancel
    end;
  cancelled := false; groupErr := None; started := [];
  tokenBought := {| unsub := UnsubNil; handling := false |};
  cancellation := {| unsub := UnsubNil; handling := false |};
  errChanClosed := false; serverStopped := false |}.

(** What a goroutine waits for, and where it goes on. *)
Definition waits_for (ph : phase) : option (component * phase) :=
  match ph with
  | AwaitProcessor => Some (Processor, AwaitListener)
  | AwaitListener => Some (Listener, StartMessenger)
  | AwaitMessenger => Some (Messenger, StartServer)
  | _ => None
  end.

(** [select] chooses between a closed channel and the end of the context. *)
Inductive awaitChan (c : component) (s : app) : bool → Prop :=
  | await_started : c ∈ started s → awaitChan c s true
  | await_cancelled : cancelled s = true → awaitChan c s false.

(** An unsubscribe function, when the field is not nil. *)
Definition unsubscribed (u : unsubscriber) : unsubscriber :=
  match u with UnsubNil => UnsubNil | _ => UnsubDone end.

(** One step of a goroutine, without a failure: a check with a cancelled context returns
    its error, the synchronisation of the messenger ends with its context, a handler ends
    when it is unsubscribed, and the subscriber closes its channel when it has had
    a subscription and no handler runs. *)
Inductive step (s : app) : app → Prop :=
  | step_check_token_bought :
      phases s EventListener = CheckTokenBought → cancelled s = false →
      step s (go EventListener SubscribeTokenBought s)
  | step_subscribe_token_bought :
      phases s EventListener = SubscribeTokenBought →
      step s (set_tokenBought UnsubNil true (go EventListener KeepTokenBought s))
  | step_keep_token_bought :
      phases s EventListener = KeepTokenBought →
      step s (set_tokenBought UnsubReady (handling (tokenBought s)) (go EventListener CheckCancellation s))
  | step_check_cancellation :
      phases s EventListener = CheckCancellation → cancelled s = false →
      step s (go EventListener SubscribeCancellation s)
  | step_subscribe_cancellation :
      phases s EventListener = SubscribeCancellation →
      step s (set_cancellation UnsubNil true (go EventListener KeepCancellation s))
  | step_keep_cancellation :
      phases s EventListener = KeepCancellation →
      step s (has_started Listener
        (set_cancellation UnsubReady (handling (cancellation s)) (go EventListener Receiving s)))
  | step_check_cancelled e :
      phases s EventListener = CheckTokenBought ∨ phases s EventListener = CheckCancellation →
      cancelled s = true → step s (returns EventListener (Some e) s)
  | step_token_bought_handled :
      unsub (tokenBought s) = UnsubDone → handling (tokenBought s) = true →
      step s (set_tokenBought UnsubDone false s)
  | step_cancellation_handled :
      unsub (cancellation s) = UnsubDone → handling (cancellation s) = true →
      step s (set_cancellation UnsubDone false s)
  | step_close :
      unsub (tokenBought s) = UnsubDone → handling (tokenBought s) = false →
      handling (cancellation s) = false → errChanClosed s = false →
      step s (close_errChan s)
  | step_listener_over :
      phases s EventListener = Receiving → errChanClosed s = true →
      step s (returns EventListener None s)
  | step_processor :
      phases s MessageProcessor = StartProcessor →
      step s (has_started Processor (returns MessageProcessor None s))
  | step_await g c ph :
      waits_for (phases s g) = Some (c, ph) → awaitChan c s true → step s (go g ph s)
  | step_give_up g c ph :
      waits_for (phases s g) = Some (c, ph) → awaitChan c s false → step s (returns g None s)
  | step_messenger :
      phases s MatrixMessenger = StartMessenger →
      step s (has_started Messenger (go MatrixMessenger Receiving s))
  | step_messenger_over :
      phases s MatrixMessenger = Receiving → cancelled s = true →
      step s (returns MatrixMessenger None s)
  | step_server :
      phases s GRPCServer = StartServer →
      step s (has_started Server (go GRPCServer Receiving s))
  | step_server_over :
      phases s GRPCServer = Receiving → serverStopped s = true →
      step s (returns GRPCServer None s)
  | step_stop g :
      g = StopGRPCClient ∨ g = StopMatrixMessenger →
      phases s g = AwaitCancel → cancelled s = true → step s (returns g None s)
  | step_stop_server :
      phases s StopGRPCServer = AwaitCancel → cancelled s = true →
      step s (returns StopGRPCServer None (stop_server s))
  | step_stop_token_bought :
      phases s StopEventListener = AwaitCancel → cancelled s = true →
      step s (set_tokenBought (unsubscribed (unsub (tokenBought s))) (handling (tokenBought s))
        (go StopEventListener UnsubscribeCancellation s))
  | step_stop_cancellation :
      phases s StopEventListener = UnsubscribeCancellation →
      step s (set_cancellation (unsubscribed (unsub (cancellation s))) (handling (cancellation s))
        (returns StopEventListener None s)).

(** The phases in which a component can fail or panic. *)
Definition can_fail (ph : phase) : bool :=
  match ph with
  | CheckTokenBought | CheckCancellation | StartProcessor | StartMessenger | StartServer | Receiving => true
  | _ => false
  end.

(** What happens to the application: a step, a failure or a panic of a component, an
    error of a stop, or the end of the parent context. *)
Inductive event (s : app) : app → Prop :=
  | event_step t : step s t → event s t
  | event_fail g e : can_fail (phases s g) = true → event s (returns g (Some e) s)
  | event_stop_fails g e :
      g = StopGRPCClient ∨ g = StopMatrixMessenger →
      phases s g = AwaitCancel → cancelled s = true → event s (returns g (Some e) s)
  | event_cancel : cancelled s = false → event s (cancel s).

Definition is_returned (ph : phase) : bool := match ph with Returned _ => true | _ => false end.

(** [g.Wait()] returns. *)
Definition finished (s : app) : Prop := ∀ g, is_returned (phases s g) = true.

(** ** Lemmas *)
Lemma phases_go g ph s h : phases (go g ph s) h = if decide (h = g) then ph else phases s h.
Proof. done. Qed.
Lemma phases_returns g e s h :
  phases (returns g e s) h = if decide (h = g) then Returned e else phases s h.
Proof. by destruct e. Qed.

(** Where each goroutine can be. *)
Definition in_phase (g : goroutine) (ph : phase) : Prop :=
  match g, ph with
  | _, Returned _ => True
  | EventListener, (CheckTokenBought | SubscribeTokenBought | KeepTokenBought
      | CheckCancellation | SubscribeCancellation | KeepCancellation | Receiving) => True
  | MessageProcessor, StartProcessor => True
  | MatrixMessenger, (AwaitProcessor | AwaitListener | StartMessenger | Receiving) => True
  | GRPCServer, (AwaitMessenger | StartServer | Receiving) => True
  | (StopGRPCClient | StopGRPCServer | StopMatrixMessenger | StopEventListener), AwaitCancel => True
  | StopEventListener, UnsubscribeCancellation => True
  | _, _ => False
  end.

(** How many events are left. *)
Definition weight (ph : phase) : nat :=
  match ph with
  | CheckTokenBought => 10 | SubscribeTokenBought => 9 | KeepTokenBought => 7
  | CheckCancellation => 6 | SubscribeCancellation => 5 | KeepCancellation => 3
  | StartProcessor => 1
  | AwaitProcessor => 5 | AwaitListener => 4 | StartMessenger => 3
  | AwaitMessenger => 4 | StartServer => 3
  | Receiving => 2 | AwaitCancel => 2 | UnsubscribeCancellation => 1 | Returned _ => 0
  end.
Definition total (s : app) : nat :=
  sum_list_with (λ g, weight (phases s g))
    [EventListener; MessageProcessor; MatrixMessenger; GRPCServer;
     StopGRPCClient; StopGRPCServer; StopMatrixMessenger; StopEventListener].
Definition measure (s : app) : nat :=
  total s + Nat.b2n (handling (tokenBought s)) + Nat.b2n (handling (cancellation s))
  + Nat.b2n (negb (errChanClosed s)) + Nat.b2n (negb (cancelled s)).

Lemma total_go g ph s : (total (go g ph s) + weight (phases s g) = total s + weight ph)%nat.
Proof. destruct g; unfold total; simpl; lia. Qed.

Lemma measure_go g ph s : (measure (go g ph s) + weight (phases s g) = measure s + weight ph)%nat.
Proof. pose proof (total_go g ph s). unfold measure. simpl. lia. Qed.

Lemma measure_returns g e s : (measure (returns g e s) + weight (phases s g) ≤ measure s)%nat.
Proof.
  pose proof (total_go g (Returned e) s) as Ht.
  destruct e as [e|]; unfold measure; simpl; unfold total in *; simpl in *; [|lia].
  destruct (cancelled s); simpl; lia.
Qed.

Lemma waits_for_weight ph c next : waits_for ph = Some (c, next) → (weight next < weight ph)%nat.
Proof. destruct ph; simpl; intros; simplify_eq; simpl; lia. Qed.
Lemma can_fail_weight ph : can_fail ph = true → (0 < weight ph)%nat.
Proof. by destruct ph; simpl; try lia. Qed.

Lemma step_measure s t : step s t → (measure t < measure s)%nat.
Proof.
  destruct 1 as [H _|H|H|H _|H|H|e H _|_ H|_ H|_ _ _ H|H _|H|g c ph H _|g c ph H _
    |H|H _|H|H _|g _ H _|H _|H _|H].
  all: try apply waits_for_weight in H.
  7: destruct H as [H|H].
  (* what is said of one goroutine that is named *)
  all: try (unfold measure, total; simpl; rewrite ?H; simpl; lia).
  - pose proof (measure_go g ph s). lia.
  - pose proof (measure_returns g None s). lia.
  - pose proof (measure_returns g None s) as Hm. rewrite H in Hm. cbn [weight] in Hm. lia.
Qed.

Lemma event_measure s t : event s t → (measure t < measure s)%nat.
Proof.
  destruct 1 as [t H|g e H|g e _ H _|H].
  - by apply step_measure.
  - apply can_fail_weight in H. pose proof (measure_returns g (Some e) s). lia.
  - pose proof (measure_returns g (Some e) s) as Hm. rewrite H in Hm. cbn [weight] in Hm. lia.
  - unfold measure, total. simpl. rewrite H. simpl. lia.
Qed.

Lemma waits_for_in_phase g ph c next :
  in_phase g ph → waits_for ph = Some (c, next) → in_phase g next.
Proof. by destruct g, ph; simpl; intros; simplify_eq. Qed.

Lemma in_phase_returned g e : in_phase g (Returned e).
Proof. by destruct g. Qed.

(** The cases of an event, and the phase of each goroutine after it. *)
Ltac event_cases He :=
  destruct He as [?
    [?Hg ?Hc|?Hg|?Hg|?Hg ?Hc|?Hg|?Hg|? ?Hg ?Hc|?Hu ?Hh|?Hu ?Hh|?Hu ?Hh ?Hh ?Hc|?Hg ?Hc|?Hg
    |? ? ? ?Hg ?Ha|? ? ? ?Hg ?Ha|?Hg|?Hg ?Hc|?Hg|?Hg ?Hc|? ?Hor ?Hg ?Hc|?Hg ?Hc|?Hg ?Hc|?Hg]
    |? ? ?Hg|? ? ?Hor ?Hg ?Hc|?Hc]; simpl; rewrite ?phases_returns; simpl;
    repeat case_decide; subst.

Lemma event_in_phase s t g : event s t → in_phase g (phases s g) → in_phase g (phases t g).
Proof.
  intros He Hs. event_cases He; auto using in_phase_returned; try done.
  by eapply waits_for_in_phase.
Qed.

(** ** The order of the start *)
Definition starter (c : component) : goroutine :=
  match c with
  | Listener => EventListener | Processor => MessageProcessor
  | Messenger => MatrixMessenger | Server => GRPCServer
  end.
Definition past_start (ph : phase) : bool :=
  match ph with Receiving | Returned _ => true | _ => false end.
(** What a component requires to start, and what has started where a goroutine is. *)
Definition requires (c : component) : list component :=
  match c with Messenger => [Processor; Listener] | Server => [Messenger] | _ => [] end.
Definition seen (ph : phase) : list component :=
  match ph with
  | AwaitListener => [Processor]
  | StartMessenger => [Processor; Listener]
  | StartServer => [Messenger]
  | _ => []
  end.

Lemma waits_for_past ph c next : waits_for ph = Some (c, next) → past_start ph = false.
Proof. by destruct ph. Qed.
Lemma waits_for_seen ph c next d :
  waits_for ph = Some (c, next) → d ∈ seen next → d = c ∨ d ∈ seen ph.
Proof. destruct ph; simpl; intros; simplify_eq/=; set_solver. Qed.

Lemma event_past_start s t g :
  event s t → past_start (phases s g) = true → past_start (phases t g) = true.
Proof.
  intros He Hs. event_cases He; try done; try congruence.
  all: try (rewrite Hg in Hs; done).
  rewrite (waits_for_past _ _ _ Hg) in Hs. done.
Qed.

Lemma event_seen s t g d :
  event s t → d ∈ seen (phases t g) → d ∈ seen (phases s g) ∨ d ∈ started s.
Proof.
  intros He. event_cases He; auto; try (intros ?%not_elem_of_nil; done).
  intros Hd. destruct (waits_for_seen _ _ _ _ Hg Hd) as [->|?]; [|auto].
  right. by inversion Ha.
Qed.

(** A component that starts had not, and what it requires was seen. *)
Lemma event_started s t :
  event s t →
  started t = started s ∨
  ∃ c, started t = started s ++ [c] ∧ past_start (phases s (starter c)) = false ∧
    past_start (phases t (starter c)) = true ∧ seen (phases s (starter c)) = requires c.
Proof.
  intros He. event_cases He; auto.
  all: right; eexists; split; [done|]; simpl; by rewrite Hg.
Qed.

(** A component is in the list once, after the ones it requires. *)
Definition in_order (l : list component) : Prop :=
  ∀ pre c post, l = pre ++ c :: post → c ∉ pre ∧ ∀ d, d ∈ requires c → d ∈ pre.

Lemma in_order_snoc l c :
  in_order l → c ∉ l → (∀ d, d ∈ requires c → d ∈ l) → in_order (l ++ [c]).
Proof.
  intros Hl Hc Hr pre c' post E. destruct post as [|x post _] using rev_ind.
  - by apply app_inj_tail in E as [<- <-].
  - rewrite app_comm_cons, (assoc_L (++)) in E. apply app_inj_tail in E as [E _]. eauto.
Qed.

Record starts (s : app) : Prop := {
  st_past c : c ∈ started s → past_start (phases s (starter c)) = true;
  st_seen g c : c ∈ seen (phases s g) → c ∈ started s;
  st_order : in_order (started s)
}.

Lemma event_starts s t : event s t → starts s → starts t.
Proof.
  intros He [Hp Hs Ho].
  assert (∀ c, c ∈ started s → c ∈ started t) as Hmono.
  { destruct (event_started s t He) as [->|(c & -> & _)]; [done|]. intros. apply elem_of_app. by left. }
  split.
  - intros c Hc. destruct (decide (c ∈ started s)) as [Hin|Hout].
    { eapply event_past_start; eauto. }
    destruct (event_started s t He) as [E|(d & E & _ & Hd & _)]; rewrite E in Hc; [done|].
    apply elem_of_app in Hc as [?| ->%list_elem_of_singleton]; done.
  - intros g c Hc. apply Hmono. destruct (event_seen s t g c He Hc); eauto.
  - destruct (event_started s t He) as [->|(c & -> & Hb & _ & Hr)]; [done|].
    apply in_order_snoc; [done| |].
    + intros Hc%Hp. congruence.
    + intros d Hd. apply (Hs (starter c)). by rewrite Hr.
Qed.

(** ** The error of the group *)
Lemma event_returned s t g e :
  event s t → phases s g = Returned e → phases t g = Returned e.
Proof.
  intros He Hs. event_cases He; try done; try congruence.
  - destruct Hg; congruence.
  - by rewrite Hs in Hg.
  - by rewrite Hs in Hg.
  - by rewrite Hs in Hg.
Qed.

Lemma phases_returns_eq g e s : phases (returns g e s) g = Returned e.
Proof. rewrite phases_returns. by rewrite decide_True. Qed.

Definition failed (s : app) (e : error) : Prop := ∃ g, phases s g = Returned (Some e).

Lemma event_failed s t e : event s t → failed s e → failed t e.
Proof. intros He (g & Hg). exists g. eauto using event_returned. Qed.

(** Either nothing fails, or one goroutine does. *)
Lemma event_groupErr s t :
  event s t →
  (groupErr t = groupErr s ∧ ∀ e, failed t e → failed s e) ∨
  ∃ e, failed t e ∧ cancelled t = true ∧
    groupErr t = match groupErr s with Some f => Some f | None => Some e end.
Proof.
  assert (∀ g e, failed (returns g (Some e) s) e ∧ cancelled (returns g (Some e) s) = true ∧
    groupErr (returns g (Some e) s) =
      match groupErr s with Some f => Some f | None => Some e end) as Hret.
  { intros g e. split_and!; [|done..]. exists g. apply phases_returns_eq. }
  intros He. destruct He as [t He|g e _|g e _ _|_]; [|right; eauto..|by left].
  destruct He; try (right; eauto; done); left; (split; [done|]); intros e' (h & Hh); exists h;
    revert Hh; simpl; rewrite ?phases_returns; simpl; repeat case_decide; subst; try done.
  match goal with H : waits_for _ = _ |- _ => revert H end.
  by destruct (phases s g); simpl; intros; simplify_eq.
Qed.

Record group (s : app) : Prop := {
  gr_some e : groupErr s = Some e → failed s e ∧ cancelled s = true;
  gr_none e : groupErr s = None → ¬ failed s e
}.

Lemma event_cancelled s t : event s t → cancelled s = true → cancelled t = true.
Proof. intros He Hs. by event_cases He. Qed.

Lemma event_group s t : event s t → group s → group t.
Proof.
  intros He [Hs Hn]. destruct (event_groupErr s t He) as [(E & Hf)|(e & Hf & Hc & E)].
  - split; rewrite E; intros e He'; [|by intros Hf'%Hf; apply (Hn e)].
    destruct (Hs e He'). eauto using event_failed, event_cancelled.
  - split; rewrite E; intros e'; destruct (groupErr s) as [f|] eqn:Ef; try done; intros ?; simplify_eq.
    + destruct (Hs e' eq_refl). eauto using event_failed.
    + done.
Qed.

(** ** The shutdown *)
Definition token_kept (ph : phase) : bool :=
  match ph with
  | CheckCancellation | SubscribeCancellation | KeepCancellation | Receiving => true
  | _ => false
  end.

(** What the unsubscribe functions are, by where the listener and its stop are. *)
Record stops (s : app) : Prop := {
  sp_phase g : in_phase g (phases s g);
  sp_token : token_kept (phases s EventListener) = true → unsub (tokenBought s) ≠ UnsubNil;
  sp_cancellation : phases s EventListener = Receiving → unsub (cancellation s) ≠ UnsubNil;
  sp_stopping : phases s StopEventListener = AwaitCancel ∨ cancelled s = true;
  sp_late : phases s StopEventListener = AwaitCancel ∨ unsub (tokenBought s) ≠ UnsubReady ∨
    phases s EventListener = CheckCancellation ∨ is_returned (phases s EventListener) = true;
  sp_server : is_returned (phases s StopGRPCServer) = true →
    serverStopped s = true ∨ is_returned (phases s GRPCServer) = true
}.

Lemma unsubscribed_nil u : unsubscribed u = UnsubNil → u = UnsubNil.
Proof. by destruct u. Qed.
Lemma unsubscribed_ready u : unsubscribed u ≠ UnsubReady.
Proof. by destruct u. Qed.

Lemma waits_for_next ph c next :
  waits_for ph = Some (c, next) →
  token_kept next = false ∧ next ≠ Receiving ∧ is_returned next = false ∧ is_returned ph = false.
Proof. destruct ph; simpl; intros; by simplify_eq. Qed.

Lemma event_stops s t : event s t → stops s → stops t.
Proof.
  intros He [Hp Ht Hca Hst Hl Hsv]. split.
  - intros g. eauto using event_in_phase.
  - event_cases He; auto; try congruence; simpl.
    all: try (intros _; apply Ht; rewrite Hg; done).
    + apply waits_for_next in Hg as [-> _]. done.
    + intros Hk Hu%unsubscribed_nil. by apply Ht.
  - event_cases He; auto; try congruence; simpl.
    + apply waits_for_next in Hg as (_ & ? & _). done.
    + intros Hk Hu%unsubscribed_nil. by apply Hca.
  - event_cases He; auto; try (right; done); try (destruct Hst; [congruence|by auto]).
    all: destruct Hst as [E|]; [by rewrite E in Hg|by auto].
  - event_cases He; auto; try congruence; simpl.
    all: auto using unsubscribed_ready.
    all: destruct Hl as [E|[|[E|E]]]; auto; try (rewrite Hg in E; done).
    all: try (rewrite E in Hg; done).
    all: try (destruct Hst; [by auto|congruence]).
    all: try (destruct Hor; done).
    by apply waits_for_next in Hg as (_ & _ & _ & ?); congruence.
  - event_cases He; auto; try congruence; simpl.
    all: try (intros Hr; destruct (Hsv Hr) as [|E]; auto; rewrite Hg in E; done).
    all: try (destruct Hor; done).
    all: try (specialize (Hp StopGRPCServer); destruct (phases s StopGRPCServer); done).
    intros Hr. apply waits_for_next in Hg as (_ & _ & _ & Hn).
    destruct (Hsv Hr) as [|]; [by auto|congruence].
Qed.

Definition reachable (server client : bool) : app → Prop := rtc event (Run server client).

Lemma reachable_starts b c s : reachable b c s → starts s.
Proof.
  intros Hr. eapply (rtc_preserved event starts); [apply event_starts|exact Hr|]. split.
  - intros d ?%not_elem_of_nil. done.
  - intros g d. destruct g, b, c; simpl; intros ?%not_elem_of_nil; done.
  - intros pre d post. by destruct pre.
Qed.

Lemma reachable_group b c s : reachable b c s → group s.
Proof.
  intros Hr. eapply (rtc_preserved event group); [apply event_group|exact Hr|]. split; [done|].
  intros e _ (g & Hg). by destruct g, b, c.
Qed.

Lemma reachable_stops b c s : reachable b c s → stops s.
Proof.
  intros Hr. eapply (rtc_preserved event stops); [apply event_stops|exact Hr|].
  split; simpl; auto; destruct b, c; auto; by intros [].
Qed.

(** The listener waits for handlers that nobody unsubscribes any more. *)
Definition missed (s : app) : Prop :=
  phases s EventListener = Receiving ∧ is_returned (phases s StopEventListener) = true ∧
  unsub (cancellation s) = UnsubReady.

Definition goes_on (s : app) : Prop := ∃ t, step s t.

(** The stoppers go on until they return. *)
Lemma stopper_goes_on s g :
  stops s → cancelled s = true → g = StopGRPCServer ∨ g = StopEventListener →
  is_returned (phases s g) = true ∨ goes_on s.
Proof.
  intros [Hp _ _ _ _ _] Hc Hg. specialize (Hp g).
  destruct Hg as [-> | ->], (phases s _) eqn:E; try done; eauto; right; eexists.
  - by apply step_stop_server.
  - by apply step_stop_token_bought.
  - by apply step_stop_cancellation.
Qed.

(** The listener goes on when its handlers are unsubscribed. *)
Lemma listener_goes_on s :
  stops s → cancelled s = true → phases s EventListener = Receiving → missed s ∨ goes_on s.
Proof.
  intros Hs Hc Hr. destruct (stopper_goes_on s StopEventListener) as [Hstop|]; auto.
  destruct Hs as [_ Ht Hca _ Hl _]. rewrite Hr in *. specialize (Ht eq_refl). specialize (Hca eq_refl).
  destruct (phases s StopEventListener) as [] eqn:Es; try done. simpl in *.
  destruct Hl as [|[Hl|[|]]]; try done.
  destruct (unsub (tokenBought s)) eqn:Eu; try done.
  destruct (errChanClosed s) eqn:Ec; [right; eexists; by apply step_listener_over|].
  destruct (handling (tokenBought s)) eqn:Eh; [right; eexists; by apply step_token_bought_handled|].
  destruct (handling (cancellation s)) eqn:Ek; [|right; eexists; by apply step_close].
  destruct (unsub (cancellation s)) eqn:Ev; try done.
  - left. unfold missed. by rewrite Es.
  - right. eexists. by apply step_cancellation_handled.
Qed.

(** Once the context is cancelled some goroutine can go on. *)
Lemma stops_progress s : stops s → cancelled s = true → finished s ∨ missed s ∨ goes_on s.
Proof.
  intros Hs Hc.
  assert (∀ g, is_returned (phases s g) = true ∨ missed s ∨ goes_on s) as Hall.
  { intros g. pose proof (sp_phase s Hs g) as Hp.
    destruct (decide (g = StopGRPCServer ∨ g = StopEventListener)) as [Hg|Hg].
    { destruct (stopper_goes_on s g Hs Hc Hg); auto. }
    destruct (phases s g) eqn:E; auto; destruct g; try done; try naive_solver.
    all: try by auto using listener_goes_on.
    all: right; right.
    all: try (eexists; apply (step_check_cancelled s (Sentinel "context.Canceled")); by auto).
    all: try (match type of E with phases ?u ?h = _ =>
      eexists; eapply (step_give_up u h); [by rewrite E|by constructor] end).
    9: { destruct (stopper_goes_on s StopGRPCServer) as [Hr|]; auto.
         destruct (sp_server s Hs Hr) as [|Hr']; [|by rewrite E in Hr'].
         eexists. by apply step_server_over. }
    all: eexists.
    all: first [by apply step_subscribe_token_bought | by apply step_keep_token_bought
      | by apply step_subscribe_cancellation | by apply step_keep_cancellation
      | by apply step_processor | by apply step_messenger | by apply step_messenger_over
      | by apply step_server | apply (step_stop _ StopGRPCClient); by auto
      | apply (step_stop _ StopMatrixMessenger); by auto]. }
  destruct (Hall EventListener) as [?|]; [|by auto].
  destruct (Hall MessageProcessor) as [?|]; [|by auto].
  destruct (Hall MatrixMessenger) as [?|]; [|by auto].
  destruct (Hall GRPCServer) as [?|]; [|by auto].
  destruct (Hall StopGRPCClient) as [?|]; [|by auto].
  destruct (Hall StopGRPCServer) as [?|]; [|by auto].
  destruct (Hall StopMatrixMessenger) as [?|]; [|by auto].
  destruct (Hall StopEventListener) as [?|]; [|by auto].
  left. by intros [].
Qed.

Lemma nsteps_measure n s t : nsteps event n s t → (n + measure t ≤ measure s)%nat.
Proof.
  induction 1 as [|n s u t He _ IH]; [lia|]. apply event_measure in He. lia.
Qed.

Lemma measure_Run b c : (measure (Run b c) ≤ 30)%nat.
Proof. destruct b, c; apply (Nat.leb_le _ 30); vm_compute; reflexivity. Qed.

Lemma reachable_measure b c s : reachable b c s → (measure s ≤ 30)%nat.
Proof.
  intros [n Hn]%rtc_nsteps. apply nsteps_measure in Hn. pose proof (measure_Run b c). lia.
Qed.

(** A listener that has started before the end of the context is stopped. *)
Definition stoppable (s : app) : Prop :=
  past_start (phases s EventListener) = true ∧
  (phases s StopEventListener = AwaitCancel ∨
   phases s StopEventListener = UnsubscribeCancellation ∨ unsub (cancellation s) ≠ UnsubReady).

Lemma event_stoppable s t : event s t → stops s ∧ stoppable s → stops t ∧ stoppable t.
Proof.
  intros He [Hs [Hp Hu]]. split; [by eapply event_stops|].
  split; [by eapply event_past_start|].
  pose proof (sp_phase s Hs StopEventListener) as Hin.
  event_cases He; auto; try (destruct Hor; done);
    try (rewrite Hg in Hp; done); try (right; right; apply unsubscribed_ready).
  - destruct (phases s StopEventListener); done.
  - destruct (phases s StopEventListener); done.
  - destruct (phases s StopEventListener); done.
Qed.

Lemma stoppable_not_missed s : stoppable s → ¬ missed s.
Proof.
  intros [_ Hu] (_ & Hr & Hc). destruct (phases s StopEventListener); try done.
  by destruct Hu as [|[|]].
Qed.

(** A server that is disabled stays so. *)
Lemma server_disabled c s :
  reachable false c s → phases s GRPCServer = Returned None ∧ Server ∉ started s.
Proof.
  intros Hr. eapply (rtc_preserved event
    (λ s, phases s GRPCServer = Returned None ∧ Server ∉ started s)); [|exact Hr|].
  - intros x y He [Hp Hn]. split; [by eapply event_returned|].
    destruct (event_started x y He) as [->|(d & -> & Hd & _)]; [done|].
    intros [?| <-%list_elem_of_singleton]%elem_of_app; [done|]. simpl in Hd. by rewrite Hp in Hd.
  - split; [done|]. apply not_elem_of_nil.
Qed.

(** Nobody unsubscribes the handlers of the cancellations, and the listener waits. *)
Definition hung (s : app) : Prop :=
  missed s ∧ handling (cancellation s) = true ∧ errChanClosed s = false.

Lemma step_hung s t : step s t → hung s → hung t.
Proof.
  intros He ((Hr & Hx & Hu) & Hh & Hcl).
  assert (event s t) as Hev by by apply event_step.
  assert (is_returned (phases t StopEventListener) = true) as Hx'.
  { destruct (phases s StopEventListener) eqn:E; try done.
    by rewrite (event_returned s t StopEventListener e Hev E). }
  unfold hung, missed. revert Hx'. destruct He; simpl; rewrite ?phases_returns; simpl;
    repeat case_decide; subst; try congruence; auto 10.
  - by destruct H; congruence.
  - by rewrite Hr in H.
  - by rewrite Hr in H.
  - by rewrite H in Hx.
Qed.

(** The context ends while the event listener makes its last subscriptions, and its stop
    is over before it has kept their unsubscribe functions. *)
Definition cancelled_while_starting (server client : bool) : app :=
  let s := Run server client in
  let s := go EventListener SubscribeTokenBought s in
  let s := set_tokenBought UnsubNil true (go EventListener KeepTokenBought s) in
  let s := set_tokenBought UnsubReady true (go EventListener CheckCancellation s) in
  let s := go EventListener SubscribeCancellation s in
  let s := set_cancellation UnsubNil true (go EventListener KeepCancellation s) in
  let s := cancel s in
  let s := set_tokenBought UnsubDone true (go StopEventListener UnsubscribeCancellation s) in
  let s := set_cancellation UnsubNil true (returns StopEventListener None s) in
  has_started Listener (set_cancellation UnsubReady true (go EventListener Receiving s)).

Lemma cancelled_while_starting_reachable server client :
  reachable server client (cancelled_while_starting server client).
Proof.
  eapply rtc_l; [by apply event_step, step_check_token_bought|].
  eapply rtc_l; [by apply event_step, step_subscribe_token_bought|].
  eapply rtc_l; [by apply event_step, step_keep_token_bought|].
  eapply rtc_l; [by apply event_step, step_check_cancellation|].
  eapply rtc_l; [by apply event_step, step_subscribe_cancellation|].
  eapply rtc_l; [by apply event_cancel|].
  eapply rtc_l; [by apply event_step, step_stop_token_bought|].
  eapply rtc_l; [by apply event_step, step_stop_cancellation|].
  eapply rtc_l; [by apply event_step, step_keep_cancellation|].
  apply rtc_refl.
Qed.

(** ** Properties *)

(** C13: in whatever order the goroutines of [Run] advance and fail, each component starts at
    most once, the matrix messenger only after the message processor and the event
    listener, the gRPC server only after the three of them, and not at all when it is
    disabled. *)
Theorem startup_order server client s pre c post :
  reachable server client s → started s = pre ++ c :: post →
  c ∉ pre ∧ c ∉ post ∧
  (c = Messenger → Processor ∈ pre ∧ Listener ∈ pre) ∧
  (c = Server → server = true ∧ Processor ∈ pre ∧ Listener ∈ pre ∧ Messenger ∈ pre).
Proof.
  intros Hr E. pose proof (st_order s (reachable_starts _ _ _ Hr)) as Ho.
  destruct (Ho pre c post E) as [Hc Hq]. split_and!; [done| | |].
  - intros (l & r & ->)%list_elem_of_split.
    destruct (Ho (pre ++ c :: l) c r) as [Hn _]; [by rewrite E, <- (assoc_L (++))|].
    apply Hn, elem_of_app. right. left.
  - intros ->. split; apply Hq; set_solver.
  - intros ->. assert (Messenger ∈ pre) as Hm by (apply Hq; by left).
    split.
    { destruct server; [done|]. destruct (server_disabled client s Hr) as [_ []].
      rewrite E. apply elem_of_app. right. left. }
    destruct (list_elem_of_split _ _ Hm) as (l & r & ->).
    destruct (Ho l Messenger (r ++ Server :: post)) as [_ Hq'].
    { by rewrite E, <- (assoc_L (++)). }
    split_and!; [| |done]; apply elem_of_app; left; apply Hq'; set_solver.
Qed.

(** The error [Run] ends with is the first one a goroutine returned: none when all of
    them returned nil, and else one of theirs, which later errors do not replace; it
    cancels the context of the others. *)
Lemma first_error_kept server client s :
  reachable server client s →
  (groupErr s = None ↔ ∀ g e, phases s g ≠ Returned (Some e)) ∧
  ∀ e, groupErr s = Some e →
    (∃ g, phases s g = Returned (Some e)) ∧ cancelled s = true ∧
    ∀ t, rtc event s t → groupErr t = Some e.
Proof.
  intros Hr. destruct (reachable_group _ _ _ Hr) as [Hs Hn]. split.
  - split; [intros E g e Hg; by apply (Hn e E); exists g|].
    intros Hf. destruct (groupErr s) as [e|] eqn:E; [|done].
    destruct (Hs e eq_refl) as [(g & Hg) _]. by destruct (Hf g e).
  - intros e E. destruct (Hs e E) as [Hf Hc]. split_and!; [done..|]. intros t Ht.
    eapply (rtc_preserved event (λ s, groupErr s = Some e)); [|exact Ht|done].
    intros x y He Ex. destruct (event_groupErr x y He) as [(-> & _)|(? & _ & _ & ->)]; by rewrite ?Ex.
Qed.


(** C35: [Run] can hang at its end: when the context ends while the event listener is making
    its last subscriptions, its stop may find no function to unsubscribe them; then the
    goroutine of the listener waits for them, and however the others go on without
    a failure, [Run] does not return. *)
Theorem stop_while_starting_hangs server client :
  ∃ s, reachable server client s ∧ cancelled s = true ∧ groupErr s = None ∧
    ∀ t, rtc step s t → ¬ finished t.
Proof.
  exists (cancelled_while_starting server client).
  split_and!; [apply cancelled_while_starting_reachable|done..|]. intros t Ht Hf.
  assert (hung t) as ((Hr & _) & _).
  { eapply (rtc_preserved step hung step_hung); [exact Ht|]. by destruct server, client. }
  specialize (Hf EventListener). by rewrite Hr in Hf.
Qed.

(** ** Witnesses *)

(** A start without failures. *)
Definition running : app :=
  let s := Run true true in
  let s := has_started Processor (returns MessageProcessor None s) in
  let s := go EventListener SubscribeTokenBought s in
  let s := set_tokenBought UnsubNil true (go EventListener KeepTokenBought s) in
  let s := set_tokenBought UnsubReady true (go EventListener CheckCancellation s) in
  let s := go EventListener SubscribeCancellation s in
  let s := set_cancellation UnsubNil true (go EventListener KeepCancellation s) in
  let s := has_started Listener (set_cancellation UnsubReady true (go EventListener Receiving s)) in
  let s := go MatrixMessenger StartMessenger (go MatrixMessenger AwaitListener s) in
  let s := has_started Messenger (go MatrixMessenger Receiving s) in
  let s := go GRPCServer StartServer s in
  has_started Server (go GRPCServer Receiving s).

Lemma running_reachable : reachable true true running.
Proof.
  eapply rtc_l; [by apply event_step, step_processor|].
  eapply rtc_l; [by apply event_step, step_check_token_bought|].
  eapply rtc_l; [by apply event_step, step_subscribe_token_bought|].
  eapply rtc_l; [by apply event_step, step_keep_token_bought|].
  eapply rtc_l; [by apply event_step, step_check_cancellation|].
  eapply rtc_l; [by apply event_step, step_subscribe_cancellation|].
  eapply rtc_l; [by apply event_step, step_keep_cancellation|].
  eapply rtc_l; [eapply event_step, (step_await _ MatrixMessenger); [done|constructor; set_solver]|].
  eapply rtc_l; [eapply event_step, (step_await _ MatrixMessenger); [done|constructor; set_solver]|].
  eapply rtc_l; [by apply event_step, step_messenger|].
  eapply rtc_l; [eapply event_step, (step_await _ GRPCServer); [done|constructor; set_solver]|].
  eapply rtc_l; [by apply event_step, step_server|].
  apply rtc_refl.
Qed.

Lemma startup_order_witness :
  Server ∉ [Processor; Listener; Messenger] ∧ Server ∉ [] ∧
  (Server = Messenger → Processor ∈ [Processor; Listener; Messenger] ∧
    Listener ∈ [Processor; Listener; Messenger]) ∧
  (Server = Server → true = true ∧ Processor ∈ [Processor; Listener; Messenger] ∧
    Listener ∈ [Processor; Listener; Messenger] ∧ Messenger ∈ [Processor; Listener; Messenger]).
Proof. exact (startup_order true true running _ Server [] running_reachable eq_refl). Defined.

(** The messenger fails. *)
Definition sync_failed : error := Errorf "matrix messenger failed with error: %w".
Definition failing : app := returns MatrixMessenger (Some sync_failed) running.

Lemma failing_reachable : reachable true true failing.
Proof. eapply rtc_r; [apply running_reachable|by apply event_fail]. Qed.

Lemma first_error_kept_witness :
  groupErr failing = Some sync_failed ∧ cancelled failing = true ∧
  ∀ t, rtc event failing t → groupErr t = Some sync_failed.
Proof.
  split; [done|].
  by destruct (proj2 (first_error_kept true true failing failing_reachable) sync_failed eq_refl) as (_ & H).
Defined.

