(* ===== verification/Rooms.v ===== *)
(** * The rooms at start-up (internal/matrix/messenger/rooms.go, messenger.go)

    Before the messenger synchronises, it leaves and forgets every encrypted room the bot
    has joined, each room in a goroutine of a group without a common context.  The
    goroutines are the processes of a step relation; a call of the client that fails may
    have had its effect on the homeserver or not. *)
From S2P Require Import Prelude.
From stdpp Require Import gmap sets relations.

#[local] Open Scope Z_scope.

(** What the homeserver has of the bot: the rooms it is in, and the ones it was in. *)
Record homeserver := { joined : gset string; left_ : gset string }.

Definition leave (roomID : string) (h : homeserver) : homeserver :=
  {| joined := joined h ∖ {[roomID]}; left_ := {[roomID]} ∪ left_ h |}.
Definition forget (roomID : string) (h : homeserver) : homeserver :=
  {| joined := joined h; left_ := left_ h ∖ {[roomID]} |}.

(** The goroutine of a room: the call it is at, or what it returned. *)
Inductive phase := IsRoomEncrypted | LeaveRoom | ForgetRoom | Returned (e : option error).
#[global] Instance phase_eq_dec : EqDecision phase.
Proof. solve_decision. Defined.

Record removal := {
  hs : homeserver;
  tasks : gmap string phase;
  groupErr : option error
}.

Definition check_failed : string := "failed to check if room %s is encrypted: %w".
Definition leave_failed : string := "failed to leave room %s: %w".
Definition forget_failed : string := "failed to forget room %s: %w".
Definition remove_failed : string := "failed to remove all encrypted rooms: %w".
Definition list_failed : string := "failed to get joined rooms: %w".

Definition at_ (roomID : string) (ph : phase) (s : removal) : removal :=
  {| hs := hs s; tasks := <[roomID := ph]> (tasks s); groupErr := groupErr s |}.
Definition with_hs (h : homeserver) (s : removal) : removal :=
  {| hs := h; tasks := tasks s; groupErr := groupErr s |}.

(** [errgroup.Group] keeps the first error. *)
Definition returns (roomID : string) (e : option error) (s : removal) : removal :=
  {| hs := hs s; tasks := <[roomID := Returned e]> (tasks s);
     groupErr := match groupErr s with Some f => Some f | None => e end |}.

Section Removal.
(** The client's store of what it knows of the rooms. *)
Variable encrypted : string → bool.

Inductive step (s : removal) : removal → Prop :=
  | step_check roomID :
      tasks s !! roomID = Some IsRoomEncrypted →
      step s (if encrypted roomID then at_ roomID LeaveRoom s else returns roomID None s)
  | step_check_fails roomID e :
      tasks s !! roomID = Some IsRoomEncrypted →
      step s (returns roomID (Some (Wrapf check_failed e)) s)
  | step_leave roomID :
      tasks s !! roomID = Some LeaveRoom →
      step s (with_hs (leave roomID (hs s)) (at_ roomID ForgetRoom s))
  | step_leave_fails roomID e h :
      tasks s !! roomID = Some LeaveRoom → h = hs s ∨ h = leave roomID (hs s) →
      step s (with_hs h (returns roomID (Some (Wrapf leave_failed e)) s))
  | step_forget roomID :
      tasks s !! roomID = Some ForgetRoom →
      step s (with_hs (forget roomID (hs s)) (returns roomID None s))
  | step_forget_fails roomID e h :
      tasks s !! roomID = Some ForgetRoom → h = hs s ∨ h = forget roomID (hs s) →
      step s (with_hs h (returns roomID (Some (Wrapf forget_failed e)) s)).

(** One goroutine for each room [JoinedRooms] lists, which are the ones joined. *)
Definition launched (h : homeserver) : removal :=
  {| hs := h; tasks := gset_to_gmap IsRoomEncrypted (joined h); groupErr := None |}.

Definition is_returned (ph : phase) : bool := match ph with Returned _ => true | _ => false end.
Definition finished (s : removal) : Prop := map_Forall (λ _ ph, is_returned ph = true) (tasks s).

(** [removeEncryptedRooms] from a list call that fails or not to what it returns. *)
Inductive removeEncryptedRooms (h : homeserver) : homeserver → option error → Prop :=
  | rooms_not_listed e : removeEncryptedRooms h h (Some (Wrapf list_failed e))
  | rooms_removed s :
      rtc step (launched h) s → finished s →
      removeEncryptedRooms h (hs s) (Wrapf remove_failed <$> groupErr s).

(** [Start] stops there on an error; else it starts the syncer and the sweeper. *)
Inductive Start (h : homeserver) : homeserver → option error → Prop :=
  | start_fails h' e :
      removeEncryptedRooms h h' (Some e) →
      Start h h' (Some (Wrapf "failed to remove encrypted rooms: %w" e))
  | start_syncs h' : removeEncryptedRooms h h' None → Start h h' None.

(** ** Lemmas *)
Definition weight (ph : phase) : nat :=
  match ph with IsRoomEncrypted => 3 | LeaveRoom => 2 | ForgetRoom => 1 | Returned _ => 0 end.
Definition total (m : gmap string phase) : nat :=
  sum_list_with (λ p, weight p.2) (map_to_list m).

Lemma total_insert m r ph :
  m !! r = None → total (<[r := ph]> m) = (weight ph + total m)%nat.
Proof. intros Hr. unfold total. by rewrite map_to_list_insert. Qed.

Lemma total_update m r ph ph' :
  m !! r = Some ph → (total (<[r := ph']> m) + weight ph = total m + weight ph')%nat.
Proof.
  intros Hr. rewrite <- (insert_delete_id m r ph Hr) at 2. rewrite <- insert_delete_eq.
  rewrite !total_insert by apply lookup_delete_eq. lia.
Qed.

Lemma total_launched (X : gset string) : total (gset_to_gmap IsRoomEncrypted X) = (3 * size X)%nat.
Proof.
  induction X as [|r X Hr IH] using set_ind_L; [done|].
  rewrite gset_to_gmap_union_singleton, total_insert by (apply lookup_gset_to_gmap_None; done).
  rewrite IH, size_union by set_solver. rewrite size_singleton. simpl. lia.
Qed.

(** What is known of a room from where its goroutine is. *)
Definition room_ok (h : homeserver) (r : string) (ph : phase) : Prop :=
  match ph with
  | IsRoomEncrypted => r ∈ joined h
  | LeaveRoom => encrypted r = true ∧ r ∈ joined h
  | ForgetRoom => encrypted r = true ∧ r ∉ joined h
  | Returned None => encrypted r = true ∧ r ∉ joined h ∧ r ∉ left_ h ∨ encrypted r = false ∧ r ∈ joined h
  | Returned (Some _) => encrypted r = false → r ∈ joined h
  end.

(** A step is the one of a room: it is told by the room's phase and the homeserver. *)
Lemma step_of_room s t :
  step s t → ∃ r ph ph' h,
    tasks s !! r = Some ph ∧ tasks t = <[r := ph']> (tasks s) ∧ hs t = h ∧
    (weight ph' < weight ph)%nat ∧
    (∀ x, x ≠ r → (x ∈ joined h ↔ x ∈ joined (hs s)) ∧ (x ∈ left_ h ↔ x ∈ left_ (hs s))) ∧
    (room_ok (hs s) r ph → room_ok h r ph') ∧
    joined h ⊆ joined (hs s) ∧
    groupErr t = match groupErr s, ph' with
                 | Some f, _ => Some f | None, Returned e => e | None, _ => None end.
Proof.
  destruct 1 as [r Hr|r e Hr|r Hr|r e h Hr Hh|r Hr|r e h Hr Hh].
  - destruct (encrypted r) eqn:He.
    + exists r, IsRoomEncrypted, LeaveRoom, (hs s). split_and!; try done; [simpl; lia|].
      simpl; by destruct (groupErr s).
    + exists r, IsRoomEncrypted, (Returned None), (hs s). split_and!; simpl; auto with lia.
  - exists r, IsRoomEncrypted, (Returned (Some (Wrapf check_failed e))), (hs s).
    split_and!; simpl; auto with lia.
  - exists r, LeaveRoom, ForgetRoom, (leave r (hs s)).
    split_and!; simpl; try done; [lia|set_solver|set_solver|set_solver|by destruct (groupErr s)].
  - exists r, LeaveRoom, (Returned (Some (Wrapf leave_failed e))), h.
    split_and!; simpl; try done; [lia| | |].
    + destruct Hh as [-> | ->]; simpl; set_solver.
    + intros [He _] ?. congruence.
    + destruct Hh as [-> | ->]; simpl; set_solver.
  - exists r, ForgetRoom, (Returned None), (forget r (hs s)).
    split_and!; simpl; try done; [lia|set_solver|set_solver].
  - exists r, ForgetRoom, (Returned (Some (Wrapf forget_failed e))), h.
    split_and!; simpl; try done; [lia| | |].
    + destruct Hh as [-> | ->]; simpl; set_solver.
    + intros [He _] ?. congruence.
    + destruct Hh as [-> | ->]; simpl; set_solver.
Qed.

Lemma nsteps_total n s t : nsteps step n s t → (n + total (tasks t) = total (tasks s))%nat ∨
  (n + total (tasks t) < total (tasks s))%nat.
Proof.
  induction 1 as [|n s u t Hs _ IH]; [by left|].
  destruct (step_of_room s u Hs) as (r & ph & ph' & h & Hr & E & _ & Hw & _).
  pose proof (total_update (tasks s) r ph ph' Hr) as Hu. rewrite <- E in Hu. lia.
Qed.

Lemma not_finished s : ¬ finished s → ∃ r ph, tasks s !! r = Some ph ∧ (0 < weight ph)%nat.
Proof.
  intros Hn.
  assert (Decision (map_Forall (λ _ ph, weight ph = 0%nat) (tasks s))) as Hd by apply _.
  destruct Hd as [Ha|Ha].
  - destruct Hn. intros r ph Hr. specialize (Ha r ph Hr). by destruct ph.
  - apply map_not_Forall in Ha as (r & ph & Hr & Hw); [|apply _]. exists r, ph. split; [done|lia].
Qed.

Lemma step_progress s : ¬ finished s → ∃ t, step s t.
Proof.
  intros (r & ph & Hr & Hw)%not_finished. destruct ph; simpl in Hw; try lia; eexists.
  - by apply step_check.
  - by apply step_leave.
  - by apply step_forget.
Qed.

(** The rooms against the ones joined at first, and the error of the group. *)
Record removing (h0 : homeserver) (s : removal) : Prop := {
  rm_dom : dom (tasks s) = joined h0;
  rm_rooms r ph : tasks s !! r = Some ph → room_ok (hs s) r ph;
  rm_others r : r ∉ joined h0 →
    r ∉ joined (hs s) ∧ (r ∈ left_ (hs s) ↔ r ∈ left_ h0);
  rm_none : groupErr s = None ↔ ∀ r e, tasks s !! r ≠ Some (Returned (Some e))
}.

Lemma room_ok_frame h h' r ph :
  (r ∈ joined h' ↔ r ∈ joined h) → (r ∈ left_ h' ↔ r ∈ left_ h) → room_ok h r ph → room_ok h' r ph.
Proof. destruct ph as [| | |[e|]]; simpl; set_solver. Qed.

Lemma step_removing h0 s t : step s t → removing h0 s → removing h0 t.
Proof.
  intros Hs [Hd Hr Ho Hn].
  destruct (step_of_room s t Hs) as (r & ph & ph' & h & Ht & E & Eh & Hw & Hx & Hok & _ & Eg).
  assert (r ∈ joined h0) as Hin by (rewrite <- Hd; by eapply elem_of_dom_2).
  split; rewrite ?E, ?Eh.
  - rewrite dom_insert_L, Hd. set_solver.
  - intros x phx Hl. destruct (decide (x = r)) as [->|Hne].
    + rewrite lookup_insert_eq in Hl. simplify_eq. eauto.
    + rewrite lookup_insert_ne in Hl by done. destruct (Hx x Hne).
      eapply room_ok_frame; [done|done|eauto].
  - intros x Hx0. assert (x ≠ r) as Hne by set_solver. destruct (Hx x Hne), (Ho x Hx0). set_solver.
  - rewrite Eg. assert (∀ e, ph ≠ Returned (Some e)) as Hph by (intros e ->; simpl in Hw; lia).
    assert ((∀ x e, <[r := ph']> (tasks s) !! x ≠ Some (Returned (Some e))) ↔
      (∀ x e, tasks s !! x ≠ Some (Returned (Some e))) ∧ ∀ e, ph' ≠ Returned (Some e)) as ->.
    { split.
      - intros Ha. split.
        + intros x e Hl. destruct (decide (x = r)) as [->|Hne]; [naive_solver|].
          apply (Ha x e). by rewrite lookup_insert_ne.
        + intros e ->. apply (Ha r e). by rewrite lookup_insert_eq.
      - intros [Ha Hb] x e Hl. destruct (decide (x = r)) as [->|Hne].
        + rewrite lookup_insert_eq in Hl. naive_solver.
        + rewrite lookup_insert_ne in Hl by done. by apply (Ha x e). }
    rewrite <- Hn. destruct (groupErr s) as [f|]; [naive_solver|].
    destruct ph' as [| | |[e|]]; naive_solver.
Qed.

Lemma launched_removing h : removing h (launched h).
Proof.
  split; simpl.
  - apply dom_gset_to_gmap.
  - intros r ph Hl. apply lookup_gset_to_gmap_Some in Hl as [Hr <-]. done.
  - set_solver.
  - split; [|done]. intros _ r e Hl. apply lookup_gset_to_gmap_Some in Hl as [_ ?]. done.
Qed.

Lemma steps_removing h n s :
  nsteps step n (launched h) s → removing h s ∧ joined (hs s) ⊆ joined h.
Proof.
  intros Hs%nsteps_rtc.
  eapply (rtc_preserved step (λ s, removing h s ∧ joined (hs s) ⊆ joined h)); [|exact Hs|].
  - intros x y Hxy [Hr Hj]. split; [by eapply step_removing|].
    destruct (step_of_room x y Hxy) as (r & ph & ph' & h' & _ & _ & -> & _ & _ & _ & Hsub & _).
    set_solver.
  - split; [apply launched_removing|done].
Qed.

(** C30: whatever calls fail and however the goroutines of the rooms interleave, the removal
    of the encrypted rooms ends, after at most three calls for each room joined; no
    unencrypted room is left; a room whose calls succeed is left and forgotten, also when
    other rooms fail; and without an error the rooms that remain are the unencrypted ones. *)
Theorem encrypted_rooms_removed h n s :
  nsteps step n (launched h) s →
  (n ≤ 3 * size (joined h))%nat ∧ (¬ finished s → ∃ t, step s t) ∧
  joined (hs s) ⊆ joined h ∧
  (∀ r, r ∈ joined h → encrypted r = false → r ∈ joined (hs s)) ∧
  (∀ r, tasks s !! r = Some (Returned None) → encrypted r = true →
    r ∉ joined (hs s) ∧ r ∉ left_ (hs s)) ∧
  (finished s → groupErr s = None →
    joined (hs s) = filter (λ r, encrypted r = false) (joined h) ∧
    ∀ r, r ∈ joined h → encrypted r = true → r ∉ left_ (hs s)).
Proof.
  intros Hn. destruct (steps_removing h n s Hn) as [[Hd Hr Ho He] Hj].
  assert (∀ r, r ∈ joined h → ∃ ph, tasks s !! r = Some ph ∧ room_ok (hs s) r ph) as Hroom.
  { intros r Hin. rewrite <- Hd in Hin. apply elem_of_dom in Hin as [ph Hl]. eauto. }
  split_and!.
  - apply nsteps_total in Hn. simpl in Hn. rewrite total_launched in Hn. lia.
  - apply step_progress.
  - done.
  - intros r Hin Henc. destruct (Hroom r Hin) as (ph & _ & Hok).
    destruct ph as [| | |[e|]]; simpl in Hok; auto;
      destruct Hok as [[? _]|[? ?]] || destruct Hok as [? _]; congruence.
  - intros r Hl Henc. specialize (Hr r _ Hl) as [(_ & ? & ?)|[? _]]; [done|congruence].
  - intros Hf Hg.
    assert (∀ r, r ∈ joined h → room_ok (hs s) r (Returned None)) as Hret.
    { intros r Hin. destruct (Hroom r Hin) as (ph & Hl & Hok). specialize (Hf r ph Hl).
      destruct ph as [| | |[e|]]; try done. by destruct (proj1 He Hg r e). }
    split.
    + apply set_eq. intros r. rewrite elem_of_filter. split.
      * intros Hin. specialize (Hj r Hin). destruct (Hret r Hj) as [(_ & ? & _)|[? _]]; done.
      * intros [Henc Hin]. destruct (Hret r Hin) as [[? _]|[_ ?]]; [congruence|done].
    + intros r Hin Henc. destruct (Hret r Hin) as [(_ & _ & ?)|[? _]]; [done|congruence].
Qed.
End Removal.

(** ** Witnesses *)
Module Toy.
Definition encrypted (r : string) : bool := String.eqb r "!old:host".
Definition host : homeserver := {| joined := {["!old:host"; "!new:host"]}; left_ := ∅ |}.
Definition done_ : removal :=
  let s := at_ "!old:host" LeaveRoom (launched host) in
  let s := returns "!new:host" None s in
  let s := with_hs (leave "!old:host" (hs s)) (at_ "!old:host" ForgetRoom s) in
  with_hs (forget "!old:host" (hs s)) (returns "!old:host" None s).

Lemma done_reached : nsteps (step encrypted) 4 (launched host) done_.
Proof.
  eapply nsteps_l; [by apply (step_check encrypted _ "!old:host"); vm_compute|].
  eapply nsteps_l; [by apply (step_check encrypted _ "!new:host"); vm_compute|].
  eapply nsteps_l; [by apply (step_leave encrypted _ "!old:host"); vm_compute|].
  eapply nsteps_l; [by apply (step_forget encrypted _ "!old:host"); vm_compute|].
  apply nsteps_O.
Qed.
End Toy.

Lemma encrypted_rooms_removed_witness :
  joined (hs Toy.done_) = filter (λ r, Toy.encrypted r = false) (joined Toy.host) ∧
  joined (hs Toy.done_) = {["!new:host"]}.
Proof.
  split; [|by vm_compute].
  destruct (encrypted_rooms_removed Toy.encrypted Toy.host 4 Toy.done_ Toy.done_reached)
    as (_ & _ & _ & _ & _ & Hfin).
  apply Hfin; [|reflexivity]. apply (bool_decide_unpack _). by vm_compute.
Defined.
