(* ===== verification/Syncer.v ===== *)
(** * The life of the messenger (internal/matrix/messenger/messenger.go)

    What [Start] and [Stop] of the messenger, the goroutines they launch and the loop of the
    message processor do together.  The processes of the step relation are the goroutine of
    the application that starts the messenger and then receives from its error channel,
    the one that stops it, the syncer, which runs the event handlers, the sweeper of partial
    messages, and the goroutine of the processor that receives the completed messages.
    [msgChannel] and the error channel are unbuffered: a send is a step of two processes.
    The fields that [Stop] reads and [Start] writes without a lock are written one by one. *)
From S2P Require Import Prelude Message Messenger Rooms.
From stdpp Require Import relations.
Import Reassembly.

#[local] Open Scope Z_scope.

Abbreviation message := EncodedSignedMessageWithSender.

(** The goroutine of [App.Run] that starts the messenger: the start itself is the removal of
    the encrypted rooms, the two fields [Stop] reads, and the launch of two goroutines. *)
Inductive caller_phase :=
  | AwaitStarted | RemoveRooms | KeepCancelSync | KeepDoneChan | Receiving
  | Returned (e : option error).

(** The syncer: in [SyncWithContext] with the events of a response it has still to dispatch,
    in a handler at [m.msgChannel <- msg], at [errChan <- err], or in its deferred calls. *)
Inductive sync_phase :=
  | NotLaunched
  | Syncing (evs : list input)
  | Sending (msg : message) (evs : list input)
  | Failing (e : error)
  | CloseErrChan | CloseDoneChan | Exited.

(** The goroutine of [App.Run] that stops the messenger. *)
Inductive stop_phase :=
  | AwaitCancel | ReadDoneChan
  | WaitDone                       (* [<-m.syncerDoneChan] *)
  | WaitNil                        (* the same on a nil channel *)
  | CloseClient
  | Stopped (e : option error).

(** What the goroutines share: the context of the application, the fields [cancelSync]
    and [syncerDoneChan] of the messenger (the latter nil, open or closed), whether
    [cancelSync] was called, and whether the error channel is closed. *)
Record shared := {
  cancelled : bool;
  cancelSync : bool;
  syncCancelled : bool;
  syncerDoneChan : option bool;
  errChanClosed : bool
}.

(** The data: the rooms, the partial messages, the messages the processor received;
    and, to speak of them, the events the homeserver has sent and what was handled. *)
Record data := {
  hs : homeserver;
  chunkedMessages : store;
  received : list message;
  fetched : list input;
  history : list input
}.

Record world := {
  caller : caller_phase;
  stopper : stop_phase;
  syncer : sync_phase;
  sweeping : bool;
  processing : bool;
  sh : shared;
  dt : data
}.

(** [syncCtx.Done()] *)
Definition syncDone (x : shared) : bool := cancelled x || syncCancelled x.

Definition cancel (x : shared) : shared :=
  {| cancelled := true; cancelSync := cancelSync x; syncCancelled := syncCancelled x;
     syncerDoneChan := syncerDoneChan x; errChanClosed := errChanClosed x |}.
Definition keep_cancelSync (x : shared) : shared :=
  {| cancelled := cancelled x; cancelSync := true; syncCancelled := syncCancelled x;
     syncerDoneChan := syncerDoneChan x; errChanClosed := errChanClosed x |}.
Definition call_cancelSync (x : shared) : shared :=
  {| cancelled := cancelled x; cancelSync := cancelSync x; syncCancelled := true;
     syncerDoneChan := syncerDoneChan x; errChanClosed := errChanClosed x |}.
Definition set_doneChan (closed : bool) (x : shared) : shared :=
  {| cancelled := cancelled x; cancelSync := cancelSync x; syncCancelled := syncCancelled x;
     syncerDoneChan := Some closed; errChanClosed := errChanClosed x |}.
Definition close_errChan (x : shared) : shared :=
  {| cancelled := cancelled x; cancelSync := cancelSync x; syncCancelled := syncCancelled x;
     syncerDoneChan := syncerDoneChan x; errChanClosed := true |}.

Definition set_hs (h : homeserver) (d : data) : data :=
  {| hs := h; chunkedMessages := chunkedMessages d; received := received d;
     fetched := fetched d; history := history d |}.
Definition fetch (evs : list input) (d : data) : data :=
  {| hs := hs d; chunkedMessages := chunkedMessages d; received := received d;
     fetched := fetched d ++ evs; history := history d |}.
Definition receive (msg : message) (d : data) : data :=
  {| hs := hs d; chunkedMessages := chunkedMessages d; received := received d ++ [msg];
     fetched := fetched d; history := history d |}.
Definition handled (i : input) (st : store) (d : data) : data :=
  {| hs := hs d; chunkedMessages := st; received := received d;
     fetched := fetched d; history := history d ++ [i] |}.

Definition with_caller (c : caller_phase) (w : world) : world :=
  {| caller := c; stopper := stopper w; syncer := syncer w; sweeping := sweeping w;
     processing := processing w; sh := sh w; dt := dt w |}.
Definition with_stopper (p : stop_phase) (w : world) : world :=
  {| caller := caller w; stopper := p; syncer := syncer w; sweeping := sweeping w;
     processing := processing w; sh := sh w; dt := dt w |}.
Definition with_syncer (p : sync_phase) (w : world) : world :=
  {| caller := caller w; stopper := stopper w; syncer := p; sweeping := sweeping w;
     processing := processing w; sh := sh w; dt := dt w |}.
Definition with_sweeping (b : bool) (w : world) : world :=
  {| caller := caller w; stopper := stopper w; syncer := syncer w; sweeping := b;
     processing := processing w; sh := sh w; dt := dt w |}.
Definition with_processing (b : bool) (w : world) : world :=
  {| caller := caller w; stopper := stopper w; syncer := syncer w; sweeping := sweeping w;
     processing := b; sh := sh w; dt := dt w |}.
Definition on_shared (f : shared → shared) (w : world) : world :=
  {| caller := caller w; stopper := stopper w; syncer := syncer w; sweeping := sweeping w;
     processing := processing w; sh := f (sh w); dt := dt w |}.
Definition on_data (f : data → data) (w : world) : world :=
  {| caller := caller w; stopper := stopper w; syncer := syncer w; sweeping := sweeping w;
     processing := processing w; sh := sh w; dt := f (dt w) |}.

Definition canceled : string := "context.Canceled".

(** A goroutine of the group returns: an error ends the context of the others. *)
Definition returns (e : option error) (w : world) : world :=
  let w := with_caller (Returned e) w in
  match e with None => w | Some _ => on_shared cancel w end.
Definition stops (e : option error) (w : world) : world :=
  let w := with_stopper (Stopped e) w in
  match e with None => w | Some _ => on_shared cancel w end.

(** [<-errChan] in [App.Run], when an error comes. *)
Definition received_error (e : error) : option error :=
  if errors_is e canceled then None
  else Some (Wrapf "matrix messenger failed with error: %w" e).

(** What the goroutine that stops the messenger returns, by what [Close] of the client does. *)
Definition stop_error (err : option error) : option error :=
  match err with
  | Some e =>
      if errors_is e canceled then None
      else Some (Wrapf "failed to stop matrix messenger: %w" (Wrapf "failed to close matrix client: %w" e))
  | None => None
  end.

(** Where [SyncWithContext] takes the syncer when it returns [err]. *)
Definition sync_returned (err : option error) : sync_phase :=
  match err with
  | Some e =>
      if errors_is e canceled then CloseErrChan
      else Failing (Wrapf "matrix event syncer exited with error: %w" e)
  | None => CloseErrChan
  end.

(** After a handler: at its send when it has completed a message. *)
Definition after_handler (o : option message) (evs : list input) : sync_phase :=
  match o with Some msg => Sending msg evs | None => Syncing evs end.

Section Syncer.
Variable encrypted : string → bool.
Variable AddressFromUserID : string → Z.
Variable botUserID : string.
Local Abbreviation handle := (handle AddressFromUserID botUserID).

Inductive step (w : world) : world → Prop :=
  (** the goroutine that starts the messenger *)
  | step_not_started :
      caller w = AwaitStarted → cancelled (sh w) = true → step w (returns None w)
  | step_await :
      caller w = AwaitStarted → step w (with_caller RemoveRooms w)
  | step_start_fails h e :
      caller w = RemoveRooms → Rooms.Start encrypted (hs (dt w)) h (Some e) →
      step w (returns (Some (Wrapf "failed to start matrix messenger: %w" e)) (on_data (set_hs h) w))
  | step_start h :
      caller w = RemoveRooms → Rooms.Start encrypted (hs (dt w)) h None →
      step w (with_caller KeepCancelSync (on_data (set_hs h) w))
  | step_keep_cancelSync :
      caller w = KeepCancelSync → step w (with_caller KeepDoneChan (on_shared keep_cancelSync w))
  | step_launch :
      caller w = KeepDoneChan →
      step w (with_caller Receiving
        (with_syncer (Syncing []) (with_sweeping true (on_shared (set_doneChan false) w))))
  | step_error e :
      caller w = Receiving → syncer w = Failing e →
      step w (returns (received_error e) (with_syncer CloseErrChan w))
  | step_error_closed :
      caller w = Receiving → errChanClosed (sh w) = true → step w (returns None w)
  (** the syncer *)
  | step_dispatch i evs :
      syncer w = Syncing (i :: evs) →
      step w (with_syncer (after_handler (handle i (chunkedMessages (dt w))).2 evs)
        (on_data (handled i (handle i (chunkedMessages (dt w))).1) w))
  | step_receive msg evs :
      syncer w = Sending msg evs → processing w = true →
      step w (with_syncer (Syncing evs) (on_data (receive msg) w))
  | step_sync_ends err :
      syncer w = Syncing [] → syncDone (sh w) = true →
      (∀ e, err = Some e → errors_is e canceled = true) →
      step w (with_syncer (sync_returned err) w)
  | step_close_errChan :
      syncer w = CloseErrChan → step w (with_syncer CloseDoneChan (on_shared close_errChan w))
  | step_close_doneChan :
      syncer w = CloseDoneChan → step w (with_syncer Exited (on_shared (set_doneChan true) w))
  (** the sweeper and the processor *)
  | step_sweeper_ends :
      sweeping w = true → syncDone (sh w) = true → step w (with_sweeping false w)
  | step_processor_ends :
      processing w = true → cancelled (sh w) = true → step w (with_processing false w)
  (** [Stop] *)
  | step_stop_not_syncing :
      stopper w = AwaitCancel → cancelled (sh w) = true → cancelSync (sh w) = false →
      step w (with_stopper CloseClient w)
  | step_stop_syncing :
      stopper w = AwaitCancel → cancelled (sh w) = true → cancelSync (sh w) = true →
      step w (with_stopper ReadDoneChan (on_shared call_cancelSync w))
  | step_read_doneChan :
      stopper w = ReadDoneChan →
      step w (with_stopper (if syncerDoneChan (sh w) then WaitDone else WaitNil) w)
  | step_done :
      stopper w = WaitDone → syncerDoneChan (sh w) = Some true →
      step w (with_stopper CloseClient w)
  | step_close_client err :
      stopper w = CloseClient →
      step w (stops (stop_error err) w).

(** What happens to the messenger: a step, a response of the homeserver while the context
    stands, a failure or a panic of the syncer, a tick of the sweeper, or the end of
    the context. *)
Inductive event (w : world) : world → Prop :=
  | event_step v : step w v → event w v
  | event_fetch evs :
      syncer w = Syncing [] → syncDone (sh w) = false → Forall (λ i, is_sweep i = false) evs →
      event w (with_syncer (Syncing evs) (on_data (fetch evs) w))
  | event_sync_fails e evs :
      syncer w = Syncing evs → errors_is e canceled = false →
      event w (with_syncer (sync_returned (Some e)) w)
  | event_sync_panics evs :
      syncer w = Syncing evs →
      event w (with_syncer (Failing (Errorf "matrix event syncer panicked: %v")) w)
  | event_tick now :
      sweeping w = true →
      event w (on_data (handled (SweepTick now)
        (evictStalePartialMessages now (chunkedMessages (dt w)))) w)
  | event_cancel : cancelled (sh w) = false → event w (on_shared cancel w).

(** The processor has started; the messenger has not. *)
Definition initial (h : homeserver) : world := {|
  caller := AwaitStarted; stopper := AwaitCancel; syncer := NotLaunched;
  sweeping := false; processing := true;
  sh := {| cancelled := false; cancelSync := false; syncCancelled := false;
           syncerDoneChan := None; errChanClosed := false |};
  dt := {| hs := h; chunkedMessages := ∅; received := []; fetched := []; history := [] |} |}.

Definition reachable (w : world) : Prop := ∃ h, rtc event (initial h) w.

(** ** Lemmas *)
#[local] Arguments sync_returned : simpl never.
#[local] Arguments after_handler : simpl never.
#[local] Arguments returns : simpl never.
#[local] Arguments stops : simpl never.

(** What a return changes. *)
Lemma caller_returns e w : caller (returns e w) = Returned e.
Proof. by destruct e. Qed.
Lemma stopper_returns e w : stopper (returns e w) = stopper w.
Proof. by destruct e. Qed.
Lemma syncer_returns e w : syncer (returns e w) = syncer w.
Proof. by destruct e. Qed.
Lemma sweeping_returns e w : sweeping (returns e w) = sweeping w.
Proof. by destruct e. Qed.
Lemma processing_returns e w : processing (returns e w) = processing w.
Proof. by destruct e. Qed.
Lemma dt_returns e w : dt (returns e w) = dt w.
Proof. by destruct e. Qed.
Lemma sh_returns e w : sh (returns e w) = match e with None => sh w | Some _ => cancel (sh w) end.
Proof. by destruct e. Qed.
Lemma caller_stops e w : caller (stops e w) = caller w.
Proof. by destruct e. Qed.
Lemma stopper_stops e w : stopper (stops e w) = Stopped e.
Proof. by destruct e. Qed.
Lemma syncer_stops e w : syncer (stops e w) = syncer w.
Proof. by destruct e. Qed.
Lemma sweeping_stops e w : sweeping (stops e w) = sweeping w.
Proof. by destruct e. Qed.
Lemma processing_stops e w : processing (stops e w) = processing w.
Proof. by destruct e. Qed.
Lemma dt_stops e w : dt (stops e w) = dt w.
Proof. by destruct e. Qed.
Lemma sh_stops e w : sh (stops e w) = match e with None => sh w | Some _ => cancel (sh w) end.
Proof. by destruct e. Qed.
Create Rewrite HintDb syncer.
#[local] Hint Rewrite caller_returns stopper_returns syncer_returns sweeping_returns processing_returns dt_returns sh_returns
  caller_stops stopper_stops syncer_stops sweeping_stops processing_stops dt_stops sh_stops : syncer.

(** *** The messages *)

(** Run the inputs in order: the partial messages they leave, and the messages written. *)
Fixpoint outputs (ins : list input) (st : store) : store * list message :=
  match ins with
  | [] => (st, [])
  | i :: ins =>
      let '(st1, o) := handle i st in
      let '(st2, out) := outputs ins st1 in
      (st2, option_list o ++ out)
  end.

Lemma outputs_snoc ins i st :
  outputs (ins ++ [i]) st =
  ((handle i (outputs ins st).1).1, (outputs ins st).2 ++ option_list (handle i (outputs ins st).1).2).
Proof.
  revert st. induction ins as [|j ins IH]; intros st; simpl.
  - destruct (handle i st). by rewrite app_nil_r.
  - destruct (handle j st) as [st1 o]. rewrite IH. destruct (outputs ins st1) as [st2 out]. simpl.
    by rewrite (assoc_L (++)).
Qed.

(** The message a handler is sending, and the events left of a response. *)
Definition in_hand (p : sync_phase) : list message :=
  match p with Sending msg _ => [msg] | _ => [] end.
Definition dispatched (l : list input) : list input := filter (λ i, is_sweep i = false) l.
Definition keeping_up (p : sync_phase) (d : data) : Prop :=
  match p with
  | NotLaunched => dispatched (history d) = fetched d
  | Syncing evs | Sending _ evs => dispatched (history d) ++ evs = fetched d
  | _ => dispatched (history d) `prefix_of` fetched d
  end.

Lemma dispatched_snoc l i :
  dispatched (l ++ [i]) = dispatched l ++ (if is_sweep i then [] else [i]).
Proof. unfold dispatched. rewrite filter_app. f_equal. by destruct i. Qed.

Record delivering (w : world) : Prop := {
  del_outputs : outputs (history (dt w)) ∅ =
    (chunkedMessages (dt w), received (dt w) ++ in_hand (syncer w));
  del_order : keeping_up (syncer w) (dt w)
}.

Lemma sync_returned_hand err : in_hand (sync_returned err) = [].
Proof. unfold sync_returned. by repeat case_match. Qed.
Lemma after_handler_hand o evs : in_hand (after_handler o evs) = option_list o.
Proof. by destruct o. Qed.

(** A step that leaves the data alone and takes the syncer to its end. *)
Lemma keeping_up_end p p' d :
  p' ≠ NotLaunched → (∀ evs, p' ≠ Syncing evs) → (∀ msg evs, p' ≠ Sending msg evs) → keeping_up p d → keeping_up p' d.
Proof.
  intros H0 H1 H2 Hp. destruct p'; try done; try (by edestruct H1); try (by edestruct H2); simpl;
    destruct p; simpl in Hp; try done; rewrite <- Hp; done || by eexists.
Qed.

Lemma sync_returned_end err evs : sync_returned err ≠ Syncing evs.
Proof. unfold sync_returned. by repeat case_match. Qed.
Lemma sync_returned_not_sending err msg evs : sync_returned err ≠ Sending msg evs.
Proof. unfold sync_returned. by repeat case_match. Qed.

Lemma keeping_up_dispatch i evs d st o :
  is_sweep i = false → dispatched (history d) ++ i :: evs = fetched d →
  keeping_up (after_handler o evs) (handled i st d).
Proof.
  intros Hi H. destruct o; simpl; rewrite dispatched_snoc, Hi, <- (assoc_L (++)); exact H.
Qed.

(** The events still to dispatch are events. *)
Definition todo (p : sync_phase) : list input :=
  match p with Syncing evs | Sending _ evs => evs | _ => [] end.
Definition todo_events (w : world) : Prop := Forall (λ i, is_sweep i = false) (todo (syncer w)).

Lemma todo_after_handler o evs : todo (after_handler o evs) = evs.
Proof. by destruct o. Qed.
Lemma todo_sync_returned err : todo (sync_returned err) = [].
Proof. unfold sync_returned. by repeat case_match. Qed.

Lemma event_todo w v : event w v → todo_events w → todo_events v.
Proof.
  unfold todo_events. destruct 1 as [v Hs| | | | |].
  - destruct Hs; simpl; autorewrite with syncer; simpl;
      rewrite ?todo_after_handler, ?todo_sync_returned; try done.
    all: try (rewrite H; simpl; done).
    rewrite H. simpl. by intros [_ ?]%Forall_cons.
  - done.
  - simpl. by rewrite todo_sync_returned.
  - simpl. done.
  - done.
  - done.
Qed.

(** *** The control: where the goroutines can be together *)

(** The error channel is closed, and the syncer has ended. *)
Definition errors_over (p : sync_phase) : bool :=
  match p with CloseDoneChan | Exited => true | _ => false end.
Definition exited (p : sync_phase) : bool := match p with Exited => true | _ => false end.
(** The syncer will dispatch no further event. *)
Definition idle (p : sync_phase) : Prop := todo p = [] ∧ in_hand p = [].
Definition winding_down (p : sync_phase) : Prop :=
  match p with CloseErrChan | CloseDoneChan | Exited => True | _ => False end.

Definition not_launched (w : world) (kept : bool) : Prop :=
  syncer w = NotLaunched ∧ syncerDoneChan (sh w) = None ∧ cancelSync (sh w) = kept ∧
  errChanClosed (sh w) = false ∧ sweeping w = false.
Definition under_way (w : world) : Prop :=
  syncer w ≠ NotLaunched ∧ syncerDoneChan (sh w) = Some (exited (syncer w)) ∧
  cancelSync (sh w) = true ∧ errChanClosed (sh w) = errors_over (syncer w).

Definition start_at (w : world) : Prop :=
  match caller w with
  | AwaitStarted | RemoveRooms | KeepCancelSync => not_launched w false
  | KeepDoneChan => not_launched w true
  | Receiving => under_way w
  | Returned _ => not_launched w false ∨ (under_way w ∧ winding_down (syncer w))
  end.
Definition stop_at (w : world) : Prop :=
  match stopper w with
  | AwaitCancel => True
  | ReadDoneChan => cancelled (sh w) = true ∧ cancelSync (sh w) = true
  | WaitDone => cancelled (sh w) = true ∧ syncerDoneChan (sh w) ≠ None
  | WaitNil => cancelled (sh w) = true
  | CloseClient | Stopped _ => cancelled (sh w) = true ∧ idle (syncer w)
  end.

Lemma idle_sync_returned err : idle (sync_returned err).
Proof. split; [apply todo_sync_returned|apply sync_returned_hand]. Qed.

Lemma busy_syncing i evs : ¬ idle (Syncing (i :: evs)).
Proof. by intros [? _]. Qed.
Lemma busy_sending msg evs : ¬ idle (Sending msg evs).
Proof. by intros [_ ?]. Qed.

(** Split the cases of where the goroutines are. *)
Ltac places :=
  repeat (case_match || destruct_and? || destruct_or?); simplify_eq/=.

Lemma event_start_at w v : event w v → start_at w → start_at v.
Proof.
  unfold start_at, not_launched, under_way. intros He. destruct He as [v Hs| | | | |]; [destruct Hs| | | | |].
  all: simpl; autorewrite with syncer; simpl.
  all: match goal with H : syncer ?x = _ |- _ => rewrite H | _ => idtac end; simpl; intros Hs.
  all: unfold sync_returned, after_handler; places; try done.
  all: try (split_and!; congruence || done).
  all: try (left; split_and!; congruence || done).
  all: try (right; split_and!; congruence || done).
  right. destruct (syncer w); simpl in *; try congruence; done.
Qed.

Lemma event_stop_at w v : event w v → start_at w ∧ stop_at w → stop_at v.
Proof.
  unfold start_at, stop_at, not_launched, under_way. intros He.
  destruct He as [v Hs| | | | |]; [destruct Hs| | | | |].
  all: simpl; autorewrite with syncer; simpl.
  all: match goal with H : syncer ?x = _ |- _ => rewrite H | _ => idtac end; simpl; intros [Hs Ht].
  all: try by (places; auto using idle_sync_returned).
  - places; try done; by exfalso; eapply busy_syncing.
  - places; try done; by exfalso; eapply busy_sending.
  - assert (syncer w = NotLaunched) as -> by (places; congruence). done.
  - split; [by places|]. destruct (syncer w) eqn:E; try done; places; congruence.
  - unfold syncDone in *. places; try done; by destruct (cancelled (sh w)).
Qed.

Lemma keeping_up_returned p err d :
  p ≠ NotLaunched → keeping_up p d → keeping_up (sync_returned err) d.
Proof.
  intros Hp. unfold sync_returned. repeat case_match; apply keeping_up_end; done.
Qed.

Lemma launch_idle w : start_at w → caller w = KeepDoneChan → syncer w = NotLaunched.
Proof. unfold start_at. intros Hs E. rewrite E in Hs. apply Hs. Qed.

Lemma event_delivering w v :
  event w v → start_at w ∧ todo_events w ∧ delivering w → delivering v.
Proof.
  intros He (Hst & Ht & [Ho Hk]). unfold todo_events in Ht.
  destruct He as [v Hs|evs H Hd He|e evs H _|evs H|now H|H]; [destruct Hs| | | | |].
  6: pose proof (launch_idle w Hst H).
  all: split; simpl; autorewrite with syncer; simpl;
    rewrite ?sync_returned_hand, ?after_handler_hand; try done.
  all: try match goal with E : syncer ?x = _ |- _ => rewrite E in Ho, Hk, Ht; simpl in * end.
  all: try done.
  all: try by (rewrite <- Hk, ?app_nil_r; try eexists).
  - by rewrite outputs_snoc, Ho, app_nil_r.
  - apply keeping_up_dispatch; [by apply Forall_cons in Ht as [? _]|exact Hk].
  - by rewrite app_nil_r.
  - eapply (keeping_up_returned (Syncing [])); done.
  - eapply (keeping_up_returned (Syncing evs)); done.
  - rewrite outputs_snoc, Ho. simpl. by rewrite app_nil_r.
  - destruct (syncer w); simpl in *; rewrite dispatched_snoc; simpl; by rewrite app_nil_r.
Qed.

(** *** What holds of every reachable world *)
Record sound (w : world) : Prop := {
  snd_start : start_at w;
  snd_stop : stop_at w;
  snd_todo : todo_events w;
  snd_delivering : delivering w
}.

Lemma event_sound w v : event w v → sound w → sound v.
Proof.
  intros He [Hs Ht Hd Hm].
  split; [eapply event_start_at|eapply event_stop_at|eapply event_todo|eapply event_delivering]; eauto.
Qed.

Lemma initial_sound h : sound (initial h).
Proof. split; [repeat split|done|by constructor|by split]. Qed.

Lemma reachable_sound w : reachable w → sound w.
Proof.
  intros [h Hr]. eapply (rtc_preserved event sound); [apply event_sound|exact Hr|apply initial_sound].
Qed.

(** *** The end *)

(** How many steps are left, but for ticks and responses of the homeserver. *)
Definition weight_caller (p : caller_phase) : nat :=
  match p with
  | AwaitStarted => 10 | RemoveRooms => 9 | KeepCancelSync => 8 | KeepDoneChan => 7
  | Receiving => 1 | Returned _ => 0
  end.
Definition weight_syncer (p : sync_phase) : nat :=
  match p with
  | NotLaunched | Exited => 0 | CloseDoneChan => 1 | CloseErrChan => 2 | Failing _ => 3
  | Syncing evs => 2 * length evs + 4 | Sending _ evs => 2 * length evs + 5
  end.
Definition weight_stopper (p : stop_phase) : nat :=
  match p with
  | AwaitCancel => 4 | ReadDoneChan => 3 | WaitDone => 2 | WaitNil | CloseClient => 1
  | Stopped _ => 0
  end.
Definition measure (w : world) : nat :=
  weight_caller (caller w) + weight_syncer (syncer w) + weight_stopper (stopper w)
  + Nat.b2n (sweeping w) + Nat.b2n (processing w).

Lemma weight_after_handler o evs : (weight_syncer (after_handler o evs) ≤ 2 * length evs + 5)%nat.
Proof. destruct o; unfold after_handler; simpl; lia. Qed.
Lemma weight_sync_returned err : (weight_syncer (sync_returned err) ≤ 3)%nat.
Proof. unfold sync_returned. repeat case_match; simpl; lia. Qed.

(** A step brings the end nearer, from a world that is sound. *)
Lemma step_nearer w v : step w v → start_at w → (measure v < measure w)%nat.
Proof.
  intros Hs Hst. unfold measure.
  destruct Hs; simpl; autorewrite with syncer; simpl.
  6: rewrite (launch_idle w Hst) by done.
  all: repeat match goal with
    | E : caller _ = _ |- _ => rewrite E; clear E
    | E : syncer _ = _ |- _ => rewrite E; clear E
    | E : stopper _ = _ |- _ => rewrite E; clear E
    | E : sweeping _ = true |- _ => rewrite E; clear E
    | E : processing _ = true |- _ => rewrite E; clear E
    end; simpl.
  all: try lia.
  - pose proof (weight_after_handler (handle i (chunkedMessages (dt w))).2 evs). lia.
  - pose proof (weight_sync_returned err). lia.
  - destruct (syncerDoneChan (sh w)); simpl; lia.
Qed.

Lemma nsteps_left n w v : nsteps step n w v → sound w → (n + measure v ≤ measure w)%nat.
Proof.
  induction 1 as [|n w u v Hs _ IH]; intros Hw; [lia|].
  pose proof (step_nearer w u Hs (snd_start w Hw)).
  specialize (IH (event_sound w u (event_step w u Hs) Hw)). lia.
Qed.

(** All the goroutines have returned. *)
Definition finished (w : world) : Prop :=
  (∃ e, caller w = Returned e) ∧ (∃ e, stopper w = Stopped e) ∧
  (syncer w = NotLaunched ∨ syncer w = Exited) ∧ sweeping w = false ∧ processing w = false.

(** A handler is at its send and the processor, which would have received, is gone. *)
Definition undelivered (w : world) : Prop :=
  processing w = false ∧ ∃ msg evs, syncer w = Sending msg evs.
(** [Stop] read the channel to wait for before [Start] had made it. *)
Definition waits_nil (w : world) : Prop := stopper w = WaitNil.

Lemma removal_returns h : ∃ h' e, Rooms.Start encrypted h h' (Some e).
Proof. eexists h, _. apply Rooms.start_fails, Rooms.rooms_not_listed with (e := Errorf ""). Qed.

(** The starting goroutine and the syncer advance, while the context is over. *)
Lemma start_progress w :
  start_at w → cancelled (sh w) = true →
  (∃ e, caller w = Returned e) ∨ undelivered w ∨ ∃ v, step w v.
Proof.
  intros Hs Hc. unfold start_at, under_way in Hs.
  assert (syncDone (sh w) = true) as Hd by (unfold syncDone; by rewrite Hc).
  destruct (caller w) as [| | | | |e] eqn:Ec; [| | | | |left; eauto].
  - right; right. eexists. by apply step_not_started.
  - right; right. destruct (removal_returns (hs (dt w))) as (h & e & Hr). eexists. by eapply step_start_fails.
  - right; right. eexists. by apply step_keep_cancelSync.
  - right; right. eexists. by apply step_launch.
  - destruct (syncer w) as [|[|i evs]|msg evs|e| | |] eqn:Es; [by destruct Hs| | | | | | |].
    + right; right. eexists. by apply (step_sync_ends w None).
    + right; right. eexists. by eapply step_dispatch.
    + right. destruct (processing w) eqn:Ep; [|left; split; eauto].
      right. eexists. by eapply step_receive.
    + right; right. eexists. by eapply step_error.
    + right; right. eexists. by apply step_close_errChan.
    + right; right. eexists. by apply step_close_doneChan.
    + right; right. eexists. apply step_error_closed; [done|]. by destruct Hs as (_ & _ & _ & ->).
Qed.

Lemma progress w :
  sound w → cancelled (sh w) = true →
  finished w ∨ undelivered w ∨ waits_nil w ∨ ∃ v, step w v.
Proof.
  intros [Hs Hp _ _] Hc.
  assert (syncDone (sh w) = true) as Hd by (unfold syncDone; by rewrite Hc).
  destruct (start_progress w Hs Hc) as [[e Ec]|[|]]; [|by auto..].
  destruct (processing w) eqn:Epr.
  { right; right; right. eexists. by apply step_processor_ends. }
  destruct (sweeping w) eqn:Esw.
  { right; right; right. eexists. by apply step_sweeper_ends. }
  unfold start_at in Hs. rewrite Ec in Hs.
  assert ((syncer w = NotLaunched ∨ syncer w = Exited) ∨ ∃ v, step w v) as [Hx|[v Hv]]; [|
    |by eauto].
  { destruct Hs as [[-> _]|[_ Hw]]; [by auto|].
    destruct (syncer w) eqn:Es; try done; [| |by auto]; right; eexists;
      [by apply step_close_errChan|by apply step_close_doneChan]. }
  unfold stop_at in Hp. destruct (stopper w) as [| | | | |e'] eqn:Est.
  - right; right; right. destruct (cancelSync (sh w)) eqn:Ek; eexists;
      [by apply step_stop_syncing|by apply step_stop_not_syncing].
  - right; right; right. eexists. by apply step_read_doneChan.
  - right; right; right. eexists. apply step_done; [done|].
    destruct Hp as [_ Hn], Hs as [(_ & E & _)| [(Hne & -> & _) _]]; [done|].
    by destruct Hx as [?| ->].
  - by right; right; left.
  - right; right; right. eexists. by apply (step_close_client w None).
  - left. split_and!; eauto.
Qed.

Lemma event_undelivered w v : event w v → start_at w ∧ undelivered w → undelivered v.
Proof.
  intros He (Hst & Hp & msg & evs & E). unfold undelivered. pose proof (launch_idle w Hst).
  destruct He as [v Hs| | | | |]; [destruct Hs| | | | |]; simpl; autorewrite with syncer; simpl;
    try (split; [done|by exists msg, evs]); try congruence.
  by rewrite H in E.
Qed.

Lemma event_waits_nil w v : event w v → waits_nil w → waits_nil v.
Proof.
  unfold waits_nil. intros He E.
  destruct He as [v Hs| | | | |]; [destruct Hs| | | | |]; simpl; autorewrite with syncer; simpl;
    eauto; congruence.
Qed.

(** A message that is not delivered keeps both goroutines of the application. *)
Lemma undelivered_blocks w :
  sound w → undelivered w → caller w = Receiving ∧ ∀ e, stopper w ≠ Stopped e.
Proof.
  intros [Hs Hp _ _] (_ & msg & evs & E). unfold start_at, not_launched, stop_at in *. rewrite E in *. split.
  - destruct (caller w); naive_solver.
  - intros e Ee. rewrite Ee in Hp. by destruct Hp as [_ ?%busy_sending].
Qed.

Lemma step_over w v :
  step w v → sound w ∧ cancelled (sh w) = true → sound v ∧ cancelled (sh v) = true.
Proof.
  intros Hs [Hw Hc]. split; [by eapply event_sound; [apply event_step|]|].
  destruct Hs; simpl; autorewrite with syncer; simpl; try done; by repeat case_match.
Qed.

Lemma event_still w v : event w v → sound w ∧ undelivered w → sound v ∧ undelivered v.
Proof.
  intros He [Hw Hu]. split; [by eapply event_sound|].
  eapply event_undelivered; [done|]. split; [apply (snd_start w Hw)|done].
Qed.

(** *** A run to each of the two ends that are none *)
Definition no_rooms : homeserver := {| joined := ∅; left_ := ∅ |}.

Lemma start_no_rooms : Rooms.Start encrypted no_rooms no_rooms None.
Proof.
  apply Rooms.start_syncs, (Rooms.rooms_removed encrypted no_rooms (Rooms.launched no_rooms)); [done|].
  intros r ph. simpl. by rewrite gset_to_gmap_empty, lookup_empty.
Qed.

Definition stranger : string := if decide (botUserID = "") then "@a:b" else "".
Definition greeting : Events.SignedMessageEventContent :=
  {| Events.sme_ChunkData := {| Events.MessageID := "m"; Events.Data := [1] |};
     Events.ChunksCount := 1; Events.sme_Signature := []; Events.SenderTTMAccountAddress := 0 |}.
Definition greeted : input :=
  EvtSigned 0 {| Events.Sender := stranger; Events.Content := Events.ParsedSigned greeting |}.

Lemma greeted_completes : handle greeted ∅ = (∅, Some (single AddressFromUserID stranger greeting)).
Proof.
  simpl. unfold signedMessageEventHandler. simpl.
  rewrite decide_False; [done|]. unfold stranger. case_decide; congruence.
Qed.

Lemma starting_reachable : rtc event (initial no_rooms) (with_caller KeepCancelSync (initial no_rooms)).
Proof.
  eapply rtc_l; [by apply event_step, step_await|].
  eapply rtc_l; [apply event_step, (step_start _ no_rooms); [done|apply start_no_rooms]|done].
Qed.

Lemma undelivered_reachable : ∃ w, reachable w ∧ undelivered w ∧ cancelled (sh w) = true.
Proof.
  eexists. split.
  - exists no_rooms. eapply rtc_trans; [apply starting_reachable|].
    eapply rtc_l; [by apply event_step, step_keep_cancelSync|].
    eapply rtc_l; [by apply event_step, step_launch|].
    eapply rtc_l; [apply (event_fetch _ [greeted]); [done|done|by apply Forall_singleton]|].
    eapply rtc_l; [by eapply event_step, step_dispatch|].
    eapply rtc_l; [by apply event_cancel|].
    eapply rtc_l; [by apply event_step, step_processor_ends|apply rtc_refl].
  - cbn -[handle]. rewrite greeted_completes. split; [split; [done|]; simpl; eauto|done].
Qed.

Lemma waits_nil_reachable : ∃ w, reachable w ∧ waits_nil w.
Proof.
  eexists. split.
  - exists no_rooms. eapply rtc_trans; [apply starting_reachable|].
    eapply rtc_l; [by apply event_step, step_keep_cancelSync|].
    eapply rtc_l; [by apply event_cancel|].
    eapply rtc_l; [by apply event_step, step_stop_syncing|].
    eapply rtc_l; [by apply event_step, step_read_doneChan|apply rtc_refl].
  - done.
Qed.

(** ** Properties *)

(** C11: however the goroutines interleave, the processor receives the messages that the
    reassembly completes from the events in the order the homeserver sent them, each of them
    once and in the order of completion: only the one a handler is sending is missing. *)
Theorem messages_handed_over w :
  reachable w →
  outputs (history (dt w)) ∅ =
    (chunkedMessages (dt w), received (dt w) ++ in_hand (syncer w)) ∧
  dispatched (history (dt w)) `prefix_of` fetched (dt w).
Proof.
  intros Hr. destruct (snd_delivering w (reachable_sound w Hr)) as [Ho Hk]. split; [done|].
  destruct (syncer w); simpl in Hk; try done; rewrite <- Hk; done || by eexists.
Qed.

(** C12: once the context has ended, the goroutines of the messenger take finitely many steps,
    and stop short of their end only when a handler is sending a message that no processor
    receives, or when [Stop] waits on the channel [Start] had not made yet. *)
Theorem Stop_ends w :
  reachable w → cancelled (sh w) = true →
  (∀ n v, nsteps step n w v → (n ≤ measure w)%nat) ∧
  ∀ v, rtc step w v → finished v ∨ undelivered v ∨ waits_nil v ∨ ∃ u, step v u.
Proof.
  intros Hr Hc. pose proof (reachable_sound w Hr) as Hw. split.
  - intros n v Hn. pose proof (nsteps_left n w v Hn Hw). lia.
  - intros v Hv.
    destruct (rtc_preserved step (λ w, sound w ∧ cancelled (sh w) = true) step_over w v Hv) as [Hv' Hc'];
      [done|].
    by apply progress.
Qed.

(** C36: both of these happen, and neither ends: a message completed when the processor has
    just stopped blocks the syncer at its send, so [Stop] and the goroutine that started the
    messenger never return; and a [Stop] that waits on a nil channel never does. *)
Theorem late_message_hangs :
  (∃ w, reachable w ∧ undelivered w ∧ cancelled (sh w) = true) ∧
  (∃ w, reachable w ∧ waits_nil w) ∧
  ∀ w v, reachable w → rtc event w v →
    (undelivered w → caller v = Receiving ∧ ∀ e, stopper v ≠ Stopped e) ∧
    (waits_nil w → ∀ e, stopper v ≠ Stopped e).
Proof.
  split_and!; [apply undelivered_reachable|apply waits_nil_reachable|].
  intros w v Hr Hv. pose proof (reachable_sound w Hr) as Hw. split.
  - intros Hu.
    destruct (rtc_preserved event (λ w, sound w ∧ undelivered w) event_still w v Hv) as [Hs Hu'];
      [done|]. by apply undelivered_blocks.
  - intros Hn e. pose proof (rtc_preserved event waits_nil event_waits_nil w v Hv Hn) as E.
    unfold waits_nil in E. by rewrite E.
Qed.
End Syncer.

(** ** An instance *)
Module Toy.
Definition addr (u : string) : Z := Z.of_nat (String.length u).

(** A bot that is handling the first of two events when its context ends. *)
Definition busy : world :=
  let w := with_caller KeepCancelSync (initial no_rooms) in
  let w := with_caller KeepDoneChan (on_shared keep_cancelSync w) in
  let w := with_caller Receiving (with_syncer (Syncing [])
    (with_sweeping true (on_shared (set_doneChan false) w))) in
  let evs := [greeted "@bot:host"; greeted "@bot:host"] in
  let w := with_syncer (Syncing evs) (on_data (fetch evs) w) in
  let msg := single addr (stranger "@bot:host") greeting in
  let w := with_syncer (Sending msg [greeted "@bot:host"])
    (on_data (handled (greeted "@bot:host") ∅) w) in
  on_shared cancel w.

Abbreviation encrypted := (λ _ : string, false).

Lemma busy_reachable : reachable encrypted addr "@bot:host" busy.
Proof.
  exists no_rooms. eapply rtc_trans; [apply starting_reachable|].
  eapply rtc_l; [by apply event_step, step_keep_cancelSync|].
  eapply rtc_l; [by apply event_step, step_launch|].
  eapply rtc_l; [apply (event_fetch _ _ _ _ [greeted "@bot:host"; greeted "@bot:host"]); [done|done|by repeat constructor]|].
  eapply rtc_l; [by eapply event_step, step_dispatch|].
  eapply rtc_l; [by apply event_cancel|apply rtc_refl].
Qed.

Lemma messages_handed_over_witness :
  reachable encrypted addr "@bot:host" busy ∧
  outputs addr "@bot:host" (history (dt busy)) ∅ =
    (chunkedMessages (dt busy), received (dt busy) ++ in_hand (syncer busy)) ∧
  dispatched (history (dt busy)) `prefix_of` fetched (dt busy).
Proof.
  split; [apply busy_reachable|].
  apply (messages_handed_over encrypted addr "@bot:host" busy), busy_reachable.
Defined.

Lemma Stop_ends_witness :
  reachable encrypted addr "@bot:host" busy ∧ cancelled (sh busy) = true ∧
  (∀ n v, nsteps (step encrypted addr "@bot:host") n busy v → (n ≤ measure busy)%nat) ∧
  ∀ v, rtc (step encrypted addr "@bot:host") busy v →
    finished v ∨ undelivered v ∨ waits_nil v ∨ ∃ u, step encrypted addr "@bot:host" v u.
Proof.
  split; [apply busy_reachable|]. split; [reflexivity|].
  apply (Stop_ends encrypted addr "@bot:host" busy); [apply busy_reachable|reflexivity].
Defined.
End Toy.
