(* ===== verification/Database.v ===== *)
(** * The databases (pkg/database/sqlite/storage.go and the storage packages)

    A storage opens its file, brings the tables to the version of its migrations, and
    prepares the statements its operations use.  The migrations are the .sql files of each
    package, as statements on a schema; what the migration library and the driver do is
    the class [Driver], whose laws are their documentation: each migration is applied in
    a transaction, and the version is marked dirty while one is. *)
From S2P Require Import Prelude.
From stdpp Require Import gmap strings.

#[local] Open Scope Z_scope.

(** ** Tables and migrations *)
Record table := { columns : list string; primaryKey : list string }.
#[global] Instance table_eq_dec : EqDecision table.
Proof. solve_decision. Defined.
Abbreviation schema := (gmap string table).

(** The statements of the migrations. *)
Inductive ddl :=
  | CreateTable (name : string) (cols key : list string)
  | RenameTable (from to : string)
  | DropColumn (name column : string)
  | AddColumn (name column : string).

Definition execute (d : ddl) (s : schema) : option schema :=
  match d with
  | CreateTable name cols key =>
      match s !! name with
      | None => Some (<[name := {| columns := cols; primaryKey := key |}]> s)
      | Some _ => None
      end
  | RenameTable from to =>
      match s !! from, s !! to with
      | Some t, None => Some (<[to := t]> (delete from s))
      | _, _ => None
      end
  | DropColumn name column =>
      match s !! name with
      | Some t =>
          if bool_decide (column ∈ columns t ∧ column ∉ primaryKey t)
          then Some (<[name := {| columns := filter (λ c, c ≠ column) (columns t);
                                  primaryKey := primaryKey t |}]> s)
          else None
      | None => None
      end
  | AddColumn name column =>
      match s !! name with
      | Some t =>
          if bool_decide (column ∈ columns t) then None
          else Some (<[name := {| columns := columns t ++ [column];
                                  primaryKey := primaryKey t |}]> s)
      | None => None
      end
  end.

(** A file of statements; the files of a package, in the order of their versions. *)
Abbreviation migration := (list ddl).
Fixpoint run_file (f : migration) (s : schema) : option schema :=
  match f with
  | [] => Some s
  | d :: f => s ← execute d s; run_file f s
  end.
Fixpoint run_files (fs : list migration) (s : schema) : option schema :=
  match fs with
  | [] => Some s
  | f :: fs => s ← run_file f s; run_files fs s
  end.

(** internal/resolver/storage/sqlite/migrations *)
Definition resolver_up : list migration :=
  [[CreateTable "bots" ["ttm_account"; "bot"; "status"] ["ttm_account"; "bot"]]].

(** internal/eventlistener/storage/sqlite/migrations *)
Definition listener_up1 : migration :=
  [CreateTable "subscriptions" ["token_id"; "mint_id"; "timeout"] ["token_id"]].
Definition listener_up2 : migration := [RenameTable "subscriptions" "token_bought_subscriptions"].
Definition listener_up3 : migration :=
  [CreateTable "cancellation_subscriptions" ["token_id"] ["token_id"]].
Definition listener_up : list migration := [listener_up1; listener_up2; listener_up3].

(** internal/messaging/encoding/storage/sqlite/migrations *)
Definition encoder_up : list migration := [[CreateTable "pub_keys" ["address"; "pub_key"] ["address"]]].

(** pkg/scheduler/storage/sqlite/migrations *)
Definition scheduler_up1 : migration := [CreateTable "jobs" ["name"; "execute_at"; "period"] ["name"]].
Definition scheduler_up2 : migration := [DropColumn "jobs" "execute_at"; AddColumn "jobs" "last_executed_at"].
Definition scheduler_up : list migration := [scheduler_up1; scheduler_up2].

(** ** Statements *)

(** The statements the storages prepare; of a [SELECT *], the fields the row is read into. *)
Inductive statement :=
  | Insert (name : string) (cols : list string)
  | Upsert (name : string) (cols conflict sets : list string)
  | Delete (name : string) (where_ : list string)
  | Update (name : string) (sets where_ : list string)
  | Select (name : string) (cols where_ : list string)
  | SelectAll (name : string) (fields where_ : list string).
#[global] Instance statement_eq_dec : EqDecision statement.
Proof. solve_decision. Defined.

Definition statement_table (q : statement) : string :=
  match q with
  | Insert n _ | Upsert n _ _ _ | Delete n _ | Update n _ _ | Select n _ _ | SelectAll n _ _ => n
  end.

(** What a statement asks of its table: the columns it names are there; an insertion
    gives each of them a value, as none may be null; a conflict is on the key; and the row
    of a [SELECT *] has a field for each column. *)
Definition fits (q : statement) (t : table) : bool :=
  match q with
  | Insert _ cols => bool_decide (cols ≡ₚ columns t)
  | Upsert _ cols conflict sets =>
      bool_decide (cols ≡ₚ columns t ∧ conflict = primaryKey t ∧ sets ⊆ cols)
  | Delete _ where_ => bool_decide (where_ ⊆ columns t)
  | Update _ sets where_ => bool_decide (sets ⊆ columns t ∧ where_ ⊆ columns t)
  | Select _ cols where_ => bool_decide (cols ⊆ columns t ∧ where_ ⊆ columns t)
  | SelectAll _ fields where_ => bool_decide (columns t ⊆ fields ∧ where_ ⊆ columns t)
  end.
Definition valid (s : schema) (q : statement) : bool :=
  match s !! statement_table q with Some t => fits q t | None => false end.

(** ** The driver and the migration library *)

(** What is in a database file: the version of its migrations and whether it is dirty,
    when there is one, and its tables. *)
Record database := { state : option (nat * bool); tables : schema }.

Definition current (db : database) : nat := match state db with Some (v, _) => v | None => 0 end.
Definition dirty (db : database) : bool := match state db with Some (_, d) => d | None => false end.

Definition ErrNilVersion : string := "migrate.ErrNilVersion".
Definition ErrNoChange : string := "migrate.ErrNoChange".

(** The files [k] of [fs] above the version of [db] have been applied to it. *)
Definition applied (fs : list migration) (db db' : database) (k : nat) : Prop :=
  (current db ≤ k ≤ length fs)%nat ∧
  run_files (take (k - current db) (drop (current db) fs)) (tables db) = Some (tables db').

(** What [Up] leaves: the last version; nothing to change; or an error, before anything,
    between two files, or in one, whose version is then dirty. *)
Definition up_result (fs : list migration) (db db' : database) (o : outcome unit) : Prop :=
  match o with
  | Ok _ => applied fs db db' (length fs) ∧ state db' = Some (length fs, false)
  | Err e =>
      if errors_is e ErrNoChange then db' = db ∧ state db = Some (length fs, false)
      else db' = db ∨ ∃ k, applied fs db db' k ∧
        (state db' = Some (k, false) ∨ ((k < length fs)%nat ∧ state db' = Some (S k, true)))
  | Panic _ => False
  end.

Class Driver (X : Type) := {
  view : X → database;
  (** [os.MkdirAll(filepath.Dir(dbPath), os.ModePerm)] *)
  MkdirAll_Dir : string → M X unit;
  sqlx_Open : string → M X unit;
  sqlite3_WithInstance : M X unit;
  iofs_New : M X unit;
  migrate_NewWithInstance : string → M X unit;
  migration_Version : M X (nat * bool);
  migration_Up : list migration → M X unit;
  Prepare : statement → M X unit;
  MkdirAll_view p : keeps view (MkdirAll_Dir p);
  Open_view p : keeps view (sqlx_Open p);
  WithInstance_view : keeps view sqlite3_WithInstance;
  iofs_view : keeps view iofs_New;
  NewWithInstance_view n : keeps view (migrate_NewWithInstance n);
  Version_view : keeps view migration_Version;
  Prepare_view q : keeps view (Prepare q);
  Version_is x : match (migration_Version x).2 with
    | Ok (v, d) => state (view x) = Some (v, d)
    | Err e => errors_is e ErrNilVersion = true → state (view x) = None
    | Panic _ => False
    end;
  Up_is fs x : dirty (view x) = false →
    up_result fs (view x) (view (migration_Up fs x).1) (migration_Up fs x).2;
  (** Nothing here panics. *)
  MkdirAll_returns p x s : (MkdirAll_Dir p x).2 ≠ Panic s;
  Open_returns p x s : (sqlx_Open p x).2 ≠ Panic s;
  WithInstance_returns x s : (sqlite3_WithInstance x).2 ≠ Panic s;
  iofs_returns x s : (iofs_New x).2 ≠ Panic s;
  NewWithInstance_returns n x s : (migrate_NewWithInstance n x).2 ≠ Panic s;
  Prepare_returns q x s : (Prepare q x).2 ≠ Panic s
}.

(** ** Opening a database *)
Definition errDirtyDB : error := Sentinel "sqlite.errDirtyDB".

Section Open.
Context `{Driver X}.

(** Ask for the version: that there is none is no error, a dirty one is. *)
Definition checkVersion (fmt : string) : M X unit :=
  r ← attempt migration_Version;
  match r with
  | inr e => if errors_is e ErrNilVersion then retS tt else throwS (Wrapf fmt e)
  | inl (_, dirty) => if (dirty : bool) then throwS errDirtyDB else retS tt
  end.

Definition migrate (fs : list migration) (dbName : string) : M X unit :=
  wrapS "failed to create sqlite3 driver: %w" sqlite3_WithInstance ;;
  wrapS "failed to create iofs migration source: %w" iofs_New ;;
  wrapS "failed to create migrate instance: %w" (migrate_NewWithInstance dbName) ;;
  checkVersion "failed to get migration version: %w" ;;
  r ← attempt (migration_Up fs);
  match r with
  | inr e =>
      if errors_is e ErrNoChange then retS tt
      else throwS (Wrapf "failed to migrate %s database: %w" e)
  | inl _ => checkVersion "failed to get new migration version: %w"
  end.

Definition New (fs : list migration) (dbPath dbName : string) : M X unit :=
  wrapS "failed to create db directory: %w" (MkdirAll_Dir dbPath) ;;
  wrapS "failed to open sqlite database: %w" (sqlx_Open (dbPath +:+ ".sqlite")) ;;
  wrapS "failed to migrate sqlite database: %w" (migrate fs dbName).

(** [PreparexContext] and [PrepareNamedContext]; the prepared statement is what it says. *)
Definition PreparexContext (q : statement) : M X statement := Prepare q ;; retS q.

(** ** The storages *)

(** *** internal/resolver/storage/sqlite *)
Definition botsTable : string := "bots".
Record botsStatements := {
  insertBot : statement;
  deleteBotsByTTMAccount : statement;
  setBotStatus : statement;
  getBot : statement
}.
Definition prepareBotsStmts : M X botsStatements :=
  insertBot ← PreparexContext (Insert botsTable ["ttm_account"; "bot"; "status"]);
  deleteBotsByTTMAccount ← PreparexContext (Delete botsTable ["ttm_account"]);
  setBotStatus ← PreparexContext (Update botsTable ["status"] ["bot"]);
  getBot ← PreparexContext (Select botsTable ["bot"] ["ttm_account"; "status"]);
  retS {| insertBot := insertBot; deleteBotsByTTMAccount := deleteBotsByTTMAccount;
          setBotStatus := setBotStatus; getBot := getBot |}.
Definition resolver_New (dbPath : string) : M X botsStatements :=
  New resolver_up dbPath "event_listener" ;;
  prepareBotsStmts.

(** *** internal/eventlistener/storage/sqlite *)
Definition tokenBoughtSubscriptionsTable : string := "token_bought_subscriptions".
Definition cancellationSubscriptionsTable : string := "cancellation_subscriptions".
Record tokenBoughtSubscriptionsStatements := {
  insertTokenBoughtSubscription : statement;
  removeTokenBoughtSubscription : statement;
  getAllTokenBoughtSubscription : statement;
  getTokenBoughtSubscription : statement;
  getTokenBoughtSubscriptionByMinTimeout : statement
}.
Record cancellationSubscriptionsStatements := {
  insertCancellationSubscription : statement;
  removeCancellationSubscription : statement;
  getAllCancellationSubscription : statement;
  getCancellationSubscription : statement
}.
(** The columns of the fields of [tokenBoughtSubscription], and of the integer a
    cancellation subscription is read into. *)
Definition tokenBoughtSubscription : list string := ["token_id"; "mint_id"; "timeout"].
Definition cancellationSubscription : list string := ["token_id"].

Definition prepareTokenBoughtSubscriptionsStmts : M X tokenBoughtSubscriptionsStatements :=
  insert ← wrapS "failed to prepare insert token bought subscription statement: %w"
    (PreparexContext (Insert tokenBoughtSubscriptionsTable ["token_id"; "mint_id"; "timeout"]));
  remove ← wrapS "failed to prepare remove token bought subscription statement: %w"
    (PreparexContext (Delete tokenBoughtSubscriptionsTable ["token_id"]));
  getAll ← wrapS "failed to prepare get all token bought subscriptions statement: %w"
    (PreparexContext (SelectAll tokenBoughtSubscriptionsTable tokenBoughtSubscription []));
  get ← wrapS "failed to prepare get token bought subscription statement: %w"
    (PreparexContext (SelectAll tokenBoughtSubscriptionsTable tokenBoughtSubscription ["token_id"]));
  getMin ← wrapS "failed to prepare get token bought subscription by min timeout statement: %w"
    (PreparexContext (SelectAll tokenBoughtSubscriptionsTable tokenBoughtSubscription ["timeout"]));
  retS {| insertTokenBoughtSubscription := insert; removeTokenBoughtSubscription := remove;
          getAllTokenBoughtSubscription := getAll; getTokenBoughtSubscription := get;
          getTokenBoughtSubscriptionByMinTimeout := getMin |}.

Definition prepareCancellationSubscriptionsStmts : M X cancellationSubscriptionsStatements :=
  insert ← wrapS "failed to prepare insert cancellation subscription statement: %w"
    (PreparexContext (Insert cancellationSubscriptionsTable ["token_id"]));
  remove ← wrapS "failed to prepare remove cancellation subscription statement: %w"
    (PreparexContext (Delete cancellationSubscriptionsTable ["token_id"]));
  getAll ← wrapS "failed to prepare get all cancellation subscriptions statement: %w"
    (PreparexContext (SelectAll cancellationSubscriptionsTable cancellationSubscription []));
  get ← wrapS "failed to prepare get cancellation subscription statement: %w"
    (PreparexContext (SelectAll cancellationSubscriptionsTable cancellationSubscription ["token_id"]));
  retS {| insertCancellationSubscription := insert; removeCancellationSubscription := remove;
          getAllCancellationSubscription := getAll; getCancellationSubscription := get |}.

Definition listener_prepare
    : M X (tokenBoughtSubscriptionsStatements * cancellationSubscriptionsStatements) :=
  tokenBought ← wrapS "failed to prepare token bought subscriptions statements: %w"
    prepareTokenBoughtSubscriptionsStmts;
  cancellation ← wrapS "failed to prepare cancellation subscriptions statements: %w"
    prepareCancellationSubscriptionsStmts;
  retS (tokenBought, cancellation).
Definition listener_New (dbPath : string)
    : M X (tokenBoughtSubscriptionsStatements * cancellationSubscriptionsStatements) :=
  wrapS "failed to create base sqlite DB: %w" (New listener_up dbPath "event_listener") ;;
  listener_prepare.

(** *** internal/messaging/encoding/storage/sqlite *)
Definition pubKeysTableName : string := "pub_keys".
Record pubKeysStatements := { getPubKey : statement; setPubKey : statement }.
Definition preparePubKeysStmts : M X pubKeysStatements :=
  getPubKey ← wrapS "failed to prepare get pub key statement: %w"
    (PreparexContext (Select pubKeysTableName ["pub_key"] ["address"]));
  setPubKey ← wrapS "failed to prepare set pub key statement: %w"
    (PreparexContext (Upsert pubKeysTableName ["address"; "pub_key"] ["address"] ["pub_key"]));
  retS {| getPubKey := getPubKey; setPubKey := setPubKey |}.
(** [errors.Join] of one error wraps it. *)
Definition encoder_New (dbPath : string) : M X pubKeysStatements :=
  wrapS "failed to create base sqlite DB: %w" (New encoder_up dbPath "encoder_decoder") ;;
  wrapS "%w" preparePubKeysStmts.

(** *** pkg/scheduler/storage/sqlite *)
Definition jobsTableName : string := "jobs".
Record jobsStatements := { getAllJobs : statement; getJobByName : statement; upsertJob : statement }.
Definition jobColumns : list string := ["name"; "last_executed_at"; "period"].
Definition prepareJobsStmts : M X jobsStatements :=
  getJobByName ← wrapS "failed to prepare get job by name statement: %w"
    (PreparexContext (SelectAll jobsTableName jobColumns ["name"]));
  upsertJob ← wrapS "failed to prepare upsert job statement: %w"
    (PreparexContext (Upsert jobsTableName ["name"; "last_executed_at"; "period"] ["name"]
      ["period"; "last_executed_at"]));
  getAllJobs ← wrapS "failed to prepare get all jobs statement: %w"
    (PreparexContext (SelectAll jobsTableName jobColumns []));
  retS {| getAllJobs := getAllJobs; getJobByName := getJobByName; upsertJob := upsertJob |}.
Definition scheduler_New (dbPath : string) : M X jobsStatements :=
  New scheduler_up dbPath "scheduler" ;;
  prepareJobsStmts.
End Open.

(** ** Lemmas *)

(** *** Schemas *)
Lemma run_files_app fs gs s :
  run_files (fs ++ gs) s = s' ← run_files fs s; run_files gs s'.
Proof.
  revert s. induction fs as [|f fs IH]; intros s; simpl; [done|].
  destruct (run_file f s); simpl; [apply IH|done].
Qed.

(** A database as its migrations leave it: new, or at one of their versions. *)
Definition consistent (fs : list migration) (db : database) : Prop :=
  match state db with
  | None => tables db = ∅
  | Some (v, d) => (v ≤ length fs)%nat ∧ (d = false → run_files (take v fs) ∅ = Some (tables db))
  end.

(** At the last version. *)
Definition ready (fs : list migration) (db : database) : Prop :=
  state db = Some (length fs, false) ∧ run_files fs ∅ = Some (tables db).

Lemma consistent_current fs db :
  consistent fs db → dirty db = false →
  (current db ≤ length fs)%nat ∧ run_files (take (current db) fs) ∅ = Some (tables db).
Proof.
  unfold consistent, dirty, current. destruct (state db) as [[v d]|]; [|intros -> _].
  - intros [Hv Hd] ->. split; [done|]. by apply Hd.
  - split; [lia|done].
Qed.

Lemma applied_files fs db db' k :
  consistent fs db → dirty db = false → applied fs db db' k →
  (k ≤ length fs)%nat ∧ run_files (take k fs) ∅ = Some (tables db').
Proof.
  intros Hc Hd [[H1 H2] Ha]. split; [done|].
  destruct (consistent_current fs db Hc Hd) as [_ E].
  rewrite <- (take_drop (current db) (take k fs)), take_take, Nat.min_l by done.
  by rewrite run_files_app, E, skipn_firstn_comm.
Qed.

Lemma ready_consistent fs db : ready fs db → consistent fs db.
Proof. intros [E Et]. unfold consistent. rewrite E. split; [done|]. intros _. by rewrite firstn_all. Qed.

Lemma up_consistent fs db db' o :
  consistent fs db → dirty db = false → up_result fs db db' o →
  match o with
  | Ok _ => ready fs db'
  | Err e => if errors_is e ErrNoChange then ready fs db' else consistent fs db'
  | Panic _ => False
  end.
Proof.
  intros Hc Hd. destruct o as [[]|e|p]; simpl; [| |done].
  - intros [Ha E]. destruct (applied_files _ _ _ _ Hc Hd Ha) as [_ Ht].
    split; [done|]. by rewrite firstn_all in Ht.
  - destruct (errors_is e ErrNoChange).
    + intros [-> E]. split; [done|].
      destruct (consistent_current fs db Hc Hd) as [_ Ht]. unfold current in Ht.
      by rewrite E, firstn_all in Ht.
    + intros [->|(k & Ha & Hs)]; [done|].
      destruct (applied_files _ _ _ _ Hc Hd Ha) as [Hk Ht]. unfold consistent.
      destruct Hs as [->|[Hlt ->]]; split; done || lia.
Qed.

(** *** Opening *)
Section OpenFacts.
Context `{Driver X}.

(** A call that leaves the database alone and does not panic. *)
Definition harmless {A} (m : M X A) : Prop := ∀ x, runs m x (λ y o, view y = view x ∧ ∀ p, o ≠ Panic p).

Lemma harmless_call {A} (m : M X A) : keeps view m → (∀ x p, (m x).2 ≠ Panic p) → harmless m.
Proof. intros Hk Hp x. specialize (Hk x). specialize (Hp x). unfold runs. by destruct (m x). Qed.

(** What [New] leaves of the file [db]: at the last version, or an error and still consistent;
    a dirty one is refused. *)
Definition opened (fs : list migration) (db : database) (db' : database) (o : outcome unit) : Prop :=
  match o with
  | Ok _ => ready fs db' ∧ dirty db = false
  | Err e => consistent fs db' ∧ (dirty db = true → db' = db)
  | Panic _ => False
  end.

Lemma harmless_then {A B} fmt (m : M X A) (k : A → M X B) x Q :
  harmless m → (∀ y a, view y = view x → runs (k a) y Q) →
  (∀ y e, view y = view x → Q y (Err e)) → runs (mbind k (wrapS fmt m)) x Q.
Proof.
  intros Hm Hk He. eapply runs_bind_wrap; [apply Hm|..].
  - intros t a [E _]. by apply Hk.
  - intros t e [E _]. by apply He.
  - intros t p [_ Hp]. by destruct (Hp p).
Qed.

Lemma version_checked fmt x :
  runs (checkVersion fmt) x (λ y o, view y = view x ∧
    match o with Ok _ => dirty (view x) = false | Err _ => True | Panic _ => False end).
Proof.
  unfold checkVersion, runs, mbind, M_bind, attempt.
  pose proof (Version_is x) as Hv. pose proof (Version_view x) as Ek.
  destruct (migration_Version x) as [y [[v [|]]|e|p]]; simpl in *; try done.
  - split; [done|]. unfold dirty. by rewrite Hv.
  - destruct (errors_is e ErrNilVersion); [|done]. split; [done|]. unfold dirty. by rewrite Hv.
Qed.

Lemma migrate_opens fs dbName x :
  consistent fs (view x) →
  runs (migrate fs dbName) x (λ y o, opened fs (view x) (view y) o).
Proof.
  intros Hc. unfold migrate.
  assert (∀ y (e : error), view y = view x → opened fs (view x) (view y) (Err e)) as Herr
    by (intros y e ->; split; [done|auto]).
  apply harmless_then; [apply harmless_call; [apply WithInstance_view|apply WithInstance_returns]| |auto].
  intros x1 _ E1.
  apply harmless_then; [apply harmless_call; [apply iofs_view|apply iofs_returns]| |intros; apply Herr; congruence].
  intros x2 _ E2.
  apply harmless_then; [apply harmless_call; [apply NewWithInstance_view|apply NewWithInstance_returns]| |intros; apply Herr; congruence].
  intros x3 _ E3. assert (view x3 = view x) as E by congruence. clear E1 E2 E3.
  eapply runs_bind; [apply version_checked| |intros t e [Ev _]; apply Herr; congruence|by intros t p [_ []]].
  intros x4 _ [E4 Hd]. rewrite E in E4, Hd.
  pose proof (Up_is fs x4) as Hu. rewrite E4 in Hu. specialize (Hu Hd).
  unfold runs, mbind, M_bind, attempt. destruct (migration_Up fs x4) as [x5 o] eqn:Eu. simpl in Hu.
  pose proof (up_consistent fs _ _ _ Hc Hd Hu) as Ho. destruct o as [[]|e|p]; [| |done].
  - pose proof (version_checked "failed to get new migration version: %w" x5) as Hv. unfold runs in Hv.
    destruct (checkVersion _ x5) as [x6 [[]|e|p]]; simpl; destruct Hv as [E6 Hv]; try done; rewrite E6.
    + done.
    + split; [by apply ready_consistent|]. rewrite Hd. done.
  - simpl. destruct (errors_is e ErrNoChange); simpl; [done|]. rewrite Hd. done.
Qed.

Lemma New_opens fs dbPath dbName x :
  consistent fs (view x) →
  runs (New fs dbPath dbName) x (λ y o, opened fs (view x) (view y) o).
Proof.
  intros Hc. unfold New.
  assert (∀ y (e : error), view y = view x → opened fs (view x) (view y) (Err e)) as Herr
    by (intros y e ->; split; [done|auto]).
  apply harmless_then; [apply harmless_call; [apply MkdirAll_view|apply MkdirAll_returns]| |auto].
  intros x1 _ E1.
  apply harmless_then; [apply harmless_call; [apply Open_view|apply Open_returns]| |intros; apply Herr; congruence].
  intros x2 _ E2. apply runs_wrap. assert (view x2 = view x) as <- by congruence.
  eapply runs_mono; [apply migrate_opens; congruence|].
  intros t [[]|e|p]; done.
Qed.

(** *** The statements *)

(** A preparation leaves the database alone, and gives the statements [qs] or an error. *)
Definition prepares {A} (stmts : A → list statement) (qs : list statement) (m : M X A) : Prop :=
  ∀ x, runs m x (λ y o, view y = view x ∧
    match o with Ok s => stmts s = qs | Err _ => True | Panic _ => False end).

Lemma prepare_then {A} stmts qs (q : statement) (k : statement → M X A) :
  prepares stmts qs (k q) → prepares stmts qs (mbind k (PreparexContext q)).
Proof.
  intros Hk x. unfold PreparexContext, runs, mbind, M_bind, retS.
  pose proof (Prepare_view q x) as Ev. pose proof (Prepare_returns q x) as Hp.
  destruct (Prepare q x) as [y [[]|e|p]]; simpl in *; [|done|by destruct (Hp p)].
  rewrite <- Ev. apply (Hk y).
Qed.

Lemma prepares_wrap {A} stmts qs fmt (m : M X A) :
  prepares stmts qs m → prepares stmts qs (wrapS fmt m).
Proof. intros Hm x. apply runs_wrap. eapply runs_mono; [apply Hm|]. by intros t [s|e|p]. Qed.

Lemma prepare_wrap_then {A} stmts qs fmt (q : statement) (k : statement → M X A) :
  prepares stmts qs (k q) → prepares stmts qs (mbind k (wrapS fmt (PreparexContext q))).
Proof.
  intros Hk x. unfold PreparexContext, runs, mbind, M_bind, retS, wrapS.
  pose proof (Prepare_view q x) as Ev. pose proof (Prepare_returns q x) as Hp.
  destruct (Prepare q x) as [y [[]|e|p]]; simpl in *; [|done|by destruct (Hp p)].
  rewrite <- Ev. apply (Hk y).
Qed.

Lemma prepares_ret {A} (stmts : A → list statement) qs a : stmts a = qs → prepares stmts qs (retS a).
Proof. by intros E x. Qed.

Lemma prepares_both {A B} fa qa fb qb fmt fmt' (ma : M X A) (mb : M X B) :
  prepares fa qa ma → prepares fb qb mb →
  prepares (λ p, fa p.1 ++ fb p.2) (qa ++ qb) (a ← wrapS fmt ma; b ← wrapS fmt' mb; retS (a, b)).
Proof.
  intros Ha Hb x. eapply runs_bind_wrap; [apply Ha| |by intros t e [E _]|by intros t p [_ []]].
  intros y a [E1 Ea]. eapply runs_bind_wrap; [apply Hb| |intros t e [E _]; split; [congruence|done]|by intros t p [_ []]].
  intros z b [E2 Eb]. split; [congruence|]. simpl. by rewrite Ea, Eb.
Qed.

(** A storage is opened and its statements are prepared. *)
Definition storage_result {A} (fs : list migration) (stmts : A → list statement)
    (db db' : database) (o : outcome A) : Prop :=
  match o with
  | Ok s => ready fs db' ∧ dirty db = false ∧ Forall (λ q, valid (tables db') q = true) (stmts s)
  | Err _ => consistent fs db' ∧ (dirty db = true → db' = db)
  | Panic _ => False
  end.

Lemma storage_opens {A} fs (stmts : A → list statement) qs (m : M X unit) (prep : M X A) x :
  runs m x (λ y o, opened fs (view x) (view y) o) → prepares stmts qs prep →
  match run_files fs ∅ with Some t => forallb (valid t) qs | None => false end = true →
  runs (m ;; prep) x (λ y o, storage_result fs stmts (view x) (view y) o).
Proof.
  intros Hm Hp Hq. eapply runs_bind; [exact Hm| |done|done].
  intros y [] [Hr Hd]. eapply runs_mono; [apply Hp|]. intros z [s|e|p] [Ev Hs]; [| |done].
  - rewrite Ev. split_and!; [done..|]. destruct Hr as [_ Ht]. rewrite Ht in Hq.
    rewrite Hs. apply Forall_forall. intros q Hin%list_elem_of_In.
    exact (proj1 (forallb_forall _ _) Hq q Hin).
  - rewrite Ev. split; [by apply ready_consistent|]. by rewrite Hd.
Qed.
End OpenFacts.

(** Follow a preparation statement by statement. *)
Ltac prepared :=
  repeat first [ apply prepare_wrap_then | apply prepare_then ]; apply prepares_ret; reflexivity.

(** ** The property *)
Definition bots_statements (s : botsStatements) : list statement :=
  [insertBot s; deleteBotsByTTMAccount s; setBotStatus s; getBot s].
Definition tokenBought_statements (s : tokenBoughtSubscriptionsStatements) : list statement :=
  [insertTokenBoughtSubscription s; removeTokenBoughtSubscription s; getAllTokenBoughtSubscription s;
   getTokenBoughtSubscription s; getTokenBoughtSubscriptionByMinTimeout s].
Definition cancellation_statements (s : cancellationSubscriptionsStatements) : list statement :=
  [insertCancellationSubscription s; removeCancellationSubscription s;
   getAllCancellationSubscription s; getCancellationSubscription s].
Definition pubKeys_statements (s : pubKeysStatements) : list statement := [getPubKey s; setPubKey s].
Definition jobs_statements (s : jobsStatements) : list statement :=
  [getAllJobs s; getJobByName s; upsertJob s].

(** C32: each of the four storages, opened on a file at any version of its migrations, either
    brings it to the last one and has every statement its operations use prepared, each of
    which fits the tables the migrations made; or it ends with an error and leaves the file
    at some version, or marked dirty. A dirty file is refused and left as it is. *)
Theorem storages_ready `{Driver X} (dbPath : string) (x : X) :
  (consistent resolver_up (view x) →
   runs (resolver_New dbPath) x (λ y o,
     storage_result resolver_up bots_statements (view x) (view y) o)) ∧
  (consistent listener_up (view x) →
   runs (listener_New dbPath) x (λ y o,
     storage_result listener_up (λ s, tokenBought_statements s.1 ++ cancellation_statements s.2)
       (view x) (view y) o)) ∧
  (consistent encoder_up (view x) →
   runs (encoder_New dbPath) x (λ y o,
     storage_result encoder_up pubKeys_statements (view x) (view y) o)) ∧
  (consistent scheduler_up (view x) →
   runs (scheduler_New dbPath) x (λ y o,
     storage_result scheduler_up jobs_statements (view x) (view y) o)).
Proof.
  split_and!; intros Hc.
  - eapply storage_opens; [by apply New_opens|prepared|vm_compute; reflexivity].
  - eapply storage_opens; [apply runs_wrap; eapply runs_mono; [by apply New_opens|by intros t [[]|e|p]]| |].
    + apply prepares_both; prepared.
    + vm_compute; reflexivity.
  - eapply storage_opens; [apply runs_wrap; eapply runs_mono; [by apply New_opens|by intros t [[]|e|p]]| |].
    + apply prepares_wrap. prepared.
    + vm_compute; reflexivity.
  - eapply storage_opens; [by apply New_opens|prepared|vm_compute; reflexivity].
Qed.

(** ** An instance *)
Module Toy.
(** A file, and whether the next migration breaks in its first file. *)
Record world := { file : database; broken : bool }.

Definition up (fs : list migration) : M world unit := λ x,
  let db := file x in
  if dirty db then (x, Err (Sentinel "migrate.ErrDirty"))
  else if bool_decide (state db = Some (length fs, false)) then (x, Err (Sentinel ErrNoChange))
  else if decide (current db < length fs)%nat then
    if broken x then
      ({| file := {| state := Some (S (current db), true); tables := tables db |}; broken := true |},
       Err (Errorf "migration failed"))
    else match run_files (drop (current db) fs) (tables db) with
    | Some t => ({| file := {| state := Some (length fs, false); tables := t |}; broken := false |}, Ok tt)
    | None => (x, Err (Errorf "migration failed"))
    end
  else (x, Err (Errorf "no migration found for version")).

Lemma up_is fs x : dirty (file x) = false →
  up_result fs (file x) (file (up fs x).1) (up fs x).2.
Proof.
  intros Hd. unfold up. rewrite Hd. case_bool_decide; [done|]. case_decide as Hlt; [|by left].
  destruct (broken x).
  - right. exists (current (file x)). unfold applied. rewrite Nat.sub_diag. simpl.
    split_and!; [lia..|done|]. right. split; [lia|done].
  - destruct (run_files _ _) as [t|] eqn:E; [|by left]. simpl. split; [|done].
    split; [lia|]. rewrite firstn_all2; [done|]. rewrite length_drop. lia.
Qed.

#[global] Program Instance driver : Driver world := {|
  view := file;
  MkdirAll_Dir _ := retS tt;
  sqlx_Open _ := retS tt;
  sqlite3_WithInstance := retS tt;
  iofs_New := retS tt;
  migrate_NewWithInstance _ := retS tt;
  migration_Version := λ x, (x, match state (file x) with
    | Some s => Ok s | None => Err (Sentinel ErrNilVersion) end);
  migration_Up := up;
  Prepare _ := retS tt
|}.
Solve Obligations with done.
Next Obligation. intros x. simpl. by destruct (state (file x)) as [[]|]. Qed.
Next Obligation. apply up_is. Qed.

Definition fresh : world := {| file := {| state := None; tables := ∅ |}; broken := false |}.
(** A scheduler of the first version, with the column the second one drops. *)
Definition old : world :=
  {| file := {| state := Some (1%nat, false);
                tables := {["jobs" := {| columns := ["name"; "execute_at"; "period"];
                                         primaryKey := ["name"] |}]} |};
     broken := false |}.
(** The same, when the second migration breaks: the next start finds a dirty file. *)
Definition breaking : world := {| file := file old; broken := true |}.

Lemma outcomes :
  is_ok (scheduler_New "db" old).2 = true ∧
  is_ok (scheduler_New "db" breaking).2 = false ∧
  (scheduler_New "db" (scheduler_New "db" breaking).1).2
    = Err (Wrapf "failed to migrate sqlite database: %w" errDirtyDB).
Proof. by vm_compute. Qed.

Lemma storages_ready_witness :
  (runs (resolver_New "db") fresh (λ y o,
     storage_result resolver_up bots_statements (view fresh) (view y) o)) ∧
  (runs (scheduler_New "db") old (λ y o,
     storage_result scheduler_up jobs_statements (view old) (view y) o)).
Proof.
  split.
  - apply (storages_ready "db" fresh). reflexivity.
  - apply (storages_ready "db" old). split; [vm_compute; lia|]. intros _. vm_compute. reflexivity.
Defined.
End Toy.
