(* ===== verification/Matrix.v ===== *)
(** * The matrix client (internal/matrix/client)

    [SignPublicKey] and the encoding of signing.go, with the decoding a homeserver does; the
    login in [New], over the class [Mautrix] of the operations of the library; and the
    methods of the client, which wrap an operation each, as the [Client] of the messenger. *)
From S2P Require Import Prelude Message Messenger.
From Stdlib Require Import Ascii.

From stdpp Require Import gmap.

#[local] Open Scope Z_scope.

(** ** Hexadecimal strings *)

(** A digit of [%x], and the digit of a character. *)
Definition hexDigit (d : Z) : ascii :=
  Ascii.ascii_of_nat (Z.to_nat (if d <? 10 then 48 + d else 87 + d)).
Definition hexValue (c : ascii) : option Z :=
  let n := Z.of_nat (Ascii.nat_of_ascii c) in
  if (48 <=? n) && (n <? 58) then Some (n - 48)
  else if (97 <=? n) && (n <? 103) then Some (n - 87)
  else None.

(** [fmt.Sprintf("%x", bytes)] *)
Fixpoint hex (b : bytes) : string :=
  match b with
  | [] => ""
  | x :: b => String (hexDigit (x / 16)) (String (hexDigit (x mod 16)) (hex b))
  end.
Fixpoint unhex (s : string) : option bytes :=
  match s with
  | "" => Some []
  | String h (String l s) =>
      x ← hexValue h; y ← hexValue l; b ← unhex s; Some (16 * x + y :: b)
  | _ => None
  end%string.

(** [s[2:]] *)
Definition from2 (s : string) : outcome string :=
  match s with
  | String _ (String _ s) => Ok s
  | _ => Panic "slice bounds out of range [2:%d]"
  end%string.

Definition byte (x : Z) : Prop := 0 ≤ x < 256.

Lemma hexValue_digit d : 0 ≤ d < 16 → hexValue (hexDigit d) = Some d.
Proof.
  intros Hd. assert (Forall (λ d, hexValue (hexDigit d) = Some d) (seqZ 0 16)) as H
    by (repeat constructor).
  rewrite Forall_forall in H. apply H, elem_of_seqZ'. lia.
Qed.

Lemma unhex_hex b : Forall byte b → unhex (hex b) = Some b.
Proof.
  induction 1 as [|x b Hx _ IH]; [done|]. unfold byte in Hx. simpl.
  rewrite !hexValue_digit, IH.
  - simpl. do 2 f_equal. pose proof (Z.div_mod x 16). lia.
  - split; [apply Z.div_pos; lia|apply Z.div_lt_upper_bound; lia].
  - apply Z.mod_pos_bound. lia.
Qed.

(** ** Signing (signing.go) *)

(** [crypto/sha256] and go-ethereum's [crypto]. *)
Class LoginCrypto (Key PubKey : Type) := {
  PublicKey : Key → PubKey;
  FromECDSAPub : PubKey → bytes;
  UnmarshalPubkey : bytes → option PubKey;
  sha256_Sum256 : bytes → bytes;
  crypto_Sign : bytes → Key → outcome bytes;
  SigToPub : bytes → bytes → option PubKey;
  sha256_length b : length (sha256_Sum256 b) = 32%nat;
  sha256_bytes b : Forall byte (sha256_Sum256 b);
  FromECDSAPub_bytes k : Forall byte (FromECDSAPub k) ∧ length (FromECDSAPub k) = 65%nat;
  Unmarshal_FromECDSAPub k : UnmarshalPubkey (FromECDSAPub k) = Some k;
  Sign_bytes h k sig : crypto_Sign h k = Ok sig → Forall byte sig ∧ length sig = 65%nat;
  SigToPub_Sign h k sig : crypto_Sign h k = Ok sig → SigToPub h sig = Some (PublicKey k);
  Sign_returns h k p : crypto_Sign h k ≠ Panic p
}.

Definition checksumLen : Z := 4.
Definition errEncodingOverflow : error := Errorf "encoding overflow".

Section Signing.
Context `{LoginCrypto Key PubKey}.

Definition checksum (b : bytes) : bytes :=
  drop (length (sha256_Sum256 b) - Z.to_nat checksumLen) (sha256_Sum256 b).

Definition hexWithChecksum (b : bytes) : outcome string :=
  if MaxInt32 - checksumLen <? Z.of_nat (length b) then Err errEncodingOverflow
  else Ok ("0x" +:+ hex (b ++ checksum b)).

Definition sign (msg : bytes) (key : Key) : outcome bytes := crypto_Sign (sha256_Sum256 msg) key.

(** The signature and the message. *)
Definition SignPublicKey (key : Key) : outcome (string * string) :=
  let pubKeyBytes := FromECDSAPub (PublicKey key) in
  signatureBytes ← sign pubKeyBytes key;
  signature ← hexWithChecksum signatureBytes;
  message ← hexWithChecksum pubKeyBytes;
  Ok (signature, message).

(** *** What a homeserver makes of a login *)
Definition withoutChecksum (s : string) : option bytes :=
  l ← unhex s;
  let b := take (length l - Z.to_nat checksumLen) l in
  if bool_decide (drop (length l - Z.to_nat checksumLen) l = checksum b) then Some b else None.

(** The key of a login: the one in the message, when the signature is by it. *)
Definition login_key (publicKey signature : string) : option PubKey :=
  msg ← withoutChecksum publicKey;
  sig ← withoutChecksum signature;
  k ← UnmarshalPubkey msg;
  if bool_decide (FromECDSAPub <$> SigToPub (sha256_Sum256 msg) sig = Some (FromECDSAPub k))
  then Some k else None.

Lemma checksum_length b : length (checksum b) = Z.to_nat checksumLen.
Proof. unfold checksum. rewrite length_drop, sha256_length. done. Qed.

Lemma withoutChecksum_hex b :
  Forall byte b → withoutChecksum (hex (b ++ checksum b)) = Some b.
Proof.
  intros Hb. unfold withoutChecksum. rewrite unhex_hex.
  - simpl. rewrite length_app, checksum_length, Nat.add_sub, take_app_length, drop_app_length.
    by rewrite bool_decide_true.
  - apply Forall_app. split; [done|]. apply Forall_drop, sha256_bytes.
Qed.

(** An encoding, and the string a login has of it. *)
Lemma hexWithChecksum_ok b s :
  hexWithChecksum b = Ok s → from2 s = Ok (hex (b ++ checksum b)).
Proof. unfold hexWithChecksum. case_match; [done|]. intros [= <-]. done. Qed.

Lemma hexWithChecksum_short b :
  Z.of_nat (length b) ≤ MaxInt32 - checksumLen → hexWithChecksum b = Ok ("0x" +:+ hex (b ++ checksum b)).
Proof. intros Hb. unfold hexWithChecksum. by rewrite (proj2 (Z.ltb_ge _ _) Hb). Qed.
End Signing.

(** ** The login ([New]) *)

(** [mautrix.ReqLogin], of the type for keys. *)
Record ReqLogin := { req_PublicKey : string; req_Signature : string }.

(** The library: a client, its syncer, and the crypto helper, which keeps a database
    open and logs in when it is initialised. *)
Class Mautrix (X : Type) := {
  mautrix_NewClient : string → M X unit;
  syncerIsDefault : X → bool;
  NewCryptoHelper : string → M X unit;
  Init : ReqLogin → M X unit;
  CryptoHelper_Close : M X unit;
  UserID : X → string;
  (** the logins asked for, and whether the database of the helper is open *)
  logins : X → list ReqLogin;
  helperOpen : X → bool;
  NewClient_is u x : logins (mautrix_NewClient u x).1 = logins x ∧
    helperOpen (mautrix_NewClient u x).1 = helperOpen x ∧ ∀ p, (mautrix_NewClient u x).2 ≠ Panic p;
  NewCryptoHelper_is d x : logins (NewCryptoHelper d x).1 = logins x ∧
    helperOpen (NewCryptoHelper d x).1 = (is_ok (NewCryptoHelper d x).2 || helperOpen x) ∧
    ∀ p, (NewCryptoHelper d x).2 ≠ Panic p;
  Init_is r x : logins (Init r x).1 = logins x ++ [r] ∧
    helperOpen (Init r x).1 = helperOpen x ∧ ∀ p, (Init r x).2 ≠ Panic p;
  Close_is x : logins (CryptoHelper_Close x).1 = logins x ∧
    helperOpen (CryptoHelper_Close x).1 = (negb (is_ok (CryptoHelper_Close x).2) && helperOpen x) ∧
    ∀ p, (CryptoHelper_Close x).2 ≠ Panic p
}.

Definition errNotDefaultSyncer : error := Sentinel "client.errNotDefaultSyncer".

Section Login.
Context `{LoginCrypto Key PubKey} `{Mautrix X}.

Definition initCryptoHelper (login : ReqLogin) (expectedBotUserID : string) : M X unit :=
  wrapS "failed to initialize crypto helper: %w" (Init login) ;;
  x ← getS;
  if decide (UserID x = expectedBotUserID) then retS tt
  else throwS (Errorf "logged in user ID %s does not match expected bot user ID %s").

Definition New (homeserverURL dbPath : string) (botKey : Key) (expectedBotUserID : string) : M X unit :=
  wrapS "failed to create matrix client: %w" (mautrix_NewClient homeserverURL) ;;
  x ← getS;
  if negb (syncerIsDefault x) then throwS errNotDefaultSyncer
  else
    wrapS "failed to create crypto helper: %w" (NewCryptoHelper dbPath) ;;
    signed ← wrapS "failed to sign public key: %w" (liftO (SignPublicKey botKey));
    publicKey ← liftO (from2 signed.2);
    signature ← liftO (from2 signed.1);
    r ← attempt (initCryptoHelper {| req_PublicKey := publicKey; req_Signature := signature |}
                   expectedBotUserID);
    match r with
    | inl _ => retS tt
    | inr e =>
        attempt CryptoHelper_Close ;;
        throwS (Wrapf "failed to initialize crypto helper: %w" e)
    end.
End Login.

(** ** The methods *)

(** The operations of the library the methods call. *)
Class Operations (X : Type) := {
  mautrix_IsEncrypted : string → M X bool;
  mautrix_CreateRoom : string → M X string;
  mautrix_JoinRoomByID : string → M X unit;
  mautrix_LeaveRoom : string → M X unit;
  mautrix_ForgetRoom : string → M X unit;
  mautrix_JoinedRooms : M X (list string);
  mautrix_JoinedMembers : string → M X (gset string);
  mautrix_SendMessageEvent : string → Sending.wire_event → M X unit;
  mautrix_SyncWithContext : M X unit
}.

Section Methods.
Context `{Operations X}.

Definition JoinRoom (roomID : string) : M X unit :=
  wrapS "failed to join room %s: %w" (mautrix_JoinRoomByID roomID).
Definition LeaveRoom (roomID : string) : M X unit :=
  wrapS "failed to leave room %s: %w" (mautrix_LeaveRoom roomID).
Definition ForgetRoom (roomID : string) : M X unit :=
  wrapS "failed to forget room %s: %w" (mautrix_ForgetRoom roomID).
Definition CreateRoomForUser (recipient : string) : M X string :=
  wrapS "failed to create new room for user %s: %w" (mautrix_CreateRoom recipient).
Definition JoinedRooms : M X (list string) :=
  wrapS "failed to get joined rooms: %w" mautrix_JoinedRooms.
Definition IsUserJoinedRoom (roomID userID : string) : M X bool :=
  joined ← wrapS "failed to get joined members for room %s: %w" (mautrix_JoinedMembers roomID);
  retS (bool_decide (userID ∈ joined)).
Definition SendSignedMessageEvent (roomID : string) (event : Events.SignedMessageEventContent) : M X unit :=
  wrapS "failed to send message event of type %s to room %s: %w"
    (mautrix_SendMessageEvent roomID (Sending.WSigned event)).
Definition SendMessageChunkEvent (roomID : string) (event : Events.MessageChunkEventContent) : M X unit :=
  wrapS "failed to send message event of type %s to room %s: %w"
    (mautrix_SendMessageEvent roomID (Sending.WChunk event)).

Definition canceled : string := "context.Canceled".
Definition SyncWithContext : M X unit :=
  r ← attempt mautrix_SyncWithContext;
  match r with
  | inl _ => retS tt
  | inr e => if errors_is e canceled then retS tt else throwS (Wrapf "sync failed: %w" e)
  end.

(** What the messenger is given. *)
Definition client : Sending.Client X := {|
  Sending.JoinedRooms := JoinedRooms;
  Sending.IsUserJoinedRoom := IsUserJoinedRoom;
  Sending.CreateRoomForUser := CreateRoomForUser;
  Sending.SendSignedMessageEvent := SendSignedMessageEvent;
  Sending.SendMessageChunkEvent := SendMessageChunkEvent;
  Sending.IsRoomEncrypted := mautrix_IsEncrypted;
  Sending.JoinRoom := JoinRoom
|}.

(** The end of the context is never an error of the synchronisation. *)
Lemma sync_error_not_canceled x e :
  (SyncWithContext x).2 = Err e → errors_is e canceled = false.
Proof.
  unfold SyncWithContext, mbind, M_bind, attempt.
  destruct (mautrix_SyncWithContext x) as [y [[]|f|p]]; simpl; [done| |done].
  destruct (errors_is f canceled) eqn:E; simpl; [done|]. by intros [= <-].
Qed.
End Methods.

(** ** The property *)
Section LoginFacts.
Context `{LoginCrypto Key PubKey} `{Mautrix X}.

(** The login of a key is one the homeserver finds that key in. *)
Lemma login_accepted (key : Key) signature message :
  SignPublicKey key = Ok (signature, message) →
  ∃ p s, from2 message = Ok p ∧ from2 signature = Ok s ∧ login_key p s = Some (PublicKey key).
Proof.
  unfold SignPublicKey. intros E. inv_ok. simplify_eq.
  match goal with E : sign _ _ = Ok _ |- _ => rename E into Es end. unfold sign in Es.
  repeat match goal with E : hexWithChecksum _ = Ok _ |- _ => apply hexWithChecksum_ok in E end.
  eexists _, _. split_and!; [done..|]. unfold login_key.
  destruct (Sign_bytes _ _ _ Es) as [Hb _]. destruct (FromECDSAPub_bytes (PublicKey key)) as [Hp _].
  rewrite !withoutChecksum_hex by done. simpl. rewrite Unmarshal_FromECDSAPub. simpl.
  rewrite (SigToPub_Sign _ _ _ Es). simpl. by rewrite bool_decide_true.
Qed.

(** It is made whenever the key signs. *)
Lemma SignPublicKey_spec (key : Key) :
  match SignPublicKey key with
  | Ok (signature, message) => ∃ p s, from2 message = Ok p ∧ from2 signature = Ok s ∧
      login_key p s = Some (PublicKey key)
  | Err e => crypto_Sign (sha256_Sum256 (FromECDSAPub (PublicKey key))) key = Err e
  | Panic _ => False
  end.
Proof.
  destruct (SignPublicKey key) as [[sig msg]|e|p] eqn:E; [by apply login_accepted| |].
  all: unfold SignPublicKey, sign in E.
  all: destruct (crypto_Sign _ _) as [b|e'|p'] eqn:Es; simpl in E; simplify_eq; try done;
    try by apply Sign_returns in Es.
  all: destruct (Sign_bytes _ _ _ Es) as [_ Hl]; destruct (FromECDSAPub_bytes (PublicKey key)) as [_ Hk].
  all: rewrite !hexWithChecksum_short in E by (rewrite ?Hl, ?Hk; unfold MaxInt32, checksumLen; lia); done.
Qed.

(** The login of [New]: asked once, and then the client is the expected user's. *)
Lemma initCryptoHelper_ends login expected x :
  runs (initCryptoHelper login expected) x (λ y o,
    logins y = logins x ++ [login] ∧ helperOpen y = helperOpen x ∧
    match o with Ok _ => UserID y = expected | Err _ => True | Panic _ => False end).
Proof.
  unfold initCryptoHelper. eapply runs_bind_wrap with
    (P := λ y o, logins y = logins x ++ [login] ∧ helperOpen y = helperOpen x ∧ ∀ p, o ≠ Panic p).
  - unfold runs. pose proof (Init_is login x). by destruct (Init login x).
  - intros y _ (El & Eh & _). unfold runs, mbind, M_bind, getS. simpl. by case_decide.
  - by intros t e (El & Eh & _).
  - intros t p (_ & _ & Hp). by destruct (Hp p).
Qed.

(** C33: what [New] ends in: a client only when the homeserver has logged it in as the expected
    user, by a login in which it finds the public key of the bot and a signature by it; else
    an error, after that one login, and then the crypto helper has been closed, or before
    anything was asked of the homeserver, and then it is open only if the key did not sign. *)
Theorem New_ends (homeserverURL dbPath : string) (botKey : Key) (expectedBotUserID : string) (x : X) :
  runs (New homeserverURL dbPath botKey expectedBotUserID) x (λ y o,
    let asked z := ∃ p s, logins z = logins x ++ [{| req_PublicKey := p; req_Signature := s |}] ∧
      login_key p s = Some (PublicKey botKey) in
    match o with
    | Ok _ => UserID y = expectedBotUserID ∧ helperOpen y = true ∧ asked y
    | Err _ =>
        (∃ z, asked z ∧ y = (CryptoHelper_Close z).1) ∨
        logins y = logins x ∧ (helperOpen y = helperOpen x ∨
          ∃ e, crypto_Sign (sha256_Sum256 (FromECDSAPub (PublicKey botKey))) botKey = Err e)
    | Panic _ => False
    end).
Proof.
  unfold New.
  eapply runs_bind_wrap with
    (P := λ y o, logins y = logins x ∧ helperOpen y = helperOpen x ∧ ∀ p, o ≠ Panic p);
    [|intros x1 _ (E1 & H1 & _)|intros x1 e (E1 & H1 & _); right; auto|
      intros x1 p (_ & _ & Hp); by destruct (Hp p)].
  { unfold runs. pose proof (NewClient_is homeserverURL x). by destruct (mautrix_NewClient homeserverURL x). }
  change (runs (mbind ?k getS) x1 ?Q) with (runs (k x1) x1 Q). cbv beta. destruct (negb (syncerIsDefault x1)); [right; auto|].
  eapply runs_bind_wrap with
    (P := λ y o, logins y = logins x ∧
      helperOpen y = (is_ok o || helperOpen x) ∧ ∀ p, o ≠ Panic p);
    [|intros x2 [] (E2 & H2 & _)|intros x2 e (E2 & H2 & _); right; auto|
      intros x2 p (_ & _ & Hp); by destruct (Hp p)].
  { unfold runs. pose proof (NewCryptoHelper_is dbPath x1) as Hn. rewrite E1, H1 in Hn.
    by destruct (NewCryptoHelper dbPath x1). }
  simpl in H2. unfold runs at 1. unfold wrapS, liftO, mbind, M_bind.
  pose proof (SignPublicKey_spec botKey) as Hs.
  destruct (SignPublicKey botKey) as [[sig msg]|e|p]; simpl; [|right; eauto|done].
  destruct Hs as (p & s & -> & -> & Hk). simpl. unfold attempt.
  pose proof (initCryptoHelper_ends {| req_PublicKey := p; req_Signature := s |} expectedBotUserID x2) as Hi.
  unfold runs in Hi. destruct (initCryptoHelper _ _ x2) as [x3 [[]|e|q]]; destruct Hi as (El & Eh & Hu); simpl.
  - split_and!; [done|congruence|]. exists p, s. by rewrite El, E2.
  - pose proof (Close_is x3) as (Hc1 & Hc2 & Hc3).
    destruct (CryptoHelper_Close x3) as [x4 o4] eqn:Ec.
    assert (∃ z, (∃ p s, logins z = logins x ++ [{| req_PublicKey := p; req_Signature := s |}] ∧
      login_key p s = Some (PublicKey botKey)) ∧ x4 = (CryptoHelper_Close z).1) as Hz.
    { exists x3. rewrite Ec. split; [|done]. exists p, s. by rewrite El, E2. }
    destruct o4 as [[]|e4|q]; simpl; [by left|by left|by destruct (Hc3 q)].
  - done.
Qed.
End LoginFacts.

(** ** An instance *)
Module Toy.
(** One key, whose encoding is 65 bytes; the hash of a message is its length, and
    a signature is the hash it is of. *)
Definition hash (b : bytes) : bytes := replicate 32 (Z.of_nat (length b) mod 256).
Definition signature_of (h : bytes) : bytes := replicate 65 (default 0 (head h) mod 256).

Lemma bytes_of n x : Forall byte (replicate n (x mod 256)).
Proof. apply Forall_replicate. unfold byte. apply Z.mod_pos_bound. lia. Qed.

#[global] Program Instance crypto : LoginCrypto unit unit := {|
  PublicKey _ := tt;
  FromECDSAPub _ := replicate 65 4;
  UnmarshalPubkey _ := Some tt;
  sha256_Sum256 := hash;
  crypto_Sign h _ := Ok (signature_of h);
  SigToPub _ _ := Some tt
|}.
Solve Obligations with done.
Next Obligation. intros b. apply bytes_of. Qed.
Next Obligation. intros k. split; [apply (bytes_of 65 4)|done]. Qed.
Next Obligation. by intros []. Qed.
Next Obligation. intros h k sig [= <-]. split; [apply bytes_of|done]. Qed.

Record world := { asked : list ReqLogin; open_ : bool; user : string }.

#[global] Program Instance mautrix : Mautrix world := {|
  mautrix_NewClient _ := retS tt;
  syncerIsDefault _ := true;
  NewCryptoHelper _ x := ({| asked := asked x; open_ := true; user := user x |}, Ok tt);
  Init r x := ({| asked := asked x ++ [r]; open_ := open_ x; user := "@bot:host" |}, Ok tt);
  CryptoHelper_Close x := ({| asked := asked x; open_ := false; user := user x |}, Ok tt);
  UserID := user; logins := asked; helperOpen := open_
|}.
Solve Obligations with by intros; split_and!.

Definition start : world := {| asked := []; open_ := false; user := "" |}.

(** A login as the expected user, and one as another. *)
Lemma New_ends_witness :
  is_ok (New "host" "db" tt "@bot:host" start).2 = true ∧
  open_ (New "host" "db" tt "@other:host" start).1 = false ∧
  runs (New "host" "db" tt "@other:host") start (λ y o,
    let asked_of z := ∃ p s, logins z = logins start ++ [{| req_PublicKey := p; req_Signature := s |}] ∧
      login_key p s = Some (PublicKey tt) in
    match o with
    | Ok _ => UserID y = "@other:host" ∧ helperOpen y = true ∧ asked_of y
    | Err _ =>
        (∃ z, asked_of z ∧ y = (CryptoHelper_Close z).1) ∨
        logins y = logins start ∧ (helperOpen y = helperOpen start ∨
          ∃ e, crypto_Sign (sha256_Sum256 (FromECDSAPub (PublicKey tt))) tt = Err e)
    | Panic _ => False
    end).
Proof.
  split; [vm_compute; reflexivity|]. split; [vm_compute; reflexivity|].
  apply (New_ends "host" "db" tt "@other:host" start).
Defined.
End Toy.
