(* ===== verification/Config.v ===== *)
(** * The configuration (config)

    What the bot is configured with, as it is written and as it is used: [ReadConfig]
    takes the written one from flags, environment and file (the library viper, class
    [Viper]) and parses it; [unparse] is its inverse.  Keys and addresses are parsed and
    printed by go-ethereum, the class [Hex]. *)
From S2P Require Import Prelude Decimal.

#[local] Open Scope Z_scope.

Definition errInvalidRawConfig : error := Sentinel "config.errInvalidRawConfig".
Definition errEmptyConfigPath : error := Sentinel "config.errEmptyConfigPath".
Definition errInvalidTTMAccountAddress : error := Sentinel "config.errInvalidTTMAccountAddress".
Definition errInvalidBookingTokenAddress : error := Sentinel "config.errInvalidBookingTokenAddress".
Definition errNonPositiveTokenVisibleAttempts : error :=
  Sentinel "config.errNonPositiveTokenVisibleAttempts".
Definition errNegativeTokenVisibleRetryDelay : error :=
  Sentinel "config.errNegativeTokenVisibleRetryDelay".

Record PartnerPluginConfig := {
  pp_Enabled : bool; pp_Host : string; pp_Unencrypted : bool; CACertFile : string
}.
Record RPCServerConfig := {
  rpc_Enabled : bool; Port : Z; rpc_Unencrypted : bool;
  ServerCertFile : string; ServerKeyFile : string
}.
Record MatrixConfig := { Host : string; Store : string }.
Record UnparsedMatrixConfig := { u_Host : string }.
Record UnparsedSQLiteDBConfig := { DBPath : string }.
Record SQLiteDBConfig := {
  Common : UnparsedSQLiteDBConfig;
  EventListener : UnparsedSQLiteDBConfig;
  MessagesEncoderDecoder : UnparsedSQLiteDBConfig;
  Resolver : UnparsedSQLiteDBConfig
}.

(** The written configuration: 64-bit integers, in seconds or milliseconds. *)
Record UnparsedConfig := {
  u_DeveloperMode : bool;
  u_E2ETestMode : bool;
  u_BotKey : string;
  u_TTMAccountAddress : string;
  u_ChainRPCURL : string;
  u_BookingTokenAddress : string;
  u_BotAuthCacheTimeout : Z;
  u_ResponseTimeout : Z;
  u_RecordExpiration : bool;
  u_TokenVisibleMaxAttempts : Z;
  u_TokenVisibleRetryDelay : Z;
  u_PartnerPlugin : PartnerPluginConfig;
  u_RPCServer : RPCServerConfig;
  u_Matrix : UnparsedMatrixConfig;
  u_DB : UnparsedSQLiteDBConfig
}.

(** flags.go: the defaults; the path of the configuration file is a flag of its own. *)
Definition Flags : UnparsedConfig := {|
  u_DeveloperMode := false; u_E2ETestMode := false; u_BotKey := "";
  u_TTMAccountAddress := ""; u_ChainRPCURL := "";
  u_BookingTokenAddress := "0xB9ac3D8898e8bE5481a0DDCb7692692979794efC";
  u_BotAuthCacheTimeout := 300; u_ResponseTimeout := 3000; u_RecordExpiration := true;
  u_TokenVisibleMaxAttempts := 16; u_TokenVisibleRetryDelay := 1000;
  u_PartnerPlugin := {| pp_Enabled := false; pp_Host := "localhost:50051";
    pp_Unencrypted := false; CACertFile := "" |};
  u_RPCServer := {| rpc_Enabled := false; Port := 9090; rpc_Unencrypted := false;
    ServerCertFile := ""; ServerKeyFile := "" |};
  u_Matrix := {| u_Host := "" |}; u_DB := {| DBPath := "ttm-db" |}
|}.
Definition flagConfig : string := "travel-token-messenger-bot.yaml".

(** The defaults with the two values that have none. *)
Definition with_key_and_account (botKey account : string) (u : UnparsedConfig) : UnparsedConfig := {|
  u_DeveloperMode := u_DeveloperMode u; u_E2ETestMode := u_E2ETestMode u; u_BotKey := botKey;
  u_TTMAccountAddress := account; u_ChainRPCURL := u_ChainRPCURL u;
  u_BookingTokenAddress := u_BookingTokenAddress u; u_BotAuthCacheTimeout := u_BotAuthCacheTimeout u;
  u_ResponseTimeout := u_ResponseTimeout u; u_RecordExpiration := u_RecordExpiration u;
  u_TokenVisibleMaxAttempts := u_TokenVisibleMaxAttempts u;
  u_TokenVisibleRetryDelay := u_TokenVisibleRetryDelay u;
  u_PartnerPlugin := u_PartnerPlugin u; u_RPCServer := u_RPCServer u;
  u_Matrix := u_Matrix u; u_DB := u_DB u |}.

(** The configuration in use: durations in nanoseconds. *)
Record Config {Key : Type} := {
  DeveloperMode : bool;
  E2ETestMode : bool;
  BotKey : Key;
  TTMAccountAddress : Z;
  ChainRPCURL : string;
  BookingTokenAddress : Z;
  BotAuthCacheTimeout : Z;
  ResponseTimeout : Z;
  RecordExpiration : bool;
  TokenVisibleMaxAttempts : Z;
  TokenVisibleRetryDelay : Z;
  RPCServer : RPCServerConfig;
  PartnerPlugin : PartnerPluginConfig;
  DB : SQLiteDBConfig;
  Matrix : MatrixConfig
}.
Arguments Config : clear implicits.

(** go-ethereum: [crypto.HexToECDSA], the hexadecimal of [crypto.FromECDSA], and the
    addresses; what is printed is parsed back. *)
Class Hex (Key : Type) := {
  HexToECDSA : string → outcome Key;
  ECDSAToHex : Key → string;
  IsHexAddress : string → bool;
  HexToAddress : string → Z;
  AddressHex : Z → string;
  HexToECDSA_hex k : HexToECDSA (ECDSAToHex k) = Ok k;
  HexToECDSA_total s p : HexToECDSA s ≠ Panic p;
  IsHexAddress_hex a : in_uint 160 a → IsHexAddress (AddressHex a) = true;
  HexToAddress_hex a : in_uint 160 a → HexToAddress (AddressHex a) = a;
  HexToAddress_range s : in_uint 160 (HexToAddress s)
}.

(** viper: the sources of the configuration. *)
Class Viper := {
  BindPFlags : outcome unit;
  GetString : string → string;
  ReadInConfig : outcome unit;
  Unmarshal : outcome UnparsedConfig
}.

Definition Millisecond : Z := 1000000.

Section Config.
Context `{Hex Key}.

Definition parseConfig (cfg : UnparsedConfig) : outcome (Config Key) :=
  match HexToECDSA (u_BotKey cfg) with
  | Panic p => Panic p
  | Err e => Err (Wrapf "failed to parse bot key: %w" e)
  | Ok botKey =>
  if negb (IsHexAddress (u_TTMAccountAddress cfg)) then Err errInvalidTTMAccountAddress else
  if negb (IsHexAddress (u_BookingTokenAddress cfg)) then Err errInvalidBookingTokenAddress else
  if u_TokenVisibleMaxAttempts cfg <? 1 then Err errNonPositiveTokenVisibleAttempts else
  if u_TokenVisibleRetryDelay cfg <? 0 then Err errNegativeTokenVisibleRetryDelay else
  Ok {|
    DB := {|
      Common := u_DB cfg;
      EventListener := {| DBPath := DBPath (u_DB cfg) ++ "/event_listener" |};
      MessagesEncoderDecoder := {| DBPath := DBPath (u_DB cfg) ++ "/messages_encoder_decoder" |};
      Resolver := {| DBPath := DBPath (u_DB cfg) ++ "/resolver" |}
    |};
    RPCServer := u_RPCServer cfg;
    PartnerPlugin := u_PartnerPlugin cfg;
    Matrix := {| Host := u_Host (u_Matrix cfg); Store := DBPath (u_DB cfg) ++ "/matrix" |};
    DeveloperMode := u_DeveloperMode cfg;
    E2ETestMode := u_E2ETestMode cfg;
    BotKey := botKey;
    TTMAccountAddress := HexToAddress (u_TTMAccountAddress cfg);
    ChainRPCURL := u_ChainRPCURL cfg;
    BookingTokenAddress := HexToAddress (u_BookingTokenAddress cfg);
    BotAuthCacheTimeout := swrap 64 (u_BotAuthCacheTimeout cfg * Second);
    ResponseTimeout := swrap 64 (u_ResponseTimeout cfg * Millisecond);
    RecordExpiration := u_RecordExpiration cfg;
    TokenVisibleMaxAttempts := u_TokenVisibleMaxAttempts cfg;
    TokenVisibleRetryDelay := swrap 64 (u_TokenVisibleRetryDelay cfg * Millisecond)
  |}
  end.

Definition unparse (cfg : Config Key) : UnparsedConfig := {|
  u_DB := Common (DB cfg);
  u_RPCServer := RPCServer cfg;
  u_PartnerPlugin := PartnerPlugin cfg;
  u_Matrix := {| u_Host := Host (Matrix cfg) |};
  u_DeveloperMode := DeveloperMode cfg;
  u_E2ETestMode := E2ETestMode cfg;
  u_BotKey := ECDSAToHex (BotKey cfg);
  u_TTMAccountAddress := AddressHex (TTMAccountAddress cfg);
  u_ChainRPCURL := ChainRPCURL cfg;
  u_BookingTokenAddress := AddressHex (BookingTokenAddress cfg);
  u_BotAuthCacheTimeout := Z.quot (BotAuthCacheTimeout cfg) Second;
  u_ResponseTimeout := Z.quot (ResponseTimeout cfg) Millisecond;
  u_RecordExpiration := RecordExpiration cfg;
  u_TokenVisibleMaxAttempts := TokenVisibleMaxAttempts cfg;
  u_TokenVisibleRetryDelay := Z.quot (TokenVisibleRetryDelay cfg) Millisecond
|}.

(** A missing file is no error: flags and environment may be enough. *)
Definition readFile `{Viper} : outcome unit :=
  match ReadInConfig with
  | Err e => if errors_is e "os.ErrNotExist" then Ok tt else Err e
  | r => r
  end.

Definition ReadConfig `{Viper} : outcome (Config Key) :=
  wrapO "failed to bind flags: %w" BindPFlags ≫= λ _,
  if String.eqb (GetString "config") "" then Err errEmptyConfigPath else
  readFile ≫= λ _,
  wrapO "failed to unmarshal config: %w" Unmarshal ≫= λ cfg,
  match parseConfig cfg with
  | Err e => Err (Wrapf2 "%w: %w" errInvalidRawConfig e)
  | r => r
  end.

(** ** Lemmas *)

(** The durations of a written configuration that fit in 64 bits of nanoseconds. *)
Definition fits (u : UnparsedConfig) : Prop :=
  in_sint 64 (u_BotAuthCacheTimeout u * Second) ∧
  in_sint 64 (u_ResponseTimeout u * Millisecond) ∧
  in_sint 64 (u_TokenVisibleRetryDelay u * Millisecond).

(** Keys and addresses as go-ethereum prints them. *)
Definition canonical (u : UnparsedConfig) : Prop :=
  (∃ k, u_BotKey u = ECDSAToHex k) ∧
  (∃ a, in_uint 160 a ∧ u_TTMAccountAddress u = AddressHex a) ∧
  (∃ a, in_uint 160 a ∧ u_BookingTokenAddress u = AddressHex a).

(** The checks of [parseConfig], in one. *)
Definition valid (u : UnparsedConfig) : Prop :=
  (∃ k, HexToECDSA (u_BotKey u) = Ok k) ∧
  IsHexAddress (u_TTMAccountAddress u) = true ∧ IsHexAddress (u_BookingTokenAddress u) = true ∧
  1 ≤ u_TokenVisibleMaxAttempts u ∧ 0 ≤ u_TokenVisibleRetryDelay u.

Lemma parseConfig_valid u : is_ok (parseConfig u) = true ↔ valid u.
Proof.
  unfold parseConfig, valid. destruct (HexToECDSA _) as [k|e|p]; simpl; [|naive_solver..].
  destruct (IsHexAddress (u_TTMAccountAddress u)); simpl; [|naive_solver].
  destruct (IsHexAddress (u_BookingTokenAddress u)); simpl; [|naive_solver].
  destruct (Z.ltb_spec (u_TokenVisibleMaxAttempts u) 1); simpl; [split; [done|lia]|].
  destruct (Z.ltb_spec (u_TokenVisibleRetryDelay u) 0); simpl; [split; [done|lia]|].
  split; [|done]. intros _. split_and!; eauto.
Qed.

Lemma parseConfig_no_panic u p : parseConfig u ≠ Panic p.
Proof.
  unfold parseConfig. destruct (HexToECDSA _) as [k|e|q] eqn:E; [|done|by destruct (HexToECDSA_total _ _ E)].
  by repeat case_match.
Qed.

(** The defaults are enough but for the key and the account. *)
Lemma defaults_parse botKey account k :
  HexToECDSA botKey = Ok k → IsHexAddress account = true →
  IsHexAddress (u_BookingTokenAddress Flags) = true →
  ∃ c, parseConfig (with_key_and_account botKey account Flags) = Ok c ∧
    BotAuthCacheTimeout c = 5 * Minute ∧ ResponseTimeout c = 3 * Second ∧
    TokenVisibleMaxAttempts c = 16 ∧ TokenVisibleRetryDelay c = Second ∧
    pp_Enabled (PartnerPlugin c) = false ∧ rpc_Enabled (RPCServer c) = false.
Proof.
  intros Hk Ha Hb. unfold parseConfig. cbn [with_key_and_account u_BotKey u_TTMAccountAddress].
  rewrite Hk, Ha. cbn [negb]. simpl in Hb |- *. rewrite Hb. simpl.
  eexists. split; [done|]. split_and!; reflexivity.
Qed.

Lemma swrap_quot x unit_ : 0 < unit_ → in_sint 64 (x * unit_) → Z.quot (swrap 64 (x * unit_)) unit_ = x.
Proof. intros Hu Hx. rewrite swrap_small by done. apply Z.quot_mul. lia. Qed.

(** C31: a configuration whose durations fit in 64 bits of nanoseconds is in use as it was
    written: printed again it is the same text, up to how its key and its addresses are
    spelled, and printed and read again it is the same configuration. *)
Theorem config_roundtrip u c :
  parseConfig u = Ok c → fits u →
  parseConfig (unparse c) = Ok c ∧ (canonical u → unparse c = u).
Proof.
  intros E (Hb & Hr & Hd).
  assert (unparse c = {|
    u_DeveloperMode := u_DeveloperMode u; u_E2ETestMode := u_E2ETestMode u;
    u_BotKey := ECDSAToHex (BotKey c);
    u_TTMAccountAddress := AddressHex (HexToAddress (u_TTMAccountAddress u));
    u_ChainRPCURL := u_ChainRPCURL u;
    u_BookingTokenAddress := AddressHex (HexToAddress (u_BookingTokenAddress u));
    u_BotAuthCacheTimeout := u_BotAuthCacheTimeout u; u_ResponseTimeout := u_ResponseTimeout u;
    u_RecordExpiration := u_RecordExpiration u;
    u_TokenVisibleMaxAttempts := u_TokenVisibleMaxAttempts u;
    u_TokenVisibleRetryDelay := u_TokenVisibleRetryDelay u;
    u_PartnerPlugin := u_PartnerPlugin u; u_RPCServer := u_RPCServer u;
    u_Matrix := u_Matrix u; u_DB := u_DB u |} ∧ HexToECDSA (u_BotKey u) = Ok (BotKey c)) as [Eu Ek].
  { unfold parseConfig in E. repeat case_match; simplify_eq. simpl. split; [|done].
    unfold unparse. simpl. rewrite !swrap_quot by done. by destruct (u_Matrix u). }
  rewrite Eu. split.
  - rewrite <- E. unfold parseConfig. simpl. rewrite HexToECDSA_hex, Ek.
    rewrite !IsHexAddress_hex, !HexToAddress_hex by apply HexToAddress_range.
    assert (valid u) as (_ & -> & -> & _) by (apply parseConfig_valid; by rewrite E). done.
  - intros ((k & Hk) & (a & Ha & Ea) & (b & Hb' & Eb)).
    rewrite Hk, HexToECDSA_hex in Ek. apply Ok_inj in Ek. rewrite <- Ek, <- Hk.
    rewrite Ea, Eb, !HexToAddress_hex by done. rewrite <- Ea, <- Eb. by destruct u.
Qed.

Lemma readFile_ok `{Viper} :
  is_ok readFile = true ↔
  ReadInConfig = Ok tt ∨ ∃ e, ReadInConfig = Err e ∧ errors_is e "os.ErrNotExist" = true.
Proof.
  unfold readFile. destruct ReadInConfig as [[]|e|p].
  - split; auto.
  - destruct (errors_is e "os.ErrNotExist") eqn:E; simpl; [split; eauto|].
    split; [done|]. intros [?|(f & ? & ?)]; congruence.
  - split; [done|]. intros [?|(f & ? & ?)]; congruence.
Qed.

(** [ReadConfig] gives a configuration exactly when the flags are bound, the path of the
    file is set, the file is read or missing, and what was read passes the checks of
    [parseConfig]; what is read but does not pass them is reported as an invalid
    configuration, and nothing panics. *)
Lemma ReadConfig_ends `{Viper} :
  (∀ p, BindPFlags ≠ Panic p ∧ ReadInConfig ≠ Panic p ∧ Unmarshal ≠ Panic p) →
  (∀ c, ReadConfig = Ok c ↔
    is_ok BindPFlags = true ∧ GetString "config" ≠ ""%string ∧
    (ReadInConfig = Ok tt ∨ ∃ e, ReadInConfig = Err e ∧ errors_is e "os.ErrNotExist" = true) ∧
    ∃ u, Unmarshal = Ok u ∧ parseConfig u = Ok c) ∧
  (∀ u, is_ok BindPFlags = true → GetString "config" ≠ ""%string → ReadInConfig = Ok tt →
    Unmarshal = Ok u → ¬ valid u →
    ∃ e, ReadConfig = Err e ∧ errors_is e "config.errInvalidRawConfig" = true) ∧
  ∀ p, ReadConfig ≠ Panic p.
Proof.
  intros Hp. setoid_rewrite <- readFile_ok. unfold ReadConfig.
  assert (∀ p, readFile ≠ Panic p) as Hr.
  { intros p. unfold readFile. destruct ReadInConfig as [[]|e|q] eqn:E; [done|by case_match|].
    by destruct (Hp q) as (_ & [] & _). }
  destruct BindPFlags as [[]|e|p]; simpl; [|naive_solver|by destruct (Hp p) as [[] _]].
  destruct (String.eqb_spec (GetString "config") ""); [naive_solver|].
  destruct readFile as [[]|e|p] eqn:Ef; simpl.
  2: { split_and!; [naive_solver| |done]. intros u _ _ Hread.
       unfold readFile in Ef. by rewrite Hread in Ef. }
  2: by destruct (Hr p).
  destruct Unmarshal as [u|e|p]; simpl; [|naive_solver|by destruct (Hp p) as (_ & _ & [])].
  pose proof (parseConfig_valid u) as Hv. pose proof (parseConfig_no_panic u) as Hn.
  destruct (parseConfig u) as [c|e|p] eqn:Ep; [| |by destruct (Hn p)]; split_and!; try done.
  - intros c'. split; [intros [= <-]; split_and!; eauto|].
    intros (_ & _ & _ & u' & [= <-] & E). congruence.
  - intros u' _ _ _ [= <-] []. by apply Hv.
  - intros c'. split; [done|]. intros (_ & _ & _ & u' & [= <-] & E). congruence.
  - intros u' _ _ _ _ _. by eexists.
Qed.

(** A delay of 9223372036855 ms passes the check and is negative in nanoseconds. *)
Lemma retry_delay_overflow u c :
  parseConfig u = Ok c →
  (u_TokenVisibleRetryDelay u ≤ 9223372036854 →
    TokenVisibleRetryDelay c = u_TokenVisibleRetryDelay u * Millisecond) ∧
  (u_TokenVisibleRetryDelay u = 9223372036855 → TokenVisibleRetryDelay c < 0).
Proof.
  intros E. assert (valid u) as (_ & _ & _ & _ & Hd) by (apply parseConfig_valid; by rewrite E).
  unfold parseConfig in E. repeat case_match; simplify_eq. simpl. split.
  - intros Hle. apply swrap_small; [done|]. unfold in_sint, Millisecond.
    change (2 ^ (64 - 1)) with 9223372036854775808. lia.
  - intros ->. by vm_compute.
Qed.
End Config.

(** ** Witnesses *)
Module Toy.
(** The only key is spelled "key", addresses are written in decimal. *)
Definition HexToECDSA (s : string) : outcome unit :=
  if String.eqb s "key" then Ok tt else Err (Errorf "invalid length, need 256 bits").
Definition HexToAddress (s : string) : Z := default 0 (SetString10 s) mod 2 ^ 160.
Definition AddressHex (a : Z) : string := pretty (Z.to_N a).

Lemma HexToAddress_hex a : in_uint 160 a → HexToAddress (AddressHex a) = a.
Proof.
  intros Ha. unfold HexToAddress, AddressHex. rewrite SetString10_pretty. simpl.
  unfold in_uint in Ha. rewrite Z2N.id by lia. by apply Z.mod_small.
Qed.

#[global] Instance decimal : Hex unit.
Proof.
  refine {| Config.HexToECDSA := HexToECDSA; ECDSAToHex _ := "key"; IsHexAddress _ := true;
            Config.HexToAddress := HexToAddress; Config.AddressHex := AddressHex |}.
  - by intros [].
  - intros s p. unfold HexToECDSA. by case_match.
  - done.
  - apply HexToAddress_hex.
  - intros s. apply Z.mod_pos_bound. done.
Defined.

Definition written : UnparsedConfig := {|
  u_DeveloperMode := false; u_E2ETestMode := false; u_BotKey := "key";
  u_TTMAccountAddress := "12"; u_ChainRPCURL := "wss://chain"; u_BookingTokenAddress := "34";
  u_BotAuthCacheTimeout := 300; u_ResponseTimeout := 3000; u_RecordExpiration := true;
  u_TokenVisibleMaxAttempts := 16; u_TokenVisibleRetryDelay := 1000;
  u_PartnerPlugin := {| pp_Enabled := true; pp_Host := "localhost:50051"; pp_Unencrypted := true;
    CACertFile := "" |};
  u_RPCServer := {| rpc_Enabled := false; Port := 9090; rpc_Unencrypted := true;
    ServerCertFile := ""; ServerKeyFile := "" |};
  u_Matrix := {| u_Host := "matrix" |}; u_DB := {| DBPath := "ttm-db" |}
|}.

(** No file, everything from flags. *)
#[global] Instance flags : Viper := {|
  BindPFlags := Ok tt; GetString _ := "ttmb.yaml"; ReadInConfig := Err (Sentinel "os.ErrNotExist");
  Unmarshal := Ok written
|}.

Definition read : Config unit :=
  match parseConfig written with Ok c => c | _ => {|
    DeveloperMode := false; E2ETestMode := false; BotKey := tt; TTMAccountAddress := 0;
    ChainRPCURL := ""; BookingTokenAddress := 0; BotAuthCacheTimeout := 0; ResponseTimeout := 0;
    RecordExpiration := false; TokenVisibleMaxAttempts := 0; TokenVisibleRetryDelay := 0;
    RPCServer := u_RPCServer written; PartnerPlugin := u_PartnerPlugin written;
    DB := {| Common := u_DB written; EventListener := u_DB written;
      MessagesEncoderDecoder := u_DB written; Resolver := u_DB written |};
    Matrix := {| Host := ""; Store := "" |} |}
  end.
End Toy.

Example read_without_a_file : ReadConfig = Ok Toy.read.
Proof. vm_compute. reflexivity. Qed.

Lemma config_roundtrip_witness :
  ResponseTimeout Toy.read = 3 * Second ∧
  parseConfig (unparse Toy.read) = Ok Toy.read ∧ unparse Toy.read = Toy.written.
Proof.
  split; [by vm_compute|].
  destruct (config_roundtrip Toy.written Toy.read) as [H1 H2].
  - by vm_compute.
  - unfold fits, in_sint. simpl. vm_compute. repeat split; discriminate.
  - split; [exact H1|]. apply H2. split_and!.
    + by exists tt.
    + exists 12. split; [split; [discriminate|reflexivity]|by vm_compute].
    + exists 34. split; [split; [discriminate|reflexivity]|by vm_compute].
Defined.
