(* ===== verification/Generated.v ===== *)
(** * The generated services (internal/rpc/generated), file by file

    For each of the 48 services the generator wrote four files: the constants and the
    constructor of its client, the client's call of the partner plugin, the registration
    of its server and the server's method.  [Gateway] has the two templates they are made
    from and [Services] the table of the services; here every file is its own definition,
    with the three files that list them all, and [generated_equivalence] shows that the
    generated code is the templates applied to the table.  The Go packages and types of
    the protocol are known by their names. *)
From S2P Require Import Prelude Decimal Message Services Version Processor Gateway.
From Stdlib Require Import Ascii.
From stdpp Require Import gmap sets.

#[local] Open Scope Z_scope.
#[local] Arguments String.append : simpl nomatch.

Section Generated.
Context {Body : Type}.
Variable emptyBody : Body.
Variable version : versions.
Variable Validate : content Body → option error.
Variable Error : error → string.
Context {X : Type}.
Variable grpc_v1 : string → list (string * string) → content Body → M X (responseV1 Body).
Variable grpc_v2 : string → list (string * string) → content Body → M X (responseV2 Body).
Context {Svc : Type} `{!ProcessorEnv X (content Body) Svc}.
Variable ttmAccountAddress : Z.
Variable IsHexAddress : string → bool.
Variable HexToAddress : string → Z.
Variable MarshalToString : Timestamps → outcome string.
Variable uuid_New : M X string.
Variable SendHeader : list (string * string) → M X unit.

(** ** What a generated file declares *)

(** The constants of a client file and the gRPC client it holds. *)
Record names := {
  type_Service : string;
  type_Request : string;
  type_Response : string;
  grpc_client : string * string
}.

Definition generatedNames (fqpn grpcPackage grpcClient : string) : names := {|
  type_Service := fqpn;
  type_Request := fqpn +:+ ".Request";
  type_Response := fqpn +:+ ".Response";
  grpc_client := (grpcPackage, grpcClient)
|}.

(** [rpc.Client] *)
Record rpcClient := {
  client_Call : list (string * string) → content Body → M X (content Body * string);
  client_InvalidProtoErrResponseAndType : string → content Body * string
}.

(** [rpc.NewService(client, name)] *)
Record rpcService := { service_Client : rpcClient; service_Name : string }.

Abbreviation context := (option (gmap string (list string))).
Definition serverMethod : Type :=
  context → content Body → M (messageProcessor (X := X)) (content Body).

(** [grpcPackage.RegisterXServer(grpcServer, server)]: the Go package and the service the
    gRPC library is told of, and the method that serves it. *)
Record registration := {
  reg_package : string;
  reg_service : string;
  reg_method : string;
  reg_server : serverMethod
}.
Definition Register (package service method : string) (server : serverMethod) : registration :=
  {| reg_package := package; reg_service := service; reg_method := method; reg_server := server |}.

(** The templates. *)
Definition clientV1 (n : names) : rpcClient := {|
  client_Call := CallV1 emptyBody version Error grpc_v1 (type_Service n);
  client_InvalidProtoErrResponseAndType m :=
    (errorResponseV1 emptyBody version (type_Service n) m, type_Response n)
|}.
Definition clientV2 (n : names) : rpcClient := {|
  client_Call := CallV2 emptyBody version Validate Error grpc_v2 (type_Service n);
  client_InvalidProtoErrResponseAndType m :=
    (errorResponseV2 emptyBody version (type_Service n) ERROR_CODE_INVALID_PROTO m, type_Response n)
|}.
Definition serverV1 (n : names) : serverMethod :=
  methodV1 emptyBody version Error ttmAccountAddress IsHexAddress HexToAddress
    MarshalToString uuid_New SendHeader {| Name := type_Service n; service_template := V1 |}.
Definition serverV2 (n : names) : serverMethod :=
  methodV2 emptyBody version Validate Error ttmAccountAddress IsHexAddress HexToAddress
    MarshalToString uuid_New SendHeader {| Name := type_Service n; service_template := V2 |}.

(** ** The services *)

(** [accommodationv3_AccommodationProductInfo_*.go] *)
Definition AccommodationProductInfoServiceV3 : names :=
  generatedNames "ttm.services.accommodation.v3.AccommodationProductInfoService"
    "accommodationv3grpc" "AccommodationProductInfoService".
Definition AccommodationProductInfoV3Client : rpcClient := clientV1 AccommodationProductInfoServiceV3.
Definition accommodationv3AccommodationProductInfoServer_AccommodationProductInfo : serverMethod :=
  serverV1 AccommodationProductInfoServiceV3.
Definition registerAccommodationProductInfoServiceV3Server : registration :=
  Register "accommodationv3grpc" "AccommodationProductInfoService" "AccommodationProductInfo"
    accommodationv3AccommodationProductInfoServer_AccommodationProductInfo.

(** [accommodationv3_AccommodationProductList_*.go] *)
Definition AccommodationProductListServiceV3 : names :=
  generatedNames "ttm.services.accommodation.v3.AccommodationProductListService"
    "accommodationv3grpc" "AccommodationProductListService".
Definition AccommodationProductListV3Client : rpcClient := clientV1 AccommodationProductListServiceV3.
Definition accommodationv3AccommodationProductListServer_AccommodationProductList : serverMethod :=
  serverV1 AccommodationProductListServiceV3.
Definition registerAccommodationProductListServiceV3Server : registration :=
  Register "accommodationv3grpc" "AccommodationProductListService" "AccommodationProductList"
    accommodationv3AccommodationProductListServer_AccommodationProductList.

(** [accommodationv3_AccommodationSearch_*.go] *)
Definition AccommodationSearchServiceV3 : names :=
  generatedNames "ttm.services.accommodation.v3.AccommodationSearchService"
    "accommodationv3grpc" "AccommodationSearchService".
Definition AccommodationSearchV3Client : rpcClient := clientV1 AccommodationSearchServiceV3.
Definition accommodationv3AccommodationSearchServer_AccommodationSearch : serverMethod :=
  serverV1 AccommodationSearchServiceV3.
Definition registerAccommodationSearchServiceV3Server : registration :=
  Register "accommodationv3grpc" "AccommodationSearchService" "AccommodationSearch"
    accommodationv3AccommodationSearchServer_AccommodationSearch.

(** [accommodationv4_AccommodationProductInfo_*.go] *)
Definition AccommodationProductInfoServiceV4 : names :=
  generatedNames "ttm.services.accommodation.v4.AccommodationProductInfoService"
    "accommodationv4grpc" "AccommodationProductInfoService".
Definition AccommodationProductInfoV4Client : rpcClient := clientV2 AccommodationProductInfoServiceV4.
Definition accommodationv4AccommodationProductInfoServer_AccommodationProductInfo : serverMethod :=
  serverV2 AccommodationProductInfoServiceV4.
Definition registerAccommodationProductInfoServiceV4Server : registration :=
  Register "accommodationv4grpc" "AccommodationProductInfoService" "AccommodationProductInfo"
    accommodationv4AccommodationProductInfoServer_AccommodationProductInfo.

(** [accommodationv4_AccommodationProductList_*.go] *)
Definition AccommodationProductListServiceV4 : names :=
  generatedNames "ttm.services.accommodation.v4.AccommodationProductListService"
    "accommodationv4grpc" "AccommodationProductListService".
Definition AccommodationProductListV4Client : rpcClient := clientV2 AccommodationProductListServiceV4.
Definition accommodationv4AccommodationProductListServer_AccommodationProductList : serverMethod :=
  serverV2 AccommodationProductListServiceV4.
Definition registerAccommodationProductListServiceV4Server : registration :=
  Register "accommodationv4grpc" "AccommodationProductListService" "AccommodationProductList"
    accommodationv4AccommodationProductListServer_AccommodationProductList.

(** [accommodationv4_AccommodationSearch_*.go] *)
Definition AccommodationSearchServiceV4 : names :=
  generatedNames "ttm.services.accommodation.v4.AccommodationSearchService"
    "accommodationv4grpc" "AccommodationSearchService".
Definition AccommodationSearchV4Client : rpcClient := clientV2 AccommodationSearchServiceV4.
Definition accommodationv4AccommodationSearchServer_AccommodationSearch : serverMethod :=
  serverV2 AccommodationSearchServiceV4.
Definition registerAccommodationSearchServiceV4Server : registration :=
  Register "accommodationv4grpc" "AccommodationSearchService" "AccommodationSearch"
    accommodationv4AccommodationSearchServer_AccommodationSearch.

(** [accommodationv4_AccommodationProductShortList_*.go] *)
Definition AccommodationProductShortListServiceV4 : names :=
  generatedNames "ttm.services.accommodation.v4.AccommodationProductShortListService"
    "accommodationv4grpc" "AccommodationProductShortListService".
Definition AccommodationProductShortListV4Client : rpcClient := clientV2 AccommodationProductShortListServiceV4.
Definition accommodationv4AccommodationProductShortListServer_AccommodationProductShortList : serverMethod :=
  serverV2 AccommodationProductShortListServiceV4.
Definition registerAccommodationProductShortListServiceV4Server : registration :=
  Register "accommodationv4grpc" "AccommodationProductShortListService" "AccommodationProductShortList"
    accommodationv4AccommodationProductShortListServer_AccommodationProductShortList.

(** [accommodationv5_AccommodationProductInfo_*.go] *)
Definition AccommodationProductInfoServiceV5 : names :=
  generatedNames "ttm.services.accommodation.v5.AccommodationProductInfoService"
    "accommodationv5grpc" "AccommodationProductInfoService".
Definition AccommodationProductInfoV5Client : rpcClient := clientV2 AccommodationProductInfoServiceV5.
Definition accommodationv5AccommodationProductInfoServer_AccommodationProductInfo : serverMethod :=
  serverV2 AccommodationProductInfoServiceV5.
Definition registerAccommodationProductInfoServiceV5Server : registration :=
  Register "accommodationv5grpc" "AccommodationProductInfoService" "AccommodationProductInfo"
    accommodationv5AccommodationProductInfoServer_AccommodationProductInfo.

(** [accommodationv5_AccommodationProductList_*.go] *)
Definition AccommodationProductListServiceV5 : names :=
  generatedNames "ttm.services.accommodation.v5.AccommodationProductListService"
    "accommodationv5grpc" "AccommodationProductListService".
Definition AccommodationProductListV5Client : rpcClient := clientV2 AccommodationProductListServiceV5.
Definition accommodationv5AccommodationProductListServer_AccommodationProductList : serverMethod :=
  serverV2 AccommodationProductListServiceV5.
Definition registerAccommodationProductListServiceV5Server : registration :=
  Register "accommodationv5grpc" "AccommodationProductListService" "AccommodationProductList"
    accommodationv5AccommodationProductListServer_AccommodationProductList.

(** [accommodationv5_AccommodationSearch_*.go] *)
Definition AccommodationSearchServiceV5 : names :=
  generatedNames "ttm.services.accommodation.v5.AccommodationSearchService"
    "accommodationv5grpc" "AccommodationSearchService".
Definition AccommodationSearchV5Client : rpcClient := clientV2 AccommodationSearchServiceV5.
Definition accommodationv5AccommodationSearchServer_AccommodationSearch : serverMethod :=
  serverV2 AccommodationSearchServiceV5.
Definition registerAccommodationSearchServiceV5Server : registration :=
  Register "accommodationv5grpc" "AccommodationSearchService" "AccommodationSearch"
    accommodationv5AccommodationSearchServer_AccommodationSearch.

(** [accommodationv5_AccommodationProductShortList_*.go] *)
Definition AccommodationProductShortListServiceV5 : names :=
  generatedNames "ttm.services.accommodation.v5.AccommodationProductShortListService"
    "accommodationv5grpc" "AccommodationProductShortListService".
Definition AccommodationProductShortListV5Client : rpcClient := clientV2 AccommodationProductShortListServiceV5.
Definition accommodationv5AccommodationProductShortListServer_AccommodationProductShortList : serverMethod :=
  serverV2 AccommodationProductShortListServiceV5.
Definition registerAccommodationProductShortListServiceV5Server : registration :=
  Register "accommodationv5grpc" "AccommodationProductShortListService" "AccommodationProductShortList"
    accommodationv5AccommodationProductShortListServer_AccommodationProductShortList.

(** [activityv3_ActivityProductInfo_*.go] *)
Definition ActivityProductInfoServiceV3 : names :=
  generatedNames "ttm.services.activity.v3.ActivityProductInfoService"
    "activityv3grpc" "ActivityProductInfoService".
Definition ActivityProductInfoV3Client : rpcClient := clientV1 ActivityProductInfoServiceV3.
Definition activityv3ActivityProductInfoServer_ActivityProductInfo : serverMethod :=
  serverV1 ActivityProductInfoServiceV3.
Definition registerActivityProductInfoServiceV3Server : registration :=
  Register "activityv3grpc" "ActivityProductInfoService" "ActivityProductInfo"
    activityv3ActivityProductInfoServer_ActivityProductInfo.

(** [activityv3_ActivityProductList_*.go] *)
Definition ActivityProductListServiceV3 : names :=
  generatedNames "ttm.services.activity.v3.ActivityProductListService"
    "activityv3grpc" "ActivityProductListService".
Definition ActivityProductListV3Client : rpcClient := clientV1 ActivityProductListServiceV3.
Definition activityv3ActivityProductListServer_ActivityProductList : serverMethod :=
  serverV1 ActivityProductListServiceV3.
Definition registerActivityProductListServiceV3Server : registration :=
  Register "activityv3grpc" "ActivityProductListService" "ActivityProductList"
    activityv3ActivityProductListServer_ActivityProductList.

(** [activityv3_ActivitySearch_*.go] *)
Definition ActivitySearchServiceV3 : names :=
  generatedNames "ttm.services.activity.v3.ActivitySearchService"
    "activityv3grpc" "ActivitySearchService".
Definition ActivitySearchV3Client : rpcClient := clientV1 ActivitySearchServiceV3.
Definition activityv3ActivitySearchServer_ActivitySearch : serverMethod :=
  serverV1 ActivitySearchServiceV3.
Definition registerActivitySearchServiceV3Server : registration :=
  Register "activityv3grpc" "ActivitySearchService" "ActivitySearch"
    activityv3ActivitySearchServer_ActivitySearch.

(** [activityv4_ActivityProductInfo_*.go] *)
Definition ActivityProductInfoServiceV4 : names :=
  generatedNames "ttm.services.activity.v4.ActivityProductInfoService"
    "activityv4grpc" "ActivityProductInfoService".
Definition ActivityProductInfoV4Client : rpcClient := clientV2 ActivityProductInfoServiceV4.
Definition activityv4ActivityProductInfoServer_ActivityProductInfo : serverMethod :=
  serverV2 ActivityProductInfoServiceV4.
Definition registerActivityProductInfoServiceV4Server : registration :=
  Register "activityv4grpc" "ActivityProductInfoService" "ActivityProductInfo"
    activityv4ActivityProductInfoServer_ActivityProductInfo.

(** [activityv4_ActivityProductList_*.go] *)
Definition ActivityProductListServiceV4 : names :=
  generatedNames "ttm.services.activity.v4.ActivityProductListService"
    "activityv4grpc" "ActivityProductListService".
Definition ActivityProductListV4Client : rpcClient := clientV2 ActivityProductListServiceV4.
Definition activityv4ActivityProductListServer_ActivityProductList : serverMethod :=
  serverV2 ActivityProductListServiceV4.
Definition registerActivityProductListServiceV4Server : registration :=
  Register "activityv4grpc" "ActivityProductListService" "ActivityProductList"
    activityv4ActivityProductListServer_ActivityProductList.

(** [activityv4_ActivitySearch_*.go] *)
Definition ActivitySearchServiceV4 : names :=
  generatedNames "ttm.services.activity.v4.ActivitySearchService"
    "activityv4grpc" "ActivitySearchService".
Definition ActivitySearchV4Client : rpcClient := clientV2 ActivitySearchServiceV4.
Definition activityv4ActivitySearchServer_ActivitySearch : serverMethod :=
  serverV2 ActivitySearchServiceV4.
Definition registerActivitySearchServiceV4Server : registration :=
  Register "activityv4grpc" "ActivitySearchService" "ActivitySearch"
    activityv4ActivitySearchServer_ActivitySearch.

(** [activityv4_ActivityProductShortList_*.go] *)
Definition ActivityProductShortListServiceV4 : names :=
  generatedNames "ttm.services.activity.v4.ActivityProductShortListService"
    "activityv4grpc" "ActivityProductShortListService".
Definition ActivityProductShortListV4Client : rpcClient := clientV2 ActivityProductShortListServiceV4.
Definition activityv4ActivityProductShortListServer_ActivityProductShortList : serverMethod :=
  serverV2 ActivityProductShortListServiceV4.
Definition registerActivityProductShortListServiceV4Server : registration :=
  Register "activityv4grpc" "ActivityProductShortListService" "ActivityProductShortList"
    activityv4ActivityProductShortListServer_ActivityProductShortList.

(** [activityv5_ActivityProductInfo_*.go] *)
Definition ActivityProductInfoServiceV5 : names :=
  generatedNames "ttm.services.activity.v5.ActivityProductInfoService"
    "activityv5grpc" "ActivityProductInfoService".
Definition ActivityProductInfoV5Client : rpcClient := clientV2 ActivityProductInfoServiceV5.
Definition activityv5ActivityProductInfoServer_ActivityProductInfo : serverMethod :=
  serverV2 ActivityProductInfoServiceV5.
Definition registerActivityProductInfoServiceV5Server : registration :=
  Register "activityv5grpc" "ActivityProductInfoService" "ActivityProductInfo"
    activityv5ActivityProductInfoServer_ActivityProductInfo.

(** [activityv5_ActivityProductList_*.go] *)
Definition ActivityProductListServiceV5 : names :=
  generatedNames "ttm.services.activity.v5.ActivityProductListService"
    "activityv5grpc" "ActivityProductListService".
Definition ActivityProductListV5Client : rpcClient := clientV2 ActivityProductListServiceV5.
Definition activityv5ActivityProductListServer_ActivityProductList : serverMethod :=
  serverV2 ActivityProductListServiceV5.
Definition registerActivityProductListServiceV5Server : registration :=
  Register "activityv5grpc" "ActivityProductListService" "ActivityProductList"
    activityv5ActivityProductListServer_ActivityProductList.

(** [activityv5_ActivitySearch_*.go] *)
Definition ActivitySearchServiceV5 : names :=
  generatedNames "ttm.services.activity.v5.ActivitySearchService"
    "activityv5grpc" "ActivitySearchService".
Definition ActivitySearchV5Client : rpcClient := clientV2 ActivitySearchServiceV5.
Definition activityv5ActivitySearchServer_ActivitySearch : serverMethod :=
  serverV2 ActivitySearchServiceV5.
Definition registerActivitySearchServiceV5Server : registration :=
  Register "activityv5grpc" "ActivitySearchService" "ActivitySearch"
    activityv5ActivitySearchServer_ActivitySearch.

(** [activityv5_ActivityProductShortList_*.go] *)
Definition ActivityProductShortListServiceV5 : names :=
  generatedNames "ttm.services.activity.v5.ActivityProductShortListService"
    "activityv5grpc" "ActivityProductShortListService".
Definition ActivityProductShortListV5Client : rpcClient := clientV2 ActivityProductShortListServiceV5.
Definition activityv5ActivityProductShortListServer_ActivityProductShortList : serverMethod :=
  serverV2 ActivityProductShortListServiceV5.
Definition registerActivityProductShortListServiceV5Server : registration :=
  Register "activityv5grpc" "ActivityProductShortListService" "ActivityProductShortList"
    activityv5ActivityProductShortListServer_ActivityProductShortList.

(** [bookv3_Mint_*.go] *)
Definition MintServiceV3 : names :=
  generatedNames "ttm.services.book.v3.MintService"
    "bookv3grpc" "MintService".
Definition MintV3Client : rpcClient := clientV1 MintServiceV3.
Definition bookv3MintServer_Mint : serverMethod :=
  serverV1 MintServiceV3.
Definition registerMintServiceV3Server : registration :=
  Register "bookv3grpc" "MintService" "Mint"
    bookv3MintServer_Mint.

(** [bookv3_Validation_*.go] *)
Definition ValidationServiceV3 : names :=
  generatedNames "ttm.services.book.v3.ValidationService"
    "bookv3grpc" "ValidationService".
Definition ValidationV3Client : rpcClient := clientV1 ValidationServiceV3.
Definition bookv3ValidationServer_Validation : serverMethod :=
  serverV1 ValidationServiceV3.
Definition registerValidationServiceV3Server : registration :=
  Register "bookv3grpc" "ValidationService" "Validation"
    bookv3ValidationServer_Validation.

(** [bookv4_Mint_*.go] *)
Definition MintServiceV4 : names :=
  generatedNames "ttm.services.book.v4.MintService"
    "bookv4grpc" "MintService".
Definition MintV4Client : rpcClient := clientV2 MintServiceV4.
Definition bookv4MintServer_Mint : serverMethod :=
  serverV2 MintServiceV4.
Definition registerMintServiceV4Server : registration :=
  Register "bookv4grpc" "MintService" "Mint"
    bookv4MintServer_Mint.

(** [bookv4_Validation_*.go] *)
Definition ValidationServiceV4 : names :=
  generatedNames "ttm.services.book.v4.ValidationService"
    "bookv4grpc" "ValidationService".
Definition ValidationV4Client : rpcClient := clientV2 ValidationServiceV4.
Definition bookv4ValidationServer_Validation : serverMethod :=
  serverV2 ValidationServiceV4.
Definition registerValidationServiceV4Server : registration :=
  Register "bookv4grpc" "ValidationService" "Validation"
    bookv4ValidationServer_Validation.

(** [bookv5_Mint_*.go] *)
Definition MintServiceV5 : names :=
  generatedNames "ttm.services.book.v5.MintService"
    "bookv5grpc" "MintService".
Definition MintV5Client : rpcClient := clientV2 MintServiceV5.
Definition bookv5MintServer_Mint : serverMethod :=
  serverV2 MintServiceV5.
Definition registerMintServiceV5Server : registration :=
  Register "bookv5grpc" "MintService" "Mint"
    bookv5MintServer_Mint.

(** [bookv5_Validation_*.go] *)
Definition ValidationServiceV5 : names :=
  generatedNames "ttm.services.book.v5.ValidationService"
    "bookv5grpc" "ValidationService".
Definition ValidationV5Client : rpcClient := clientV2 ValidationServiceV5.
Definition bookv5ValidationServer_Validation : serverMethod :=
  serverV2 ValidationServiceV5.
Definition registerValidationServiceV5Server : registration :=
  Register "bookv5grpc" "ValidationService" "Validation"
    bookv5ValidationServer_Validation.

(** [cancellationv1_CheckCancellation_*.go] *)
Definition CheckCancellationServiceV1 : names :=
  generatedNames "ttm.services.cancellation.v1.CheckCancellationService"
    "cancellationv1grpc" "CheckCancellationService".
Definition CheckCancellationV1Client : rpcClient := clientV1 CheckCancellationServiceV1.
Definition cancellationv1CheckCancellationServer_CheckCancellation : serverMethod :=
  serverV1 CheckCancellationServiceV1.
Definition registerCheckCancellationServiceV1Server : registration :=
  Register "cancellationv1grpc" "CheckCancellationService" "CheckCancellation"
    cancellationv1CheckCancellationServer_CheckCancellation.

(** [cancellationv2_CheckCancellation_*.go] *)
Definition CheckCancellationServiceV2 : names :=
  generatedNames "ttm.services.cancellation.v2.CheckCancellationService"
    "cancellationv2grpc" "CheckCancellationService".
Definition CheckCancellationV2Client : rpcClient := clientV2 CheckCancellationServiceV2.
Definition cancellationv2CheckCancellationServer_CheckCancellation : serverMethod :=
  serverV2 CheckCancellationServiceV2.
Definition registerCheckCancellationServiceV2Server : registration :=
  Register "cancellationv2grpc" "CheckCancellationService" "CheckCancellation"
    cancellationv2CheckCancellationServer_CheckCancellation.

(** [cancellationv3_CheckCancellation_*.go] *)
Definition CheckCancellationServiceV3 : names :=
  generatedNames "ttm.services.cancellation.v3.CheckCancellationService"
    "cancellationv3grpc" "CheckCancellationService".
Definition CheckCancellationV3Client : rpcClient := clientV2 CheckCancellationServiceV3.
Definition cancellationv3CheckCancellationServer_CheckCancellation : serverMethod :=
  serverV2 CheckCancellationServiceV3.
Definition registerCheckCancellationServiceV3Server : registration :=
  Register "cancellationv3grpc" "CheckCancellationService" "CheckCancellation"
    cancellationv3CheckCancellationServer_CheckCancellation.

(** [infov1_CountryEntryRequirements_*.go] *)
Definition CountryEntryRequirementsServiceV1 : names :=
  generatedNames "ttm.services.info.v1.CountryEntryRequirementsService"
    "infov1grpc" "CountryEntryRequirementsService".
Definition CountryEntryRequirementsV1Client : rpcClient := clientV1 CountryEntryRequirementsServiceV1.
Definition infov1CountryEntryRequirementsServer_CountryEntryRequirements : serverMethod :=
  serverV1 CountryEntryRequirementsServiceV1.
Definition registerCountryEntryRequirementsServiceV1Server : registration :=
  Register "infov1grpc" "CountryEntryRequirementsService" "CountryEntryRequirements"
    infov1CountryEntryRequirementsServer_CountryEntryRequirements.

(** [infov2_CountryEntryRequirements_*.go] *)
Definition CountryEntryRequirementsServiceV2 : names :=
  generatedNames "ttm.services.info.v2.CountryEntryRequirementsService"
    "infov2grpc" "CountryEntryRequirementsService".
Definition CountryEntryRequirementsV2Client : rpcClient := clientV1 CountryEntryRequirementsServiceV2.
Definition infov2CountryEntryRequirementsServer_CountryEntryRequirements : serverMethod :=
  serverV1 CountryEntryRequirementsServiceV2.
Definition registerCountryEntryRequirementsServiceV2Server : registration :=
  Register "infov2grpc" "CountryEntryRequirementsService" "CountryEntryRequirements"
    infov2CountryEntryRequirementsServer_CountryEntryRequirements.

(** [infov3_CountryEntryRequirements_*.go] *)
Definition CountryEntryRequirementsServiceV3 : names :=
  generatedNames "ttm.services.info.v3.CountryEntryRequirementsService"
    "infov3grpc" "CountryEntryRequirementsService".
Definition CountryEntryRequirementsV3Client : rpcClient := clientV2 CountryEntryRequirementsServiceV3.
Definition infov3CountryEntryRequirementsServer_CountryEntryRequirements : serverMethod :=
  serverV2 CountryEntryRequirementsServiceV3.
Definition registerCountryEntryRequirementsServiceV3Server : registration :=
  Register "infov3grpc" "CountryEntryRequirementsService" "CountryEntryRequirements"
    infov3CountryEntryRequirementsServer_CountryEntryRequirements.

(** [pingv1_Ping_*.go] *)
Definition PingServiceV1 : names :=
  generatedNames "ttm.services.ping.v1.PingService"
    "pingv1grpc" "PingService".
Definition PingV1Client : rpcClient := clientV1 PingServiceV1.
Definition pingv1PingServer_Ping : serverMethod :=
  serverV1 PingServiceV1.
Definition registerPingServiceV1Server : registration :=
  Register "pingv1grpc" "PingService" "Ping"
    pingv1PingServer_Ping.

(** [pingv2_Ping_*.go] *)
Definition PingServiceV2 : names :=
  generatedNames "ttm.services.ping.v2.PingService"
    "pingv2grpc" "PingService".
Definition PingV2Client : rpcClient := clientV2 PingServiceV2.
Definition pingv2PingServer_Ping : serverMethod :=
  serverV2 PingServiceV2.
Definition registerPingServiceV2Server : registration :=
  Register "pingv2grpc" "PingService" "Ping"
    pingv2PingServer_Ping.

(** [seat_mapv2_SeatMapAvailability_*.go] *)
Definition SeatMapAvailabilityServiceV2 : names :=
  generatedNames "ttm.services.seat_map.v2.SeatMapAvailabilityService"
    "seat_mapv2grpc" "SeatMapAvailabilityService".
Definition SeatMapAvailabilityV2Client : rpcClient := clientV1 SeatMapAvailabilityServiceV2.
Definition seat_mapv2SeatMapAvailabilityServer_SeatMapAvailability : serverMethod :=
  serverV1 SeatMapAvailabilityServiceV2.
Definition registerSeatMapAvailabilityServiceV2Server : registration :=
  Register "seat_mapv2grpc" "SeatMapAvailabilityService" "SeatMapAvailability"
    seat_mapv2SeatMapAvailabilityServer_SeatMapAvailability.

(** [seat_mapv2_SeatMap_*.go] *)
Definition SeatMapServiceV2 : names :=
  generatedNames "ttm.services.seat_map.v2.SeatMapService"
    "seat_mapv2grpc" "SeatMapService".
Definition SeatMapV2Client : rpcClient := clientV1 SeatMapServiceV2.
Definition seat_mapv2SeatMapServer_SeatMap : serverMethod :=
  serverV1 SeatMapServiceV2.
Definition registerSeatMapServiceV2Server : registration :=
  Register "seat_mapv2grpc" "SeatMapService" "SeatMap"
    seat_mapv2SeatMapServer_SeatMap.

(** [seat_mapv3_SeatMapAvailability_*.go] *)
Definition SeatMapAvailabilityServiceV3 : names :=
  generatedNames "ttm.services.seat_map.v3.SeatMapAvailabilityService"
    "seat_mapv3grpc" "SeatMapAvailabilityService".
Definition SeatMapAvailabilityV3Client : rpcClient := clientV1 SeatMapAvailabilityServiceV3.
Definition seat_mapv3SeatMapAvailabilityServer_SeatMapAvailability : serverMethod :=
  serverV1 SeatMapAvailabilityServiceV3.
Definition registerSeatMapAvailabilityServiceV3Server : registration :=
  Register "seat_mapv3grpc" "SeatMapAvailabilityService" "SeatMapAvailability"
    seat_mapv3SeatMapAvailabilityServer_SeatMapAvailability.

(** [seat_mapv3_SeatMap_*.go] *)
Definition SeatMapServiceV3 : names :=
  generatedNames "ttm.services.seat_map.v3.SeatMapService"
    "seat_mapv3grpc" "SeatMapService".
Definition SeatMapV3Client : rpcClient := clientV1 SeatMapServiceV3.
Definition seat_mapv3SeatMapServer_SeatMap : serverMethod :=
  serverV1 SeatMapServiceV3.
Definition registerSeatMapServiceV3Server : registration :=
  Register "seat_mapv3grpc" "SeatMapService" "SeatMap"
    seat_mapv3SeatMapServer_SeatMap.

(** [seat_mapv4_SeatMapAvailability_*.go] *)
Definition SeatMapAvailabilityServiceV4 : names :=
  generatedNames "ttm.services.seat_map.v4.SeatMapAvailabilityService"
    "seat_mapv4grpc" "SeatMapAvailabilityService".
Definition SeatMapAvailabilityV4Client : rpcClient := clientV2 SeatMapAvailabilityServiceV4.
Definition seat_mapv4SeatMapAvailabilityServer_SeatMapAvailability : serverMethod :=
  serverV2 SeatMapAvailabilityServiceV4.
Definition registerSeatMapAvailabilityServiceV4Server : registration :=
  Register "seat_mapv4grpc" "SeatMapAvailabilityService" "SeatMapAvailability"
    seat_mapv4SeatMapAvailabilityServer_SeatMapAvailability.

(** [seat_mapv4_SeatMap_*.go] *)
Definition SeatMapServiceV4 : names :=
  generatedNames "ttm.services.seat_map.v4.SeatMapService"
    "seat_mapv4grpc" "SeatMapService".
Definition SeatMapV4Client : rpcClient := clientV2 SeatMapServiceV4.
Definition seat_mapv4SeatMapServer_SeatMap : serverMethod :=
  serverV2 SeatMapServiceV4.
Definition registerSeatMapServiceV4Server : registration :=
  Register "seat_mapv4grpc" "SeatMapService" "SeatMap"
    seat_mapv4SeatMapServer_SeatMap.

(** [transportv3_TransportProductList_*.go] *)
Definition TransportProductListServiceV3 : names :=
  generatedNames "ttm.services.transport.v3.TransportProductListService"
    "transportv3grpc" "TransportProductListService".
Definition TransportProductListV3Client : rpcClient := clientV1 TransportProductListServiceV3.
Definition transportv3TransportProductListServer_TransportProductList : serverMethod :=
  serverV1 TransportProductListServiceV3.
Definition registerTransportProductListServiceV3Server : registration :=
  Register "transportv3grpc" "TransportProductListService" "TransportProductList"
    transportv3TransportProductListServer_TransportProductList.

(** [transportv3_TransportSearch_*.go] *)
Definition TransportSearchServiceV3 : names :=
  generatedNames "ttm.services.transport.v3.TransportSearchService"
    "transportv3grpc" "TransportSearchService".
Definition TransportSearchV3Client : rpcClient := clientV1 TransportSearchServiceV3.
Definition transportv3TransportSearchServer_TransportSearch : serverMethod :=
  serverV1 TransportSearchServiceV3.
Definition registerTransportSearchServiceV3Server : registration :=
  Register "transportv3grpc" "TransportSearchService" "TransportSearch"
    transportv3TransportSearchServer_TransportSearch.

(** [transportv4_TransportProductList_*.go] *)
Definition TransportProductListServiceV4 : names :=
  generatedNames "ttm.services.transport.v4.TransportProductListService"
    "transportv4grpc" "TransportProductListService".
Definition TransportProductListV4Client : rpcClient := clientV2 TransportProductListServiceV4.
Definition transportv4TransportProductListServer_TransportProductList : serverMethod :=
  serverV2 TransportProductListServiceV4.
Definition registerTransportProductListServiceV4Server : registration :=
  Register "transportv4grpc" "TransportProductListService" "TransportProductList"
    transportv4TransportProductListServer_TransportProductList.

(** [transportv4_TransportSearch_*.go] *)
Definition TransportSearchServiceV4 : names :=
  generatedNames "ttm.services.transport.v4.TransportSearchService"
    "transportv4grpc" "TransportSearchService".
Definition TransportSearchV4Client : rpcClient := clientV2 TransportSearchServiceV4.
Definition transportv4TransportSearchServer_TransportSearch : serverMethod :=
  serverV2 TransportSearchServiceV4.
Definition registerTransportSearchServiceV4Server : registration :=
  Register "transportv4grpc" "TransportSearchService" "TransportSearch"
    transportv4TransportSearchServer_TransportSearch.

(** [transportv5_TransportProductList_*.go] *)
Definition TransportProductListServiceV5 : names :=
  generatedNames "ttm.services.transport.v5.TransportProductListService"
    "transportv5grpc" "TransportProductListService".
Definition TransportProductListV5Client : rpcClient := clientV2 TransportProductListServiceV5.
Definition transportv5TransportProductListServer_TransportProductList : serverMethod :=
  serverV2 TransportProductListServiceV5.
Definition registerTransportProductListServiceV5Server : registration :=
  Register "transportv5grpc" "TransportProductListService" "TransportProductList"
    transportv5TransportProductListServer_TransportProductList.

(** [transportv5_TransportSearch_*.go] *)
Definition TransportSearchServiceV5 : names :=
  generatedNames "ttm.services.transport.v5.TransportSearchService"
    "transportv5grpc" "TransportSearchService".
Definition TransportSearchV5Client : rpcClient := clientV2 TransportSearchServiceV5.
Definition transportv5TransportSearchServer_TransportSearch : serverMethod :=
  serverV2 TransportSearchServiceV5.
Definition registerTransportSearchServiceV5Server : registration :=
  Register "transportv5grpc" "TransportSearchService" "TransportSearch"
    transportv5TransportSearchServer_TransportSearch.

(** ** The lists of them all *)

(** [register_server_services.go]: the registrations in their order. *)
Definition RegisterServerServices : list registration := [
  registerAccommodationProductInfoServiceV3Server;
  registerAccommodationProductListServiceV3Server;
  registerAccommodationSearchServiceV3Server;
  registerAccommodationProductInfoServiceV4Server;
  registerAccommodationProductListServiceV4Server;
  registerAccommodationSearchServiceV4Server;
  registerAccommodationProductShortListServiceV4Server;
  registerAccommodationProductInfoServiceV5Server;
  registerAccommodationProductListServiceV5Server;
  registerAccommodationSearchServiceV5Server;
  registerAccommodationProductShortListServiceV5Server;
  registerActivityProductInfoServiceV3Server;
  registerActivityProductListServiceV3Server;
  registerActivitySearchServiceV3Server;
  registerActivityProductInfoServiceV4Server;
  registerActivityProductListServiceV4Server;
  registerActivitySearchServiceV4Server;
  registerActivityProductShortListServiceV4Server;
  registerActivityProductInfoServiceV5Server;
  registerActivityProductListServiceV5Server;
  registerActivitySearchServiceV5Server;
  registerActivityProductShortListServiceV5Server;
  registerMintServiceV3Server;
  registerValidationServiceV3Server;
  registerMintServiceV4Server;
  registerValidationServiceV4Server;
  registerMintServiceV5Server;
  registerValidationServiceV5Server;
  registerCheckCancellationServiceV1Server;
  registerCheckCancellationServiceV2Server;
  registerCheckCancellationServiceV3Server;
  registerCountryEntryRequirementsServiceV1Server;
  registerCountryEntryRequirementsServiceV2Server;
  registerCountryEntryRequirementsServiceV3Server;
  registerPingServiceV1Server;
  registerPingServiceV2Server;
  registerSeatMapAvailabilityServiceV2Server;
  registerSeatMapServiceV2Server;
  registerSeatMapAvailabilityServiceV3Server;
  registerSeatMapServiceV3Server;
  registerSeatMapAvailabilityServiceV4Server;
  registerSeatMapServiceV4Server;
  registerTransportProductListServiceV3Server;
  registerTransportSearchServiceV3Server;
  registerTransportProductListServiceV4Server;
  registerTransportSearchServiceV4Server;
  registerTransportProductListServiceV5Server;
  registerTransportSearchServiceV5Server].

(** [register_client_services.go]: one [if] per service. *)
Definition serviceClients : list (names * rpcClient) := [
  (AccommodationProductInfoServiceV3, AccommodationProductInfoV3Client);
  (AccommodationProductListServiceV3, AccommodationProductListV3Client);
  (AccommodationSearchServiceV3, AccommodationSearchV3Client);
  (AccommodationProductInfoServiceV4, AccommodationProductInfoV4Client);
  (AccommodationProductListServiceV4, AccommodationProductListV4Client);
  (AccommodationSearchServiceV4, AccommodationSearchV4Client);
  (AccommodationProductShortListServiceV4, AccommodationProductShortListV4Client);
  (AccommodationProductInfoServiceV5, AccommodationProductInfoV5Client);
  (AccommodationProductListServiceV5, AccommodationProductListV5Client);
  (AccommodationSearchServiceV5, AccommodationSearchV5Client);
  (AccommodationProductShortListServiceV5, AccommodationProductShortListV5Client);
  (ActivityProductInfoServiceV3, ActivityProductInfoV3Client);
  (ActivityProductListServiceV3, ActivityProductListV3Client);
  (ActivitySearchServiceV3, ActivitySearchV3Client);
  (ActivityProductInfoServiceV4, ActivityProductInfoV4Client);
  (ActivityProductListServiceV4, ActivityProductListV4Client);
  (ActivitySearchServiceV4, ActivitySearchV4Client);
  (ActivityProductShortListServiceV4, ActivityProductShortListV4Client);
  (ActivityProductInfoServiceV5, ActivityProductInfoV5Client);
  (ActivityProductListServiceV5, ActivityProductListV5Client);
  (ActivitySearchServiceV5, ActivitySearchV5Client);
  (ActivityProductShortListServiceV5, ActivityProductShortListV5Client);
  (MintServiceV3, MintV3Client);
  (ValidationServiceV3, ValidationV3Client);
  (MintServiceV4, MintV4Client);
  (ValidationServiceV4, ValidationV4Client);
  (MintServiceV5, MintV5Client);
  (ValidationServiceV5, ValidationV5Client);
  (CheckCancellationServiceV1, CheckCancellationV1Client);
  (CheckCancellationServiceV2, CheckCancellationV2Client);
  (CheckCancellationServiceV3, CheckCancellationV3Client);
  (CountryEntryRequirementsServiceV1, CountryEntryRequirementsV1Client);
  (CountryEntryRequirementsServiceV2, CountryEntryRequirementsV2Client);
  (CountryEntryRequirementsServiceV3, CountryEntryRequirementsV3Client);
  (PingServiceV1, PingV1Client);
  (PingServiceV2, PingV2Client);
  (SeatMapAvailabilityServiceV2, SeatMapAvailabilityV2Client);
  (SeatMapServiceV2, SeatMapV2Client);
  (SeatMapAvailabilityServiceV3, SeatMapAvailabilityV3Client);
  (SeatMapServiceV3, SeatMapV3Client);
  (SeatMapAvailabilityServiceV4, SeatMapAvailabilityV4Client);
  (SeatMapServiceV4, SeatMapV4Client);
  (TransportProductListServiceV3, TransportProductListV3Client);
  (TransportSearchServiceV3, TransportSearchV3Client);
  (TransportProductListServiceV4, TransportProductListV4Client);
  (TransportSearchServiceV4, TransportSearchV4Client);
  (TransportProductListServiceV5, TransportProductListV5Client);
  (TransportSearchServiceV5, TransportSearchV5Client)].

Definition registerClient (acc : gmap string rpcService * gset string) (c : names * rpcClient)
    : gmap string rpcService * gset string :=
  if decide (type_Service c.1 ∈ acc.2)
  then (<[type_Request c.1 :=
           {| service_Client := c.2; service_Name := type_Service c.1 |}]> acc.1,
        acc.2 ∖ {[type_Service c.1]})
  else acc.
Definition RegisterServiceClients (serviceNames : gset string)
    : gmap string rpcService * gset string :=
  foldl registerClient (∅, serviceNames) serviceClients.

(** [unmarshal.go]: the cases of the [switch], and the type of message each makes. *)
Definition unmarshalCases : list (string * (string * string)) := [
  (type_Request AccommodationProductInfoServiceV3, ("accommodationv3", "AccommodationProductInfoRequest"));
  (type_Response AccommodationProductInfoServiceV3, ("accommodationv3", "AccommodationProductInfoResponse"));
  (type_Request AccommodationProductListServiceV3, ("accommodationv3", "AccommodationProductListRequest"));
  (type_Response AccommodationProductListServiceV3, ("accommodationv3", "AccommodationProductListResponse"));
  (type_Request AccommodationSearchServiceV3, ("accommodationv3", "AccommodationSearchRequest"));
  (type_Response AccommodationSearchServiceV3, ("accommodationv3", "AccommodationSearchResponse"));
  (type_Request AccommodationProductInfoServiceV4, ("accommodationv4", "AccommodationProductInfoRequest"));
  (type_Response AccommodationProductInfoServiceV4, ("accommodationv4", "AccommodationProductInfoResponse"));
  (type_Request AccommodationProductListServiceV4, ("accommodationv4", "AccommodationProductListRequest"));
  (type_Response AccommodationProductListServiceV4, ("accommodationv4", "AccommodationProductListResponse"));
  (type_Request AccommodationSearchServiceV4, ("accommodationv4", "AccommodationSearchRequest"));
  (type_Response AccommodationSearchServiceV4, ("accommodationv4", "AccommodationSearchResponse"));
  (type_Request AccommodationProductShortListServiceV4, ("accommodationv4", "AccommodationProductShortListRequest"));
  (type_Response AccommodationProductShortListServiceV4, ("accommodationv4", "AccommodationProductShortListResponse"));
  (type_Request AccommodationProductInfoServiceV5, ("accommodationv5", "AccommodationProductInfoRequest"));
  (type_Response AccommodationProductInfoServiceV5, ("accommodationv5", "AccommodationProductInfoResponse"));
  (type_Request AccommodationProductListServiceV5, ("accommodationv5", "AccommodationProductListRequest"));
  (type_Response AccommodationProductListServiceV5, ("accommodationv5", "AccommodationProductListResponse"));
  (type_Request AccommodationSearchServiceV5, ("accommodationv5", "AccommodationSearchRequest"));
  (type_Response AccommodationSearchServiceV5, ("accommodationv5", "AccommodationSearchResponse"));
  (type_Request AccommodationProductShortListServiceV5, ("accommodationv5", "AccommodationProductShortListRequest"));
  (type_Response AccommodationProductShortListServiceV5, ("accommodationv5", "AccommodationProductShortListResponse"));
  (type_Request ActivityProductInfoServiceV3, ("activityv3", "ActivityProductInfoRequest"));
  (type_Response ActivityProductInfoServiceV3, ("activityv3", "ActivityProductInfoResponse"));
  (type_Request ActivityProductListServiceV3, ("activityv3", "ActivityProductListRequest"));
  (type_Response ActivityProductListServiceV3, ("activityv3", "ActivityProductListResponse"));
  (type_Request ActivitySearchServiceV3, ("activityv3", "ActivitySearchRequest"));
  (type_Response ActivitySearchServiceV3, ("activityv3", "ActivitySearchResponse"));
  (type_Request ActivityProductInfoServiceV4, ("activityv4", "ActivityProductInfoRequest"));
  (type_Response ActivityProductInfoServiceV4, ("activityv4", "ActivityProductInfoResponse"));
  (type_Request ActivityProductListServiceV4, ("activityv4", "ActivityProductListRequest"));
  (type_Response ActivityProductListServiceV4, ("activityv4", "ActivityProductListResponse"));
  (type_Request ActivitySearchServiceV4, ("activityv4", "ActivitySearchRequest"));
  (type_Response ActivitySearchServiceV4, ("activityv4", "ActivitySearchResponse"));
  (type_Request ActivityProductShortListServiceV4, ("activityv4", "ActivityProductShortListRequest"));
  (type_Response ActivityProductShortListServiceV4, ("activityv4", "ActivityProductShortListResponse"));
  (type_Request ActivityProductInfoServiceV5, ("activityv5", "ActivityProductInfoRequest"));
  (type_Response ActivityProductInfoServiceV5, ("activityv5", "ActivityProductInfoResponse"));
  (type_Request ActivityProductListServiceV5, ("activityv5", "ActivityProductListRequest"));
  (type_Response ActivityProductListServiceV5, ("activityv5", "ActivityProductListResponse"));
  (type_Request ActivitySearchServiceV5, ("activityv5", "ActivitySearchRequest"));
  (type_Response ActivitySearchServiceV5, ("activityv5", "ActivitySearchResponse"));
  (type_Request ActivityProductShortListServiceV5, ("activityv5", "ActivityProductShortListRequest"));
  (type_Response ActivityProductShortListServiceV5, ("activityv5", "ActivityProductShortListResponse"));
  (type_Request MintServiceV3, ("bookv3", "MintRequest"));
  (type_Response MintServiceV3, ("bookv3", "MintResponse"));
  (type_Request ValidationServiceV3, ("bookv3", "ValidationRequest"));
  (type_Response ValidationServiceV3, ("bookv3", "ValidationResponse"));
  (type_Request MintServiceV4, ("bookv4", "MintRequest"));
  (type_Response MintServiceV4, ("bookv4", "MintResponse"));
  (type_Request ValidationServiceV4, ("bookv4", "ValidationRequest"));
  (type_Response ValidationServiceV4, ("bookv4", "ValidationResponse"));
  (type_Request MintServiceV5, ("bookv5", "MintRequest"));
  (type_Response MintServiceV5, ("bookv5", "MintResponse"));
  (type_Request ValidationServiceV5, ("bookv5", "ValidationRequest"));
  (type_Response ValidationServiceV5, ("bookv5", "ValidationResponse"));
  (type_Request CheckCancellationServiceV1, ("cancellationv1", "CheckCancellationRequest"));
  (type_Response CheckCancellationServiceV1, ("cancellationv1", "CheckCancellationResponse"));
  (type_Request CheckCancellationServiceV2, ("cancellationv2", "CheckCancellationRequest"));
  (type_Response CheckCancellationServiceV2, ("cancellationv2", "CheckCancellationResponse"));
  (type_Request CheckCancellationServiceV3, ("cancellationv3", "CheckCancellationRequest"));
  (type_Response CheckCancellationServiceV3, ("cancellationv3", "CheckCancellationResponse"));
  (type_Request CountryEntryRequirementsServiceV1, ("infov1", "CountryEntryRequirementsRequest"));
  (type_Response CountryEntryRequirementsServiceV1, ("infov1", "CountryEntryRequirementsResponse"));
  (type_Request CountryEntryRequirementsServiceV2, ("infov2", "CountryEntryRequirementsRequest"));
  (type_Response CountryEntryRequirementsServiceV2, ("infov2", "CountryEntryRequirementsResponse"));
  (type_Request CountryEntryRequirementsServiceV3, ("infov3", "CountryEntryRequirementsRequest"));
  (type_Response CountryEntryRequirementsServiceV3, ("infov3", "CountryEntryRequirementsResponse"));
  (type_Request PingServiceV1, ("pingv1", "PingRequest"));
  (type_Response PingServiceV1, ("pingv1", "PingResponse"));
  (type_Request PingServiceV2, ("pingv2", "PingRequest"));
  (type_Response PingServiceV2, ("pingv2", "PingResponse"));
  (type_Request SeatMapAvailabilityServiceV2, ("seat_mapv2", "SeatMapAvailabilityRequest"));
  (type_Response SeatMapAvailabilityServiceV2, ("seat_mapv2", "SeatMapAvailabilityResponse"));
  (type_Request SeatMapServiceV2, ("seat_mapv2", "SeatMapRequest"));
  (type_Response SeatMapServiceV2, ("seat_mapv2", "SeatMapResponse"));
  (type_Request SeatMapAvailabilityServiceV3, ("seat_mapv3", "SeatMapAvailabilityRequest"));
  (type_Response SeatMapAvailabilityServiceV3, ("seat_mapv3", "SeatMapAvailabilityResponse"));
  (type_Request SeatMapServiceV3, ("seat_mapv3", "SeatMapRequest"));
  (type_Response SeatMapServiceV3, ("seat_mapv3", "SeatMapResponse"));
  (type_Request SeatMapAvailabilityServiceV4, ("seat_mapv4", "SeatMapAvailabilityRequest"));
  (type_Response SeatMapAvailabilityServiceV4, ("seat_mapv4", "SeatMapAvailabilityResponse"));
  (type_Request SeatMapServiceV4, ("seat_mapv4", "SeatMapRequest"));
  (type_Response SeatMapServiceV4, ("seat_mapv4", "SeatMapResponse"));
  (type_Request TransportProductListServiceV3, ("transportv3", "TransportProductListRequest"));
  (type_Response TransportProductListServiceV3, ("transportv3", "TransportProductListResponse"));
  (type_Request TransportSearchServiceV3, ("transportv3", "TransportSearchRequest"));
  (type_Response TransportSearchServiceV3, ("transportv3", "TransportSearchResponse"));
  (type_Request TransportProductListServiceV4, ("transportv4", "TransportProductListRequest"));
  (type_Response TransportProductListServiceV4, ("transportv4", "TransportProductListResponse"));
  (type_Request TransportSearchServiceV4, ("transportv4", "TransportSearchRequest"));
  (type_Response TransportSearchServiceV4, ("transportv4", "TransportSearchResponse"));
  (type_Request TransportProductListServiceV5, ("transportv5", "TransportProductListRequest"));
  (type_Response TransportProductListServiceV5, ("transportv5", "TransportProductListResponse"));
  (type_Request TransportSearchServiceV5, ("transportv5", "TransportSearchRequest"));
  (type_Response TransportSearchServiceV5, ("transportv5", "TransportSearchResponse"))].

Definition destination (msgType : string) : option (string * string) :=
  snd <$> find (λ c, String.eqb c.1 msgType) unmarshalCases.

(** ** The generator *)

(** The names the generator derives from the full name of a service, as in
    ["ttm.services.book.v4.MintService"]. *)
Definition typePackage (fqpn : string) : string :=
  match Split "."%char fqpn with
  | [_; _; package; version; _] => package +:+ version
  | _ => ""
  end.
Definition grpcService (fqpn : string) : string := List.last (Split "."%char fqpn) "".
Definition methodName (fqpn : string) : string :=
  String.substring 0 (String.length (grpcService fqpn) - 7) (grpcService fqpn).
Definition goType (c : string * Category) : string * string :=
  (typePackage c.1,
   methodName c.1 +:+ match c.2 with Request => "Request" | Response => "Response" | Unknown => "" end).

(** What the templates make of a row of the table. *)
Definition serviceOf (row : string * template) : Service :=
  {| Name := row.1; service_template := row.2 |}.
Definition registrationOf (row : string * template) : registration :=
  Register (typePackage row.1 +:+ "grpc") (grpcService row.1) (methodName row.1)
    (method emptyBody version Validate Error ttmAccountAddress IsHexAddress HexToAddress
       MarshalToString uuid_New SendHeader (serviceOf row)).
Definition clientOf (s : Service) : rpcClient := {|
  client_Call := Call emptyBody version Validate Error grpc_v1 grpc_v2 s;
  client_InvalidProtoErrResponseAndType := InvalidProtoErrResponseAndType emptyBody version s
|}.
Definition rpcServiceOf (s : Service) : rpcService :=
  {| service_Client := clientOf s; service_Name := Name s |}.

(** ** Lemmas *)
Lemma registrations_templates : RegisterServerServices = registrationOf <$> serviceTable.
Proof. reflexivity. Qed.

Lemma registrations_once :
  NoDup ((λ r, (reg_package r, reg_service r)) <$> RegisterServerServices).
Proof.
  apply (bool_decide_unpack _). vm_compute. exact I.
Qed.

(** A client file and the row it was made from. *)
Definition made_from (c : names * rpcClient) (row : string * template) : Prop :=
  type_Service c.1 = row.1 ∧ type_Request c.1 = ServiceRequest row.1 ∧
  {| service_Client := c.2; service_Name := type_Service c.1 |} = rpcServiceOf (serviceOf row).

Lemma clients_templates : Forall2 made_from serviceClients serviceTable.
Proof. repeat (constructor; [split_and!; reflexivity|]). constructor. Qed.

Lemma registerClient_service c row (acc : gmap string Service * gset string) :
  made_from c row →
  registerClient (rpcServiceOf <$> acc.1, acc.2) c =
    (rpcServiceOf <$> (registerService acc row).1, (registerService acc row).2).
Proof.
  intros (Hn & Hr & Hs). unfold registerClient, registerService. simpl.
  rewrite Hn in Hs |- *. case_decide; [|done]. simpl. by rewrite Hr, fmap_insert, Hs.
Qed.

Lemma registerClients_services cs rows (acc : gmap string Service * gset string) :
  Forall2 made_from cs rows →
  foldl registerClient (rpcServiceOf <$> acc.1, acc.2) cs =
    (rpcServiceOf <$> (foldl registerService acc rows).1, (foldl registerService acc rows).2).
Proof.
  intros Hall. revert acc. induction Hall as [|c row cs rows Hc _ IH]; intros acc; [done|].
  simpl. rewrite (registerClient_service c row) by done. apply IH.
Qed.

Lemma find_map {A B C} (f : A → B) (p : B → bool) (g : B → C) (l : list A) :
  g <$> find p (f <$> l) = g ∘ f <$> find (p ∘ f) l.
Proof. induction l as [|x l IH]; simpl; [done|]. by destruct (p (f x)). Qed.

Lemma cases_types : unmarshalCases = (λ c, (c.1, goType c.2)) <$> contentTypes.
Proof. reflexivity. Qed.

Lemma destination_contentType t : destination t = goType <$> contentType t.
Proof.
  unfold destination, contentType. rewrite cases_types, find_map.
  rewrite <- option_fmap_compose. done.
Qed.

End Generated.

(** One case of each list, evaluated. *)
Example mint_v4_destination :
  destination "ttm.services.book.v4.MintService.Request" = Some ("bookv4", "MintRequest").
Proof. reflexivity. Qed.
