(* ===== verification/Connections.v ===== *)
(** * Connections (internal/rpc/server, internal/rpc/client, internal/utils/tls, pkg/metadata)

    How the two ends of the bot's gRPC connections are made: the credentials, the services
    a server registers and the interceptors around their handlers, the client of the partner
    plugin.  The last part is what the two ends make of the metadata they are sent. *)
From S2P Require Import Prelude Message Config TtmAccounts Encoding Processor Services Gateway.
From stdpp Require Import gmap.

#[local] Open Scope Z_scope.

(** ** TLS (utils/tls/tls.go) *)

(** [crypto/tls], [crypto/x509] and the files they read. *)
Class Certificates (Cert Pool : Type) := {
  LoadX509KeyPair : string → string → outcome Cert;
  os_ReadFile : string → outcome bytes;
  (** a new pool with the certificates of a file, unless there is none in it *)
  CertPoolFromPEM : bytes → option Pool;
  KeyPair_returns c k p : LoadX509KeyPair c k ≠ Panic p;
  ReadFile_returns f p : os_ReadFile f ≠ Panic p
}.

Definition VersionTLS12 : Z := 0x0303.
Inductive ClientAuthType := NoClientCert.

Record tlsConfig (Cert Pool : Type) := {
  MinVersion : Z;
  ServerCertificates : list Cert;
  ClientAuth : ClientAuthType;
  RootCAs : option Pool
}.
Arguments MinVersion {Cert Pool} _.
Arguments ServerCertificates {Cert Pool} _.
Arguments ClientAuth {Cert Pool} _.
Arguments RootCAs {Cert Pool} _.

Section Credentials.
Context `{Certificates Cert Pool}.

Definition LoadTLSCredentials (serverCertFile serverKeyFile : string) : outcome (tlsConfig Cert Pool) :=
  serverCert ← LoadX509KeyPair serverCertFile serverKeyFile;
  Ok {| MinVersion := VersionTLS12; ServerCertificates := [serverCert];
        ClientAuth := NoClientCert; RootCAs := None |}.

Definition LoadCATLSCredentials (caCertFile : string) : outcome (tlsConfig Cert Pool) :=
  caPem ← os_ReadFile caCertFile;
  match CertPoolFromPEM caPem with
  | None => Err (Errorf "failed to add CA's certificate")
  | Some certPool =>
      Ok {| MinVersion := VersionTLS12; ServerCertificates := []; ClientAuth := NoClientCert;
            RootCAs := Some certPool |}
  end.

(** ** The server ([NewServer]) *)

(** What is registered with the gRPC library. *)
Inductive registered :=
  | Generated (name : string)
  | CancellationV1 | CancellationV2 | CancellationV3
  | Readiness.

(** A server: its credentials if it has any, its services, and reflection. *)
Record grpcServer := {
  creds : option (tlsConfig Cert Pool);
  registrations : list registered;
  reflection : bool
}.

Definition NewServer (cfg : RPCServerConfig) (developerMode : bool) : outcome (option grpcServer) :=
  if negb (rpc_Enabled cfg) then Ok None
  else
    creds ← (if rpc_Unencrypted cfg then Ok None
             else wrapO "could not load TLS keys: %w"
               (Some <$> LoadTLSCredentials (ServerCertFile cfg) (ServerKeyFile cfg)));
    Ok (Some {|
      creds := creds;
      registrations := (Generated <$> serviceNames) ++
        [CancellationV1; CancellationV2; CancellationV3; Readiness];
      reflection := developerMode |}).

(** [Start]: listen, and serve in a goroutine. How serving ended: an error but for those
    that end a shutdown, or a panic, is sent on the error channel before it is closed. *)
Inductive serving := ServeReturned (err : option error) | ServePanicked.
Definition ends_quietly (err : error) : bool :=
  errors_is err "context.Canceled" || errors_is err "grpc.ErrServerStopped".
Definition sent_error (s : serving) : option error :=
  match s with
  | ServeReturned (Some err) => if ends_quietly err then None else Some err
  | ServeReturned None => None
  | ServePanicked => Some (Errorf "gRPC server panicked: %v")
  end.
Definition Start (net_Listen : outcome unit) (s : serving) : outcome (option error) :=
  wrapO "failed to listen: %w" net_Listen ≫= λ _, Ok (sent_error s).

(** The goroutine of [App.Run] that starts the server: what it returns. *)
Definition start_server (net_Listen : outcome unit) (s : serving) : option error :=
  match Start net_Listen s with
  | Ok (Some err) =>
      if ends_quietly err then None else Some (Wrapf "gRPC server failed with error: %w" err)
  | Ok None => None
  | Err err => Some (Wrapf "failed to start gRPC server: %w" err)
  | Panic _ => None
  end.

(** ** The client of the partner plugin ([NewClient]) *)

(** The connection, once the library has made it of a host and credentials. *)
Record rpcConnection := { conn_Host : string; transport : option (tlsConfig Cert Pool) }.

Variable grpc_NewClient : string → option (tlsConfig Cert Pool) → outcome unit.

Definition NewClient (cfg : PartnerPluginConfig) : outcome (option rpcConnection) :=
  if negb (pp_Enabled cfg) then Ok None
  else
    creds ← (if pp_Unencrypted cfg then Ok None
             else wrapO "could not load TLS keys: %w" (Some <$> LoadCATLSCredentials (CACertFile cfg)));
    grpc_NewClient (pp_Host cfg) creds ≫= λ _,
    Ok (Some {| conn_Host := pp_Host cfg; transport := creds |}).
End Credentials.

(** [selector.MatchFunc]: the services whose calls are traced by an interceptor; the methods
    of the generated ones send their timestamps themselves. *)
Definition traced (r : registered) : bool :=
  match r with CancellationV1 | CancellationV2 | CancellationV3 => true | _ => false end.

Section Intercept.
Context {Body X Svc : Type} `{!ProcessorEnv X (content Body) Svc}.
Variable MarshalToString : Timestamps → outcome string.
Variable SendHeader : list (string * string) → M X unit.

(** [grpc.ChainUnaryInterceptor]: the first interceptor is the outermost. *)
Definition intercept {A} (r : registered) (handler : M (messageProcessor (X := X)) A)
    : M (messageProcessor (X := X)) A :=
  unaryRecoverInterceptor
    (if traced r then tracingInterceptor MarshalToString SendHeader handler else handler).
End Intercept.

(** A call ends with a response or an error, whatever its handler does. *)
Lemma intercepted_returns {Body X Svc : Type} `{!ProcessorEnv X (content Body) Svc} MarshalToString
    SendHeader {A} r (handler : M (messageProcessor (X := X)) A) p q :
  (intercept MarshalToString SendHeader r handler p).2 ≠ Panic q.
Proof. unfold intercept, unaryRecoverInterceptor. intros H. by repeat case_match. Qed.

(** ** What a configuration makes *)
Section Made.
Context `{Certificates Cert Pool}.

Lemma serviceNames_once : NoDup serviceNames.
Proof. apply (bool_decide_unpack _). vm_compute. exact I. Qed.

#[local] Instance Generated_inj : Inj (=) (=) Generated.
Proof. by intros ? ? [=]. Qed.

(** A server is made when it is enabled and has the keys it needs: each service once, in
    the clear only when the configuration says so. *)
Lemma NewServer_ends cfg developerMode :
  match NewServer cfg developerMode with
  | Ok None => rpc_Enabled cfg = false
  | Ok (Some s) =>
      rpc_Enabled cfg = true ∧ NoDup (registrations s) ∧
      (∀ name, Generated name ∈ registrations s ↔ name ∈ serviceNames) ∧
      (creds s = None ↔ rpc_Unencrypted cfg = true) ∧ reflection s = developerMode
  | Err e =>
      rpc_Unencrypted cfg = false ∧ ∃ f,
        LoadX509KeyPair (ServerCertFile cfg) (ServerKeyFile cfg) = Err f ∧
        e = Wrapf "could not load TLS keys: %w" f
  | Panic _ => False
  end.
Proof.
  assert (NoDup ((Generated <$> serviceNames) ++ [CancellationV1; CancellationV2; CancellationV3; Readiness])) as Hn.
  { apply NoDup_app. split_and!.
    - apply (NoDup_fmap_2 _), serviceNames_once.
    - intros x (n & -> & _)%list_elem_of_fmap. rewrite !elem_of_cons, elem_of_nil. naive_solver.
    - by repeat constructor; set_solver. }
  assert (∀ name, Generated name ∈ (Generated <$> serviceNames) ++
    [CancellationV1; CancellationV2; CancellationV3; Readiness] ↔ name ∈ serviceNames) as Hs.
  { intros name. rewrite elem_of_app, list_elem_of_fmap. split.
    - intros [(n & [= ->] & Hin)|Hin]; [done|]. rewrite !elem_of_cons, elem_of_nil in Hin. naive_solver.
    - intros Hin. left. eauto. }
  unfold NewServer, LoadTLSCredentials. destruct (rpc_Enabled cfg); simpl; [|done].
  destruct (rpc_Unencrypted cfg); simpl; [done|].
  destruct (LoadX509KeyPair _ _) as [c|e|p] eqn:E; simpl; [done|eauto|by destruct (KeyPair_returns _ _ _ E)].
Qed.
End Made.

(** The goroutine of the server fails the application when it cannot listen, when serving
    fails and when it panics; the end of a shutdown is no failure. *)
Lemma start_server_fails net_Listen s :
  (∀ p, net_Listen ≠ Panic p) →
  start_server net_Listen s = None ↔
  net_Listen = Ok tt ∧ match s with
    | ServeReturned (Some err) => ends_quietly err = true
    | ServeReturned None => True
    | ServePanicked => False
    end.
Proof.
  intros Hp. unfold start_server, Start. destruct net_Listen as [[]|e|p]; simpl; [|naive_solver..].
  destruct s as [[err|]|]; simpl; [|naive_solver..]. destruct (ends_quietly err) eqn:E; simpl; [naive_solver|].
  rewrite E. naive_solver.
Qed.

(** ** Metadata (pkg/metadata/metadata.go) *)

(** [encoding/json] on timestamps, go-ethereum's addresses, and the metadata a list of
    pairs arrives as. *)
Class Wire := {
  json_Marshal : Timestamps → outcome string;
  json_Unmarshal : string → outcome Timestamps;
  wire_Hex : Z → string;
  wire_HexToAddress : string → Z;
  Pairs : list (string * string) → gmap string (list string);
  json_roundtrip t s : json_Marshal t = Ok s → json_Unmarshal s = Ok t;
  wire_address a : in_uint 160 a → wire_HexToAddress (wire_Hex a) = a;
  Pairs_here ps k v : NoDup ps.*1 → (k, v) ∈ ps → Pairs ps !! k = Some [v];
  Pairs_none ps k : k ∉ ps.*1 → Pairs ps !! k = None
}.

Record Metadata := {
  md_RequestID : string;
  md_RecipientTTMAccount : Z;
  md_SenderTTMAccount : Z;
  md_Timestamps : Timestamps
}.

Section Metadata.
Context `{Wire}.

Definition TimestampsFromString (s : string) : outcome Timestamps :=
  wrapO "error unmarshalling timestamps: %w" (json_Unmarshal s).
Definition MarshalToString (t : Timestamps) : outcome string :=
  wrapO "error marshalling timestamps: %w" (json_Marshal t).

(** [if v := mdPairs[key]; len(v) == 1] *)
Definition single {A} (ctx : gmap string (list string)) (key : string) (empty : A) (f : string → A) : A :=
  match ctx !! key with Some [v] => f v | _ => empty end.

Definition FromGRPCContext (ctx : option (gmap string (list string))) : Metadata :=
  match ctx with
  | None => {| md_RequestID := ""; md_RecipientTTMAccount := 0; md_SenderTTMAccount := 0;
               md_Timestamps := None |}
  | Some mdPairs => {|
      md_RequestID := single mdPairs "request_id" "" id;
      md_RecipientTTMAccount := single mdPairs KeyRecipientTTMAccount 0 wire_HexToAddress;
      md_SenderTTMAccount := single mdPairs KeySenderTTMAccount 0 wire_HexToAddress;
      md_Timestamps := single mdPairs "timestamps" None (λ s,
        match TimestampsFromString s with Ok t => t | _ => None end) |}
  end.

Lemma single_here {A} ps k v (empty : A) f :
  NoDup ps.*1 → (k, v) ∈ ps → single (Pairs ps) k empty f = f v.
Proof. intros Hn Hin. unfold single. by rewrite (Pairs_here _ _ _ Hn Hin). Qed.
Lemma single_none {A} ps k (empty : A) f : k ∉ ps.*1 → single (Pairs ps) k empty f = empty.
Proof. intros Hk. unfold single. by rewrite Pairs_none. Qed.

End Metadata.

(** ** An instance *)
Module Toy.
Definition json (t : Timestamps) : outcome string :=
  match t with
  | None => Ok "null"
  | Some m => if decide (m = ∅) then Ok "{}" else Err (Errorf "json: unsupported value")
  end.
Definition parse (s : string) : outcome Timestamps :=
  if String.eqb s "null" then Ok None
  else if String.eqb s "{}" then Ok (Some ∅)
  else Err (Errorf "invalid character").

Definition pairs (ps : list (string * string)) : gmap string (list string) :=
  list_to_map ((λ p, (p.1, [p.2])) <$> ps).

Lemma pairs_keys ps : ((λ p : string * string, (p.1, [p.2])) <$> ps).*1 = ps.*1.
Proof. rewrite <- list_fmap_compose. by apply list_fmap_ext. Qed.

#[global] Instance wire : Wire.
Proof.
  refine {| json_Marshal := json; json_Unmarshal := parse; wire_Hex a := pretty (Z.to_N a);
            wire_HexToAddress := Config.Toy.HexToAddress; Pairs := pairs |}.
  - intros [m|] s; simpl; [|by intros [= <-]]. case_decide as E; [|done]. intros [= <-]. by rewrite E.
  - apply Config.Toy.HexToAddress_hex.
  - intros ps k v Hn Hin. apply elem_of_list_to_map; [by rewrite pairs_keys|].
    apply list_elem_of_fmap. by exists (k, v).
  - intros ps k Hk. apply not_elem_of_list_to_map. by rewrite pairs_keys.
Defined.


(** No file is there: only a server in the clear is made. *)
#[global] Instance no_files : Certificates unit unit.
Proof.
  refine {| LoadX509KeyPair _ _ := Err (Sentinel "os.ErrNotExist");
            os_ReadFile _ := Err (Sentinel "os.ErrNotExist"); CertPoolFromPEM _ := None |}; done.
Defined.

Example servers :
  is_ok (NewServer {| rpc_Enabled := true; Port := 9090; rpc_Unencrypted := true;
                      ServerCertFile := ""; ServerKeyFile := "" |} false) = true ∧
  is_ok (NewServer {| rpc_Enabled := true; Port := 9090; rpc_Unencrypted := false;
                      ServerCertFile := ""; ServerKeyFile := "" |} false) = false.
Proof. by vm_compute. Qed.
End Toy.
