(* ===== verification/Bot.v ===== *)
(** * The bot, put together (internal/app/app.go, NewApp)

    [Processor] is proved over the class [ProcessorEnv] of the components it calls.  Here
    that class is what [NewApp] passes to [NewMessageProcessor]: the encoder of [Encoding]
    with its store of keys, the resolver with its table of bots and the accounts service
    both share, the matrix messenger of [Messenger], the services of [Services] called as
    [Gateway] has it, and the response handler of [Mint].  What is left open is the class
    [World]: the clock, randomness, the partner plugin's wire and the channels between
    goroutines.

    [request_answered] follows a request through two such bots. *)
From S2P Require Import Prelude Cache Txn Message TtmAccounts Encoding Resolver Mint Messenger.
From S2P Require Import Delivery Exchange Services Version Processor Gateway.
From stdpp Require Import gmap.
Import Messenger.Sending Encoding.Encryption.

#[local] Open Scope Z_scope.
#[local] Arguments String.append : simpl nomatch.

(** What the components use of the outside, besides the chain and the homeserver. *)
Class World (Body W : Type) := {
  world_mint :: MintServices W;
  (** The protobuf messages the response handler looks into. *)
  mint_view : Gateway.content Body → Mint.Content (Gateway.content Body);
  of_mint : Mint.Content (Gateway.content Body) → Gateway.content Body;
  UnixNano : M W Z;
  rand_Read : nat → M W bytes;
  uuid_New : M W string;
  grpc_v1 : string → list (string * string) → Gateway.content Body → M W (responseV1 Body);
  grpc_v2 : string → list (string * string) → Gateway.content Body → M W (responseV2 Body);
  (** [select] of a response channel and the end of the context, and
      [responseChan <- msg; close(responseChan)]. *)
  select : nat → M W (option (Message (Gateway.content Body)));
  send_close : nat → Message (Gateway.content Body) → M W unit
}.

(** ** A bot *)
Section Bot.
Context {Body : Type} `{!World Body W} `{Codec PubKey PrivKey (Gateway.content Body)} `{AEAD}.
Context {KC : Type} `{!LruCache Z (option PubKey) KC}.
Context {A : Type} `{!TtmAccounts A}.
Context {HS RC : Type} `{!LruCache string string RC}.

(** What a bot is configured with, and what it meets: which calls to its two databases
    fail, which row a query for one picks, the capacity its buffers have to spare and its
    homeserver. *)
Record Config := {
  BotKey : PrivKey;
  TTMAccountAddress : Z;
  serviceRegistry : Services.serviceRegistry;
  tokenBuyable : tokenBuyableUntil;
  keys_fault : nat → option error;
  bots_fault : nat → option error;
  pick : list Z → option Z;
  spare : bytes;
  client : Client HS
}.
Definition botAddress (cfg : Config) : Z := PubkeyToAddress (pub (BotKey cfg)).

(** The state of the components the processor calls. *)
Record components := {
  encoder : Txn (gmap Z bytes) KC;
  resolver : Txn bots_table A;
  messenger : Sending.state (HS := HS) (C := RC);
  world : W
}.

Definition on_encoder {B} (m : M (Txn (gmap Z bytes) KC) B) : M components B := λ x,
  let '(k, o) := m (encoder x) in
  ({| encoder := k; resolver := resolver x; messenger := messenger x; world := world x |}, o).
Definition on_resolver {B} (m : M (Txn bots_table A) B) : M components B := λ x,
  let '(r, o) := m (resolver x) in
  ({| encoder := encoder x; resolver := r; messenger := messenger x; world := world x |}, o).
Definition on_messenger {B} (m : M (Sending.state (HS := HS) (C := RC)) B) : M components B := λ x,
  let '(s, o) := m (messenger x) in
  ({| encoder := encoder x; resolver := resolver x; messenger := s; world := world x |}, o).
Definition on_world {B} (m : M W B) : M components B := λ x,
  let '(w, o) := m (world x) in
  ({| encoder := encoder x; resolver := resolver x; messenger := messenger x; world := w |}, o).

(** [v, err := f()] where the error is kept as a value. *)
Definition outcome_of {S B} (m : M S B) : M S (outcome B) := λ s,
  let '(s', o) := m s in (s', Ok o).

Variable maxChunkSize : Z.
Variable UserID : Z → string.
Variable Error : error → string.
Variable emptyBody : Body.
Variable version : versions.
Variable Validate : Gateway.content Body → option error.
Variable AddressHex : Z → string.
Variable IsHexAddress : string → bool.
Variable HexAddress : string → Z.
Variable json_Marshal : hotelJSON → outcome string.
Variable base64_EncodeToString : string → string.

(** [encryption.NewKey] *)
Definition bot_NewKey : M components Key :=
  random ← outcome_of (on_world (rand_Read 32)); liftO (Encryption.NewKey random).

(** [time.Now] and the randomness an encoding may need are read first. *)
Definition bot_EncodeMessage (cfg : Config) (msg : Message (Gateway.content Body)) (toBot : Z)
    (sharedKey : option Key) (senderTTMAccount : Z) : M components EncodedSignedMessage :=
  now ← on_world UnixNano;
  rnd ← on_world (rand_Read 32);
  nonce ← outcome_of (on_world (rand_Read NonceSize));
  on_encoder (Encoding.EncodeMessage (keys_fault cfg) maxChunkSize (BotKey cfg) now rnd nonce msg toBot sharedKey
    senderTTMAccount).

Definition bot_DecodeAndVerifyMessage (cfg : Config) (msg : EncodedSignedMessage) (senderBot : Z)
    : M components (Message (Gateway.content Body) * option Key * Z) :=
  now ← on_world UnixNano;
  on_encoder (Encoding.DecodeAndVerifyMessage (keys_fault cfg) (BotKey cfg) now (spare cfg) msg senderBot).

Definition bot_SendMessage (cfg : Config) (msg : EncodedSignedMessage) (sendTo senderTTMAccount : Z)
    : M components unit :=
  messageID ← on_world uuid_New;
  on_messenger (Sending.SendMessage (client cfg) UserID messageID msg sendTo senderTTMAccount).

Definition bot_ProcessResponseMessage (request response : Gateway.content Body)
    : M components (Gateway.content Body) :=
  r ← on_world (Mint.ProcessResponseMessage (mint_view request) (mint_view response));
  retS (of_mint r).

Definition bot_PrepareResponseMessage (cfg : Config) (request response : Gateway.content Body)
    : M components (Gateway.content Body) :=
  r ← on_world (Mint.PrepareResponseMessage (tokenBuyable cfg) IsHexAddress HexAddress
    json_Marshal base64_EncodeToString (mint_view request) (mint_view response));
  retS (of_mint r).

Definition bot_DoServiceRequest (requestID : string) (service : Service)
    (content : Gateway.content Body) (fromTTMAccount toTTMAccount : Z)
    : M components (Gateway.content Body * string) :=
  on_world (Gateway.DoServiceRequest emptyBody version Validate Error grpc_v1 grpc_v2 AddressHex
    requestID service content fromTTMAccount toTTMAccount).

(** The accounts service is the one the resolver has. *)
Definition bot_accounts : TtmAccounts components := {|
  api_GetAllMessengerBots account := on_resolver (onRest (api_GetAllMessengerBots account));
  api_IsBotAllowed account bot := on_resolver (onRest (api_IsBotAllowed account bot));
  api_IsServiceSupported account service :=
    on_resolver (onRest (api_IsServiceSupported account service))
|}.

(** [messaging.NewMessageProcessor(matrixMessenger, ..., resolver)] *)
Definition botEnv (cfg : Config) : ProcessorEnv components (Gateway.content Body) Service := {|
  env_accounts := bot_accounts;
  Processor.GetBotAddress account :=
    on_resolver (Resolver.GetBotAddress (bots_fault cfg) (pick cfg) account);
  Processor.SetBotStatus _ bot status :=
    on_resolver (Resolver.SetBotStatus (bots_fault cfg) bot status);
  Processor.NewKey := bot_NewKey;
  Processor.EncodeMessage := bot_EncodeMessage cfg;
  Processor.DecodeAndVerifyMessage := bot_DecodeAndVerifyMessage cfg;
  Processor.SendMessage := bot_SendMessage cfg;
  Processor.PrepareRequest request :=
    of_mint (Mint.PrepareRequest (AddressHex (TTMAccountAddress cfg)) (mint_view request));
  Processor.ProcessResponseMessage := bot_ProcessResponseMessage;
  Processor.PrepareResponseMessage := bot_PrepareResponseMessage cfg;
  Processor.DoServiceRequest := bot_DoServiceRequest;
  Processor.GetService := Services.GetService (serviceRegistry cfg);
  Processor.InvalidProtoErrResponseAndType :=
    Gateway.InvalidProtoErrResponseAndType emptyBody version;
  protovalidate_Validate := Validate;
  UnixMilli := now ← on_world UnixNano; retS (now / 1000000);
  Processor.await c := on_world (select c);
  Processor.deliver c msg := on_world (send_close c msg)
|}.

(** The two entry points of the processor of a bot. *)
Definition bot_handleReceived (cfg : Config) (m : EncodedSignedMessageWithSender)
    : M (messageProcessor (X := components)) unit :=
  handleReceived (ProcessorEnv0 := botEnv cfg) (botAddress cfg) (TTMAccountAddress cfg) m.
Definition bot_SendRequestMessage (cfg : Config) (msg : Message (Gateway.content Body))
    (recipientTTMAccount : Z) : M (messageProcessor (X := components)) (Message (Gateway.content Body)) :=
  SendRequestMessage (ProcessorEnv0 := botEnv cfg) (TTMAccountAddress cfg) msg recipientTTMAccount.

(** ** Lemmas *)

(** What [crypto/rand] promises. *)
Class WorldLaws : Prop := {
  rand_length n w w' b : rand_Read n w = (w', Ok b) → length b = n
}.

(** A part of the state that an operation of another component keeps. *)
Definition parts (x : components) := (encoder x, messenger x).

Lemma on_world_parts {B} (m : M W B) : keeps parts (on_world m).
Proof. intros x. unfold on_world. by destruct (m (world x)). Qed.

Lemma on_resolver_parts {B} (m : M (Txn bots_table A) B) : keeps parts (on_resolver m).
Proof. intros x. unfold on_resolver. by destruct (m (resolver x)). Qed.

Lemma outcome_of_keeps {S B Y} (g : S → Y) (m : M S B) : keeps g m → keeps g (outcome_of m).
Proof. intros Hm s. specialize (Hm s). unfold outcome_of. by destruct (m s). Qed.

Lemma keeps_run {S B Y} (g : S → Y) (m : M S B) s s' o : keeps g m → m s = (s', o) → g s' = g s.
Proof. intros Hm E. specialize (Hm s). by rewrite E in Hm. Qed.

Section OneBot.
Variable cfg : Config.
#[local] Instance env_of : ProcessorEnv components (Gateway.content Body) Service := botEnv cfg.

Abbreviation proc := (messageProcessor (X := components)).

(** What an operation of the environment leaves of the processor. *)
Definition kept (p : proc) := (responseChannels p, parts (env p)).

Lemma on_env_kept {B} (m : M components B) : keeps parts m → keeps kept (on_env m).
Proof.
  intros Hm p. specialize (Hm (env p)). unfold on_env, kept. destruct (m (env p)). simpl in *.
  by rewrite Hm.
Qed.

Lemma on_env_Ok {B} (m : M components B) (p p' : proc) b :
  on_env m p = (p', Ok b) →
  m (env p) = (env p', Ok b) ∧ responseChannels p' = responseChannels p.
Proof. unfold on_env. destruct (m (env p)) as [x o]. by intros [= <- ->]. Qed.

Lemma stamp_kept cp (msg : Message (Gateway.content Body)) : keeps kept (stamp cp msg).
Proof.
  apply keeps_bind; [|intros now; by apply keeps_bind].
  apply on_env_kept, keeps_bind; [apply on_world_parts|done].
Qed.

(** A message that only has more stamps. *)
Definition stamped_from (m r : Message (Gateway.content Body)) : Prop :=
  msg_Type r = msg_Type m ∧ msg_Content r = msg_Content m ∧ msg_RequestID r = msg_RequestID m.

Lemma stamp_from cp (m r : Message (Gateway.content Body)) (p p' : proc) :
  stamp cp m p = (p', Ok r) → stamped_from m r ∧ kept p' = kept p.
Proof.
  intros E. split; [|by eapply keeps_run; [apply stamp_kept|]]. unfold stamp in E.
  apply bind_Ok_inv in E as (p1 & now & _ & E). apply bind_Ok_inv in E as (p2 & ts & _ & E).
  by injection E as _ <-.
Qed.

Lemma wrapS_Ok {S B} fmt (m : M S B) s s' b : wrapS fmt m s = (s', Ok b) → m s = (s', Ok b).
Proof. unfold wrapS. destruct (m s) as [s1 o]. intros [= <- E]. by apply wrapO_Ok in E as ->. Qed.

(** How the content of a response is come by. *)
Inductive answer (request : Message (Gateway.content Body)) (sender : Z) (service : Service)
    : Gateway.content Body → string → Prop :=
  | answer_refused e :
      Validate (msg_Content request) = Some e →
      answer request sender service
        (Gateway.errorResponse emptyBody version service ERROR_CODE_INVALID_PROTO
           "request message validation failed: %v")
        (ServiceResponse (Name service))
  | answer_plugin (w w' w1 w1' : W) c type r :
      Validate (msg_Content request) = None →
      Gateway.DoServiceRequest emptyBody version Validate Error grpc_v1 grpc_v2 AddressHex
        (msg_RequestID request) service (msg_Content request) sender (TTMAccountAddress cfg) w =
        (w', Ok (c, type)) →
      Mint.PrepareResponseMessage (tokenBuyable cfg) IsHexAddress HexAddress json_Marshal
        base64_EncodeToString (mint_view (msg_Content request)) (mint_view c) w1 = (w1', Ok r) →
      answer request sender service (of_mint r) type.

Lemma validateAndRespond_kept request (service : Service) from to :
  keeps kept (validateAndRespond request service from to).
Proof.
  unfold validateAndRespond. destruct (protovalidate_Validate _); [by case_match|].
  apply keeps_bind; [apply stamp_kept|]. intros m1.
  apply keeps_bind; [apply on_env_kept, on_world_parts|]. intros [c type].
  apply keeps_bind; [apply stamp_kept|]. intros m2.
  apply keeps_bind; [|done]. apply on_env_kept, keeps_bind; [apply on_world_parts|done].
Qed.

Lemma validateAndRespond_answer request (service : Service) from (p p' : proc) r :
  validateAndRespond request service from (TTMAccountAddress cfg) p = (p', Ok r) →
  answer request from service (msg_Content r) (msg_Type r) ∧
  msg_RequestID r = msg_RequestID request ∧ kept p' = kept p.
Proof.
  intros E. pose proof (keeps_run _ _ _ _ _ (validateAndRespond_kept _ _ _ _) E) as Hk.
  unfold validateAndRespond in E. simpl in E.
  destruct (Validate (msg_Content request)) as [e|] eqn:Ev.
  { injection E as _ <-. split_and!; [|done|done]. simpl. by eapply answer_refused. }
  apply bind_Ok_inv in E as (p1 & m1 & E1 & E). apply stamp_from in E1 as [(_ & Hc1 & Hi1) _].
  apply bind_Ok_inv in E as (p2 & [c type] & E2 & E). apply on_env_Ok in E2 as [E2 _].
  apply bind_Ok_inv in E as (p3 & m2 & E3 & E). apply stamp_from in E3 as [(_ & Hc2 & Hi2) _].
  apply bind_Ok_inv in E as (p4 & content & E4 & E). apply on_env_Ok in E4 as [E4 _].
  apply bind_Ok_inv in E4 as (x4 & r4 & E4 & E5). injection E5 as _ <-. injection E as _ <-. simpl.
  unfold bot_DoServiceRequest, on_world in E2, E4. rewrite Hi1, Hc1 in E2. rewrite Hc2, Hc1 in E4.
  destruct (Gateway.DoServiceRequest _ _ _ _ _ _ _ _ _ _ _ _ (world (env p1))) as [w' o'] eqn:Ed.
  injection E2 as _ ->.
  destruct (Mint.PrepareResponseMessage _ _ _ _ _ _ _ (world (env p3))) as [w3 o3] eqn:Em.
  injection E4 as _ ->. split_and!; [eapply answer_plugin; [exact Ev|exact Ed|exact Em]|congruence|done].
Qed.

Lemma bot_EncodeMessage_Ok `{!WorldLaws} msg toBot key account (x x' : components) enc :
  bot_EncodeMessage cfg msg toBot key account x = (x', Ok enc) →
  ∃ now rnd nonce, full_nonce nonce ∧ messenger x' = messenger x ∧
    Encoding.EncodeMessage (keys_fault cfg) maxChunkSize (BotKey cfg) now rnd nonce msg toBot key
      account (encoder x) = (encoder x', Ok enc).
Proof.
  unfold bot_EncodeMessage. intros E.
  apply bind_Ok_inv in E as (x1 & now & E1 & E). apply bind_Ok_inv in E as (x2 & rnd & E2 & E).
  apply bind_Ok_inv in E as (x3 & nonce & E3 & E).
  assert (parts x3 = parts x) as Hp.
  { transitivity (parts x2); [|transitivity (parts x1)].
    - exact (keeps_run _ _ _ _ _ (outcome_of_keeps _ _ (on_world_parts _)) E3).
    - exact (keeps_run _ _ _ _ _ (on_world_parts _) E2).
    - exact (keeps_run _ _ _ _ _ (on_world_parts _) E1). }
  injection Hp as He Hm. exists now, rnd, nonce. unfold on_encoder in E. rewrite He in E.
  destruct (Encoding.EncodeMessage _ _ _ _ _ _ _ _ _ _ (encoder x)) as [k o]. injection E as <- ->.
  split_and!; [|done|done]. unfold outcome_of, on_world in E3.
  destruct (rand_Read NonceSize (world x2)) as [w o] eqn:Er. injection E3 as _ <-.
  intros n ->. by apply rand_length in Er.
Qed.

Lemma bot_SendMessage_Ok msg sendTo account (x x' : components) :
  bot_SendMessage cfg msg sendTo account x = (x', Ok tt) →
  ∃ id room, sent (messenger x') = sent (messenger x) ++ (pair room <$> message_wire id msg account).
Proof.
  unfold bot_SendMessage. intros E. apply bind_Ok_inv in E as (x1 & id & E1 & E).
  pose proof (keeps_run _ _ _ _ _ (on_world_parts _) E1) as Hp. injection Hp as _ Hm.
  unfold on_messenger in E. rewrite Hm in E.
  destruct (Sending.SendMessage (client cfg) UserID id msg sendTo account (messenger x)) as [s o] eqn:Es.
  injection E as <- ->. destruct (SendMessage_counts _ _ _ _ _ _ _ _ Es) as [Hne Hlen].
  destruct (SendMessage_sent (client cfg) UserID id msg sendTo account (messenger x) Hne Hlen)
    as (room & wire & _ & Hs & Hall).
  rewrite Es in Hs, Hall. exists id, room. simpl in *. by rewrite Hs, Hall.
Qed.

(** A received message that ends without an error: decoded, of an allowed sender. *)
Lemma handleReceived_Ok m (p p' : proc) :
  SenderBotAddress m ≠ botAddress cfg → ews_SenderTTMAccountAddress m ≠ TTMAccountAddress cfg →
  bot_handleReceived cfg m p = (p', Ok tt) →
  ∃ p1 msg key account,
    bot_DecodeAndVerifyMessage cfg (ews_Message m) (SenderBotAddress m) (env p) =
      (env p1, Ok (msg, key, account)) ∧
    responseChannels p1 = responseChannels p ∧
    (account = TTMAccountAddress cfg ∨
     processIncomingMessage (TTMAccountAddress cfg) msg (SenderBotAddress m) account key p1 =
       (p', Ok tt)).
Proof.
  intros Hb Ha. unfold bot_handleReceived, handleReceived.
  rewrite !(proj2 (Z.eqb_neq _ _)) by done. intros E.
  apply bind_Ok_inv in E as (p1 & [[msg key] account] & E1 & E). apply on_env_Ok in E1 as [E1 Hc].
  exists p1, msg, key, account. split_and!; [done|done|].
  destruct (Z.eqb_spec account (TTMAccountAddress cfg)); [by left|by right].
Qed.

Lemma bot_DecodeAndVerifyMessage_Ok enc sender (x x' : components) r now w' :
  UnixNano (world x) = (w', Ok now) →
  bot_DecodeAndVerifyMessage cfg enc sender x = (x', Ok r) →
  messenger x' = messenger x ∧
  Encoding.DecodeAndVerifyMessage (keys_fault cfg) (BotKey cfg) now (spare cfg) enc sender (encoder x) =
    (encoder x', Ok r).
Proof.
  unfold bot_DecodeAndVerifyMessage. intros Hn E. apply bind_Ok_inv in E as (x1 & now1 & E1 & E).
  pose proof (keeps_run _ _ _ _ _ (on_world_parts _) E1) as Hp. injection Hp as He Hm.
  unfold on_world in E1. rewrite Hn in E1. injection E1 as _ <-.
  unfold on_encoder in E. rewrite He in E.
  destruct (Encoding.DecodeAndVerifyMessage _ _ _ _ _ _ (encoder x)) as [k o]. by injection E as <- ->.
Qed.

(** An incoming request that ends without an error was answered. *)
Lemma request_Ok request sender account key (p p' : proc) :
  Type_Category (msg_Type request) = Request →
  processIncomingMessage (TTMAccountAddress cfg) request sender account key p = (p', Ok tt) →
  ∃ service response p1 p2 enc,
    Services.GetService (serviceRegistry cfg) (msg_Type request) = Some service ∧
    answer request account service (msg_Content response) (msg_Type response) ∧
    msg_RequestID response = msg_RequestID request ∧ parts (env p1) = parts (env p) ∧
    bot_EncodeMessage cfg response sender key (TTMAccountAddress cfg) (env p1) = (env p2, Ok enc) ∧
    bot_SendMessage cfg enc sender (TTMAccountAddress cfg) (env p2) = (env p', Ok tt).
Proof.
  intros Hr E. unfold processIncomingMessage in E.
  apply bind_Ok_inv in E as (q1 & allowed & E1 & E). apply wrapS_Ok in E1.
  pose proof (keeps_run _ _ _ _ _ (on_env_kept _ (on_resolver_parts _)) E1) as K1.
  destruct allowed; [|done]. simpl in E. rewrite Hr in E.
  apply bind_Ok_inv in E as (q2 & m & E2 & E). apply stamp_from in E2 as [(Ht & Hc & Hi) K2].
  apply wrapS_Ok in E. unfold respond in E. simpl in E. rewrite Ht in E.
  destruct (Services.GetService (serviceRegistry cfg) (msg_Type request)) as [service|] eqn:Eg; [|done].
  apply bind_Ok_inv in E as (q3 & r & E3 & E). apply validateAndRespond_answer in E3 as (Ha & Hri & K3).
  apply bind_Ok_inv in E as (q4 & r' & E4 & E). apply stamp_from in E4 as [(Ht' & Hc' & Hi') K4].
  apply bind_Ok_inv in E as (q5 & enc & E5 & E). apply wrapS_Ok, on_env_Ok in E5 as [E5 _].
  apply on_env_Ok in E as [E _]. exists service, r', q4, q5, enc.
  split_and!; [done| |congruence| |done|done].
  - rewrite Hc', Ht'. destruct Ha; econstructor; rewrite <- ?Hi, <- ?Hc; eassumption.
  - assert (kept q4 = kept p) as K by congruence. exact (f_equal snd K).
Qed.

(** An incoming response that ends without an error went through the channel of its request. *)
Lemma response_Ok response sender account key (p p' : proc) :
  Type_Category (msg_Type response) = Response →
  processIncomingMessage (TTMAccountAddress cfg) response sender account key p = (p', Ok tt) →
  ∃ c m w w', responseChannels p !! msg_RequestID response = Some c ∧
    send_close c m w = (w', Ok tt) ∧ stamped_from response m.
Proof.
  intros Hr E. unfold processIncomingMessage in E.
  apply bind_Ok_inv in E as (q1 & allowed & E1 & E). apply wrapS_Ok in E1.
  pose proof (keeps_run _ _ _ _ _ (on_env_kept _ (on_resolver_parts _)) E1) as K1.
  destruct allowed; [|done]. simpl in E. rewrite Hr in E.
  apply bind_Ok_inv in E as (q2 & m & E2 & E). apply stamp_from in E2 as [Hs K2].
  apply wrapS_Ok in E. unfold forwardToHandler in E.
  apply bind_Ok_inv in E as (q3 & ch & E3 & E). injection E3 as <- <-.
  destruct (responseChannels q2 !! msg_RequestID m) as [c|] eqn:Ec; [|done].
  apply on_env_Ok in E as [E _]. simpl in E. unfold on_world in E.
  destruct (send_close c m (world (env q2))) as [w' o] eqn:Ew. injection E as _ ->.
  exists c, m, (world (env q2)), w'. split_and!; [|done|done].
  injection K1 as K1 _ _. injection K2 as K2 _ _. destruct Hs as (_ & _ & Hi).
  by rewrite <- K1, <- K2, <- Hi.
Qed.
End OneBot.

Lemma answer_type cfg request sender service c type :
  answer cfg request sender service c type → type = ServiceResponse (Name service).
Proof.
  destruct 1 as [|w w' w1 w1' c type r _ Hd _]; [done|]. revert Hd.
  unfold Gateway.DoServiceRequest, Call, CallV1, CallV2, orRespond, attempt, mbind, M_bind, retS, liftO.
  repeat case_match; intros; by simplify_eq.
Qed.

(** *** Two bots *)

(** Nobody else has the address of the bot. *)
Definition own_address (cfg : Config) : Prop :=
  ∀ pk, PubkeyToAddress pk = botAddress cfg → pk = pub (BotKey cfg).

Section TwoBots.
Context `{!CodecLaws H, !WorldLaws}.
Hypothesis chunk_size : 0 < maxChunkSize.

(** What a bot makes of a message another encoded for it. *)
Lemma handleReceived_encoded from to fault now rnd nonce msg sharedKey enc k k' now' w (p p' : messageProcessor) :
  own_address to → botAddress from ≠ botAddress to → TTMAccountAddress from ≠ TTMAccountAddress to →
  encodable msg sharedKey (TTMAccountAddress from) → full_nonce nonce → in_time now now' →
  keys_inv k → UnixNano (world (env p)) = (w, Ok now') →
  Encoding.EncodeMessage fault maxChunkSize (BotKey from) now rnd nonce msg (botAddress to) sharedKey
    (TTMAccountAddress from) k = (k', Ok enc) →
  bot_handleReceived to {| ews_Message := enc; SenderBotAddress := botAddress from;
    ews_SenderTTMAccountAddress := TTMAccountAddress from |} p = (p', Ok tt) →
  ∃ p1 key,
    key = (if decide (botAddress to ∈ dom (committed k)) then sharedKey else None) ∧
    responseChannels p1 = responseChannels p ∧ messenger (env p1) = messenger (env p) ∧
    (keys_inv (encoder (env p)) → keys_inv (encoder (env p1))) ∧
    processIncomingMessage (ProcessorEnv0 := botEnv to) (TTMAccountAddress to) (with_timestamps msg)
      (botAddress from) (TTMAccountAddress from) key p1 = (p', Ok tt).
Proof.
  intros Hown Hbots Haccts He Hn Ht Hk Hw Ee Er.
  apply handleReceived_Ok in Er as (p1 & m & key & account & Ed & Hc & Hp); [|done..].
  destruct (bot_DecodeAndVerifyMessage_Ok _ _ _ _ _ _ _ _ Hw Ed) as [Hm E].
  pose proof (EncodeMessage_decodes _ _ _ _ _ _ _ _ _ _ _ _ _ (spare to) _ _ chunk_size He Hn Ht Hk Hown Ee)
    as Ev.
  assert (keys_inv (encoder (env p)) → keys_inv (encoder (env p1))) as Hinv.
  { intros Hi. by destruct (Exchange.DecodeAndVerifyMessage_keys _ _ _ _ _ _ _ _ _ Hi E)
      as (? & ? & ? & ? & _ & _ & ? & _). }
  unfold Encoding.DecodeAndVerifyMessage in E. simpl in E.
  apply bind_Ok_inv in E as (s1 & [pk [[m1 key1] account1]] & E1 & E). injection E1 as _ E1.
  unfold botAddress in E1, Ev. rewrite Ev in E1. injection E1 as <- <- <- <-.
  apply bind_Ok_inv in E as (s2 & ? & _ & E). injection E as _ <- <- <-.
  destruct Hp as [Hp|Hp]; [done|]. by eexists p1, _.
Qed.

End TwoBots.
End Bot.

(** ** Witnesses *)
#[local] Existing Instance Encoding.Toy.cache.
#[local] Existing Instance example_cache.

Module Toy.
Abbreviation contents := (Gateway.content unit).

Definition pong (status : Z) : responseV1 unit := {|
  v1_Header := Some {| rh_BaseHeader := Some {| hd_Version := None; hd_rest := tt |};
                       Status := STATUS_TYPE_OTHER status; Alerts := [] |};
  v1_body := Some tt |}.

Definition marshal (c : contents) : outcome bytes :=
  match c with
  | RequestMsg s None tt => Ok (1 :: Encoding.Toy.doc s)
  | ResponseV1Msg s {|
      v1_Header := Some {| rh_BaseHeader := Some {| hd_Version := None; hd_rest := tt |};
                           Status := STATUS_TYPE_OTHER status; Alerts := [] |};
      v1_body := Some tt |} => Ok (2 :: status :: Encoding.Toy.doc s)
  | _ => Err (Errorf "not in the example")
  end.
Definition unmarshal (b : bytes) (type : string) : outcome contents :=
  match b with
  | 1 :: d => s ← Encoding.Toy.undoc d; Ok (RequestMsg s None tt)
  | 2 :: status :: d => s ← Encoding.Toy.undoc d; Ok (ResponseV1Msg s (pong status))
  | _ => Err (Errorf "bad content")
  end.

(** The cryptography of [Encoding.Toy] for these contents. *)
#[global] Instance codec : Codec Z Z contents := {
  pub := @pub _ _ _ Encoding.Toy.codec;
  Keccak256 := @Keccak256 _ _ _ Encoding.Toy.codec;
  Sign := @Sign _ _ _ Encoding.Toy.codec;
  SigToPub := @SigToPub _ _ _ Encoding.Toy.codec;
  PubkeyToAddress := @PubkeyToAddress _ _ _ Encoding.Toy.codec;
  ecies_Encrypt := @ecies_Encrypt _ _ _ Encoding.Toy.codec;
  ecies_Decrypt := @ecies_Decrypt _ _ _ Encoding.Toy.codec;
  CompressPubkey := @CompressPubkey _ _ _ Encoding.Toy.codec;
  DecompressPubkey := @DecompressPubkey _ _ _ Encoding.Toy.codec;
  zstd_EncodeAll := @zstd_EncodeAll _ _ _ Encoding.Toy.codec;
  zstd_DecodeAll := @zstd_DecodeAll _ _ _ Encoding.Toy.codec;
  public_Marshal := @public_Marshal _ _ _ Encoding.Toy.codec;
  public_Unmarshal := @public_Unmarshal _ _ _ Encoding.Toy.codec;
  private_Marshal := @private_Marshal _ _ _ Encoding.Toy.codec;
  private_Unmarshal := @private_Unmarshal _ _ _ Encoding.Toy.codec;
  proto_Marshal := marshal;
  UnmarshalContent := unmarshal;
  content_type c :=
    match c with
    | RequestMsg s _ _ => ServiceRequest s
    | ResponseV1Msg s _ | ResponseV2Msg s _ => ServiceResponse s
    end;
  ValidUTF8 := @ValidUTF8 _ _ _ Encoding.Toy.codec;
  Hex := @Hex _ _ _ Encoding.Toy.codec;
  HexToAddress := @HexToAddress _ _ _ Encoding.Toy.codec
}.

#[global] Instance laws : CodecLaws codec.
Proof.
  split; try apply Encoding.Toy.laws. intros c b. simpl.
  destruct c as [s [h|] []|s [[[[[v []]|] st al]|] [[]|]]|s r]; try done;
    try (destruct v, st, al; try done);
    intros [= <-]; unfold unmarshal; by rewrite Encoding.Toy.undoc_doc.
Qed.

(** The partner plugin answers every request. *)
#[global] Instance outside : World unit (list MintEvent) := {
  mint_view c := C_other c;
  of_mint c := match c with C_other c => c | _ => RequestMsg "" None tt end;
  UnixNano := retS 1000;
  rand_Read n := retS (replicate n 5);
  uuid_New := retS "id";
  grpc_v1 _ _ _ := retS (pong 1);
  grpc_v2 _ _ _ := retS NoResponse;
  select _ := retS None;
  send_close _ _ := retS tt
}.

#[global] Instance world_laws : WorldLaws (Body := unit) (W := list MintEvent).
Proof. split. intros n w w' b [= _ <-]. apply length_replicate. Qed.

Definition ping : string := "ttm.services.ping.v1.PingService".
Definition bot (key account : Z) : Config (PrivKey := Z) (HS := nat) := {|
  BotKey := key; TTMAccountAddress := account;
  serviceRegistry := {| services :=
    Some {[ ServiceRequest ping := {| Name := ping; service_template := V1 |} ]} |};
  tokenBuyable := production_window;
  keys_fault := Encoding.Toy.calm; bots_fault := Encoding.Toy.calm; pick := head; spare := [];
  client := example_client |}.

Definition request : Message contents :=
  {| msg_Type := ServiceRequest ping; msg_Content := RequestMsg ping None tt; msg_RequestID := "id-1";
     msg_Timestamps := None |}.
Definition start (channels : gmap string nat) :
    messageProcessor (X := components (KC := list (Z * option Z)) (A := unit) (HS := nat)
      (RC := list (string * string)) (W := list MintEvent)) :=
  {| responseChannels := channels; next_chan := 1;
     env := {| encoder := Encoding.Toy.start ∅; resolver := Resolver.Toy.start ∅;
               messenger := example_state; world := [] |} |}.

Definition encoded :=
  Encoding.EncodeMessage Encoding.Toy.calm 16 1 1000 [] Encoding.Toy.nonce request 2
    (Some Encoding.Toy.key) 11 (Encoding.Toy.start example_keys).
Definition enc : EncodedSignedMessage :=
  match encoded.2 with Ok e => e | _ => {| ChunkedEncodedMessage := []; Signature := [] |} end.
Definition received (cfg : Config (PrivKey := Z) (HS := nat)) (from account : Z) enc channels :=
  bot_handleReceived 16 (λ _, "user") (λ _, "") tt {| VersionV1 := None; VersionV4 := None |}
    (λ _, None) (λ _, "") (λ _, true) (λ _, 0) (λ _, Ok "") (λ s, s) cfg
    {| ews_Message := enc; SenderBotAddress := from; ews_SenderTTMAccountAddress := account |}
    (start channels).
Definition served := received (bot 2 22) 1 11 enc ∅.

Lemma encodable_request : encodable request (Some Encoding.Toy.key) 11.
Proof.
  split; try done.
  - by intros b [= <-].
  - by intros p b _ _ [= <-].
  - by intros k [= <-].
Qed.
End Toy.

