(* ===== verification/NewApp.v ===== *)
(** * The construction of the bot (internal/app/app.go, cmd)

    [NewApp] makes the components one after the other and hands each the ones it needs;
    the first that fails ends it.  A component is here what it was made of, and the
    constructors that reach outside are the class [Constructors], which keeps the record
    of what was made.  [rootFunc] is the command around it.  The last part is the listener
    of a bot whose partner plugin is disabled, which [NewApp] leaves nil. *)
From S2P Require Import Prelude Txn Booking EventListener Messenger Delivery Version Config.
From stdpp Require Import gmap sets.

#[local] Open Scope Z_scope.

Definition ttmAccountsCacheSize : Z := 100.
Definition erc20CacheSize : Z := 100.
Definition MaxChunkSize : Z := Z.shiftl 30 10.

(** What [NewApp] constructs, each with the arguments it is given; loggers and contexts
    are left out. *)
Inductive component (Key : Type) :=
  | EvmClient (chainRPCURL : string)
  | RpcClient (cfg : PartnerPluginConfig)
  | ServiceRegistry (ttmAccount : Z) (evm : component Key) (rpc : option (component Key))
  | PartnerPlugin (rpc : component Key) (responseTimeout : Z)
  | TtmAccounts (cacheSize : Z) (evm : component Key) (botAuthCacheTimeout : Z)
  | Erc20 (evm : component Key) (cacheSize : Z)
  | BookingService (evm : component Key) (bookingToken ttmAccount : Z) (key : Key) (chainID : Z)
      (accounts : component Key) (maxAttempts retryDelay : Z)
  | PriceHandler (erc20 : component Key)
  | EventListenerStorage (path : string)
  | EventListener (storage evm : component Key) (bookingToken : Z)
      (partnerPlugin : option (component Key)) (booking accounts : component Key)
      (recordExpiration : bool)
  | ResponseHandler (ttmAccount : Z) (listener booking price : component Key) (e2eTestMode : bool)
  | MatrixClient (host store : string) (key : Key) (userID : string)
  | EncoderStorage (path : string)
  | Encoder (storage : component Key) (maxChunkSize : Z) (key : Key)
  | ResolverStorage (path : string)
  | Resolver (accounts storage : component Key)
  | Messenger (matrix : component Key) (key : Key) (userID : string)
  | MessageProcessor (messenger : component Key) (responseTimeout botAddress ttmAccount : Z)
      (registry handler : component Key) (partnerPlugin : option (component Key))
      (accounts encoder resolver : component Key)
  | Cancellation (version : Z) (key : Key) (ttmAccount : Z) (accounts price : component Key)
  | RpcServer (cfg : RPCServerConfig) (processor registry v1 v2 v3 : component Key)
      (developerMode : bool).
Arguments EvmClient {Key} _.
Arguments RpcClient {Key} _.
Arguments ServiceRegistry {Key} _ _ _.
Arguments PartnerPlugin {Key} _ _.
Arguments TtmAccounts {Key} _ _ _.
Arguments Erc20 {Key} _ _.
Arguments BookingService {Key} _ _ _ _ _ _ _ _.
Arguments PriceHandler {Key} _.
Arguments EventListenerStorage {Key} _.
Arguments EventListener {Key} _ _ _ _ _ _ _.
Arguments ResponseHandler {Key} _ _ _ _ _.
Arguments MatrixClient {Key} _ _ _ _.
Arguments EncoderStorage {Key} _.
Arguments Encoder {Key} _ _ _.
Arguments ResolverStorage {Key} _.
Arguments Resolver {Key} _ _.
Arguments Messenger {Key} _ _ _.
Arguments MessageProcessor {Key} _ _ _ _ _ _ _ _ _ _.
Arguments Cancellation {Key} _ _ _ _ _.
Arguments RpcServer {Key} _ _ _ _ _ _ _.

(** [App] *)
Record App (Key : Type) := {
  app_eventListener : component Key;
  app_rpcClient : option (component Key);
  app_rpcServer : option (component Key);
  app_messageProcessor : component Key;
  app_messenger : component Key;
  app_botUserID : string
}.
Arguments app_eventListener {Key} _.
Arguments app_rpcClient {Key} _.
Arguments app_rpcServer {Key} _.
Arguments app_messageProcessor {Key} _.
Arguments app_messenger {Key} _.
Arguments app_botUserID {Key} _.

(** The constructors that can fail, and what they leave. *)
Class Constructors (Key X : Type) := {
  made : X → list (component Key);
  make : component Key → M X unit;
  ChainID : component Key → M X Z;
  IsTTMAccountImplementationUpToDate : component Key → Z → M X bool;
  (** [url.Parse] and [Hostname] *)
  url_Hostname : string → outcome string;
  PubkeyToAddress : Key → Z;
  make_made c x : made (make c x).1 = if is_ok (make c x).2 then made x ++ [c] else made x;
  ChainID_made c : keeps made (ChainID c);
  UpToDate_made c a : keeps made (IsTTMAccountImplementationUpToDate c a);
  (** Nothing here panics. *)
  make_returns c x p : (make c x).2 ≠ Panic p;
  ChainID_returns c x p : (ChainID c x).2 ≠ Panic p;
  UpToDate_returns c a x p : (IsTTMAccountImplementationUpToDate c a x).2 ≠ Panic p;
  Hostname_returns s p : url_Hostname s ≠ Panic p
}.

Section NewApp.
Context `{Constructors Key X} `{UserIDs}.

(** [c, err := New(...); if err != nil { return nil, fmt.Errorf(..., err) }] *)
Definition construct (fmt : string) (c : component Key) : M X (component Key) :=
  wrapS fmt (make c) ;; retS c.

(** [matrixHostname] without its schema. *)
Definition matrixHostname (host : string) : outcome string :=
  url_Hostname (match String.index 0 "://" host with
                | None => "dummy://" +:+ host
                | Some _ => host
                end).

(** [client.NewClient]: nil when the partner plugin is disabled. *)
Definition NewClient (cfg : PartnerPluginConfig) : M X (option (component Key)) :=
  if pp_Enabled cfg then
    c ← construct "failed to create rpc client: %w" (RpcClient cfg); retS (Some c)
  else retS None.

(** [server.NewServer]: nil when the server is disabled. *)
Definition NewServer (server : component Key) (enabled : bool) : M X (option (component Key)) :=
  if enabled then c ← construct "failed to create rpc server: %w" server; retS (Some c)
  else retS None.

Definition newPartnerPlugin (rpcClient : option (component Key)) (responseTimeout : Z)
    : option (component Key) :=
  rpc ← rpcClient; Some (PartnerPlugin rpc responseTimeout).

Definition NewApp (cfg : Config Key) : M X (App Key) :=
  let key := BotKey cfg in
  let account := TTMAccountAddress cfg in
  evmClient ← construct "failed to connect to Ethereum client: %w" (EvmClient (ChainRPCURL cfg));
  chainID ← wrapS "failed to fetch chain id: %w" (ChainID evmClient);
  rpcClient ← NewClient (Config.PartnerPlugin cfg);
  serviceRegistry ← construct "failed to create service registry: %w"
    (ServiceRegistry account evmClient rpcClient);
  let partnerPlugin := newPartnerPlugin rpcClient (ResponseTimeout cfg) in
  ttmAccounts ← construct "failed to create ttm accounts service: %w"
    (TtmAccounts ttmAccountsCacheSize evmClient (BotAuthCacheTimeout cfg));
  wrapS "failed to compare TTMAccount implementations: %w"
    (IsTTMAccountImplementationUpToDate ttmAccounts account) ;;
  erc20 ← construct "failed to create erc20 service: %w" (Erc20 evmClient erc20CacheSize);
  bookingService ← construct "failed to create booking service: %w"
    (BookingService evmClient (BookingTokenAddress cfg) account key chainID ttmAccounts
       (TokenVisibleMaxAttempts cfg) (TokenVisibleRetryDelay cfg));
  let priceHandler := PriceHandler erc20 in
  eventListenerStorage ← construct "failed to create event listener storage: %w"
    (EventListenerStorage (DBPath (Config.EventListener (DB cfg))));
  eventListener ← construct "failed to create event listener: %w"
    (EventListener eventListenerStorage evmClient (BookingTokenAddress cfg) partnerPlugin
       bookingService ttmAccounts (RecordExpiration cfg));
  responseHandler ← construct "failed to create response handler: %w"
    (ResponseHandler account eventListener bookingService priceHandler (E2ETestMode cfg));
  hostname ← wrapS "failed to parse matrix host: %w" (liftO (matrixHostname (Host (Matrix cfg))));
  let botAddress := PubkeyToAddress key in
  let botUserID := UserIDFromAddress botAddress hostname in
  matrixClient ← construct "failed to create matrix client: %w"
    (MatrixClient (Host (Matrix cfg)) (Store (Matrix cfg)) key botUserID);
  encoderStorage ← construct "failed to create messages encoder/decoder storage: %w"
    (EncoderStorage (DBPath (MessagesEncoderDecoder (DB cfg))));
  encoder ← construct "failed to create messages encoder/decoder: %w"
    (Encoder encoderStorage MaxChunkSize key);
  resolverStorage ← (let c := ResolverStorage (DBPath (Config.Resolver (DB cfg))) in make c ;; retS c);
  let resolver := Resolver ttmAccounts resolverStorage in
  matrixMessenger ← construct "failed to create matrix messenger: %w"
    (Messenger matrixClient key botUserID);
  let messageProcessor :=
    MessageProcessor matrixMessenger (ResponseTimeout cfg) botAddress account serviceRegistry
      responseHandler partnerPlugin ttmAccounts encoder resolver in
  let cancellation version := Cancellation version key account ttmAccounts priceHandler in
  rpcServer ← NewServer (RpcServer (RPCServer cfg) messageProcessor serviceRegistry
    (cancellation 1) (cancellation 2) (cancellation 3) (DeveloperMode cfg)) (rpc_Enabled (RPCServer cfg));
  retS {|
    app_eventListener := eventListener; app_rpcClient := rpcClient; app_rpcServer := rpcServer;
    app_messageProcessor := messageProcessor; app_messenger := matrixMessenger;
    app_botUserID := botUserID |}.

(** *** What it makes *)

(** The components a component was handed, and theirs in turn, each after its own. *)
Fixpoint parts (c : component Key) : list (component Key) :=
  (match c with
   | EvmClient _ | RpcClient _ | EventListenerStorage _ | MatrixClient _ _ _ _ | EncoderStorage _
   | ResolverStorage _ => []
   | ServiceRegistry _ evm rpc => parts evm ++ match rpc with Some c => parts c | None => [] end
   | PartnerPlugin c _ | TtmAccounts _ c _ | Erc20 c _ | PriceHandler c | Encoder c _ _
   | Messenger c _ _ => parts c
   | BookingService evm _ _ _ _ accounts _ _ => parts evm ++ parts accounts
   | EventListener storage evm _ pp booking accounts _ =>
       parts storage ++ parts evm ++ match pp with Some c => parts c | None => [] end ++
       parts booking ++ parts accounts
   | ResponseHandler _ listener booking price _ => parts listener ++ parts booking ++ parts price
   | Resolver accounts storage => parts accounts ++ parts storage
   | MessageProcessor messenger _ _ _ registry handler pp accounts encoder resolver =>
       parts messenger ++ parts registry ++ parts handler ++
       match pp with Some c => parts c | None => [] end ++ parts accounts ++ parts encoder ++
       parts resolver
   | Cancellation _ _ _ accounts price => parts accounts ++ parts price
   | RpcServer _ processor registry v1 v2 v3 _ =>
       parts processor ++ parts registry ++ parts v1 ++ parts v2 ++ parts v3
   end) ++ [c].

(** Those with a constructor that can fail. *)
Definition fallible (c : component Key) : bool :=
  match c with
  | PartnerPlugin _ _ | PriceHandler _ | Resolver _ _ | MessageProcessor _ _ _ _ _ _ _ _ _ _
  | Cancellation _ _ _ _ _ => false
  | _ => true
  end.

(** Nothing, or one component. *)
Definition when (enabled : bool) (c : component Key) : option (component Key) :=
  if enabled then Some c else None.

(** Everything in the order in which [NewApp] makes it. *)
Definition all_components (cfg : Config Key) (chainID : Z) (hostname : string) : list (component Key) :=
  let key := BotKey cfg in
  let account := TTMAccountAddress cfg in
  let evm := EvmClient (ChainRPCURL cfg) in
  let rpc := when (pp_Enabled (Config.PartnerPlugin cfg)) (RpcClient (Config.PartnerPlugin cfg)) in
  let registry := ServiceRegistry account evm rpc in
  let plugin := newPartnerPlugin rpc (ResponseTimeout cfg) in
  let accounts := TtmAccounts ttmAccountsCacheSize evm (BotAuthCacheTimeout cfg) in
  let erc20 := Erc20 evm erc20CacheSize in
  let booking := BookingService evm (BookingTokenAddress cfg) account key chainID accounts
    (TokenVisibleMaxAttempts cfg) (TokenVisibleRetryDelay cfg) in
  let price := PriceHandler erc20 in
  let storage := EventListenerStorage (DBPath (Config.EventListener (DB cfg))) in
  let listener := EventListener storage evm (BookingTokenAddress cfg) plugin booking accounts
    (RecordExpiration cfg) in
  let handler := ResponseHandler account listener booking price (E2ETestMode cfg) in
  let userID := UserIDFromAddress (PubkeyToAddress key) hostname in
  let matrix := MatrixClient (Host (Matrix cfg)) (Store (Matrix cfg)) key userID in
  let encoderStorage := EncoderStorage (DBPath (MessagesEncoderDecoder (DB cfg))) in
  let encoder := Encoder encoderStorage MaxChunkSize key in
  let resolverStorage := ResolverStorage (DBPath (Config.Resolver (DB cfg))) in
  let messenger := Messenger matrix key userID in
  let processor := MessageProcessor messenger (ResponseTimeout cfg) (PubkeyToAddress key) account
    registry handler plugin accounts encoder (Resolver accounts resolverStorage) in
  let cancellation version := Cancellation version key account accounts price in
  [evm] ++ option_list rpc ++ [registry; accounts; erc20; booking; storage; listener; handler; matrix;
    encoderStorage; encoder; resolverStorage; messenger] ++
  option_list (when (rpc_Enabled (RPCServer cfg)) (RpcServer (RPCServer cfg) processor registry
    (cancellation 1) (cancellation 2) (cancellation 3) (DeveloperMode cfg))).

(** ** Lemmas *)
Lemma runs_construct {B} fmt c (k : component Key → M X B) x m0 l Q :
  made x = m0 ++ l →
  (∀ x', made x' = m0 ++ (l ++ [c]) → runs (k c) x' Q) →
  (∀ x' e, made x' = m0 ++ l → Q x' (Err e)) →
  runs (mbind k (construct fmt c)) x Q.
Proof.
  intros Hx Hok He. pose proof (make_made c x) as Hm. pose proof (make_returns c x) as Hp.
  unfold construct, wrapS, retS, runs, mbind, M_bind.
  destruct (make c x) as [x' [[]|e|p]]; simpl in *; [apply Hok|apply He|by destruct (Hp p)]; rewrite Hm, Hx;
    by rewrite <- ?(assoc_L (++)).
Qed.

(** The constructor whose error is returned as it is. *)
Lemma runs_make {B} c (k : component Key → M X B) x m0 l Q :
  made x = m0 ++ l →
  (∀ x', made x' = m0 ++ (l ++ [c]) → runs (k c) x' Q) →
  (∀ x' e, made x' = m0 ++ l → Q x' (Err e)) →
  runs (mbind k (make c ;; retS c)) x Q.
Proof.
  intros Hx Hok He. pose proof (make_made c x) as Hm. pose proof (make_returns c x) as Hp.
  unfold retS, runs, mbind, M_bind.
  destruct (make c x) as [x' [[]|e|p]]; simpl in *; [apply Hok|apply He|by destruct (Hp p)]; rewrite Hm, Hx;
    by rewrite <- ?(assoc_L (++)).
Qed.

Lemma runs_read {A B} fmt (m : M X A) (k : A → M X B) x m0 l (Q : X → outcome B → Prop) :
  keeps made m → (∀ x p, (m x).2 ≠ Panic p) → made x = m0 ++ l →
  (∀ x' a, made x' = m0 ++ l → runs (k a) x' Q) →
  (∀ x' e, made x' = m0 ++ l → Q x' (Err e)) →
  runs (mbind k (wrapS fmt m)) x Q.
Proof.
  intros Hk Hp Hx Hok He. specialize (Hk x). specialize (Hp x). unfold wrapS, runs, mbind, M_bind.
  destruct (m x) as [x' [a|e|p]]; simpl in *; [apply Hok|apply He|by destruct (Hp p)]; congruence.
Qed.

Lemma runs_hostname {B} fmt host (k : string → M X B) x (Q : X → outcome B → Prop) :
  (∀ hostname, matrixHostname host = Ok hostname → runs (k hostname) x Q) →
  (∀ e, Q x (Err e)) →
  runs (mbind k (wrapS fmt (liftO (matrixHostname host)))) x Q.
Proof.
  intros Hok He. pose proof (Hostname_returns (Key := Key) (X := X)) as Hp.
  unfold runs, wrapS, liftO, mbind, M_bind. destruct (matrixHostname host) as [a|e|p] eqn:E; simpl; [by apply Hok|done|].
  by destruct (Hp _ _ E).
Qed.

Lemma runs_enabled {B} fmt (enabled : bool) c (k : option (component Key) → M X B) x m0 l (Q : X → outcome B → Prop) :
  made x = m0 ++ l →
  (∀ x', made x' = m0 ++ (l ++ option_list (when enabled c)) → runs (k (when enabled c)) x' Q) →
  (∀ x' e, enabled = true → made x' = m0 ++ l → Q x' (Err e)) →
  runs (mbind k (if enabled then r ← construct fmt c; retS (Some r) else retS None)) x Q.
Proof.
  unfold when. destruct enabled; simpl; intros Hx Hok He.
  - eapply (runs_bind _ _ _ (λ x' o, match o with
      | Ok r => r = Some c ∧ made x' = m0 ++ (l ++ [c])
      | Err _ => made x' = m0 ++ l
      | Panic _ => False end)).
    + eapply runs_construct; [exact Hx|by intros|by intros].
    + intros x' r [-> E]. by apply Hok.
    + intros x' e E. by apply He.
    + done.
  - apply Hok. by rewrite app_nil_r.
Qed.

(** A proper prefix of the components was made when it failed. *)
Definition failed (cfg : Config Key) (m0 : list (component Key)) (x : X) : Prop :=
  ∃ chainID hostname l c rest,
    all_components cfg chainID hostname = l ++ c :: rest ∧ made x = m0 ++ l.

(** Whatever is handed to a component, and can fail, was made before it. *)
Fixpoint ordered (before l : list (component Key)) : Prop :=
  match l with
  | [] => True
  | c :: l =>
      Forall (λ d, fallible d = true → d ∈ before ++ [c]) (parts c) ∧ ordered (before ++ [c]) l
  end.

(** The accounts service, the partner plugin and the identity a component is handed. *)
Definition accounts_of (c : component Key) : option (component Key) :=
  match c with
  | BookingService _ _ _ _ _ accounts _ _ | EventListener _ _ _ _ _ accounts _
  | Resolver accounts _ | MessageProcessor _ _ _ _ _ _ _ accounts _ _
  | Cancellation _ _ _ accounts _ => Some accounts
  | _ => None
  end.
Definition plugin_of (c : component Key) : option (option (component Key)) :=
  match c with
  | EventListener _ _ _ plugin _ _ _ | MessageProcessor _ _ _ _ _ _ plugin _ _ _ => Some plugin
  | _ => None
  end.
Definition acts_for (cfg : Config Key) (userID : string) (c : component Key) : Prop :=
  match c with
  | ServiceRegistry account _ _ | ResponseHandler account _ _ _ _ => account = TTMAccountAddress cfg
  | BookingService _ _ account key _ _ _ _ | Cancellation _ key account _ _ =>
      account = TTMAccountAddress cfg ∧ key = BotKey cfg
  | MatrixClient _ _ key user | Messenger _ key user => key = BotKey cfg ∧ user = userID
  | Encoder _ _ key => key = BotKey cfg
  | MessageProcessor _ _ bot account _ _ _ _ _ _ =>
      bot = PubkeyToAddress (BotKey cfg) ∧ account = TTMAccountAddress cfg
  | _ => True
  end.

Lemma all_components_ordered cfg chainID hostname : ordered [] (all_components cfg chainID hostname).
Proof.
  unfold all_components, newPartnerPlugin, when. destruct (pp_Enabled _), (rpc_Enabled _);
    cbn [mbind option_bind option_list app ordered];
    repeat split; cbn [parts app]; repeat constructor; simpl; try done; intros _;
    repeat first [apply list_elem_of_here | apply list_elem_of_further].
Qed.

(** Whatever a bot is made of. *)
Definition whole (app : App Key) : list (component Key) :=
  parts (app_eventListener app) ++ parts (app_messageProcessor app) ++
  match app_rpcServer app with Some server => parts server | None => [] end.

(** What it returns. *)
Definition wired (cfg : Config Key) (chainID : Z) (hostname : string) (app : App Key) : Prop :=
  let all := all_components cfg chainID hostname in
  app_botUserID app = UserIDFromAddress (PubkeyToAddress (BotKey cfg)) hostname ∧
  (app_eventListener app ∈ all ∧ app_eventListener app ∈ parts (app_messageProcessor app)) ∧
  (app_messenger app ∈ all ∧ app_messenger app ∈ parts (app_messageProcessor app)) ∧
  (rpc_Enabled (RPCServer cfg) = bool_decide (is_Some (app_rpcServer app)) ∧
   ∀ server, app_rpcServer app = Some server →
     server ∈ all ∧ app_messageProcessor app ∈ parts server) ∧
  Forall (acts_for cfg (app_botUserID app)) (whole app) ∧
  (∃ accounts, Forall (λ c, ∀ d, accounts_of c = Some d → d = accounts) (whole app)) ∧
  app_rpcClient app =
    when (pp_Enabled (Config.PartnerPlugin cfg)) (RpcClient (Config.PartnerPlugin cfg)) ∧
  Forall (λ c, ∀ d, plugin_of c = Some d → d = newPartnerPlugin (app_rpcClient app) (ResponseTimeout cfg))
    (whole app).

Ltac here := repeat first [apply list_elem_of_here | apply list_elem_of_further].
Ltac fails_at chainID hostname E :=
  exists chainID, hostname; do 3 eexists; split; [|exact E];
  unfold all_components; repeat (match goal with Ee : pp_Enabled _ = _ |- _ => rewrite Ee
                                 | Ee : rpc_Enabled _ = _ |- _ => rewrite Ee end);
  cbn; reflexivity.
Ltac fails chainID hostname :=
  let E := fresh in intros ? ? E; fails_at chainID hostname E.
Ltac constructs chainID hostname :=
  eapply runs_construct; [eassumption|intros ? ?|fails chainID hostname]; cbv beta.
Ltac enables E chainID hostname :=
  eapply runs_enabled; [eassumption|intros ? ?|
    intros ? ? Hr ?; rewrite E in Hr;
    first [discriminate Hr|match goal with F : made ?y = _ |- failed _ _ ?y => fails_at chainID hostname F end]];
  rewrite ?E in *; cbv beta.

(** C9: how the construction of the bot ends.  Without a failure every component was made
    once, in an order in which whatever a component is handed, directly or through another,
    was made before it; the accounts service is one and the same for all that use it, and
    every component that acts in the name of the bot has its key, its account and its user
    id; the partner plugin with its connection, and the server, are there if and only if they
    are enabled, and without the plugin the event listener and the processor hold none.  A failure of any
    constructor ends it with an error when a proper part of the components was made, and
    nothing that was made is undone. *)
Theorem NewApp_ends cfg x :
  runs (NewApp cfg) x (λ x' o, match o with
    | Ok app => ∃ chainID hostname,
        made x' = made x ++ all_components cfg chainID hostname ∧
        ordered [] (all_components cfg chainID hostname) ∧
        matrixHostname (Host (Matrix cfg)) = Ok hostname ∧ wired cfg chainID hostname app
    | Err _ => failed cfg (made x) x'
    | Panic _ => False
    end).
Proof.
  remember (made x) as m0 eqn:Hm. assert (made x = m0 ++ []) as Hx by by rewrite app_nil_r.
  clear Hm. destruct (pp_Enabled (Config.PartnerPlugin cfg)) eqn:Ep, (rpc_Enabled (RPCServer cfg)) eqn:Er.
  all: unfold NewApp.
  all: constructs 0 "".
  all: eapply runs_read; [apply ChainID_made|apply ChainID_returns|eassumption|intros ? chainID ?|fails 0 ""];
    cbv beta.
  all: enables Ep chainID "".
  all: do 2 constructs chainID "".
  all: eapply runs_read; [apply UpToDate_made|apply UpToDate_returns|eassumption|intros ? ? ?|fails chainID ""];
    cbv beta.
  all: do 5 constructs chainID "".
  all: eapply runs_hostname; [intros hostname Hh|intros e;
    match goal with E : made ?y = _ |- failed _ _ ?y => fails_at chainID "" E end]; cbv beta.
  all: do 3 constructs chainID hostname.
  all: eapply runs_make; [eassumption|intros ? ?|fails chainID hostname]; cbv beta.
  all: constructs chainID hostname.
  all: enables Er chainID hostname.
  all: apply runs_ret; exists chainID, hostname.
  all: split; [match goal with E : made ?y = _ |- made ?y = _ => rewrite E end;
    unfold all_components; by rewrite Ep, Er|].
  all: split; [apply all_components_ordered|]; split; [exact Hh|].
  all: unfold wired, all_components; rewrite Ep, Er; split; [done|];
    split; [split; cbn; here|]; split; [split; cbn; here|].
  all: split; [split; [reflexivity|
    intros ? [= <-]; split; cbn; here]|].
  all: split; [cbn; repeat constructor|]; split; [eexists|split; [done|]];
    cbn; repeat constructor; by intros ? [= <-].
Qed.
End NewApp.

(** ** The command (cmd/travel_token_messenger_bot.go)

    [rootFunc] reads the configuration, builds the loggers, sets the version, makes the bot
    and runs it; a cancellation while the bot is made is no error.  The loggers and
    [IsDevelopmentMode], a look into viper, are parameters; so is [app.Run], the file App. *)
Section Command.
Context {Key X : Type} `{!Constructors Key X} `{UserIDs} `{Hex Key} `{Viper}.
Variable NewProduction NewConfigReader Build : outcome unit.
Variable IsDevelopmentMode : bool.
Variable AppVersion : string.
Variable Run : App Key → M (versions * X) unit.

(** The variables of the package version, and what the bot is made of. *)
Definition onVersions {A} (m : M versions A) : M (versions * X) A := λ s,
  let '(v, o) := m s.1 in ((v, s.2), o).
Definition onApp {A} (m : M X A) : M (versions * X) A := λ s,
  let '(x, o) := m s.2 in ((s.1, x), o).

Definition rootFunc : M (versions * X) unit :=
  wrapS "failed to create config-reader logger: %w" (liftO NewProduction) ;;
  wrapS "failed to create config reader: %w" (liftO NewConfigReader) ;;
  cfg ← wrapS "failed to read config: %w" (liftO ReadConfig);
  wrapS "failed to create logger: %w" (liftO Build) ;;
  wrapS "failed to initialize bot version: %w"
    (onVersions (InitProtoVersion AppVersion IsDevelopmentMode)) ;;
  r ← attempt (onApp (NewApp cfg));
  match r with
  | inl app => Run app
  | inr err =>
      if errors_is err "context.Canceled" then retS tt
      else throwS (Wrapf "failed to create app: %w" err)
  end.

(** Nothing is made before a configuration was read and the version of the messages is
    set to a valid one. *)
Lemma rootFunc_ends s :
  (∀ app, keeps fst (Run app)) →
  runs rootFunc s (λ t o,
    (∃ (cfg : Config Key) v, ReadConfig = Ok cfg ∧ Version.valid v ∧
       t.1 = {| VersionV1 := Some v; VersionV4 := Some v |}) ∨
    (t = s ∧ ∀ a, o ≠ Ok a)).
Proof.
  intros Hr. destruct s as [v x]. unfold runs, rootFunc, mbind, M_bind, wrapS, liftO.
  destruct NewProduction; simpl; [|by right..]. destruct NewConfigReader; simpl; [|by right..].
  destruct ReadConfig as [cfg|e|p]; simpl; [|by right..]. destruct Build; simpl; [|by right..].
  unfold onVersions. destruct (version_roundtrip AppVersion IsDevelopmentMode v) as [_ Hv].
  revert Hv. simpl. destruct (InitProtoVersion _ _ v) as [v' [[]|e|p]]; simpl; [|intros ->; by right|done].
  intros (w & Hw & ->). unfold attempt, onApp. simpl.
  destruct (NewApp cfg x) as [x' [app|e|p]]; simpl.
  - pose proof (Hr app ({| VersionV1 := Some w; VersionV4 := Some w |}, x')) as E.
    destruct (Run app _) as [t o]. left. by exists cfg, w.
  - destruct (errors_is e _); left; by exists cfg, w.
  - left. by exists cfg, w.
Qed.
End Command.

(** ** A bot whose partner plugin is disabled

    [NewApp] then hands the event listener the zero value of the interface, and a call of
    a method of it is a panic. *)
Definition without_plugin {W} (ops : ListenerOps W) : ListenerOps W := {|
  Now := Now; sent := sent; client_Notify _ := panicS nilDeref;
  svc_GetBookingStatus := svc_GetBookingStatus;
  svc_IsBookingCancellable := svc_IsBookingCancellable;
  svc_RecordExpiration := svc_RecordExpiration;
  svc_GetCancellationProposal := svc_GetCancellationProposal;
  svc_GetCancellationReasons := svc_GetCancellationReasons;
  svc_GetCancellationReasonsEvent := svc_GetCancellationReasonsEvent |}.

Section Disabled.
Context {W : Type} (ops : ListenerOps W).
Variable fault : nat → option error.
Variable scan : ∀ A : Type, list A → list A.
Variable startingBlockNumber : Z.
Hypothesis no_fault : ∀ n, fault n = None.
Hypothesis scan_perm : ∀ A (l : list A), scan A l ≡ₚ l.

Abbreviation state := (Txn tables (listener W)).
Abbreviation off := (without_plugin ops).

(** The chain answers what it is asked, and the status of a proposal does not change. *)
Definition chain_answers (status : Z → Z) : Prop :=
  ∀ tokenID txHash w,
    (∃ w' c, svc_GetCancellationProposal (ListenerOps := off) (Some startingBlockNumber) tokenID w
       = (w', Ok c) ∧ prop_Status c = status tokenID) ∧
    (∃ w' r, svc_GetCancellationReasons (ListenerOps := off) (Some startingBlockNumber) tokenID w
       = (w', Ok r)) ∧
    (∃ w' r, svc_GetCancellationReasonsEvent (ListenerOps := off) txHash w = (w', Ok r)).

(** A call that panics, whatever the state. *)
Definition panics {A} (m : M state A) : Prop := ∀ s, (m s).2 = Panic nilDeref.

Lemma panics_bind {A B} (m : M state A) (k : A → M state B) : panics m → panics (mbind k m).
Proof. intros Hm s. specialize (Hm s). unfold mbind, M_bind. destruct (m s) as [t o]. simpl in *. by subst. Qed.
Lemma panics_after {A B} (m : M state A) (k : A → M state B) :
  (∀ s, ∃ t a, m s = (t, Ok a) ∧ panics (k a)) → panics (mbind k m).
Proof. intros Hm s. destruct (Hm s) as (t & a & E & Hk). unfold mbind, M_bind. rewrite E. apply Hk. Qed.
Lemma panics_wrap {A} fmt (m : M state A) : panics m → panics (wrapS fmt m).
Proof. intros Hm s. specialize (Hm s). unfold wrapS. destruct (m s) as [t o]. simpl in *. by subst. Qed.
Lemma panics_respond {A R} (m : M state A) (r : error → R) k : panics m → panics (orRespond m r k).
Proof.
  intros Hm. apply panics_bind. intros s. specialize (Hm s). unfold attempt. destruct (m s) as [t o].
  simpl in *. by subst.
Qed.

Lemma session_panics {A} fmt (m : M state A) : panics m → panics (withSession fault fmt m).
Proof.
  intros Hm. apply panics_after. intros s. unfold wrapS, NewSession, wrapS.
  rewrite external_ok by done. do 2 eexists. split; [done|].
  intros t. specialize (Hm t). unfold deferS. destruct (m t) as [u o]. exact Hm.
Qed.

(** A subscribed token gets past the look at the subscriptions. *)
Lemma subscribed_panics tokenId b k (s : state) :
  bigInt64 tokenId ∈ cancellations (committed s) → panics k →
  (ifSubscribed fault tokenId b k s).2 = Panic nilDeref.
Proof.
  intros Hin Hk. unfold ifSubscribed, orRespond, attempt, mbind, M_bind, NewSession, wrapS.
  rewrite external_ok by done. cbn -[bigInt64 storage_IsCancellationSubscriptionExist].
  unfold deferS, storage_IsCancellationSubscriptionExist, Query, Exec, wrapS.
  rewrite external_ok by done. cbn -[bigInt64]. rewrite bool_decide_true by done. cbn.
  match goal with |- context [k ?t] => specialize (Hk t); destruct (k t) end. exact Hk.
Qed.

Lemma catchUp_none status tokenID s :
  chain_answers status → status tokenID = 0 →
  ∃ t, catchUp (H := off) fault startingBlockNumber tokenID s = (t, Ok tt).
Proof.
  intros Hc Hs. destruct (Hc tokenID 0 (env (rest s))) as [(w & c & E & Ec) _].
  unfold catchUp, mbind, M_bind, wrapS, onEnv. rewrite E. cbn. rewrite Ec, Hs. by eexists.
Qed.

Lemma catchUp_panics status tokenID :
  chain_answers status → status tokenID ∈ [1; 2; 3; 4] →
  panics (catchUp (H := off) fault startingBlockNumber tokenID).
Proof.
  intros Hc Hs s. destruct (Hc tokenID 0 (env (rest s))) as [(w & c & E & Ec) _].
  unfold catchUp, mbind at 1, M_bind at 1, wrapS at 1, onEnv at 1. rewrite E. cbn [wrapO].
  rewrite Ec. match goal with |- (_ ?t).2 = _ => generalize t end.
  assert (∀ k : CancellationReasons → M state unit, (∀ r, panics (k r)) → panics (mbind k
    (wrapS "error getting cancellation reasons for token %s: %w"
      (onEnv (svc_GetCancellationReasons (ListenerOps := off) (Some startingBlockNumber) tokenID))))) as Hr.
  { intros k Hk. apply panics_after. intros u. destruct (Hc tokenID 0 (env (rest u))) as (_ & (w' & r & E') & _).
    unfold wrapS, onEnv. rewrite E'. do 2 eexists. by split. }
  assert (panics (onEnv (W := W) (A := unit) (panicS nilDeref))) as Hp by done.
  repeat (apply elem_of_cons in Hs as [Hs|Hs]; [rewrite Hs; cbn -[withSession mbind]; intros t;
    first [apply Hr; intros r | apply session_panics, panics_bind]; by apply panics_wrap|]).
  by apply elem_of_nil in Hs.
Qed.

Lemma catchUpAll_panics status tokenIDs tokenID :
  chain_answers status → (∀ t, t ∈ tokenIDs → status t ∈ [0; 1; 2; 3; 4]) →
  tokenID ∈ tokenIDs → status tokenID ≠ 0 →
  panics (catchUpAll (H := off) fault startingBlockNumber tokenIDs).
Proof.
  intros Hc Hs Hin Hne. induction tokenIDs as [|t l IH]; [by apply elem_of_nil in Hin|]. cbn [catchUpAll].
  pose proof (Hs t (list_elem_of_here t l)) as Ht. apply elem_of_cons in Ht as [Ht|Ht].
  - apply panics_after. intros s. destruct (catchUp_none _ _ s Hc Ht) as [u E].
    do 2 eexists. split; [exact E|]. apply IH.
    + intros v Hv. apply Hs. by right.
    + apply elem_of_cons in Hin as [->|Hin]; done.
  - apply panics_bind. by eapply catchUp_panics.
Qed.

Lemma startup_panics status tokenId (s : state) :
  chain_answers status → (∀ t, t ∈ cancellations (committed s) → status t ∈ [0; 1; 2; 3; 4]) →
  tokenId ∈ cancellations (committed s) → status tokenId ≠ 0 →
  (startCancellationSubscriptions (H := off) fault scan startingBlockNumber s).2 = Panic nilDeref.
Proof.
  intros Hc Hs Hin Hne.
  unfold startCancellationSubscriptions, cancellationSubscriptionsStartupCheck,
    getAllCancellationSubscriptionTokenIDs, withSession, storage_GetAllCancellationSubscriptions,
    Query, Exec, deferS, NewSession, wrapS, mbind, M_bind.
  do 2 (rewrite external_ok by done; cbn).
  match goal with |- context [catchUpAll _ _ ?l ?t] => assert (panics (catchUpAll (H := off) fault
    startingBlockNumber l)) as Hp; [|specialize (Hp t); destruct (catchUpAll _ _ _ t) as [u o]] end.
  - eapply (catchUpAll_panics status); [done|..|exact Hne]; intros *; rewrite scan_perm, elem_of_elements; auto.
  - cbn in *. by subst o.
Qed.

(** C28: what a listener without a partner plugin does for a token that its bot watches for
    cancellations, which a bot that bought a cancellable booking does: the rejection, the
    withdrawal and the conclusion of a cancellation are a panic in the handler, and so is
    the proposal once its reasons are known; and while a watched token has a proposal of
    any status, no start of the listener gets past the start-up check. *)
Theorem disabled_plugin_panics (s : state) tokenId status reason raw event :
  0 ≤ tokenId < 2 ^ 63 → tokenId ∈ cancellations (committed s) → ev_TokenId event = tokenId →
  chain_answers status →
  (∀ t, t ∈ cancellations (committed s) → status t ∈ [0; 1; 2; 3; 4]) → status tokenId ≠ 0 →
  (cancellationPendingEventHandler (H := off) fault event s).2 = Panic nilDeref ∧
  (cancellationRejectedEventHandler (H := off) fault tokenId reason raw s).2 = Panic nilDeref ∧
  (cancellationWithdrawnEventHandler (H := off) fault tokenId reason raw s).2 = Panic nilDeref ∧
  (cancellationFinalizedEventHandler (H := off) fault tokenId raw s).2 = Panic nilDeref ∧
  (startCancellationSubscriptions (H := off) fault scan startingBlockNumber s).2 = Panic nilDeref.
Proof.
  intros Hr Hin He Hc Hs Hne. pose proof (bigInt64_small tokenId Hr) as Hb.
  split_and!; try (apply subscribed_panics; [by rewrite ?He, Hb|]; by apply panics_respond).
  - apply subscribed_panics; [by rewrite He, Hb|]. apply panics_after. intros t.
    destruct (Hc tokenId (TxHash (ev_Raw event)) (env (rest t))) as (_ & _ & w & r & E).
    unfold attempt, onEnv. rewrite E. do 2 eexists. split; [done|]. by apply panics_respond.
  - apply (startup_panics status tokenId); done.
Qed.
End Disabled.

(** ** Constructors that work, and witnesses *)
Module Toy.
(** A world in which a given constructor fails. *)
Definition world : Type := list (component unit) * option (component unit → bool).

Definition make_one (c : component unit) : M world unit := λ w,
  if match w.2 with Some bad => bad c | None => false end then (w, Err (Sentinel "context.Canceled"))
  else ((w.1 ++ [c], w.2), Ok tt).

#[global] Instance constructors : Constructors unit world.
Proof.
  refine {| made w := w.1; make := make_one; ChainID _ := retS 43113;
            IsTTMAccountImplementationUpToDate _ _ := retS true; url_Hostname _ := Ok "matrix.host";
            PubkeyToAddress _ := 16 |}.
  - intros c w. unfold make_one. by case_match.
  - done.
  - done.
  - intros c w p. unfold make_one. by case_match.
  - done.
  - done.
  - done.
Defined.

Definition isMatrix (c : component unit) : bool :=
  match c with MatrixClient _ _ _ _ => true | _ => false end.

(** A listener that watches the token 7 for cancellations, whose cancellation is proposed. *)
Definition pendingProposal : CancellationProposal :=
  {| prop_Status := 1; RefundAmount := 5; InitialProposer := 1; CurrentProposer := 1;
     OwnerAccepted := true; SupplierAccepted := false; TimesCountered := 0; TimesRejected := 0 |}.
Definition ops : ListenerOps EventListener.Toy.world := {|
  Now := EventListener.Toy.clock; sent := EventListener.Toy.log; client_Notify := EventListener.Toy.notify;
  svc_GetBookingStatus := EventListener.Toy.status;
  svc_IsBookingCancellable _ _ := EventListener.Toy.answer true;
  svc_RecordExpiration _ := EventListener.Toy.answer tt;
  svc_GetCancellationProposal _ _ := EventListener.Toy.answer pendingProposal;
  svc_GetCancellationReasons _ _ := EventListener.Toy.answer EventListener.Toy.reasons;
  svc_GetCancellationReasonsEvent _ := EventListener.Toy.answer EventListener.Toy.reasons |}.
End Toy.

(** A bot with everything enabled, and one whose matrix client is not made. *)
Lemma NewApp_ends_witness :
  (∃ app hostname, (NewApp Config.Toy.read (([], None) : Toy.world)).2 = Ok app ∧
     (∃ chainID, wired (X := Toy.world) Config.Toy.read chainID hostname app) ∧
     matrixHostname (X := Toy.world) (Host (Matrix Config.Toy.read)) = Ok hostname) ∧
  failed (X := Toy.world) Config.Toy.read [] (NewApp Config.Toy.read (([], Some Toy.isMatrix) : Toy.world)).1.
Proof.
  split.
  - pose proof (NewApp_ends (X := Toy.world) Config.Toy.read ([], None)) as H. unfold runs in H.
    destruct (NewApp Config.Toy.read _) as [x [app|e|p]] eqn:E;
      [|apply (f_equal (λ r, is_ok r.2)) in E; vm_compute in E; discriminate E..].
    destruct H as (chainID & hostname & _ & _ & Hh & Hw). exists app, hostname.
    split; [done|]. split; [by exists chainID|exact Hh].
  - pose proof (NewApp_ends (X := Toy.world) Config.Toy.read ([], Some Toy.isMatrix)) as H. unfold runs in H.
    destruct (NewApp Config.Toy.read _) as [x [app|e|p]] eqn:E; [|exact H|destruct H].
    apply (f_equal (λ r, is_ok r.2)) in E. vm_compute in E. discriminate E.
Defined.

Lemma disabled_plugin_panics_witness :
  (cancellationFinalizedEventHandler (H := without_plugin Toy.ops) EventListener.Toy.fault 7
     EventListener.Toy.raw EventListener.Toy.one).2 = Panic nilDeref ∧
  (startCancellationSubscriptions (H := without_plugin Toy.ops) EventListener.Toy.fault
     EventListener.Toy.scan 40 EventListener.Toy.one).2 = Panic nilDeref.
Proof.
  pose proof (disabled_plugin_panics Toy.ops EventListener.Toy.fault EventListener.Toy.scan 40
    EventListener.Toy.no_fault EventListener.Toy.scan_perm EventListener.Toy.one 7 (λ _, 1) 0
    EventListener.Toy.raw EventListener.Toy.event) as H.
  destruct H as (_ & _ & _ & H1 & H2).
  - split; [discriminate|reflexivity].
  - apply (bool_decide_unpack _). vm_compute. exact I.
  - reflexivity.
  - intros t h w. split_and!; do 2 eexists; [split|..]; reflexivity.
  - intros t _. right. left.
  - discriminate.
  - exact (conj H1 H2).
Defined.
