(* ===== verification/Events.v ===== *)
(** * The event stream of the partner plugin mock (src/pp-mock/events)

    Every request the mock receives is sent, before it is handled, to one goroutine that
    passes it to each subscribed stream.  The steps are those of that goroutine, of the
    callers of [SendProtoEvent] and of the streams; a send on an unbuffered channel is one
    step of its two ends, and a goroutine that waits for a lock has no step until it can
    have it. *)
From S2P Require Import Prelude.
From stdpp Require Import gmap relations.

#[local] Open Scope nat_scope.

Section Events.
Context {Event : Type}.
(** [proto.Marshal]: may fail, and the event is then not sent. *)
Variable marshals : Event → bool.

(** The goroutine of [Start], in [stop] and in [propagate]. *)
Inductive propagator :=
  | Select
  | Received (event : Event)                       (* before the read lock *)
  | Propagating (event : Event) (chans : list nat) (* holds it; the channels left *)
  | StopSender                                     (* before the mutex of the sender *)
  | Draining                                       (* for range e.eventChan, with the mutex *)
  | Closing                                        (* before close(s.stopChan) *)
  | Returned.

(** A call of [SendProtoEvent]. *)
Inductive sender :=
  | WaitMutex (event : Event)
  | Sending (event : Event)   (* holds the mutex, at e.eventChan <- event *)
  | Sent.

(** A stream: [Subscribe], with the identifier of its subscription. *)
Inductive subscriber :=
  | Subscribing
  | Selecting (subscriptionID : Z)
  | Streaming (subscriptionID : Z) (event : Event)
  | Unsubscribing (subscriptionID : Z)
  | Gone.

(** The channel of a subscription is the number of its stream; [history] are the events
    propagated so far, [received] what each stream took from its
    channel, [joined] how many events there were when it subscribed. *)
Record server := {
  prop : propagator;
  senders : gmap nat sender;
  subscribers : gmap nat subscriber;
  subscriptionChans : gmap Z nat;
  sendMutex : bool;
  isStopped : bool;
  eventChanClosed : bool;
  stopChanClosed : bool;
  ctxDone : bool;
  history : list Event;
  received : gmap nat (list Event);
  joined : gmap nat nat
}.

Definition NewServer : server := {|
  prop := Select; senders := ∅; subscribers := ∅; subscriptionChans := ∅; sendMutex := false;
  isStopped := false; eventChanClosed := false; stopChanClosed := false; ctxDone := false;
  history := []; received := ∅; joined := ∅ |}.

Definition set_prop (p : propagator) (s : server) : server := {|
  prop := p; senders := senders s; subscribers := subscribers s;
  subscriptionChans := subscriptionChans s; sendMutex := sendMutex s; isStopped := isStopped s;
  eventChanClosed := eventChanClosed s; stopChanClosed := stopChanClosed s; ctxDone := ctxDone s;
  history := history s; received := received s; joined := joined s |}.
Definition set_sender (j : nat) (p : sender) (mutex : bool) (s : server) : server := {|
  prop := prop s; senders := <[j := p]> (senders s); subscribers := subscribers s;
  subscriptionChans := subscriptionChans s; sendMutex := mutex; isStopped := isStopped s;
  eventChanClosed := eventChanClosed s; stopChanClosed := stopChanClosed s; ctxDone := ctxDone s;
  history := history s; received := received s; joined := joined s |}.
Definition set_subscriber (i : nat) (p : subscriber) (s : server) : server := {|
  prop := prop s; senders := senders s; subscribers := <[i := p]> (subscribers s);
  subscriptionChans := subscriptionChans s; sendMutex := sendMutex s; isStopped := isStopped s;
  eventChanClosed := eventChanClosed s; stopChanClosed := stopChanClosed s; ctxDone := ctxDone s;
  history := history s; received := received s; joined := joined s |}.
(** [s.subscriptionChans[subscriptionID] = ch] and [delete(s.subscriptionChans, subscriptionID)]. *)
Definition add_chan (subscriptionID : Z) (i : nat) (s : server) : server := {|
  prop := prop s; senders := senders s; subscribers := subscribers s;
  subscriptionChans := <[subscriptionID := i]> (subscriptionChans s); sendMutex := sendMutex s;
  isStopped := isStopped s; eventChanClosed := eventChanClosed s;
  stopChanClosed := stopChanClosed s; ctxDone := ctxDone s; history := history s;
  received := received s; joined := <[i := length (history s)]> (joined s) |}.
Definition delete_chan (subscriptionID : Z) (s : server) : server := {|
  prop := prop s; senders := senders s; subscribers := subscribers s;
  subscriptionChans := delete subscriptionID (subscriptionChans s); sendMutex := sendMutex s;
  isStopped := isStopped s; eventChanClosed := eventChanClosed s;
  stopChanClosed := stopChanClosed s; ctxDone := ctxDone s; history := history s;
  received := received s; joined := joined s |}.
Definition record_event (event : Event) (s : server) : server := {|
  prop := prop s; senders := senders s; subscribers := subscribers s;
  subscriptionChans := subscriptionChans s; sendMutex := sendMutex s; isStopped := isStopped s;
  eventChanClosed := eventChanClosed s; stopChanClosed := stopChanClosed s; ctxDone := ctxDone s;
  history := history s ++ [event]; received := received s; joined := joined s |}.
Definition take_event (i : nat) (event : Event) (s : server) : server := {|
  prop := prop s; senders := senders s; subscribers := subscribers s;
  subscriptionChans := subscriptionChans s; sendMutex := sendMutex s; isStopped := isStopped s;
  eventChanClosed := eventChanClosed s; stopChanClosed := stopChanClosed s; ctxDone := ctxDone s;
  history := history s;
  received := <[i := default [] (received s !! i) ++ [event]]> (received s); joined := joined s |}.
Definition end_context (s : server) : server := {|
  prop := prop s; senders := senders s; subscribers := subscribers s;
  subscriptionChans := subscriptionChans s; sendMutex := sendMutex s; isStopped := isStopped s;
  eventChanClosed := eventChanClosed s; stopChanClosed := stopChanClosed s; ctxDone := true;
  history := history s; received := received s; joined := joined s |}.
(** [e.isStopped = true], with the mutex. *)
Definition stop_sender (s : server) : server := {|
  prop := Draining; senders := senders s; subscribers := subscribers s;
  subscriptionChans := subscriptionChans s; sendMutex := true; isStopped := true;
  eventChanClosed := eventChanClosed s; stopChanClosed := stopChanClosed s; ctxDone := ctxDone s;
  history := history s; received := received s; joined := joined s |}.
(** [close(e.eventChan)], and the mutex is given back. *)
Definition close_eventChan (s : server) : server := {|
  prop := Closing; senders := senders s; subscribers := subscribers s;
  subscriptionChans := subscriptionChans s; sendMutex := false; isStopped := isStopped s;
  eventChanClosed := true; stopChanClosed := stopChanClosed s; ctxDone := ctxDone s;
  history := history s; received := received s; joined := joined s |}.
Definition close_stopChan (s : server) : server := {|
  prop := Returned; senders := senders s; subscribers := subscribers s;
  subscriptionChans := subscriptionChans s; sendMutex := sendMutex s; isStopped := isStopped s;
  eventChanClosed := eventChanClosed s; stopChanClosed := true; ctxDone := ctxDone s;
  history := history s; received := received s; joined := joined s |}.

(** [propagate] holds the lock that [subscribe] and [unsubscribe] need. *)
Definition read_locked (s : server) : Prop :=
  match prop s with Propagating _ _ => True | _ => False end.

Inductive step (s : server) : server → Prop :=
  (* SendProtoEvent *)
  | step_call j event : senders s !! j = None → step s (set_sender j (WaitMutex event) (sendMutex s) s)
  | step_ignored j event :
      senders s !! j = Some (WaitMutex event) → sendMutex s = false →
      isStopped s = true ∨ marshals event = false → step s (set_sender j Sent false s)
  | step_lock j event :
      senders s !! j = Some (WaitMutex event) → sendMutex s = false → isStopped s = false →
      marshals event = true → step s (set_sender j (Sending event) true s)
  (* the goroutine of Start *)
  | step_receive j event :
      prop s = Select → senders s !! j = Some (Sending event) →
      step s (set_prop (Received event) (set_sender j Sent false s))
  | step_read_lock event chans :
      prop s = Received event → chans ≡ₚ (map_to_list (subscriptionChans s)).*2 →
      step s (set_prop (Propagating event chans) (record_event event s))
  | step_pass event i chans subscriptionID :
      prop s = Propagating event (i :: chans) →
      subscribers s !! i = Some (Selecting subscriptionID) →
      step s (set_prop (Propagating event chans)
                (set_subscriber i (Streaming subscriptionID event) (take_event i event s)))
  | step_passed event : prop s = Propagating event [] → step s (set_prop Select s)
  | step_cancel : step s (end_context s)
  | step_done : prop s = Select → ctxDone s = true → step s (set_prop StopSender s)
  | step_stop : prop s = StopSender → sendMutex s = false → step s (stop_sender s)
  | step_drain j event :
      prop s = Draining → senders s !! j = Some (Sending event) → step s (set_sender j Sent false s)
  | step_drained : prop s = Draining → eventChanClosed s = true → step s (close_eventChan s)
  | step_stopped : prop s = Closing → step s (close_stopChan s)
  (* Subscribe *)
  | step_stream i : subscribers s !! i = None → step s (set_subscriber i Subscribing s)
  | step_subscribe i now :
      subscribers s !! i = Some Subscribing → ¬ read_locked s → subscriptionChans s !! now = None →
      step s (set_subscriber i (Selecting now) (add_chan now i s))
  | step_streamed i subscriptionID event (ok : bool) :
      subscribers s !! i = Some (Streaming subscriptionID event) →
      step s (set_subscriber i (if ok then Selecting subscriptionID else Unsubscribing subscriptionID) s)
  (* the stop channel is closed, or the context of the stream is done *)
  | step_leave i subscriptionID :
      subscribers s !! i = Some (Selecting subscriptionID) →
      step s (set_subscriber i (Unsubscribing subscriptionID) s)
  | step_unsubscribe i subscriptionID :
      subscribers s !! i = Some (Unsubscribing subscriptionID) → ¬ read_locked s →
      step s (set_subscriber i Gone (delete_chan subscriptionID s)).

Definition reachable : server → Prop := rtc step NewServer.

(** ** Lemmas *)

(** The subscription a stream has, and the streams an event has still to be passed to. *)
Definition subscription (p : subscriber) : option Z :=
  match p with
  | Selecting id | Streaming id _ | Unsubscribing id => Some id
  | Subscribing | Gone => None
  end.
Definition owed (s : server) : list nat :=
  match prop s with Propagating _ chans => chans | _ => [] end.
Definition received_of (s : server) (i : nat) : list Event := default [] (received s !! i).

Definition pending (s : server) (i : nat) : list Event :=
  match prop s with
  | Propagating event chans => if decide (i ∈ chans) then [event] else []
  | _ => []
  end.

(** What a stream received. *)
Definition stream_ok (s : server) (i : nat) (p : subscriber) : Prop :=
  match p with
  | Subscribing => received s !! i = None ∧ joined s !! i = None
  | Gone => ∃ n m, joined s !! i = Some n ∧ n + m ≤ length (history s) ∧
      received_of s i = take m (drop n (history s))
  | _ => ∃ n, joined s !! i = Some n ∧ n ≤ length (history s) ∧
      received_of s i ++ pending s i = drop n (history s)
  end.

Record inv (s : server) : Prop := {
  inv_chans id i : subscriptionChans s !! id = Some i ↔
    ∃ p, subscribers s !! i = Some p ∧ subscription p = Some id;
  inv_owed : NoDup (owed s) ∧
    ∀ i, i ∈ owed s → ∃ p id, subscribers s !! i = Some p ∧ subscription p = Some id;
  inv_new i : subscribers s !! i = None → received s !! i = None ∧ joined s !! i = None;
  inv_stream i p : subscribers s !! i = Some p → stream_ok s i p
}.

(** The streams and the events stay as they are. *)
Definition same_streams (s t : server) : Prop :=
  subscribers t = subscribers s ∧ subscriptionChans t = subscriptionChans s ∧
  history t = history s ∧ received t = received s ∧ joined t = joined s ∧
  owed t = owed s ∧ ∀ i, pending t i = pending s i.

Lemma inv_same s t : same_streams s t → inv s → inv t.
Proof.
  intros (Es & Ec & Eh & Er & Ej & Eo & Ep) [H1 H2 H3 H4].
  split; rewrite ?Es, ?Ec, ?Eo, ?Er, ?Ej; [done..|]. intros i p Hp. specialize (H4 i p Hp).
  unfold stream_ok, received_of in *. by rewrite Ej, Eh, Er, Ep.
Qed.

(** A stream goes on within its subscription. *)
Lemma stream_moves s i p q id :
  subscribers s !! i = Some p → subscription p = Some id → subscription q = Some id →
  inv s → inv (set_subscriber i q s).
Proof.
  intros Hi Hp Hq [H1 H2 H3 H4]. split; simpl.
  - intros id' k. rewrite H1. destruct (decide (k = i)) as [->|Hne].
    + rewrite lookup_insert_eq. split.
      * intros (r & Hr & Hid). exists q. split; congruence.
      * intros (r & [= <-] & Hid). exists p. split; congruence.
    + by rewrite lookup_insert_ne.
  - destruct H2 as [? H2]. split; [done|]. intros k Hk. destruct (H2 k Hk) as (r & id' & Hr & Hid).
    destruct (decide (k = i)) as [->|Hne]; [exists q, id; by rewrite lookup_insert_eq|].
    exists r, id'. by rewrite lookup_insert_ne.
  - intros k Hk. apply lookup_insert_None in Hk as [? _]. auto.
  - intros k r Hk. destruct (decide (k = i)) as [->|Hne].
    + rewrite lookup_insert_eq in Hk. injection Hk as <-. specialize (H4 i p Hi).
      by destruct p, q.
    + rewrite lookup_insert_ne in Hk by done. by apply H4.
Qed.

(** Nothing is owed outside of [propagate]. *)
Lemma not_locked s : ¬ read_locked s → owed s = [] ∧ ∀ i, pending s i = [].
Proof. unfold read_locked, owed, pending. by destruct (prop s). Qed.

Lemma inv_stream_new s i : subscribers s !! i = None → inv s → inv (set_subscriber i Subscribing s).
Proof.
  intros Hi [H1 H2 H3 H4]. split; simpl.
  - intros id k. rewrite H1. destruct (decide (k = i)) as [->|Hne]; [|by rewrite lookup_insert_ne].
    rewrite lookup_insert_eq, Hi. split; [by intros (? & ? & _)|by intros (? & [= <-] & ?)].
  - destruct H2 as [? H2]. split; [done|]. intros k Hk. destruct (H2 k Hk) as (r & id' & Hr & Hid).
    exists r, id'. rewrite lookup_insert_ne; [done|]. congruence.
  - intros k Hk. apply lookup_insert_None in Hk as [? _]. auto.
  - intros k r Hk. destruct (decide (k = i)) as [->|Hne].
    + rewrite lookup_insert_eq in Hk. injection Hk as <-. by apply H3.
    + rewrite lookup_insert_ne in Hk by done. by apply H4.
Qed.

Lemma inv_subscribe s i now :
  subscribers s !! i = Some Subscribing → ¬ read_locked s → subscriptionChans s !! now = None →
  inv s → inv (set_subscriber i (Selecting now) (add_chan now i s)).
Proof.
  intros Hi Hl Hnow [H1 H2 H3 H4]. destruct (not_locked s Hl) as [Eo Ep].
  assert (∀ p, subscribers s !! i = Some p → subscription p = None) as Hnone by (intros p; rewrite Hi; by intros [= <-]).
  split; simpl.
  - intros id k. destruct (decide (id = now)) as [->|Hid].
    + rewrite lookup_insert_eq. split.
      * intros [= <-]. exists (Selecting now). by rewrite lookup_insert_eq.
      * intros (p & Hp & Hs). destruct (decide (k = i)) as [->|Hne]; [done|].
        rewrite lookup_insert_ne in Hp by done.
        assert (subscriptionChans s !! now = Some k) by (apply H1; eauto). congruence.
    + rewrite lookup_insert_ne by done. rewrite H1. destruct (decide (k = i)) as [->|Hne].
      * rewrite lookup_insert_eq. split; [intros (p & Hp & Hs); by rewrite (Hnone p Hp) in Hs|].
        intros (p & [= <-] & [= ->]). done.
      * by rewrite lookup_insert_ne.
  - change (owed (set_subscriber i (Selecting now) (add_chan now i s))) with (owed s). rewrite Eo.
    split; [constructor|]. by intros k Hk%elem_of_nil.
  - intros k Hk. apply lookup_insert_None in Hk as [? ?]. rewrite lookup_insert_ne by done. auto.
  - intros k r Hk. destruct (decide (k = i)) as [->|Hne].
    + rewrite lookup_insert_eq in Hk. injection Hk as <-. exists (length (history s)). simpl.
      rewrite lookup_insert_eq. split_and!; [done..|].
      change (pending (set_subscriber i (Selecting now) (add_chan now i s)) i) with (pending s i).
      unfold received_of. simpl. rewrite (proj1 (H4 _ _ Hi)), Ep, drop_ge; done.
    + rewrite lookup_insert_ne in Hk by done. specialize (H4 k r Hk). revert H4.
      unfold stream_ok, received_of, pending. simpl. by rewrite lookup_insert_ne.
Qed.

Lemma inv_unsubscribe s i id :
  subscribers s !! i = Some (Unsubscribing id) → ¬ read_locked s →
  inv s → inv (set_subscriber i Gone (delete_chan id s)).
Proof.
  intros Hi Hl [H1 H2 H3 H4]. destruct (not_locked s Hl) as [Eo Ep]. split; simpl.
  - intros id' k. destruct (decide (k = i)) as [->|Hne].
    + rewrite lookup_insert_eq, lookup_delete_Some, H1. split; [|by intros (? & [= <-] & ?)].
      intros [Hid (p & Hp & Hs)]. rewrite Hi in Hp. injection Hp as <-. by injection Hs as <-.
    + rewrite lookup_insert_ne, lookup_delete_Some, H1 by done. split; [by intros [_ ?]|].
      intros Hk. split; [|done]. intros <-.
      assert (subscriptionChans s !! id = Some i) by (apply H1; eauto).
      assert (subscriptionChans s !! id = Some k) by (by apply H1). congruence.
  - change (owed (set_subscriber i Gone (delete_chan id s))) with (owed s). rewrite Eo.
    split; [constructor|]. by intros k Hk%elem_of_nil.
  - intros k Hk. apply lookup_insert_None in Hk as [? _]. auto.
  - intros k r Hk. destruct (decide (k = i)) as [->|Hne].
    + rewrite lookup_insert_eq in Hk. injection Hk as <-. destruct (H4 _ _ Hi) as (n & Hn & Hle & Hr).
      rewrite Ep, app_nil_r in Hr. exists n, (length (history s) - n). split_and!; [done|simpl; lia|].
      unfold received_of in *. simpl. rewrite Hr. symmetry. apply take_ge. by rewrite length_drop.
    + rewrite lookup_insert_ne in Hk by done. by apply H4.
Qed.

Lemma inv_pass s event i chans id :
  prop s = Propagating event (i :: chans) → subscribers s !! i = Some (Selecting id) →
  inv s → inv (set_prop (Propagating event chans)
                (set_subscriber i (Streaming id event) (take_event i event s))).
Proof.
  intros Hp Hi Hs. pose proof (stream_moves s i _ (Streaming id event) id Hi eq_refl eq_refl Hs) as Hm.
  destruct Hs as [_ [Hnd Hin] H3 H4], Hm as [H1 H2 _ _]. unfold owed in *. simpl in *. rewrite Hp in *.
  apply NoDup_cons in Hnd as [Hni Hnd]. split; simpl.
  - exact H1.
  - split; [done|]. intros k Hk. apply H2. by right.
  - intros k Hk. apply lookup_insert_None in Hk as [? ?]. rewrite lookup_insert_ne by done. auto.
  - intros k r Hk. destruct (decide (k = i)) as [->|Hne].
    + rewrite lookup_insert_eq in Hk. injection Hk as <-. destruct (H4 _ _ Hi) as (n & Hn & Hle & Hr).
      exists n. split_and!; [done|done|]. unfold received_of, pending in *. simpl. rewrite <- Hr, Hp.
      rewrite lookup_insert_eq. simpl. rewrite decide_False by done. rewrite decide_True by left.
      by rewrite app_nil_r.
    + rewrite lookup_insert_ne in Hk by done. specialize (H4 k r Hk). revert H4.
      unfold stream_ok, received_of, pending. simpl. rewrite Hp, lookup_insert_ne by done.
      rewrite (decide_ext (k ∈ i :: chans) (k ∈ chans)); [done|]. rewrite elem_of_cons. naive_solver.
Qed.

Lemma inv_read_lock s event chans :
  prop s = Received event → chans ≡ₚ (map_to_list (subscriptionChans s)).*2 →
  inv s → inv (set_prop (Propagating event chans) (record_event event s)).
Proof.
  intros Hp Hc [H1 H2 H3 H4].
  assert (∀ i, i ∈ chans ↔ ∃ p id, subscribers s !! i = Some p ∧ subscription p = Some id) as Hin.
  { intros i. rewrite Hc, list_elem_of_fmap. split.
    - intros ([id k] & -> & Hk%elem_of_map_to_list). apply H1 in Hk as (p & ? & ?). by exists p, id.
    - intros (p & id & Hi & Hid). exists (id, i). split; [done|]. apply elem_of_map_to_list, H1. eauto. }
  assert (∀ i, pending s i = []) as Ep by (intros i; unfold pending; by rewrite Hp).
  split; simpl; [done| |done|].
  - split; [|by intros i Hi; apply Hin].
    unfold owed. simpl. rewrite Hc. apply NoDup_fmap_2_strong; [|apply NoDup_map_to_list].
    intros [id i] [id' i'] Hi%elem_of_map_to_list Hi'%elem_of_map_to_list. simpl in *. intros <-.
    apply H1 in Hi as (p & Hi & Hid), Hi' as (p' & Hi' & Hid'). simplify_eq. congruence.
  - intros i p Hi. specialize (H4 i p Hi).
    assert (∀ n, n ≤ length (history s) → drop n (history s ++ [event]) = drop n (history s) ++ [event]) as Hd
      by (intros n Hn; by rewrite drop_app_le).
    assert (subscription p ≠ None → ∃ n, joined s !! i = Some n ∧ n ≤ length (history s ++ [event]) ∧
      received_of s i ++ [event] = drop n (history s ++ [event])) as Hsub.
    { intros Hid. destruct p; try done; destruct H4 as (n & Hn & Hle & Hr);
        rewrite Ep, app_nil_r in Hr; exists n; rewrite length_app, Hd, Hr by done; simpl; (split_and!; [done|lia|done]). }
    assert (subscription p ≠ None → pending (set_prop (Propagating event chans) (record_event event s)) i = [event]) as Hpe.
    { intros Hid. unfold pending. simpl. rewrite decide_True; [done|]. apply Hin.
      destruct (subscription p) as [id|] eqn:E; [eauto|done]. }
    destruct p; simpl in *; rewrite ?Hpe by done; try (by apply Hsub); [done|].
    destruct H4 as (n & m & Hn & Hle & Hr). exists n, m. rewrite length_app. simpl. split_and!; [done|lia|].
    unfold received_of in *. simpl. rewrite Hr, drop_app_le, take_app_le; [done| |lia].
    rewrite length_drop. lia.
Qed.

Lemma step_stream_inv s t : step s t → inv s → inv t.
Proof.
  intros Hs Hi. destruct Hs as
    [j e Hj|j e Hj Hm Hk|j e Hj Hm Hst Hma|j e Hp Hj|e chans Hp Hc|e i chans id Hp Hk|e Hp| |Hp Hd
    |Hp Hm|j e Hp Hj|Hp Hcl|Hp|i Hk|i now Hk Hl Hnow|i id e ok Hk|i id Hk|i id Hk Hl].
  all: try (revert Hi; apply inv_same; unfold same_streams, owed, pending; simpl; try rewrite Hp; by split_and!).
  - by apply inv_read_lock.
  - by apply inv_pass with (chans := chans) (event := e).
  - by apply inv_stream_new.
  - by apply inv_subscribe.
  - eapply stream_moves; [exact Hk|done|by destruct ok|done].
  - eapply stream_moves; [exact Hk|done|done|done].
  - by apply inv_unsubscribe.
Qed.

Lemma NewServer_inv : inv NewServer.
Proof.
  split; simpl.
  - intros id i. rewrite lookup_empty. split; [done|]. intros (p & Hp & _). by rewrite lookup_empty in Hp.
  - split; [constructor|]. by intros i Hi%elem_of_nil.
  - done.
  - intros i p Hp. by rewrite lookup_empty in Hp.
Qed.

Lemma reachable_stream_inv s : reachable s → inv s.
Proof. intros Hs. eapply rtc_preserved; [exact step_stream_inv|exact Hs|exact NewServer_inv]. Qed.

(** *** How it stops *)

(** The channel of the events is closed after its last event, which never comes. *)
Definition not_stopped (s : server) : Prop :=
  eventChanClosed s = false ∧ stopChanClosed s = false ∧
  match prop s with
  | Draining => True
  | Closing | Returned => False
  | _ => isStopped s = false
  end.

Lemma step_not_stopped s t : step s t → not_stopped s → not_stopped t.
Proof.
  intros Hs (He & Hc & Hp). destruct Hs; unfold not_stopped in *; simpl in *;
    repeat match goal with E : prop _ = _ |- _ => rewrite E in *; clear E end;
    by split_and!; try done; congruence.
Qed.

Lemma reachable_not_stopped s : reachable s → not_stopped s.
Proof. intros Hs. eapply rtc_preserved; [exact step_not_stopped|exact Hs|done]. Qed.

(** *** A stream that leaves while it is owed an event *)

Definition blocked (event : Event) (i : nat) (chans : list nat) (id : Z) (s : server) : Prop :=
  prop s = Propagating event (i :: chans) ∧ subscribers s !! i = Some (Unsubscribing id) ∧
  isStopped s = false.

(** What waits, waits for ever. *)
Definition waiting (s t : server) : Prop :=
  (∀ j e, marshals e = true → senders s !! j = Some (WaitMutex e) ∨ senders s !! j = Some (Sending e) →
     senders t !! j = Some (WaitMutex e) ∨ senders t !! j = Some (Sending e)) ∧
  (∀ k, subscribers s !! k = Some Subscribing → subscribers t !! k = Some Subscribing) ∧
  (∀ k id, subscribers s !! k = Some (Unsubscribing id) → subscribers t !! k = Some (Unsubscribing id)) ∧
  history t = history s.

Lemma blocked_sender event i chans id j p m s :
  blocked event i chans id s → blocked event i chans id (set_sender j p m s).
Proof. done. Qed.
Lemma waiting_sender j p m s :
  (∀ e, marshals e = true → senders s !! j = Some (WaitMutex e) ∨ senders s !! j = Some (Sending e) →
    p = WaitMutex e ∨ p = Sending e) → waiting s (set_sender j p m s).
Proof.
  intros Hp. split_and!; simpl; [|done..]. intros k e Hm Hk. destruct (decide (k = j)) as [->|Hne].
  - rewrite lookup_insert_eq. destruct (Hp e Hm Hk) as [->| ->]; auto.
  - by rewrite lookup_insert_ne.
Qed.
Lemma blocked_subscriber event i chans id k q s :
  k ≠ i → blocked event i chans id s → blocked event i chans id (set_subscriber k q s).
Proof. intros Hne (Hp & Hi & Hs). split_and!; [done|simpl; by rewrite lookup_insert_ne|done]. Qed.
Lemma waiting_subscriber k q s :
  subscribers s !! k ≠ Some Subscribing → (∀ id, subscribers s !! k ≠ Some (Unsubscribing id)) →
  waiting s (set_subscriber k q s).
Proof.
  intros H1 H2. split_and!; simpl; [done| | |done]; intros k' *; (destruct (decide (k' = k)) as [->|Hne];
    [intros E; naive_solver|by rewrite lookup_insert_ne]).
Qed.

Lemma step_blocked event i chans id s t :
  step s t → blocked event i chans id s → blocked event i chans id t ∧ waiting s t.
Proof.
  intros Hs Hb. pose proof Hb as (Hp & Hi & Hst). destruct Hs as
    [j e Hj|j e Hj Hm Hk|j e Hj Hm Hst' Hma|j e Hp' Hj|e chans' Hp' Hc|e k chans' id' Hp' Hk|e Hp'| |Hp' Hd
    |Hp' Hm|j e Hp' Hj|Hp' Hcl|Hp'|k Hk|k now Hk Hl Hnow|k id' e ok Hk|k id' Hk|k id' Hk Hl];
    try (rewrite Hp in Hp'; discriminate Hp'); try (by destruct Hl; unfold read_locked; rewrite Hp).
  - split; [done|]. apply waiting_sender. intros e' _ [E|E]; congruence.
  - split; [done|]. apply waiting_sender. intros e' He [E|E]; [|congruence]. destruct Hk; congruence.
  - split; [done|]. apply waiting_sender. intros e' He [E|E]; [|congruence]. right. congruence.
  - congruence.
  - split; [done|]. by split_and!.
  - split; [apply blocked_subscriber; [congruence|done]|]. apply waiting_subscriber; congruence.
  - split; [apply blocked_subscriber; [congruence|done]|]. apply waiting_subscriber; congruence.
  - split; [apply blocked_subscriber; [congruence|done]|]. apply waiting_subscriber; congruence.
Qed.

Lemma waiting_trans s t u : waiting s t → waiting t u → waiting s u.
Proof.
  intros (A1 & A2 & A3 & A4) (B1 & B2 & B3 & B4). split_and!; [|auto..|congruence].
  intros j e Hm Hj. apply B1; [done|]. by apply A1.
Qed.

Lemma steps_blocked event i chans id s t :
  rtc step s t → blocked event i chans id s → blocked event i chans id t ∧ waiting s t.
Proof.
  induction 1 as [s|s u t Hs _ IH]; intros Hb; [split; [done|by split_and!]|].
  destruct (step_blocked _ _ _ _ _ _ Hs Hb) as [Hu Hw]. destruct (IH Hu) as [Ht Hw'].
  split; [done|by eapply waiting_trans].
Qed.

(** ** Properties *)

(** What a stream receives.  However the streams come and go and the requests race,
    the events a stream took from its channel are those propagated since it subscribed,
    from the first on, in their order, none left out and none twice; and a stream that is
    still subscribed, and is not owed the event that is just being passed on, has them all. *)
Lemma stream_in_order s i n :
  reachable s → joined s !! i = Some n →
  (∃ m, received_of s i = take m (drop n (history s))) ∧
  (∀ p id, subscribers s !! i = Some p → subscription p = Some id → i ∉ owed s →
    received_of s i = drop n (history s)).
Proof.
  intros Hs Hn. destruct (reachable_stream_inv s Hs) as [_ _ Hnew Hst].
  destruct (subscribers s !! i) as [p|] eqn:Hi; [|destruct (Hnew i Hi); congruence].
  specialize (Hst i p Hi).
  assert (subscription p ≠ None → received_of s i ++ pending s i = drop n (history s)) as Hr.
  { intros Hp. destruct p; try done; destruct Hst as (n' & Hn' & _ & Hr); congruence. }
  split.
  - destruct (subscription p) as [id|] eqn:Hid.
    + exists (length (received_of s i)). rewrite <- Hr by done. by rewrite take_app_length.
    + destruct p as [| | | |]; try done; [destruct Hst; congruence|].
      destruct Hst as (n' & m & Hn' & _ & E). exists m. congruence.
  - intros q id [= <-] Hid Hno. rewrite <- Hr by congruence. unfold pending, owed in *.
    destruct (prop s); rewrite ?app_nil_r; try done. rewrite decide_False by done. by rewrite app_nil_r.
Qed.

(** A stream that ends while an event is on its way to it stops the mock.  Its
    [unsubscribe] waits for the lock that [propagate] holds, and [propagate] waits for it
    to take the event: from then on no event is passed to any stream, no stream can
    subscribe or leave, and no call of [SendProtoEvent], which every request makes before
    it is handled, returns. *)
Lemma disconnect_blocks s event i chans id :
  reachable s → prop s = Propagating event (i :: chans) →
  subscribers s !! i = Some (Unsubscribing id) →
  ∀ t, rtc step s t → prop t = Propagating event (i :: chans) ∧ waiting s t.
Proof.
  intros Hs Hp Hi t Ht. destruct (reachable_not_stopped s Hs) as (_ & _ & Hn). rewrite Hp in Hn.
  destruct (steps_blocked event i chans id s t Ht) as [(? & _) ?]; [done|by split].
Qed.

(** A stop never ends either: it drains the channel before it closes it. *)
Lemma stop_never_ends s :
  reachable s → prop s ≠ Returned ∧ stopChanClosed s = false ∧
  (prop s = Draining → ∀ t, rtc step s t → prop t = Draining).
Proof.
  intros Hs. destruct (reachable_not_stopped s Hs) as (He & Hc & Hp). split_and!; [|done|].
  - intros E. by rewrite E in Hp.
  - intros Hd t Ht. enough (prop t = Draining ∧ eventChanClosed t = false) by tauto.
    clear Hs Hc Hp. revert Hd He. induction Ht as [s|s u t Hu _ IH]; intros Hd He; [done|].
    apply IH; destruct Hu; simpl; congruence.
Qed.
End Events.

(** ** A stream that leaves too soon *)
Module Toy.
Definition marshals (_ : string) : bool := true.
Definition subscribed : server (Event := string) :=
  set_subscriber 0 (Selecting 5) (add_chan 5 0 (set_subscriber 0 Subscribing NewServer)).
Definition sent : server (Event := string) :=
  set_sender 0 (Sending "ping") true (set_sender 0 (WaitMutex "ping") false subscribed).
Definition left : server (Event := string) :=
  set_subscriber 0 (Unsubscribing 5) (set_prop (Received "ping") (set_sender 0 Sent false sent)).
Definition stuck : server (Event := string) :=
  set_sender 1 (WaitMutex "ping") false (set_prop (Propagating "ping" [0]) (record_event "ping" left)).

Definition delivered : server (Event := string) :=
  set_prop (Propagating "ping" []) (set_subscriber 0 (Streaming 5 "ping") (take_event 0 "ping"
    (set_prop (Propagating "ping" [0]) (record_event "ping"
      (set_prop (Received "ping") (set_sender 0 Sent false sent)))))).

Lemma sent_reachable : reachable marshals sent.
Proof.
  eapply rtc_l; [by apply (step_stream marshals (NewServer (Event := string)) 0)|].
  eapply rtc_l; [apply (step_subscribe marshals _ 0 5); [reflexivity|by intros []|reflexivity]|].
  eapply rtc_l; [by apply (step_call marshals subscribed 0 "ping")|].
  apply rtc_once. by apply (step_lock marshals _ 0 "ping").
Qed.

Lemma stuck_reachable : reachable marshals stuck.
Proof.
  eapply rtc_trans; [exact sent_reachable|].
  eapply rtc_l; [by apply (step_receive marshals sent 0 "ping")|].
  eapply rtc_l; [by apply (step_leave marshals _ 0 5)|].
  eapply rtc_l; [by apply (step_read_lock marshals left "ping" [0])|].
  apply rtc_once.
  exact (step_call marshals (set_prop (Propagating "ping" [0]) (record_event "ping" left)) 1 "ping" eq_refl).
Qed.

Lemma delivered_reachable : reachable marshals delivered.
Proof.
  eapply rtc_trans; [exact sent_reachable|].
  eapply rtc_l; [by apply (step_receive marshals sent 0 "ping")|].
  eapply rtc_l; [by apply (step_read_lock marshals _ "ping" [0])|].
  apply rtc_once. by apply (step_pass marshals _ "ping" 0 [] 5).
Qed.
End Toy.

Lemma stream_in_order_witness :
  joined Toy.delivered !! 0 = Some 0 ∧ received_of Toy.delivered 0 = ["ping"].
Proof.
  split; [reflexivity|].
  apply (proj2 (stream_in_order Toy.marshals Toy.delivered 0 0 Toy.delivered_reachable eq_refl)
    (Streaming 5 "ping") 5%Z eq_refl eq_refl). apply not_elem_of_nil.
Defined.

Lemma disconnect_blocks_witness :
  prop (set_subscriber 7 Subscribing Toy.stuck) = Propagating "ping" [0] ∧
  waiting Toy.marshals Toy.stuck (set_subscriber 7 Subscribing Toy.stuck).
Proof.
  apply (disconnect_blocks Toy.marshals Toy.stuck "ping" 0 [] 5 Toy.stuck_reachable eq_refl eq_refl).
  apply rtc_once. by apply (step_stream Toy.marshals Toy.stuck 7).
Defined.
