(* ===== verification/MockPrice.v ===== *)
(** * Prices in the partner plugin mock (src/pp-mock/config, src/pp-mock/handlers/state)

    The mock keeps the prices it offers in one form for all protocol versions, and in
    realistic mode replaces those that are paid on the chain by a fixed tiny amount.  The
    price handler of the bot ([Price]) is what turns the result into an on-chain amount. *)
From S2P Require Import Prelude Decimal Conversion Price.
From Stdlib Require Import Ascii.
From stdpp Require Import gmap.

#[local] Open Scope Z_scope.

(** ** The settings (config/realistic_price.go) *)

Definition RealisticNativeBaseUnitsDefault : string := "10533".
Definition RealisticTokenDecimalsDefault : Z := 18.

(** The variables of the package. *)
Record settings := {
  RealisticPriceEnabled : bool;
  RealisticNativeBaseUnits : string;
  RealisticTokenDecimals : gmap string Z
}.

Definition initial_settings : settings := {|
  RealisticPriceEnabled := false; RealisticNativeBaseUnits := RealisticNativeBaseUnitsDefault;
  RealisticTokenDecimals := ∅ |}.

Definition SetRealisticPrice (enabled : bool) (baseUnits : string)
    (tokenDecimals : option (gmap string Z)) (cfg : settings) : settings := {|
  RealisticPriceEnabled := enabled;
  RealisticNativeBaseUnits :=
    if negb (bool_decide (baseUnits = "")) then baseUnits else RealisticNativeBaseUnits cfg;
  RealisticTokenDecimals := default ∅ tokenDecimals |}.

(** The entries of the list, one after the other; a later one replaces an earlier one. *)
Fixpoint parsePairs (out : gmap string Z) (pairs : list string) : outcome (gmap string Z) :=
  match pairs with
  | [] => Ok out
  | entry :: pairs =>
      let entry := TrimSpace entry in
      if bool_decide (entry = "") then parsePairs out pairs else
      match Cut ":"%char entry with
      | None => Err (Errorf "invalid token decimals entry %q: expected <address>:<decimals>")
      | Some (addr, decStr) =>
          match ParseUint 32 (TrimSpace decStr) with
          | None => Err (Wrapf "invalid decimals in entry %q: %w" (Sentinel "strconv.NumError"))
          | Some dec => parsePairs (<[ToLower (TrimSpace addr) := dec]> out) pairs
          end
      end
  end.

Definition ParseTokenDecimals (raw : string) : outcome (gmap string Z) :=
  let raw := TrimSpace raw in
  if bool_decide (raw = "") then Ok ∅ else parsePairs ∅ (Split ","%char raw).

Definition TokenDecimalsFor (cfg : settings) (address : string) : Z :=
  default RealisticTokenDecimalsDefault (RealisticTokenDecimals cfg !! ToLower (TrimSpace address)).

(** ** The price of the mock (handlers/state) *)

Record UnifiedPrice := {
  u_Price : string;
  u_Decimals : Z;
  IsNative : bool;
  IsoCurrencyEnum : Z;
  TokenContractAddress : string
}.

Definition ExtractCurrencyV3 (p : UnifiedPrice) : option CurrencyV3 :=
  if IsNative p then Some CurrencyV3_NativeToken
  else if negb (IsoCurrencyEnum p =? 0) then Some (CurrencyV3_IsoCurrency (IsoCurrencyEnum p))
  else if negb (bool_decide (TokenContractAddress p = ""))
  then Some (CurrencyV3_TokenCurrency (Some (TokenContractAddress p)))
  else None.

Definition ExtractCurrencyV4 (p : UnifiedPrice) : option CurrencyV4 :=
  if IsNative p then Some CurrencyV4_NativeToken
  else if negb (IsoCurrencyEnum p =? 0) then Some (CurrencyV4_IsoCurrency (IsoCurrencyEnum p))
  else if negb (bool_decide (TokenContractAddress p = ""))
  then Some (CurrencyV4_TokenCurrency (Some (TokenContractAddress p)))
  else None.

(** Types v5 reuse the currency of types v4, and the file has the same code. *)
Definition ExtractCurrencyV5 (p : UnifiedPrice) : option CurrencyV4 :=
  if IsNative p then Some CurrencyV4_NativeToken
  else if negb (IsoCurrencyEnum p =? 0) then Some (CurrencyV4_IsoCurrency (IsoCurrencyEnum p))
  else if negb (bool_decide (TokenContractAddress p = ""))
  then Some (CurrencyV4_TokenCurrency (Some (TokenContractAddress p)))
  else None.

Definition ToPriceV3 (p : UnifiedPrice) : outcome PriceV3 :=
  decimals ← MustUInt32ToInt32 (u_Decimals p);
  Ok {| v3_Value := u_Price p; v3_Decimals := decimals; v3_Currency := ExtractCurrencyV3 p |}.
Definition ToPriceV4 (p : UnifiedPrice) : PriceV4 :=
  {| v4_Value := u_Price p; v4_Decimals := u_Decimals p; v4_Currency := ExtractCurrencyV4 p |}.
Definition ToPriceV5 (p : UnifiedPrice) : PriceV5 :=
  {| v5_Value := u_Price p; v5_Decimals := u_Decimals p; v5_Currency := ExtractCurrencyV5 p |}.

(** With the zero value of the flags. *)
Definition unified (value : string) (decimals : Z) (native : bool) (iso : Z) (token : string)
    : UnifiedPrice :=
  {| u_Price := value; u_Decimals := decimals; IsNative := native; IsoCurrencyEnum := iso;
     TokenContractAddress := token |}.

Definition PriceV3ToUnifiedPrice (price : option PriceV3) : outcome UnifiedPrice :=
  price ← deref price;
  decimals ← MustInt32ToUInt32 (v3_Decimals price);
  let out := unified (v3_Value price) decimals in
  currency ← deref (v3_Currency price);
  match currency with
  | CurrencyV3_NativeToken => Ok (out true 0 "")
  | CurrencyV3_IsoCurrency code => Ok (out false code "")
  | CurrencyV3_TokenCurrency address => address ← deref address; Ok (out false 0 address)
  | CurrencyV3_unset => Ok (out false 0 "")
  end.

Definition PriceV4ToUnifiedPrice (price : option PriceV4) : outcome UnifiedPrice :=
  price ← deref price;
  let out := unified (v4_Value price) (v4_Decimals price) in
  currency ← deref (v4_Currency price);
  match currency with
  | CurrencyV4_NativeToken => Ok (out true 0 "")
  | CurrencyV4_IsoCurrency code => Ok (out false code "")
  | CurrencyV4_TokenCurrency address => address ← deref address; Ok (out false 0 address)
  | CurrencyV4_unset => Ok (out false 0 "")
  end.

Definition PriceV5ToUnifiedPrice (price : option PriceV5) : outcome UnifiedPrice :=
  price ← deref price;
  let out := unified (v5_Value price) (v5_Decimals price) in
  currency ← deref (v5_Currency price);
  match currency with
  | CurrencyV4_NativeToken => Ok (out true 0 "")
  | CurrencyV4_IsoCurrency code => Ok (out false code "")
  | CurrencyV4_TokenCurrency address => address ← deref address; Ok (out false 0 address)
  | CurrencyV4_unset => Ok (out false 0 "")
  end.

(** handlers/state/realistic_price.go *)
Definition NormalizeRealistic (cfg : settings) (p : UnifiedPrice) : UnifiedPrice :=
  if IsNative p then
    unified (RealisticNativeBaseUnits cfg) 18 (IsNative p) (IsoCurrencyEnum p) (TokenContractAddress p)
  else if negb (bool_decide (TokenContractAddress p = "")) then
    unified (RealisticNativeBaseUnits cfg) (TokenDecimalsFor cfg (TokenContractAddress p))
      (IsNative p) (IsoCurrencyEnum p) (TokenContractAddress p)
  else p.

(** ** Lemmas *)

(** A currency the form of the mock can hold. *)
Definition holds_V4 (c : CurrencyV4) : Prop :=
  match c with
  | CurrencyV4_NativeToken => True
  | CurrencyV4_IsoCurrency code => code ≠ 0
  | CurrencyV4_TokenCurrency (Some address) => address ≠ ""
  | CurrencyV4_TokenCurrency None | CurrencyV4_unset => False
  end.

Lemma ExtractCurrency_unified v d c : 
  holds_V4 c →
  ∃ native iso token,
    (∀ p, v4_Currency p = Some c → PriceV4ToUnifiedPrice (Some p) =
      Ok (unified (v4_Value p) (v4_Decimals p) native iso token)) ∧
    ExtractCurrencyV4 (unified v d native iso token) = Some c.
Proof.
  intros Hc. destruct c as [|[a|]|code|]; simpl in Hc; try done.
  - exists true, 0, "". split; [|done]. intros [??[]] [= ->]. done.
  - exists false, 0, a. split; [intros [??[]] [= ->]; done|].
    unfold ExtractCurrencyV4. simpl. by rewrite bool_decide_false.
  - exists false, code, "". split; [intros [??[]] [= ->]; done|].
    unfold ExtractCurrencyV4. simpl. by rewrite (proj2 (Z.eqb_neq _ _)).
Qed.

(** The three forms of one price. *)
Lemma ExtractCurrency_versions u :
  ExtractCurrencyV5 u = ExtractCurrencyV4 u ∧
  ExtractCurrencyV4 u = currency_v4_of_v3 <$> ExtractCurrencyV3 u.
Proof.
  split; [done|]. unfold ExtractCurrencyV4, ExtractCurrencyV3.
  destruct (IsNative u); [done|]. destruct (IsoCurrencyEnum u =? 0); [|done]. simpl.
  by case_bool_decide.
Qed.

Lemma MustUInt32ToInt32_id d : 0 ≤ d ≤ MaxInt32 → MustUInt32ToInt32 d = Ok d.
Proof.
  intros Hd. apply MustUInt32ToInt32_spec; unfold in_uint, in_sint, MaxInt32 in *; simpl; lia.
Qed.

Lemma MustInt32ToUInt32_id d : 0 ≤ d ≤ MaxInt32 → MustInt32ToUInt32 d = Ok d.
Proof.
  intros Hd. unfold MustInt32ToUInt32. zcase; [lia|]. rewrite uwrap_small; [done|].
  unfold in_uint, MaxInt32 in *. simpl. lia.
Qed.

(** A V3 price is its V4 one, and back. *)
Lemma PriceV3ToUnifiedPrice_v4 p :
  0 ≤ v3_Decimals p ≤ MaxInt32 →
  PriceV3ToUnifiedPrice (Some p) = PriceV4ToUnifiedPrice (Some (v4_of_v3 p)).
Proof.
  destruct p as [v d [[|[a|]|code|]|]]; simpl; intros Hd; unfold PriceV3ToUnifiedPrice;
    simpl; rewrite MustInt32ToUInt32_id by done; done.
Qed.

Lemma ToPriceV3_v4 u :
  0 ≤ u_Decimals u ≤ MaxInt32 → ∃ p, ToPriceV3 u = Ok p ∧ v4_of_v3 p = ToPriceV4 u ∧
    v3_Decimals p = u_Decimals u.
Proof.
  intros Hd. unfold ToPriceV3. rewrite MustUInt32ToInt32_id by done. simpl. eexists. split; [done|].
  split; [|done]. unfold v4_of_v3, ToPriceV4. simpl. by rewrite (proj2 (ExtractCurrency_versions u)).
Qed.

Lemma NormalizeRealistic_spec cfg u c :
  ExtractCurrencyV4 u = Some c → (∀ code, c ≠ CurrencyV4_IsoCurrency code) →
  u_Price (NormalizeRealistic cfg u) = RealisticNativeBaseUnits cfg ∧
  u_Decimals (NormalizeRealistic cfg u) =
    (if IsNative u then NativeTokenDecimals else TokenDecimalsFor cfg (TokenContractAddress u)) ∧
  ExtractCurrencyV4 (NormalizeRealistic cfg u) = Some c.
Proof.
  unfold ExtractCurrencyV4, NormalizeRealistic. destruct (IsNative u) eqn:En; simpl; [done|].
  destruct (Z.eqb_spec (IsoCurrencyEnum u) 0) as [Ei|Ei]; simpl; [|naive_solver].
  case_bool_decide as Et; simpl; [done|]. intros Hc _. split_and!; [done..|].
  rewrite Ei. simpl. by rewrite bool_decide_false.
Qed.

(** *** The list of the token decimals *)

Definition clean (s : string) : Prop :=
  (∀ c, is_space c = true → avoids c s) ∧ avoids ":"%char s ∧ avoids ","%char s.

Lemma TrimLeftSpace_id s : (∀ c, is_space c = true → avoids c s) → TrimLeftSpace s = s.
Proof.
  intros Hs. destruct s as [|c s]; simpl; [done|]. destruct (is_space c) eqn:E; [|done].
  by destruct (Hs c E).
Qed.
Lemma TrimRightSpace_id s : (∀ c, is_space c = true → avoids c s) → TrimRightSpace s = s.
Proof.
  induction s as [|c s IH]; intros Hs; simpl; [done|]. rewrite IH by (intros d Hd; by apply (Hs d Hd)).
  destruct (is_space c) eqn:E; [|done]. by destruct (Hs c E).
Qed.
Lemma TrimSpace_id s : (∀ c, is_space c = true → avoids c s) → TrimSpace s = s.
Proof. intros Hs. unfold TrimSpace. by rewrite TrimLeftSpace_id, TrimRightSpace_id. Qed.

Lemma Cut_avoids c s t : avoids c s → Cut c (s +:+ String c t) = Some (s, t).
Proof.
  induction s as [|d s IH]; simpl; [by rewrite Ascii.eqb_refl|]. intros [Hd Hs].
  destruct (Ascii.eqb_spec d c); [done|]. by rewrite IH.
Qed.

Lemma ParseUint_pretty (x : N) : Z.of_N x ≤ MaxUint32 → ParseUint 32 (pretty x) = Some (Z.of_N x).
Proof.
  intros Hx. unfold ParseUint. rewrite parse_pretty. destruct (pretty_N_head x) as (c & t & -> & _).
  simpl. by rewrite (proj2 (Z.ltb_lt _ _)) by (unfold MaxUint32 in *; lia).
Qed.

Lemma digit_not_space c : is_space c = true → ¬ is_digit c.
Proof.
  destruct c as [[] [] [] [] [] [] [] []]; intros E [x Hx]; vm_compute in E, Hx; discriminate.
Qed.

Definition entry_text (e : string * N) : string := e.1 +:+ String ":"%char (pretty e.2).
Fixpoint entries_text (l : list (string * N)) : string :=
  match l with
  | [] => ""
  | [e] => entry_text e
  | e :: l => entry_text e +:+ String ","%char (entries_text l)
  end.
Definition entries_map (m : gmap string Z) (l : list (string * N)) : gmap string Z :=
  foldl (λ m e, <[ToLower e.1 := Z.of_N e.2]> m) m l.

Definition entry_ok (e : string * N) : Prop := clean e.1 ∧ Z.of_N e.2 ≤ MaxUint32.

Lemma pretty_no_space c (x : N) : is_space c = true → avoids c (pretty x).
Proof. intros Hc. apply pretty_N_avoids. by apply digit_not_space. Qed.

Lemma entry_text_avoids c e :
  c ≠ ":"%char → ¬ is_digit c → avoids c e.1 → avoids c (entry_text e).
Proof.
  intros H1 H2 H3. unfold entry_text. apply avoids_app. split; [done|]. split; [congruence|].
  by apply pretty_N_avoids.
Qed.

Lemma entry_text_no_space e c : entry_ok e → is_space c = true → avoids c (entry_text e).
Proof.
  intros [[Hs _] _] Hc. apply entry_text_avoids; [by intros ->|by apply digit_not_space|by apply Hs].
Qed.

Lemma entries_text_no_space l c : Forall entry_ok l → is_space c = true → avoids c (entries_text l).
Proof.
  intros Hl Hc. induction Hl as [|e l He Hl IH]; simpl; [done|].
  pose proof (entry_text_no_space e c He Hc). destruct l; [done|]. apply avoids_app. split; [done|].
  split; [by intros <-|done].
Qed.

Lemma entry_text_no_comma e : entry_ok e → avoids ","%char (entry_text e).
Proof.
  intros [[_ [_ Hc]] _]. apply entry_text_avoids; [done| |done]. intros [x Hx]. by vm_compute in Hx.
Qed.

Lemma Split_entries e l :
  Forall entry_ok (e :: l) → Split ","%char (entries_text (e :: l)) = entry_text <$> e :: l.
Proof.
  revert e. induction l as [|e' l IH]; intros e Hl; apply Forall_cons in Hl as [He Hl].
  - simpl. by rewrite Split_avoids by by apply entry_text_no_comma.
  - change (entries_text (e :: e' :: l)) with (entry_text e +:+ String ","%char (entries_text (e' :: l))).
    rewrite Split_app by by apply entry_text_no_comma. by rewrite IH.
Qed.

Lemma entry_text_not_empty e : entry_text e ≠ "".
Proof. unfold entry_text. by destruct e as [[|c s] d]. Qed.

Lemma parsePairs_entries l m : Forall entry_ok l → parsePairs m (entry_text <$> l) = Ok (entries_map m l).
Proof.
  intros Hl. revert m. induction Hl as [|e l He Hl IH]; intros m; simpl; [done|].
  rewrite TrimSpace_id by (intros c; by apply entry_text_no_space).
  rewrite bool_decide_false by apply entry_text_not_empty. destruct e as [a d]. destruct He as [[Hs [Hc _]] Hd].
  simpl in *. unfold entry_text. simpl. rewrite Cut_avoids by done.
  rewrite !TrimSpace_id by (done || intros c Hx; by apply pretty_no_space).
  rewrite ParseUint_pretty by done. apply IH.
Qed.

Lemma entries_map_lookup l m k :
  entries_map m l !! k =
  match find (λ e, bool_decide (ToLower e.1 = k)) (reverse l) with
  | Some e => Some (Z.of_N e.2)
  | None => m !! k
  end.
Proof.
  revert m. induction l as [|e l IH] using rev_ind; intros m; [done|].
  unfold entries_map in *. rewrite foldl_app, reverse_snoc. simpl. case_bool_decide as Hk.
  - subst. by rewrite lookup_insert_eq.
  - rewrite lookup_insert_ne by done. apply IH.
Qed.

Lemma clean_by_computation s :
  forallb (λ c, negb (is_space c || Ascii.eqb c ":" || Ascii.eqb c ","))%char
    (String.list_ascii_of_string s) = true → clean s.
Proof.
  assert (∀ (f : ascii → bool) c t, (∀ d, d = c → f d = false) →
    forallb f (String.list_ascii_of_string t) = true → avoids c t) as Hf.
  { intros f c t Hd. induction t as [|d t IH]; simpl; [done|]. intros [Hx Ht]%andb_true_iff.
    split; [|by apply IH]. intros E. rewrite (Hd d E) in Hx. done. }
  intros Hs. split_and!; [intros c Hc|..]; (eapply Hf; [|exact Hs]); intros d ->.
  - by rewrite Hc.
  - by rewrite orb_comm.
  - by rewrite orb_comm.
Qed.

(** ** Properties *)

(** A price that the mock takes from a message and puts into another one is the same
    price, in every version of the protocol: the value, the decimals and the currency, the
    native token, an ISO currency other than the code 0 or a token with an address. *)
Lemma price_kept (p3 : PriceV3) (p4 : PriceV4) (p5 : PriceV5) (c3 : CurrencyV3) (c : CurrencyV4) :
  v3_Currency p3 = Some c3 → v4_Currency p4 = Some c → v5_Currency p5 = Some c →
  currency_v4_of_v3 c3 = c → holds_V4 c → 0 ≤ v3_Decimals p3 ≤ MaxInt32 →
  (u ← PriceV3ToUnifiedPrice (Some p3); ToPriceV3 u) = Ok p3 ∧
  (u ← PriceV4ToUnifiedPrice (Some p4); Ok (ToPriceV4 u)) = Ok p4 ∧
  (u ← PriceV5ToUnifiedPrice (Some p5); Ok (ToPriceV5 u)) = Ok p5.
Proof.
  intros H3 H4 H5 Hc Hh Hd.
  assert (ExtractCurrencyV3 <$> PriceV3ToUnifiedPrice (Some p3) = Ok (Some c3)) as E3.
  { destruct p3 as [v d q]. simpl in *. rewrite H3. unfold PriceV3ToUnifiedPrice. simpl.
    rewrite MustInt32ToUInt32_id by done. simpl. destruct c3 as [|[a|]|code|]; simpl in Hc; subst c;
      simpl in Hh; try done; simpl; unfold ExtractCurrencyV3; simpl.
    - by rewrite bool_decide_false.
    - by rewrite (proj2 (Z.eqb_neq _ _)). }
  split_and!.
  - destruct (PriceV3ToUnifiedPrice (Some p3)) as [u| |] eqn:Eu; simplify_eq/=.
    destruct p3 as [v d q]. simpl in *. unfold PriceV3ToUnifiedPrice in Eu. simpl in Eu.
    rewrite MustInt32ToUInt32_id in Eu by done. simpl in Eu. subst q. simpl in Eu.
    assert (u_Price u = v ∧ u_Decimals u = d) as [Ev Ed]
      by (destruct c3 as [|[a|]|code|]; simplify_eq/=; done).
    unfold ToPriceV3. rewrite Ed, MustUInt32ToInt32_id by done. simpl. congruence.
  - destruct (ExtractCurrency_unified (v4_Value p4) (v4_Decimals p4) c Hh) as (n & i & t & E & Ec).
    rewrite E by done. simpl. unfold ToPriceV4. rewrite Ec. destruct p4. simpl in *. congruence.
  - destruct (ExtractCurrency_unified (v5_Value p5) (v5_Decimals p5) c Hh) as (n & i & t & E & Ec).
    specialize (E {| v4_Value := v5_Value p5; v4_Decimals := v5_Decimals p5; v4_Currency := Some c |} eq_refl).
    unfold PriceV4ToUnifiedPrice in E. unfold PriceV5ToUnifiedPrice. simpl in *. rewrite H5. simpl.
    rewrite E. simpl. unfold ToPriceV5. rewrite (proj1 (ExtractCurrency_versions _)), Ec.
    destruct p5. simpl in *. congruence.
Qed.

(** In realistic mode a price that is paid on the chain is settled by the bot for the
    configured base units exactly: always in the native token, and in another token when
    the configured decimals are those of its contract.  With fewer configured the amount
    is multiplied by the powers of ten that are missing, with more the bot refuses the
    price; and the three versions of the protocol agree. *)
Lemma realistic_price_settled cfg HexToAddress Decimals u c n t token :
  SetString10 (RealisticNativeBaseUnits cfg) = Some n →
  (∀ a d, Decimals a = Ok d → in_uint 8 d) →
  ExtractCurrencyV4 u = Some c → (∀ code, c ≠ CurrencyV4_IsoCurrency code) →
  settle HexToAddress Decimals c = Some (t, token, 0) →
  let u' := NormalizeRealistic cfg u in
  let d := if IsNative u then NativeTokenDecimals else TokenDecimalsFor cfg (TokenContractAddress u) in
  0 ≤ d ≤ MaxInt32 →
  (d = t → GetPriceAndTokenV4 HexToAddress Decimals (Some (ToPriceV4 u')) = Ok (n, token, 0)) ∧
  (d < t → GetPriceAndTokenV4 HexToAddress Decimals (Some (ToPriceV4 u')) =
     Ok (n * 10 ^ (t - d), token, 0)) ∧
  (t < d → is_ok (GetPriceAndTokenV4 HexToAddress Decimals (Some (ToPriceV4 u'))) = false) ∧
  (IsNative u = true → d = t) ∧
  GetPriceAndTokenV5 HexToAddress Decimals (Some (ToPriceV5 u')) =
    GetPriceAndTokenV4 HexToAddress Decimals (Some (ToPriceV4 u')) ∧
  ∃ p, ToPriceV3 u' = Ok p ∧ GetPriceAndTokenV3 HexToAddress Decimals (Some p) =
    GetPriceAndTokenV4 HexToAddress Decimals (Some (ToPriceV4 u')).
Proof.
  intros Hn HD Hc Hiso Hs u' d Hd.
  assert (u_Price u' = RealisticNativeBaseUnits cfg ∧ u_Decimals u' = d ∧ ExtractCurrencyV4 u' = Some c)
    as (Ep & Ed & Ec) by by apply NormalizeRealistic_spec.
  assert (GetPriceAndTokenV4 HexToAddress Decimals (Some (ToPriceV4 u')) =
    scaled (RealisticNativeBaseUnits cfg) d (t, token, 0)) as E.
  { rewrite (GetPriceAndTokenV4_scaled _ _ _ c (t, token, 0)); [|done|done].
    unfold ToPriceV4. simpl. by rewrite Ep, Ed. }
  pose proof (settle_decimals _ _ _ _ _ _ HD Hs) as Ht.
  assert (∀ r, scaled (RealisticNativeBaseUnits cfg) d (t, token, 0) = Ok r ↔
    ∃ n, SetString10 (RealisticNativeBaseUnits cfg) = Some n ∧ d ≤ t ∧ r = (n * 10 ^ (t - d), token, 0))
    as Hscaled.
  { intros r. apply scaled_Ok; [|done]. unfold in_uint, MaxInt32 in *. simpl. lia. }
  split_and!.
  - intros ->. rewrite E. apply Hscaled. exists n. rewrite Z.sub_diag, Z.mul_1_r. split_and!; [done|lia|done].
  - intros Hlt. rewrite E. apply Hscaled. exists n. split_and!; [done|lia|done].
  - intros Hlt. rewrite E. destruct (scaled _ _ _) as [r| |]; [|done..].
    destruct (proj1 (Hscaled r) eq_refl) as (? & _ & ? & _). lia.
  - intros Hnat. unfold d. rewrite Hnat. unfold ExtractCurrencyV4 in Hc. rewrite Hnat in Hc.
    simplify_eq/=. done.
  - by rewrite (proj1 (GetPriceAndToken_versions _ _)).
  - destruct (ToPriceV3_v4 u') as (p & Hp & <- & Hpd); [by rewrite Ed|]. exists p. split; [done|].
    apply GetPriceAndToken_versions. by rewrite Hpd, Ed.
Qed.

(** The setting of the token decimals reads back what was written: of a list of entries
    [address:decimals] every address gets, in whatever case it is asked for, the decimals
    of the last of its entries, and an address that is not in the list the default. *)
Lemma token_decimals_read l enabled baseUnits cfg address :
  l ≠ [] → Forall entry_ok l → clean address →
  ∃ m, ParseTokenDecimals (entries_text l) = Ok m ∧
    TokenDecimalsFor (SetRealisticPrice enabled baseUnits (Some m) cfg) address =
    match find (λ e, bool_decide (ToLower e.1 = ToLower address)) (reverse l) with
    | Some e => Z.of_N e.2
    | None => RealisticTokenDecimalsDefault
    end.
Proof.
  intros Hne Hl [Ha _]. exists (entries_map ∅ l). split.
  - unfold ParseTokenDecimals. rewrite TrimSpace_id by (intros c; by apply entries_text_no_space).
    destruct l as [|e l]; [done|]. rewrite Split_entries, parsePairs_entries by done.
    rewrite bool_decide_false; [done|]. destruct l as [|e' l]; [apply entry_text_not_empty|].
    simpl. pose proof (entry_text_not_empty e). by destruct (entry_text e).
  - unfold TokenDecimalsFor.
    change (RealisticTokenDecimals _) with (entries_map ∅ l).
    rewrite TrimSpace_id, entries_map_lookup by done. by destruct (find _ _).
Qed.

(** ** Witnesses *)

Definition native_price : UnifiedPrice := unified "105" 0 true 0 "".
Definition token_price : UnifiedPrice := unified "105" 0 false 0 "0xUSDC".
Definition usdc_settings : settings :=
  SetRealisticPrice true "10533" (Some {["0xusdc" := 6]}) initial_settings.

Lemma price_kept_witness :
  (u ← PriceV3ToUnifiedPrice (Some {| v3_Value := "5"; v3_Decimals := 2;
     v3_Currency := Some (CurrencyV3_TokenCurrency (Some "0x1")) |}); ToPriceV3 u) =
  Ok {| v3_Value := "5"; v3_Decimals := 2; v3_Currency := Some (CurrencyV3_TokenCurrency (Some "0x1")) |}.
Proof.
  apply (price_kept _
    {| v4_Value := "5"; v4_Decimals := 2; v4_Currency := Some (CurrencyV4_TokenCurrency (Some "0x1")) |}
    {| v5_Value := "5"; v5_Decimals := 2; v5_Currency := Some (CurrencyV4_TokenCurrency (Some "0x1")) |}
    (CurrencyV3_TokenCurrency (Some "0x1")) (CurrencyV4_TokenCurrency (Some "0x1")));
    try reflexivity; [discriminate|]. unfold MaxInt32; simpl; lia.
Defined.

Lemma realistic_price_settled_witness :
  GetPriceAndTokenV4 (λ _, 77) (λ _, Ok 6) (Some (ToPriceV4 (NormalizeRealistic usdc_settings token_price))) =
  Ok (10533, 77, 0).
Proof.
  apply (realistic_price_settled usdc_settings (λ _, 77) (λ _, Ok 6) token_price
    (CurrencyV4_TokenCurrency (Some "0xUSDC")) 10533 6 77); try reflexivity.
  - intros a d [= <-]. unfold in_uint. simpl. lia.
  - discriminate.
  - vm_compute. split; discriminate.
Defined.

Lemma token_decimals_read_witness :
  ∃ m, ParseTokenDecimals "0xUSDC:6,0xusdc:8" = Ok m ∧
    TokenDecimalsFor (SetRealisticPrice true "" (Some m) initial_settings) "0xUsdc" = 8.
Proof.
  apply (token_decimals_read [("0xUSDC", 6%N); ("0xusdc", 8%N)] true "" initial_settings "0xUsdc").
  - discriminate.
  - apply Forall_cons. split; [|apply Forall_singleton];
      (split; [apply clean_by_computation; reflexivity|vm_compute; discriminate]).
  - apply clean_by_computation. reflexivity.
Defined.
