(* ===== verification/MockBooking.v ===== *)
(** * Validation and minting in the partner plugin mock (src/pp-mock/handlers)

    What the mock remembers of the searches, validations and mints of the last minutes
    ([Store]), the sweep that forgets them, and the services that use them: validation,
    mint and notification in their three versions.  The requests are served at the same
    time; between any two accesses to the store, which has a lock, the others go on
    ([Others]). *)
From S2P Require Import Prelude Conversion Price Mint MockPrice.
From Stdlib Require Import Ascii.
From stdpp Require Import gmap relations.

#[local] Open Scope Z_scope.
#[local] Arguments String.append : simpl nomatch.

(** ** The store (handlers/state/state.go) *)

Definition EntryTimeout : Z := 10 * Minute.

Record SearchData := {
  NumResults : Z;
  NumTravelers : Z;
  SeatMapID : string;
  Prices : list UnifiedPrice;
  s_JSONRequest : string;
  s_JSONResponse : string
}.
Record ValidationData := {
  InitialSearchData : SearchData;
  VerifiedPrice : UnifiedPrice;
  v_JSONRequest : string;
  v_JSONResponse : string
}.
Record SearchResult := { s_Data : SearchData; s_CreatedAt : Z }.
Record ValidationResult := { v_Data : ValidationData; v_CreatedAt : Z }.
Record MintResult := { MintID : string; m_SeatMapID : string; m_CreatedAt : Z; Bought : bool }.

Record Store := {
  searchResults : gmap string SearchResult;
  validationResults : gmap string ValidationResult;
  mintResults : gmap string MintResult
}.

Definition newStore : Store :=
  {| searchResults := ∅; validationResults := ∅; mintResults := ∅ |}.

Definition AddSearchResult (searchID : string) (data : SearchData) (now : Z) (s : Store) : Store := {|
  searchResults := <[searchID := {| s_Data := data; s_CreatedAt := now |}]> (searchResults s);
  validationResults := validationResults s; mintResults := mintResults s |}.
Definition GetSearchResult (searchID : string) (s : Store) : option SearchResult :=
  searchResults s !! searchID.

Definition AddValidationResult (validationID : string) (data : ValidationData) (now : Z) (s : Store)
    : Store := {|
  searchResults := searchResults s;
  validationResults := <[validationID := {| v_Data := data; v_CreatedAt := now |}]> (validationResults s);
  mintResults := mintResults s |}.
Definition GetValidationResult (validationID : string) (s : Store) : option ValidationResult :=
  validationResults s !! validationID.

Definition with_mintResults (m : gmap string MintResult) (s : Store) : Store := {|
  searchResults := searchResults s; validationResults := validationResults s; mintResults := m |}.
Definition AddMintResult (mintID seatMapID : string) (now : Z) (s : Store) : Store :=
  with_mintResults (<[mintID := {| MintID := mintID; m_SeatMapID := seatMapID; m_CreatedAt := now;
                                   Bought := false |}]> (mintResults s)) s.
Definition SetMintBought (mintID : string) (bought : bool) (s : Store) : Store :=
  match mintResults s !! mintID with
  | None => s
  | Some result =>
      with_mintResults (<[mintID := {| MintID := MintID result; m_SeatMapID := m_SeatMapID result;
                                       m_CreatedAt := m_CreatedAt result; Bought := bought |}]>
                          (mintResults s)) s
  end.
Definition RemoveMintResult (mintID : string) (s : Store) : Store :=
  match mintResults s !! mintID with
  | None => s
  | Some _ => with_mintResults (delete mintID (mintResults s)) s
  end.
Definition GetMintResult (mintID : string) (s : Store) : option MintResult := mintResults s !! mintID.

(** One pass of [cleanupExpiredEntries]. *)
Definition expired (now createdAt : Z) : bool := EntryTimeout <? timeSub now createdAt.
Definition cleanupExpiredEntries (now : Z) (s : Store) : Store := {|
  searchResults := filter (λ e, expired now (s_CreatedAt e.2) = false) (searchResults s);
  validationResults := filter (λ e, expired now (v_CreatedAt e.2) = false) (validationResults s);
  mintResults := filter (λ e, expired now (m_CreatedAt e.2) = false) (mintResults s) |}.

(** ** Serving requests at the same time *)

(** The store, the clock and the identifiers [uuid.New] gave so far. *)
Record world := { store : Store; clock : Z; issued : gset string }.

(** What others do to it: a step is one access to the store, or the passing of time.  An
    identifier is used by the request that got it, and is not given twice. *)
Inductive activity (w : world) : world → Prop :=
  | act_time t : clock w ≤ t → activity w {| store := store w; clock := t; issued := issued w |}
  | act_search id data :
      id ∉ issued w →
      activity w {| store := AddSearchResult id data (clock w) (store w); clock := clock w;
                    issued := {[id]} ∪ issued w |}
  | act_validation id data :
      id ∉ issued w →
      activity w {| store := AddValidationResult id data (clock w) (store w); clock := clock w;
                    issued := {[id]} ∪ issued w |}
  | act_mint id seatMapID :
      id ∉ issued w →
      activity w {| store := AddMintResult id seatMapID (clock w) (store w); clock := clock w;
                    issued := {[id]} ∪ issued w |}
  | act_bought id bought :
      activity w {| store := SetMintBought id bought (store w); clock := clock w; issued := issued w |}
  | act_remove id :
      activity w {| store := RemoveMintResult id (store w); clock := clock w; issued := issued w |}
  | act_cleanup :
      activity w {| store := cleanupExpiredEntries (clock w) (store w); clock := clock w;
                    issued := issued w |}.

(** The rest of the process, as a request sees it: [others] is what happens before its
    next access, [pick] the next identifier it gets. *)
Class Others (X : Type) := {
  world_of : X → world;
  set_world : world → X → X;
  others : X → X;
  pick : X → string
}.
Class OthersLaws X `{!Others X} : Prop := {
  world_set w x : world_of (set_world w x) = w;
  others_active x : rtc activity (world_of x) (world_of (others x));
  pick_fresh x : pick x ∉ issued (world_of x);
  pick_not_empty x : pick x ≠ ""
}.

Section Access.
Context {X : Type} `{!Others X}.

Definition time_Now : M X Z := λ x, let x := others x in (x, Ok (clock (world_of x))).
Definition uuid_New : M X string := λ x,
  let x := others x in let w := world_of x in
  (set_world {| store := store w; clock := clock w; issued := {[pick x]} ∪ issued w |} x, Ok (pick x)).
(** With the lock held for reading, and for writing, at the time it is held. *)
Definition reading {A} (f : Store → A) : M X A := λ x,
  let x := others x in (x, Ok (f (store (world_of x)))).
Definition writing (f : Z → Store → Store) : M X unit := λ x,
  let x := others x in let w := world_of x in
  (set_world {| store := f (clock w) (store w); clock := clock w; issued := issued w |} x, Ok tt).
End Access.

(** ** What the responses are made of (common/common.go) *)

Definition SuccessHeaderV1 : HeaderV3 := {| h3_Status := STATUS_TYPE_SUCCESS; h3_Alerts := [] |}.
Definition SuccessHeaderWithInfoV1 (message : string) : HeaderV3 :=
  {| h3_Status := STATUS_TYPE_SUCCESS; h3_Alerts := [message] |}.
Definition ErrorHeaderV1 (message : string) : HeaderV3 :=
  {| h3_Status := STATUS_TYPE_FAILURE; h3_Alerts := [message] |}.
Definition SuccessHeaderV4 : list string := [].
Definition ErrorHeaderV4 (code : ErrorCode) (message : string) : list (ErrorCode * string) :=
  [(code, message)].
Definition AddHeaderAlertV4 (header : list string) (message : string) : list string :=
  header ++ [message].

Definition BookingTokenPriceValue : string := "1".
Definition BookingTokenPriceV3 : PriceV3 :=
  {| v3_Value := BookingTokenPriceValue; v3_Decimals := 0; v3_Currency := Some CurrencyV3_NativeToken |}.
Definition BookingTokenPriceV4 : PriceV4 :=
  {| v4_Value := BookingTokenPriceValue; v4_Decimals := 0; v4_Currency := Some CurrencyV4_NativeToken |}.
Definition BookingTokenPriceV5 : PriceV5 :=
  {| v5_Value := BookingTokenPriceValue; v5_Decimals := 0; v5_Currency := Some CurrencyV4_NativeToken |}.

Record ExpiringUUID := { Id : string; Expiration : Timestamp }.

Section Common.
Context {X : Type} `{!Others X}.

Definition NewExpiringUUIDWithTime (now : Z) : M X ExpiringUUID :=
  id ← uuid_New; retS {| Id := id; Expiration := timestamp_New (now + EntryTimeout) |}.
Definition NewExpiringUUID : M X ExpiringUUID := now ← time_Now; NewExpiringUUIDWithTime now.
End Common.

(** [time.Time.Unix] *)
Definition Unix (t : Z) : Z := t / Second.

(** config/config.go *)
Definition SetDefaults : Z := 5 * Minute.
Definition SetE2EDefaults : Z := 3 * Second.

(** ** Validation (handlers/book/v3-v5/validation.go) *)

Record SearchResultIdentifier := { SearchId : option string; ResultId : Z }.
Record ValidationObject := { obj_SearchResultIdentifier : option SearchResultIdentifier }.
Record ValidationRequest := { req_ValidationObject : option ValidationObject }.

Record ValidationSuccessResponse (P : Type) := {
  vs_ValidationId : ExpiringUUID;
  vs_ValidationObject : option ValidationObject;
  vs_TotalPrice : P
}.
Arguments vs_ValidationId {P} _.
Arguments vs_ValidationObject {P} _.
Arguments vs_TotalPrice {P} _.
Inductive ValidationResponse (P : Type) :=
  | ValidationResponse_SuccessResponse (r : ValidationSuccessResponse P)
  | ValidationResponse_ErrorResponse (errors : list (ErrorCode * string)).
Arguments ValidationResponse_SuccessResponse {P} _.
Arguments ValidationResponse_ErrorResponse {P} _.

(** Its price is that of a price detail with the description "Validated total price". *)
Record ValidationResponseV3 := {
  vr3_Header : HeaderV3;
  vr3_ValidationId : option string;
  vr3_ValidationObject : option ValidationObject;
  vr3_Price : option PriceV3
}.

Section Validation.
Context {X : Type} `{!Others X}.
(** The texts of messages, kept for debugging. *)
Variable request_String : ValidationRequest → string.
Variable response_String3 : ValidationResponseV3 → string.

Section Versions45.
Context {P : Type}.
Variable ToPrice : UnifiedPrice → P.
Variable response_String : ValidationResponse P → string.

Definition errValidationResp (code : ErrorCode) (message : string) : ValidationResponse P :=
  ValidationResponse_ErrorResponse (ErrorHeaderV4 code message).

Definition Validation (req : ValidationRequest) : M X (ValidationResponse P) :=
  match req_ValidationObject req ≫= obj_SearchResultIdentifier with
  | Some {| SearchId := Some searchID; ResultId := resultID |} =>
      if bool_decide (searchID = "") then
        retS (errValidationResp ERROR_CODE_INVALID_IDENTIFIERS
          "Invalid validation request: missing required validation identifier fields")
      else
      found ← reading (GetSearchResult searchID);
      match found with
      | None =>
          retS (errValidationResp ERROR_CODE_INVALID_IDENTIFIERS
            "Invalid validation request: searchId not found in state")
      | Some storedSearchData =>
          let prices := Prices (s_Data storedSearchData) in
          n ← liftO (MustIntToUInt32 (Z.of_nat (length prices)));
          if n <=? resultID then
            retS (errValidationResp ERROR_CODE_INVALID_IDENTIFIERS
              "Invalid validation request: resultId out of range")
          else
          match prices !! Z.to_nat resultID with
          | None => panicS "index out of range"
          | Some unifiedValidationPrice =>
              validationID ← NewExpiringUUID;
              let resp := ValidationResponse_SuccessResponse {|
                vs_ValidationId := validationID;
                vs_ValidationObject := req_ValidationObject req;
                vs_TotalPrice := ToPrice unifiedValidationPrice |} in
              writing (AddValidationResult (Id validationID) {|
                InitialSearchData := s_Data storedSearchData;
                VerifiedPrice := unifiedValidationPrice;
                v_JSONRequest := request_String req;
                v_JSONResponse := response_String resp |}) ;;
              retS resp
          end
      end
  | _ =>
      retS (errValidationResp ERROR_CODE_INVALID_IDENTIFIERS
        "Invalid validation request: missing required validation identifier fields")
  end.
End Versions45.

Definition ValidationV4 := Validation ToPriceV4.
Definition ValidationV5 := Validation ToPriceV5.

(** The results of version 3 count from one. *)
Definition validationFailedV3 (message : string) : ValidationResponseV3 :=
  {| vr3_Header := ErrorHeaderV1 message; vr3_ValidationId := None; vr3_ValidationObject := None;
     vr3_Price := None |}.

Definition ValidationV3 (req : ValidationRequest) : M X ValidationResponseV3 :=
  match req_ValidationObject req ≫= obj_SearchResultIdentifier with
  | Some {| SearchId := Some searchID; ResultId := resultID |} =>
      if resultID =? 0 then
        retS (validationFailedV3 "Invalid validation request: missing validation object or search identifier")
      else
      found ← reading (GetSearchResult searchID);
      match found with
      | None => retS (validationFailedV3 "Invalid validation request: searchId not found in state")
      | Some storedSearchData =>
          let prices := Prices (s_Data storedSearchData) in
          let resultIndex := swrap 32 (resultID - 1) in
          if (resultIndex <? 0) || (Z.of_nat (length prices) <=? resultIndex) then
            retS (validationFailedV3 "Invalid validation request: resultId out of range")
          else
          match prices !! Z.to_nat resultIndex with
          | None => panicS "index out of range"
          | Some unifiedValidationPrice =>
              validationPrice ← liftO (ToPriceV3 unifiedValidationPrice);
              validationID ← uuid_New;
              let response := {|
                vr3_Header := SuccessHeaderV1; vr3_ValidationId := Some validationID;
                vr3_ValidationObject := req_ValidationObject req; vr3_Price := Some validationPrice |} in
              writing (AddValidationResult validationID {|
                InitialSearchData := s_Data storedSearchData;
                VerifiedPrice := unifiedValidationPrice;
                v_JSONRequest := request_String req;
                v_JSONResponse := response_String3 response |}) ;;
              retS response
          end
      end
  | _ => retS (validationFailedV3 "Invalid validation request: missing validation object or search identifier")
  end.
End Validation.

(** ** Mint (handlers/book/v3-v5/mint.go) *)

Section Mint.
Context {X : Type} `{!Others X}.
Variable cfg : settings.
Variable BuyableUntilDefault : Z.

Definition mintResponseInfoMessage (price : string) : string :=
  "Please note that the price given in this mint response does not reflect the verified total price of the product of '"
  +:+ price +:+ "'. The price is just a minimum value to be able to mint the product.".

Definition MintV3 (req : MintRequestV3) : M X MintResponseV3 :=
  validationId ← liftO (deref (mr3_ValidationId req));
  found ← reading (GetValidationResult validationId);
  match found with
  | None =>
      retS {| m3_Header := Some (ErrorHeaderV1 "Validation not found in state");
              m3_BookingTokenUri := ""; m3_MintId := None; m3_ValidationId := None;
              m3_BuyableUntil := None; m3_Price := None; m3_Cancellable := false;
              m3_BookingTokenId := 0; m3_MintTransactionId := None; m3_BuyTransactionId := None |}
  | Some storedValidateData =>
      let verified := VerifiedPrice (v_Data storedValidateData) in
      '(header, mintPrice) ← (if RealisticPriceEnabled cfg then
          p ← liftO (ToPriceV3 verified); retS (SuccessHeaderV1, p)
        else retS (SuccessHeaderWithInfoV1 (mintResponseInfoMessage (u_Price verified)),
                   BookingTokenPriceV3));
      mintID ← uuid_New;
      now ← time_Now;
      writing (AddMintResult mintID (SeatMapID (InitialSearchData (v_Data storedValidateData)))) ;;
      retS {| m3_Header := Some header; m3_BookingTokenUri := ""; m3_MintId := Some mintID;
              m3_ValidationId := Some validationId;
              m3_BuyableUntil := Some {| Seconds := Unix (now + BuyableUntilDefault); Nanos := 0 |};
              m3_Price := Some mintPrice; m3_Cancellable := true; m3_BookingTokenId := 0;
              m3_MintTransactionId := None; m3_BuyTransactionId := None |}
  end.

(** What versions 4 and 5 do with a validation identifier; [deadline] is how they write
    the end of the reservation. *)
Section Versions45.
Context {P : Type}.
Variable ToPrice : UnifiedPrice → P.
Variable BookingTokenPrice : P.
Variable deadline : Z → Timestamp.

Definition mintValidation (validationId : string) : M X (MintResponse P) :=
  found ← reading (GetValidationResult validationId);
  match found with
  | None =>
      retS (MintResponse_ErrorResponse
        (ErrorHeaderV4 ERROR_CODE_INVALID_IDENTIFIERS "Validation not found in state"))
  | Some storedValidateData =>
      let verified := VerifiedPrice (v_Data storedValidateData) in
      let mintPrice := if RealisticPriceEnabled cfg then ToPrice verified else BookingTokenPrice in
      mintID ← uuid_New;
      now ← time_Now;
      let header :=
        if RealisticPriceEnabled cfg then SuccessHeaderV4
        else AddHeaderAlertV4 SuccessHeaderV4 (mintResponseInfoMessage (u_Price verified)) in
      writing (AddMintResult mintID (SeatMapID (InitialSearchData (v_Data storedValidateData)))) ;;
      retS (MintResponse_SuccessResponse (Some {|
        ms_Header := Some header; ms_BookingTokenUri := "https://example.com/";
        ms_MintId := Some mintID; ms_ValidationId := Some validationId;
        ms_BuyableUntil := Some (deadline (now + BuyableUntilDefault)); ms_Price := Some mintPrice;
        ms_Cancellable := true; ms_BookingTokenId := 0; ms_MintTransactionId := None;
        ms_BuyTransactionId := None |}))
  end.
End Versions45.

Definition MintV4 (req : MintRequest PriceV4) : M X (MintResponse PriceV4) :=
  validationId ← liftO (deref (mr_ValidationId req));
  mintValidation ToPriceV4 BookingTokenPriceV4 (λ t, {| Seconds := Unix t; Nanos := 0 |}) validationId.

Definition MintV5 (req : MintRequest PriceV5) : M X (MintResponse PriceV5) :=
  match mr_ValidationId req with
  | Some validationId =>
      if bool_decide (validationId = "") then
        retS (MintResponse_ErrorResponse
          (ErrorHeaderV4 ERROR_CODE_INVALID_IDENTIFIERS "Validation ID is missing or invalid"))
      else mintValidation ToPriceV5 BookingTokenPriceV5 timestamp_New validationId
  | None =>
      retS (MintResponse_ErrorResponse
        (ErrorHeaderV4 ERROR_CODE_INVALID_IDENTIFIERS "Validation ID is missing or invalid"))
  end.
End Mint.

(** ** Notifications (handlers/notification/v1-v3/notification.go)

    The handlers of the three versions are the same; those of the cancellations do
    nothing. *)
Section Notification.
Context {X : Type} `{!Others X}.

Definition TokenBoughtNotification (mintId : option string) : M X unit :=
  id ← liftO (deref mintId); writing (λ _, SetMintBought id true).
Definition TokenExpiredNotification (mintId : option string) : M X unit :=
  id ← liftO (deref mintId); writing (λ _, RemoveMintResult id).
Definition CancellationNotification : M X unit := retS tt.
End Notification.

(** ** Lemmas *)

(** *** What the activity of others leaves *)

(** Time goes on, and identifiers stay taken. *)
Definition later (w w' : world) : Prop := clock w ≤ clock w' ∧ issued w ⊆ issued w'.

Lemma activity_later w w' : activity w w' → later w w'.
Proof. destruct 1; (split; simpl; [lia|set_solver]). Qed.

Lemma later_trans u v w : later u v → later v w → later u w.
Proof. intros [??] [??]. split; [lia|set_solver]. Qed.

Lemma activities_later w w' : rtc activity w w' → later w w'.
Proof.
  induction 1 as [w|w u w' Hu _ IH]; [split; [lia|done]|].
  eapply later_trans; [by apply activity_later|done].
Qed.

Lemma not_expired now createdAt : now ≤ createdAt + EntryTimeout → expired now createdAt = false.
Proof.
  intros H. unfold expired. apply Z.ltb_ge, timeSub_le; [vm_compute; split; [discriminate|done]|lia].
Qed.

(** A table of the store in which every entry has its time, and how steps treat it. *)
Definition kept {R} (table : Store → gmap string R) (created : R → Z) (w w' : world) : Prop :=
  ∀ id r, id ∈ issued w → table (store w) !! id = Some r → clock w' ≤ created r + EntryTimeout →
    table (store w') !! id = Some r.

Lemma cleanup_kept {R} (created : R → Z) now (m : gmap string R) id r :
  m !! id = Some r → now ≤ created r + EntryTimeout →
  filter (λ e : string * R, expired now (created e.2) = false) m !! id = Some r.
Proof. intros Hm Hr. apply map_lookup_filter_Some. split; [done|]. simpl. by apply not_expired. Qed.

Lemma activity_kept w w' :
  activity w w' → kept searchResults s_CreatedAt w w' ∧ kept validationResults v_CreatedAt w w'.
Proof.
  intros Hs. destruct Hs; split; intros k r Hi Hl Ht; simpl in *; try done;
    try (rewrite lookup_insert_ne by congruence; done); try (by apply cleanup_kept);
    unfold SetMintBought, RemoveMintResult; by destruct (mintResults (store w) !! id).
Qed.

Lemma kept_trans {R} (table : Store → gmap string R) created u v w :
  kept table created u v → kept table created v w → later u v → later v w → kept table created u w.
Proof.
  intros H1 H2 L1 L2 id r Hi Hl Ht. destruct L1, L2. apply H2; [set_solver| |done].
  apply H1; [done..|lia].
Qed.

Lemma activities_kept w w' :
  rtc activity w w' → kept searchResults s_CreatedAt w w' ∧ kept validationResults v_CreatedAt w w'.
Proof.
  induction 1 as [w|w u w' Hu Hr [IH1 IH2]]; [by split; intros id r|].
  apply activity_later in Hu as Hl. apply activity_kept in Hu as [H1 H2].
  apply activities_later in Hr. split; by eapply kept_trans.
Qed.

(** *** Access to the store *)
Section Facts.
Context {X : Type} `{!Others X} `{!OthersLaws X}.

Lemma runs_time {B} (k : Z → M X B) x (Q : X → outcome B → Prop) :
  (∀ y, rtc activity (world_of x) (world_of y) → runs (k (clock (world_of y))) y Q) →
  runs (mbind k time_Now) x Q.
Proof. intros HQ. apply HQ, others_active. Qed.

Lemma runs_reading {A B} (f : Store → A) (k : A → M X B) x (Q : X → outcome B → Prop) :
  (∀ y, y = others x → rtc activity (world_of x) (world_of y) → runs (k (f (store (world_of y)))) y Q) →
  runs (mbind k (reading f)) x Q.
Proof. intros HQ. by apply HQ, others_active. Qed.

Lemma runs_writing {B} (f : Z → Store → Store) (k : unit → M X B) x (Q : X → outcome B → Prop) :
  (∀ w y, rtc activity (world_of x) w →
    world_of y = {| store := f (clock w) (store w); clock := clock w; issued := issued w |} →
    runs (k tt) y Q) → runs (mbind k (writing f)) x Q.
Proof. intros HQ. eapply HQ; [apply others_active|apply world_set]. Qed.

Lemma runs_uuid {B} (k : string → M X B) x (Q : X → outcome B → Prop) :
  (∀ w y id, rtc activity (world_of x) w → id ∉ issued w → id ≠ "" →
    world_of y = {| store := store w; clock := clock w; issued := {[id]} ∪ issued w |} →
    runs (k id) y Q) → runs (mbind k uuid_New) x Q.
Proof. intros HQ. eapply HQ; [apply others_active|apply pick_fresh|apply pick_not_empty|apply world_set]. Qed.

(** The instant of a timestamp. *)
Definition instant (t : Timestamp) : Z := Seconds t * Second + Nanos t.

Lemma instant_New t : instant (timestamp_New t) = t.
Proof. unfold instant, timestamp_New. simpl. rewrite Z.mul_comm. symmetry. apply Z.div_mod. done. Qed.

Lemma runs_expiring_at {B} (k : ExpiringUUID → M X B) now x (Q : X → outcome B → Prop) :
  now ≤ clock (world_of x) →
  (∀ y e, later (world_of x) (world_of y) → Id e ∈ issued (world_of y) → Id e ≠ "" →
    instant (Expiration e) ≤ clock (world_of y) + EntryTimeout → runs (k e) y Q) →
  runs (mbind k (NewExpiringUUIDWithTime now)) x Q.
Proof.
  intros Hnow HQ. pose proof (activities_later _ _ (others_active x)) as [L1 I1].
  apply HQ; simpl; rewrite ?world_set; simpl.
  - split; simpl; [lia|set_solver].
  - set_solver.
  - apply pick_not_empty.
  - rewrite instant_New. lia.
Qed.

Lemma runs_expiring {B} (k : ExpiringUUID → M X B) x (Q : X → outcome B → Prop) :
  (∀ y e, later (world_of x) (world_of y) → Id e ∈ issued (world_of y) → Id e ≠ "" →
    instant (Expiration e) ≤ clock (world_of y) + EntryTimeout → runs (k e) y Q) →
  runs (mbind k NewExpiringUUID) x Q.
Proof.
  intros HQ. pose proof (activities_later _ _ (others_active x)) as L1.
  apply (runs_expiring_at k (clock (world_of (others x))) (others x)); [done|].
  intros y e L2. apply HQ. by eapply later_trans.
Qed.

Lemma runs_panic {A} p x (Q : X → outcome A → Prop) : Q x (Panic p) → runs (panicS p) x Q.
Proof. done. Qed.
Lemma runs_lift {A B} (o : outcome A) (k : A → M X B) x (Q : X → outcome B → Prop) :
  (∀ a, o = Ok a → runs (k a) x Q) → (∀ e, o = Err e → Q x (Err e)) → (∀ p, o = Panic p → Q x (Panic p)) →
  runs (mbind k (liftO o)) x Q.
Proof. destruct o; intros H1 H2 H3; [by apply H1|by apply H2|by apply H3]. Qed.

(** What a validation leaves: an entry under its identifier, for the price it names, that
    is not forgotten before the identifier expires. *)
Definition validated {P} (ToPrice : UnifiedPrice → P) (r : ValidationSuccessResponse P) (w : world) : Prop :=
  Id (vs_ValidationId r) ∈ issued w ∧ Id (vs_ValidationId r) ≠ "" ∧
  ∃ v, validationResults (store w) !! Id (vs_ValidationId r) = Some v ∧
    vs_TotalPrice r = ToPrice (VerifiedPrice (v_Data v)) ∧
    instant (Expiration (vs_ValidationId r)) ≤ v_CreatedAt v + EntryTimeout.

(** The search and the result a request names. *)
Definition names (req : ValidationRequest) (searchID : string) (resultID : Z) : Prop :=
  req_ValidationObject req = Some {| obj_SearchResultIdentifier :=
    Some {| SearchId := Some searchID; ResultId := resultID |} |} ∧ searchID ≠ "".

(** How a validation ends, in [w']; [u] is the world when the search is looked up. *)
Inductive validation_end {P} (ToPrice : UnifiedPrice → P) (req : ValidationRequest) (u w' : world) :
    outcome (ValidationResponse P) → Prop :=
  | validation_nameless message :
      (∀ searchID resultID, ¬ names req searchID resultID) →
      validation_end ToPrice req u w' (Ok (errValidationResp ERROR_CODE_INVALID_IDENTIFIERS message))
  | validation_unknown message searchID resultID :
      names req searchID resultID → searchResults (store u) !! searchID = None →
      validation_end ToPrice req u w' (Ok (errValidationResp ERROR_CODE_INVALID_IDENTIFIERS message))
  | validation_out_of_range message searchID resultID data :
      names req searchID resultID →
      searchResults (store u) !! searchID = Some data →
      Z.of_nat (length (Prices (s_Data data))) ≤ resultID →
      validation_end ToPrice req u w' (Ok (errValidationResp ERROR_CODE_INVALID_IDENTIFIERS message))
  | validation_overflow p searchID resultID data :
      names req searchID resultID →
      searchResults (store u) !! searchID = Some data →
      MaxUint32 < Z.of_nat (length (Prices (s_Data data))) ∨ resultID < 0 →
      validation_end ToPrice req u w' (Panic p)
  | validation_done r searchID resultID data price :
      names req searchID resultID →
      searchResults (store u) !! searchID = Some data →
      Prices (s_Data data) !! Z.to_nat resultID = Some price →
      vs_TotalPrice r = ToPrice price → validated ToPrice r w' →
      validation_end ToPrice req u w' (Ok (ValidationResponse_SuccessResponse r)).

Lemma Validation_spec {P} (ToPrice : UnifiedPrice → P) req_text text req x :
  runs (Validation req_text ToPrice text req) x
    (λ y o, validation_end ToPrice req (world_of (others x)) (world_of y) o).
Proof.
  unfold Validation.
  destruct (req_ValidationObject req) as [[[[[searchID|] resultID]|]]|] eqn:Eo; simpl;
    try (apply runs_ret, validation_nameless; intros ? ? [? ?]; congruence).
  case_bool_decide as Hne; [apply runs_ret, validation_nameless; intros ? ? [? ?]; congruence|].
  assert (names req searchID resultID) as Hn by done.
  apply runs_reading. intros u -> Hu. unfold GetSearchResult.
  destruct (searchResults (store (world_of (others x))) !! searchID) as [data|] eqn:Es;
    [|by eapply runs_ret, validation_unknown].
  apply runs_lift; unfold MustIntToUInt32.
  2: by case_match.
  2: intros p E; eapply validation_overflow; [done..|left; revert E; zcase; intros ?; simplify_eq/=; lia].
  intros n Hn'. assert (n = Z.of_nat (length (Prices (s_Data data)))) as ->.
  { revert Hn'. case_match eqn:E; [done|]. intros [= <-]. apply uwrap_small.
    apply orb_false_iff in E as [_ ?%Z.ltb_ge]. unfold in_uint, MaxUint32 in *. simpl. lia. }
  clear Hn'. zcase; [by eapply runs_ret, validation_out_of_range|].
  destruct (Prices (s_Data data) !! Z.to_nat resultID) as [price|] eqn:Ep.
  2: { apply runs_panic. eapply validation_overflow; [done..|right].
    apply lookup_ge_None in Ep. lia. }
  apply runs_expiring. intros y e Ly Hid Hne' He. apply runs_writing. intros w z Hw Ez.
  apply activities_later in Hw as [Hc Hi]. eapply runs_ret, validation_done; [done..|].
  split_and!; simpl; rewrite ?Ez; simpl; [set_solver|done|]. rewrite lookup_insert_eq. eexists.
  split_and!; [done|done|simpl; lia].
Qed.

(** What a mint of a validation gives: the price, the identifiers, an entry not yet bought. *)
Definition minted {P} (cfg : settings) (verified booking : P) (deadline : Z → Timestamp)
    (BuyableUntilDefault : Z) (validationId : string) (w w' : world) (o : outcome (MintResponse P)) : Prop :=
  ∃ s mintID result now,
    o = Ok (MintResponse_SuccessResponse (Some s)) ∧
    ms_Price s = Some (if RealisticPriceEnabled cfg then verified else booking) ∧
    ms_ValidationId s = Some validationId ∧ ms_Cancellable s = true ∧ ms_MintId s = Some mintID ∧
    ms_BuyableUntil s = Some (deadline (now + BuyableUntilDefault)) ∧
    clock w ≤ now ≤ clock w' ∧ mintID ∈ issued w' ∧ mintID ∉ issued w ∧
    mintResults (store w') !! mintID = Some result ∧ Bought result = false.

Lemma mintValidation_spec {P} cfg d (ToPrice : UnifiedPrice → P) booking deadline id x v :
  validationResults (store (world_of (others x))) !! id = Some v →
  runs (mintValidation cfg d ToPrice booking deadline id) x (λ y o,
    minted cfg (ToPrice (VerifiedPrice (v_Data v))) booking deadline d id (world_of x) (world_of y) o).
Proof.
  intros Hv. unfold mintValidation. apply runs_reading. intros u -> Hu. unfold GetValidationResult.
  rewrite Hv. apply runs_uuid. intros w1 y1 mintID Hw1 Hfresh _ Ey1.
  apply runs_time. intros y2 Hy2. apply runs_writing. intros w3 y3 Hw3 Ey3.
  apply activities_later in Hu as [Cu Iu], Hw1 as [C1 I1], Hy2 as [C2 I2], Hw3 as [C3 I3].
  rewrite Ey1 in C2, I2. simpl in C2, I2.
  apply runs_ret. eexists _, mintID, _, (clock (world_of y2)). rewrite Ey3. simpl.
  split_and!; [done..|lia|lia|set_solver|set_solver|by rewrite lookup_insert_eq|done].
Qed.

(** The entry of a validation is there as long as its identifier has not expired. *)
Lemma validated_found {P} (ToPrice : UnifiedPrice → P) r w w' :
  validated ToPrice r w → rtc activity w w' →
  clock w' ≤ instant (Expiration (vs_ValidationId r)) →
  ∃ v, validationResults (store w') !! Id (vs_ValidationId r) = Some v ∧
    vs_TotalPrice r = ToPrice (VerifiedPrice (v_Data v)).
Proof.
  intros (Hid & _ & v & Hv & Hp & He) Hw Hc. exists v. split; [|done].
  apply activities_kept in Hw as [_ Hk]. apply Hk; [done..|lia].
Qed.

Lemma validation_minted {P} (ToPrice : UnifiedPrice → P) text1 text2 req x y r z cfg d booking deadline :
  Validation text1 ToPrice text2 req x = (y, Ok (ValidationResponse_SuccessResponse r)) →
  rtc activity (world_of y) (world_of z) →
  clock (world_of (others z)) ≤ instant (Expiration (vs_ValidationId r)) →
  Id (vs_ValidationId r) ≠ "" ∧
  runs (mintValidation cfg d ToPrice booking deadline (Id (vs_ValidationId r))) z (λ z' o,
    minted cfg (vs_TotalPrice r) booking deadline d (Id (vs_ValidationId r)) (world_of z) (world_of z') o).
Proof.
  intros E Hz Hc. pose proof (Validation_spec ToPrice text1 text2 req x) as Hs. unfold runs in Hs.
  rewrite E in Hs. inversion Hs as [| | | |? ? ? ? ? _ _ _ _ Hval]; subst.
  split; [apply Hval|].
  destruct (validated_found ToPrice r _ _ Hval (rtc_trans _ _ _ Hz (others_active z)) Hc) as (v & Hv & ->).
  by apply mintValidation_spec.
Qed.
End Facts.

(** *** The sweep *)

(** The three tables have entries of a given age only. *)
Definition ages (P : Z → Prop) (s : Store) : Prop :=
  map_Forall (λ _ r, P (s_CreatedAt r)) (searchResults s) ∧
  map_Forall (λ _ r, P (v_CreatedAt r)) (validationResults s) ∧
  map_Forall (λ _ r, P (m_CreatedAt r)) (mintResults s).

(** The process with its sweeper, that woke up at [last], and before at [previous]. *)
Record process := { proc_world : world; last : Z; previous : Z }.
Inductive sweeping (p : process) : process → Prop :=
  | sweeping_other w :
      activity (proc_world p) w →
      sweeping p {| proc_world := w; last := last p; previous := previous p |}
  | sweeping_wake now :
      clock (proc_world p) ≤ now → last p + EntryTimeout ≤ now →
      sweeping p {| proc_world := {| store := cleanupExpiredEntries now (store (proc_world p));
                                     clock := now; issued := issued (proc_world p) |};
                    last := now; previous := last p |}.
Definition start (now : Z) : process :=
  {| proc_world := {| store := newStore; clock := now; issued := ∅ |}; last := now; previous := now |}.

Definition swept (p : process) : Prop :=
  previous p ≤ last p ≤ clock (proc_world p) ∧ ages (λ t, previous p ≤ t) (store (proc_world p)).

Lemma ages_activity (P : Z → Prop) w w' :
  activity w w' → P (clock w) → ages P (store w) → ages P (store w').
Proof.
  intros Hs HP (A1 & A2 & A3). destruct Hs; simpl; try done.
  1-3: split_and!; simpl; try done; by apply map_Forall_insert_2.
  - unfold SetMintBought. destruct (mintResults (store w) !! id) as [r|] eqn:E; [|done].
    split_and!; simpl; try done. apply map_Forall_insert_2; [|done]. apply (A3 _ _ E).
  - unfold RemoveMintResult. destruct (mintResults (store w) !! id); [|done].
    split_and!; simpl; try done. by apply map_Forall_delete.
  - split_and!; simpl; intros k r [Hk _]%map_lookup_filter_Some; eauto.
Qed.

Lemma expired_age now t : expired now t = false → now - EntryTimeout ≤ t.
Proof.
  unfold expired. rewrite Z.ltb_ge. intros H%timeSub_le; [lia|]. vm_compute. split; [discriminate|done].
Qed.

Lemma ages_cleanup now s : ages (λ t, now - EntryTimeout ≤ t) (cleanupExpiredEntries now s).
Proof.
  split_and!; simpl; intros k r [_ Hr]%map_lookup_filter_Some; by apply expired_age.
Qed.

Lemma ages_mono (P Q : Z → Prop) s : (∀ t, P t → Q t) → ages P s → ages Q s.
Proof. intros HPQ (A1 & A2 & A3). split_and!; (eapply map_Forall_impl; [eassumption|]); eauto. Qed.

Lemma sweeping_swept p q : sweeping p q → swept p → swept q.
Proof.
  intros Hs [Ho Ha]. destruct Hs as [w Hw|now Hc Hn]; unfold swept; simpl.
  - split; [apply activity_later in Hw as [? _]; lia|]. eapply ages_activity; [done|simpl; lia|done].
  - split; [unfold EntryTimeout, Minute, Second in *; lia|].
    eapply ages_mono; [|apply ages_cleanup]. simpl. lia.
Qed.


(** ** Properties *)

(** What the validation service answers.  A request that does not name a search and a
    result, a search the mock does not know (or has forgotten) and a result the search did
    not have are refused; otherwise the response has the price the search offered for that
    result, and until its identifier expires the store has a validation for that price. *)
Lemma Validation_ends `{!Others X} `{!OthersLaws X} text text4 text5 req (x : X) :
  runs (ValidationV4 text text4 req) x
    (λ y o, validation_end ToPriceV4 req (world_of (others x)) (world_of y) o) ∧
  runs (ValidationV5 text text5 req) x
    (λ y o, validation_end ToPriceV5 req (world_of (others x)) (world_of y) o).
Proof. split; apply Validation_spec. Qed.

(** A validation is good for as long as it says.  Whatever other requests do to the
    store and however often it is swept, until the identifier of a validation expires a
    mint with it succeeds: in realistic mode for the validated price, otherwise for the
    fixed price of the mock, with a new mint identifier under which the store then has a
    mint that is not bought. *)
Lemma validation_mintable `{!Others X} `{!OthersLaws X} cfg d text req (x y z : X) :
  (∀ text5 r (req' : MintRequest PriceV5),
    ValidationV5 text text5 req x = (y, Ok (ValidationResponse_SuccessResponse r)) →
    rtc activity (world_of y) (world_of z) →
    clock (world_of (others z)) ≤ instant (Expiration (vs_ValidationId r)) →
    mr_ValidationId req' = Some (Id (vs_ValidationId r)) →
    runs (MintV5 cfg d req') z (λ z' o, minted cfg (vs_TotalPrice r) BookingTokenPriceV5 timestamp_New d
      (Id (vs_ValidationId r)) (world_of z) (world_of z') o)) ∧
  (∀ text4 r (req' : MintRequest PriceV4),
    ValidationV4 text text4 req x = (y, Ok (ValidationResponse_SuccessResponse r)) →
    rtc activity (world_of y) (world_of z) →
    clock (world_of (others z)) ≤ instant (Expiration (vs_ValidationId r)) →
    mr_ValidationId req' = Some (Id (vs_ValidationId r)) →
    runs (MintV4 cfg d req') z (λ z' o, minted cfg (vs_TotalPrice r) BookingTokenPriceV4
      (λ t, {| Seconds := Unix t; Nanos := 0 |}) d
      (Id (vs_ValidationId r)) (world_of z) (world_of z') o)).
Proof.
  split; intros txt r req' E Hz Hc Hid.
  - destruct (validation_minted _ _ _ _ _ _ _ _ cfg d BookingTokenPriceV5 timestamp_New E Hz Hc) as [Hne Hm].
    unfold MintV5. rewrite Hid, bool_decide_false by done. exact Hm.
  - destruct (validation_minted _ _ _ _ _ _ _ _ cfg d BookingTokenPriceV4
      (λ t, {| Seconds := Unix t; Nanos := 0 |}) E Hz Hc) as [_ Hm].
    unfold MintV4. rewrite Hid. exact Hm.
Qed.

(** The store does not grow old.  However the requests and the sweeps of the store
    follow each other, every entry was made since the sweep before the last: none outlives
    the second sweep after it. *)
Lemma store_bounded now p :
  rtc sweeping (start now) p →
  previous p ≤ last p ≤ clock (proc_world p) ∧ ages (λ t, previous p ≤ t) (store (proc_world p)).
Proof.
  intros Hp. apply (rtc_preserved _ _ sweeping_swept _ _ Hp).
  split; [simpl; lia|]. split_and!; apply map_Forall_empty.
Qed.

(** The reservation the mock asks for and the bot that makes it.  With the settings of
    production the bot takes the deadline of the mock as it is when it gets the response
    within 230 seconds; in the test mode the deadline is nearer than the bot allows, which
    puts it five seconds from the time it gets the response, and refuses a response that
    is four seconds old. *)
Lemma mock_deadline_kept t now :
  0 ≤ t ≤ now →
  (now ≤ t + 230 * Second →
    verifyAndFixBuyableUntil production_window (Some (timestamp_New (t + SetDefaults))) now =
    Ok (timestamp_New (t + SetDefaults))) ∧
  (now ≤ t + SetE2EDefaults →
    verifyAndFixBuyableUntil e2e_window (Some (timestamp_New (t + SetE2EDefaults))) now =
    Ok (timestamp_New (now + Minimal e2e_window))) ∧
  (t + 4 * Second ≤ now →
    verifyAndFixBuyableUntil e2e_window (Some (timestamp_New (t + SetE2EDefaults))) now =
    Err errBuyableUntilPast).
Proof.
  intros Ht. unfold verifyAndFixBuyableUntil, timestamp_New, production_window, e2e_window,
    SetDefaults, SetE2EDefaults, Minute, Second. cbn [Seconds Minimal Maximal Default].
  split_and!; intros Hn.
  - rewrite (proj2 (Z.eqb_neq _ _)) by (Z.to_euclidean_division_equations; lia).
    rewrite !(proj2 (Z.ltb_ge _ _)) by (Z.to_euclidean_division_equations; lia). done.
  - rewrite (proj2 (Z.eqb_neq _ _)) by (Z.to_euclidean_division_equations; lia).
    rewrite (proj2 (Z.ltb_ge _ (now / _))) by (Z.to_euclidean_division_equations; lia).
    by rewrite (proj2 (Z.ltb_lt _ _)) by (Z.to_euclidean_division_equations; lia).
  - rewrite (proj2 (Z.eqb_neq _ _)) by (Z.to_euclidean_division_equations; lia).
    by rewrite (proj2 (Z.ltb_lt _ _)) by (Z.to_euclidean_division_equations; lia).
Qed.

(** The fixed price is a whole native token, [10^18] base units. *)
Lemma booking_token_price HexToAddress Decimals :
  GetPriceAndTokenV5 HexToAddress Decimals (Some BookingTokenPriceV5) = Ok (10 ^ 18, NativePaymentToken, 0).
Proof. reflexivity. Qed.

(** ** A mock with one client *)
Module Toy.
(** A second passes before every access; an identifier is longer than all before. *)
Definition longer (l : list string) : string := String "x"%char (foldr String.append "" l).
#[global] Instance alone : Others world := {|
  world_of w := w; set_world w _ := w;
  others w := {| store := store w; clock := clock w + Second; issued := issued w |};
  pick w := longer (elements (issued w)) |}.

Lemma longer_fresh l : longer l ∉ l.
Proof.
  assert (∀ a b, String.length (a +:+ b) = (String.length a + String.length b)%nat) as Happ
    by (intros a b; induction a; simpl; congruence).
  intros Hl. assert (∀ s, s ∈ l → (String.length s ≤ String.length (foldr String.append "" l))%nat) as Hlen.
  { clear Hl. intros s. induction l as [|t l IH]; intros Hs; [by apply elem_of_nil in Hs|].
    simpl. rewrite Happ. apply elem_of_cons in Hs as [->|Hs]; [lia|]. specialize (IH Hs). lia. }
  specialize (Hlen _ Hl). simpl in Hlen. lia.
Qed.

#[global] Instance alone_laws : OthersLaws world.
Proof.
  split.
  - done.
  - intros w. apply rtc_once. apply act_time. unfold Second. lia.
  - intros w Hw. apply elem_of_elements in Hw. by apply longer_fresh in Hw.
  - done.
Qed.

Definition offered : UnifiedPrice := unified "10533" 18 true 0 "".
Definition searched : world :=
  {| store := AddSearchResult "s" {| NumResults := 1; NumTravelers := 2; SeatMapID := ""; Prices := [offered];
       s_JSONRequest := ""; s_JSONResponse := "" |} 0 newStore; clock := 0; issued := {["s"]} |}.
Definition request : ValidationRequest :=
  {| req_ValidationObject := Some {| obj_SearchResultIdentifier :=
       Some {| SearchId := Some "s"; ResultId := 0 |} |} |}.
Definition text {A} (_ : A) : string := "".
Definition realistic_settings : settings := SetRealisticPrice true "" None initial_settings.
Definition answer : world * outcome (ValidationResponse PriceV5) := ValidationV5 text text request searched.
End Toy.

Lemma validation_mintable_witness :
  ∃ r, snd Toy.answer = Ok (ValidationResponse_SuccessResponse r) ∧
    runs (MintV5 Toy.realistic_settings SetDefaults {| mr_ValidationId := Some (Id (vs_ValidationId r));
            mr_BuyerAddress := None; mr_ExpectedPrice := None |}) (fst Toy.answer)
      (λ z' o, minted Toy.realistic_settings (vs_TotalPrice r) BookingTokenPriceV5 timestamp_New SetDefaults
        (Id (vs_ValidationId r)) (fst Toy.answer) z' o) ∧
    vs_TotalPrice r = ToPriceV5 Toy.offered.
Proof.
  eexists. split; [vm_compute; reflexivity|]. split; [|vm_compute; reflexivity].
  apply (proj1 (@validation_mintable world Toy.alone Toy.alone_laws Toy.realistic_settings SetDefaults
    Toy.text Toy.request Toy.searched (fst Toy.answer) (fst Toy.answer)) Toy.text).
  - vm_compute. reflexivity.
  - apply rtc_refl.
  - vm_compute. discriminate.
  - reflexivity.
Defined.

Lemma store_bounded_witness :
  ages (λ t, 0 ≤ t) (store (proc_world {| proc_world :=
    {| store := AddSearchResult "s" {| NumResults := 0; NumTravelers := 0; SeatMapID := ""; Prices := [];
         s_JSONRequest := ""; s_JSONResponse := "" |} 0 newStore; clock := 0; issued := {["s"]} ∪ ∅ |};
    last := 0; previous := 0 |})).
Proof.
  apply (store_bounded 0). apply rtc_once. apply (sweeping_other (start 0)).
  apply (act_search (proc_world (start 0))). apply not_elem_of_empty.
Defined.

Lemma mock_deadline_kept_witness :
  verifyAndFixBuyableUntil production_window (Some (timestamp_New (100 * Second + SetDefaults))) (130 * Second)
  = Ok (timestamp_New (100 * Second + SetDefaults)).
Proof. apply mock_deadline_kept; vm_compute; first [split; discriminate|discriminate]. Defined.
