(* ===== verification/MockDates.v ===== *)
(** * Dates in the partner plugin mock (src/pp-mock/common/common.go)

    A date is year, month and day of the civil calendar; [time.Date] makes the instant of
    its midnight, in nanoseconds since 1970, and takes months and days outside their range
    into the neighbouring years and months.  A travel period is checked against the time
    of the request. *)
From S2P Require Import Prelude.

#[local] Open Scope Z_scope.

Definition Hour : Z := 60 * Minute.
Definition DayLength : Z := 24 * Hour.

(** ** [time.Date] at midnight, UTC *)

Definition isLeap (year : Z) : bool :=
  (year mod 4 =? 0) && (negb (year mod 100 =? 0) || (year mod 400 =? 0)).

(** Days of the year before the month, counted from zero, of a year that is not leap. *)
Definition daysBefore (month : Z) : Z :=
  nth (Z.to_nat month) [0; 31; 59; 90; 120; 151; 181; 212; 243; 273; 304; 334] 0.

(** Days from the first of January of year 1 to the first of January of [year]. *)
Definition daysBeforeYear (year : Z) : Z :=
  let y := year - 1 in 365 * y + y / 4 - y / 100 + y / 400.

(** From the same day to the first of January 1970. *)
Definition unixDays : Z := 719162.

Definition time_Date (year month day : Z) : Z :=
  let year' := year + (month - 1) / 12 in
  let month' := (month - 1) mod 12 in
  let leap := if isLeap year' && (2 <=? month') then 1 else 0 in
  (daysBeforeYear year' + daysBefore month' + leap + (day - 1) - unixDays) * DayLength.

(** ** The dates of the protocol *)

(** Types v1 and v4 differ in the sign of the numbers. *)
Record Date := { Year : Z; Month : Z; Day : Z }.
Record TravelPeriod := { StartDate : option Date; EndDate : option Date }.

(** The getters give zero on nil. *)
Definition GetYear (date : option Date) : Z := from_option Year 0 date.
Definition GetMonth (date : option Date) : Z := from_option Month 0 date.
Definition GetDay (date : option Date) : Z := from_option Day 0 date.

Definition DateV1ToTime (date : option Date) : Z :=
  time_Date (GetYear date) (GetMonth date) (GetDay date).
Definition DateV4ToTime (date : option Date) : Z :=
  time_Date (GetYear date) (GetMonth date) (GetDay date).

Definition DaysBetweenDatesV1 (endDate startDate : option Date) : Z :=
  Z.quot (timeSub (DateV1ToTime endDate) (DateV1ToTime startDate)) DayLength.
Definition DaysBetweenDatesV4 (endDate startDate : option Date) : Z :=
  Z.quot (timeSub (DateV4ToTime endDate) (DateV4ToTime startDate)) DayLength.

Definition TravelPeriodMinStartOffset : Z := DayLength.
Definition TravelPeriodMaxDuration : Z := 60 * DayLength.
Definition FreeCancellationDuration : Z := 7 * DayLength.

(** [now.Truncate(time.Hour * 24)]: the last midnight. *)
Definition Truncate (now : Z) : Z := now / DayLength * DayLength.

Definition IsTravelPeriodAllowedV1 (now : Z) (travelPeriod : option TravelPeriod) : outcome bool :=
  period ← deref travelPeriod;
  let startDate := Truncate now + TravelPeriodMinStartOffset in
  let endDate := startDate + TravelPeriodMaxDuration in
  Ok (negb (DateV1ToTime (StartDate period) <? startDate) &&
      negb (endDate <? DateV1ToTime (EndDate period)) &&
      (DateV1ToTime (StartDate period) <? DateV1ToTime (EndDate period))).

Definition IsTravelPeriodAllowedV4WithTime (now : Z) (travelPeriod : option TravelPeriod)
    : outcome bool :=
  period ← deref travelPeriod;
  let startDate := Truncate now + TravelPeriodMinStartOffset in
  let endDate := startDate + TravelPeriodMaxDuration in
  Ok (negb (DateV4ToTime (StartDate period) <? startDate) &&
      negb (endDate <? DateV4ToTime (EndDate period)) &&
      (DateV4ToTime (StartDate period) <? DateV4ToTime (EndDate period))).

Definition AreTravelDatesValidV1 (departureDate arrivalDate : option Date) : bool :=
  match departureDate, arrivalDate with
  | Some _, Some _ => negb (DateV1ToTime arrivalDate <? DateV1ToTime departureDate)
  | _, _ => false
  end.
Definition AreTravelDatesValidV4 (departureDate arrivalDate : option Date) : bool :=
  negb (DateV4ToTime arrivalDate <? DateV4ToTime departureDate).

(** ** [Time.Year], [Time.Month] and [Time.Day], in UTC

    The days are counted from the first of March of year 0, so that a leap day is the last
    of its year; [era] is one of 400 years, of 146097 days. *)
Definition civil (days : Z) : Z * Z * Z :=
  let z := days + 719468 in
  let era := z / 146097 in
  let doe := z mod 146097 in
  let yoe := (doe - doe / 1460 + doe / 36524 - doe / 146096) / 365 in
  let doy := doe - (365 * yoe + yoe / 4 - yoe / 100) in
  let mp := (5 * doy + 2) / 153 in
  let day := doy - (153 * mp + 2) / 5 + 1 in
  let month := if mp <? 10 then mp + 3 else mp - 9 in
  (yoe + era * 400 + (if month <=? 2 then 1 else 0), month, day).

(** In [uint32]. *)
Definition TimeToDateV4 (t : Z) : Date :=
  let '(year, month, day) := civil (t / DayLength) in
  {| Year := uwrap 32 year; Month := uwrap 32 month; Day := uwrap 32 day |}.

#[global] Instance Date_eq_dec : EqDecision Date.
Proof. solve_decision. Defined.

(** ** The price of a stay *)

Definition DefaultPricePerNight : Z := 10533.
(** In [int64]. *)
Definition unitPrice (duration : Z) : Z := swrap 64 (DefaultPricePerNight * duration).

(** ** Lemmas *)

Lemma DateV4ToTime_days date : ∃ n, DateV4ToTime date = n * DayLength.
Proof. eexists. reflexivity. Qed.

Lemma DaysBetween_days e s a b :
  DateV4ToTime e = a * DayLength → DateV4ToTime s = b * DayLength → 0 ≤ a - b ≤ 106751 →
  DaysBetweenDatesV4 e s = a - b.
Proof.
  intros He Hs Hab. unfold DaysBetweenDatesV4. rewrite He, Hs.
  replace (timeSub (a * DayLength) (b * DayLength)) with ((a - b) * DayLength).
  - by rewrite Z.quot_mul.
  - unfold timeSub, MinInt64, MaxInt64, DayLength, Hour, Minute, Second in *. lia.
Qed.

Lemma allowed_bounds now period :
  IsTravelPeriodAllowedV4WithTime now (Some period) = Ok true ↔
  Truncate now + DayLength ≤ DateV4ToTime (StartDate period) ∧
  DateV4ToTime (StartDate period) < DateV4ToTime (EndDate period) ≤ Truncate now + 61 * DayLength.
Proof.
  unfold IsTravelPeriodAllowedV4WithTime, TravelPeriodMinStartOffset, TravelPeriodMaxDuration. simpl.
  replace (Truncate now + DayLength + 60 * DayLength) with (Truncate now + 61 * DayLength) by lia.
  split.
  - intros [= H]. apply andb_true_iff in H as [[H1%negb_true_iff H2%negb_true_iff]%andb_true_iff H3].
    lia.
  - intros H. f_equal. rewrite !andb_true_iff, !negb_true_iff. lia.
Qed.

(** ** Properties *)

(** C37: a travel period that is allowed lasts between 1 and 60 nights, which is what the
    mock counts, begins after the day of the request, and ends at most 61 days from it;
    so the price of the stay is the price of its nights, in the range of its integer. *)
Theorem travel_period_bounds now period :
  IsTravelPeriodAllowedV4WithTime now (Some period) = Ok true →
  let nights := DaysBetweenDatesV4 (EndDate period) (StartDate period) in
  1 ≤ nights ≤ 60 ∧
  DateV4ToTime (EndDate period) = DateV4ToTime (StartDate period) + nights * DayLength ∧
  now < DateV4ToTime (StartDate period) ∧ DateV4ToTime (EndDate period) ≤ now + 61 * DayLength ∧
  unitPrice nights = DefaultPricePerNight * nights.
Proof.
  intros [H1 [H2 H3]]%allowed_bounds nights.
  destruct (DateV4ToTime_days (StartDate period)) as [a Ha], (DateV4ToTime_days (EndDate period)) as [b Hb].
  assert (a < b ≤ a + 60) as Hab.
  { rewrite Ha, Hb in *. unfold Truncate, DayLength, Hour, Minute, Second in *. lia. }
  assert (nights = b - a) as En by (apply DaysBetween_days; [done|done|lia]).
  assert (0 < DayLength) as Hd by done.
  pose proof (Z.div_mod now DayLength). pose proof (Z.mod_pos_bound now DayLength Hd).
  rewrite En, Ha, Hb in *. unfold Truncate in *. split_and!; try lia.
  unfold unitPrice, DefaultPricePerNight. apply swrap_small; [lia|]. unfold in_sint. simpl. lia.
Qed.

Lemma travel_period_bounds_witness :
  DaysBetweenDatesV4 (Some {| Year := 2026; Month := 3; Day := 2 |})
    (Some {| Year := 2026; Month := 2; Day := 27 |}) = 3 ∧
  1 ≤ DaysBetweenDatesV4 (Some {| Year := 2026; Month := 3; Day := 2 |})
    (Some {| Year := 2026; Month := 2; Day := 27 |}) ≤ 60.
Proof.
  split; [vm_compute; reflexivity|].
  apply (travel_period_bounds (time_Date 2026 2 20 + 5)
    {| StartDate := Some {| Year := 2026; Month := 2; Day := 27 |};
       EndDate := Some {| Year := 2026; Month := 3; Day := 2 |} |}).
  vm_compute. reflexivity.
Defined.

Example epoch : time_Date 1970 1 1 = 0.
Proof. reflexivity. Qed.
Example leap_day : time_Date 2024 2 30 = time_Date 2024 3 1 ∧ time_Date 2023 14 29 = time_Date 2024 2 29.
Proof. split; reflexivity. Qed.
Example new_year : time_Date 2026 1 1 = 1767225600 * Second.
Proof. reflexivity. Qed.
Example today : TimeToDateV4 (time_Date 2024 2 29 + 5 * Hour) = {| Year := 2024; Month := 2; Day := 29 |} ∧
  TimeToDateV4 (time_Date 2025 12 31) = {| Year := 2025; Month := 12; Day := 31 |} ∧
  TimeToDateV4 (time_Date 2100 3 1 - 1) = {| Year := 2100; Month := 2; Day := 28 |}.
Proof. repeat split; reflexivity. Qed.
