(* ===== verification/MockSearch.v ===== *)
(** * Searches in the partner plugin mock (src/pp-mock/handlers)

    The searches of accommodations, activities and trips in protocol versions 4 and 5: the
    filters on the data of the mock ([MockData]), the prices and cancellation penalties of
    the results, and what the store remembers of them for the validation ([MockBooking]).
    What the handlers only copy, a room or the description of an activity, is a type of its
    own; codes are compared with [proto.Equal]. *)
From S2P Require Import Prelude Decimal Conversion Price Mint MockPrice MockDates MockBooking.
From stdpp Require Import gmap relations.

#[local] Open Scope Z_scope.
#[local] Arguments String.append : simpl nomatch.

(** ** The prices of a protocol version *)

Class PriceVersion (P : Type) := {
  mkPrice : string → Z → option CurrencyV4 → P;
  get_Value : P → string;
  get_Decimals : P → Z;
  get_Currency : P → option CurrencyV4;
  ToUnifiedPrice : option P → outcome UnifiedPrice;
  ToPrice : UnifiedPrice → P;
  get_make v d c : get_Value (mkPrice v d c) = v ∧ get_Decimals (mkPrice v d c) = d ∧
    get_Currency (mkPrice v d c) = c;
  make_get p : mkPrice (get_Value p) (get_Decimals p) (get_Currency p) = p;
  (** A price with a currency that the form of the mock can hold is kept. *)
  kept_price p c : get_Currency p = Some c → holds_V4 c →
    ∃ u, ToUnifiedPrice (Some p) = Ok u ∧ ToPrice u = p
}.

#[global] Instance PriceVersion4 : PriceVersion PriceV4.
Proof.
  refine {| mkPrice v d c := {| v4_Value := v; v4_Decimals := d; v4_Currency := c |};
            get_Value := v4_Value; get_Decimals := v4_Decimals; get_Currency := v4_Currency;
            ToUnifiedPrice := PriceV4ToUnifiedPrice; ToPrice := ToPriceV4 |}.
  - done.
  - by intros [].
  - intros p c Hp Hc.
    destruct (ExtractCurrency_unified (v4_Value p) (v4_Decimals p) c Hc) as (n & i & t & E & Ec).
    eexists. split; [by apply E|]. unfold ToPriceV4. rewrite Ec. destruct p. simpl in *. congruence.
Defined.

#[global] Instance PriceVersion5 : PriceVersion PriceV5.
Proof.
  refine {| mkPrice v d c := {| v5_Value := v; v5_Decimals := d; v5_Currency := c |};
            get_Value := v5_Value; get_Decimals := v5_Decimals; get_Currency := v5_Currency;
            ToUnifiedPrice := PriceV5ToUnifiedPrice; ToPrice := ToPriceV5 |}.
  - done.
  - by intros [].
  - intros p c Hp Hc.
    destruct (ExtractCurrency_unified (v5_Value p) (v5_Decimals p) c Hc) as (n & i & t & E & Ec).
    specialize (E (v4_of_v5 p) Hp). eexists. split; [exact E|].
    unfold ToPriceV5, v4_of_v5. rewrite (proj1 (ExtractCurrency_versions _)). simpl. rewrite Ec.
    destruct p. simpl in *. congruence.
Defined.

(** ** Filters (handlers/accommodation/v4, v5/filters.go and handlers/activity/v4, v5/filters.go)

    They copy what they keep, so the data of the mock is never changed. *)

(** A loop that keeps what passes a test, which may panic. *)
Fixpoint filterO {A} (f : A → outcome bool) (l : list A) : outcome (list A) :=
  match l with
  | [] => Ok []
  | a :: l => keep ← f a; rest ← filterO f l; Ok (if keep : bool then a :: rest else rest)
  end.

Record GeoTree := { Country : Z; Region : string; CityOrResort : string }.
Definition COUNTRY_UNSPECIFIED : Z := 0.

Section Filters.
Context {ProductCode SupplierProductCode Room : Type}.
Context `{!EqDecision ProductCode, !EqDecision SupplierProductCode}.

(** The contact has a list of addresses, of which only the first is looked at. *)
Record Property := {
  ProductCodes : list ProductCode;
  prop_SupplierCode : SupplierProductCode;
  ContactInfo : option (list (option GeoTree));
  LastModified : Z
}.
Record PropertyExtendedInfo := { prop_Property : Property; Rooms : list Room }.

Definition filterExtendedPropertiesByProductCodes (properties : list PropertyExtendedInfo)
    (productCodes : list ProductCode) : list PropertyExtendedInfo :=
  if is_empty productCodes then properties else
  List.filter (λ prop, existsb (λ code,
    existsb (λ propCode, bool_decide (propCode = code)) (ProductCodes (prop_Property prop)))
    productCodes) properties.

Definition filterExtendedPropertiesBySupplierCodes (properties : list PropertyExtendedInfo)
    (supplierCodes : list SupplierProductCode) : list PropertyExtendedInfo :=
  if is_empty supplierCodes then properties else
  List.filter (λ prop, existsb (λ code, bool_decide (prop_SupplierCode (prop_Property prop) = code))
    supplierCodes) properties.

(** What is asked of the place, and whether an address is there. *)
Definition anywhere (geoTreeLocation : option GeoTree) : bool :=
  match geoTreeLocation with
  | None => true
  | Some g => bool_decide (CityOrResort g = "") && bool_decide (Region g = "") &&
              (Country g =? COUNTRY_UNSPECIFIED)
  end.
Definition located (geoTreeLocation address : option GeoTree) : bool :=
  match geoTreeLocation, address with
  | Some g, Some a =>
      (bool_decide (CityOrResort g = "") || bool_decide (CityOrResort a = CityOrResort g)) &&
      ((Country g =? COUNTRY_UNSPECIFIED) || (Country a =? Country g)) &&
      (bool_decide (Region g = "") || bool_decide (Region a = Region g))
  | _, _ => false
  end.

(** Version 5 passes over a property without an address, version 4 panics. *)
Definition filterExtendedPropertiesByGeoTreeLocationV5 (properties : list PropertyExtendedInfo)
    (geoTreeLocation : option GeoTree) : list PropertyExtendedInfo :=
  if anywhere geoTreeLocation then properties else
  List.filter (λ prop,
    match ContactInfo (prop_Property prop) with
    | Some (address :: _) => located geoTreeLocation address
    | _ => false
    end) properties.

Definition locatedV4 (geoTreeLocation : option GeoTree) (prop : PropertyExtendedInfo) : outcome bool :=
  addresses ← deref (ContactInfo (prop_Property prop));
  match addresses with
  | [] => Panic "index out of range"
  | address :: _ => Ok (located geoTreeLocation address)
  end.
Definition filterExtendedPropertiesByGeoTreeLocationV4 (properties : list PropertyExtendedInfo)
    (geoTreeLocation : option GeoTree) : outcome (list PropertyExtendedInfo) :=
  if anywhere geoTreeLocation then Ok properties
  else filterO (locatedV4 geoTreeLocation) properties.
End Filters.
Arguments Property : clear implicits.
Arguments PropertyExtendedInfo : clear implicits.

(** ** The results of an accommodation search *)

Record CancelPenalty (P : Type) := { pen_Start : Timestamp; pen_End : Timestamp; pen_Value : P }.
Arguments pen_Start {P} _.
Arguments pen_End {P} _.
Arguments pen_Value {P} _.

(** A unit has the room, the dates, the travellers and the price of the request, and the
    placeholder of a service with its price. *)
Record Unit (Room MealPlan P : Type) := {
  unit_Room : Room;
  unit_TravelPeriod : Date * Date;
  unit_TravellerIds : list Z;
  unit_Price : P;
  unit_ServicePrice : P;
  unit_MealPlan : option MealPlan
}.
Arguments unit_Room {Room MealPlan P} _.
Arguments unit_Price {Room MealPlan P} _.
Arguments unit_ServicePrice {Room MealPlan P} _.

Record AccommodationSearchResult (Room MealPlan P : Type) := {
  res_ResultId : Z;
  res_TotalPrice : P;
  res_CancelPenalties : list (CancelPenalty P);
  res_Unit : Unit Room MealPlan P
}.
Arguments res_ResultId {Room MealPlan P} _.
Arguments res_TotalPrice {Room MealPlan P} _.
Arguments res_CancelPenalties {Room MealPlan P} _.
Arguments res_Unit {Room MealPlan P} _.

Section Results.
Context {Room MealPlan P : Type} `{!PriceVersion P}.
Variable cfg : settings.

(** The three penalties: none until a week before the start, a tenth until the start, all
    from then on. *)
Definition cancelPenalties (now startDateTime endDateTime penaltyBaseValue : Z) (price : P)
    : list (CancelPenalty P) :=
  (if now + FreeCancellationDuration <? startDateTime then
     [{| pen_Start := timestamp_New now;
         pen_End := timestamp_New (startDateTime - FreeCancellationDuration);
         pen_Value := mkPrice "0" (get_Decimals price) (get_Currency price) |}]
   else []) ++
  [{| pen_Start := {| Seconds := Z.max (Unix (startDateTime - FreeCancellationDuration)) (Unix now);
                      Nanos := 0 |};
      pen_End := timestamp_New startDateTime;
      pen_Value := mkPrice (pretty (Z.quot penaltyBaseValue 10)) (get_Decimals price) (get_Currency price) |};
   {| pen_Start := timestamp_New startDateTime; pen_End := timestamp_New endDateTime;
      pen_Value := price |}].

(** The price that is stored for the validation, and the one that is shown. *)
Definition normalized (price : P) : outcome (UnifiedPrice * P) :=
  validationPrice ← ToUnifiedPrice (Some price);
  if RealisticPriceEnabled cfg then
    let validationPrice := NormalizeRealistic cfg validationPrice in
    Ok (validationPrice, ToPrice validationPrice)
  else Ok (validationPrice, price).

Definition searchRoom (now : Z) (startDate endDate : Date) (currency : option CurrencyV4)
    (travellerIds : list Z) (mealPlan : option MealPlan) (room : Room) (resultID : Z)
    : outcome (AccommodationSearchResult Room MealPlan P * UnifiedPrice) :=
  let startDateTime := DateV4ToTime (Some startDate) in
  let endDateTime := DateV4ToTime (Some endDate) in
  let unitPriceValue := unitPrice (DaysBetweenDatesV4 (Some endDate) (Some startDate)) in
  '(validationPrice, price) ← normalized (mkPrice (pretty unitPriceValue) 0 currency);
  servicePrice ← (if RealisticPriceEnabled cfg
    then snd <$> normalized (mkPrice "100" 0 currency) else Ok (mkPrice "100" 0 currency));
  let penaltyBaseValue :=
    if RealisticPriceEnabled cfg then default unitPriceValue (SetString10 (get_Value price))
    else unitPriceValue in
  Ok ({| res_ResultId := resultID; res_TotalPrice := price;
         res_CancelPenalties := cancelPenalties now startDateTime endDateTime penaltyBaseValue price;
         res_Unit := {| unit_Room := room; unit_TravelPeriod := (startDate, endDate);
                        unit_TravellerIds := travellerIds; unit_Price := price;
                        unit_ServicePrice := servicePrice; unit_MealPlan := mealPlan |} |},
      validationPrice).

(** All rooms of all properties, numbered from [resultID] on in [uint32]; [meal] is how the
    version takes the meal plan of a room. *)
Fixpoint searchRooms (now : Z) (startDate endDate : Date) (currency : option CurrencyV4)
    (travellerIds : list Z) (meal : Room → outcome (option MealPlan)) (rooms : list Room) (resultID : Z)
    : outcome (list (AccommodationSearchResult Room MealPlan P) * list UnifiedPrice) :=
  match rooms with
  | [] => Ok ([], [])
  | room :: rooms =>
      mealPlan ← meal room;
      '(result, validationPrice) ←
        searchRoom now startDate endDate currency travellerIds mealPlan room resultID;
      '(results, validationPrices) ←
        searchRooms now startDate endDate currency travellerIds meal rooms (uwrap 32 (resultID + 1));
      Ok (result :: results, validationPrice :: validationPrices)
  end.
End Results.

(** ** Accommodation search (handlers/accommodation/v4, v5/accommodation_search.go) *)

Section Accommodation.
Context {ProductCode SupplierProductCode Room MealPlan : Type}.
Context `{!EqDecision ProductCode, !EqDecision SupplierProductCode}.
Context {X : Type} `{!Others X}.
Variable cfg : settings.
Variable MealPlans : Room → list MealPlan.

Record AccommodationSearchRequest := {
  SearchParameters : option (option CurrencyV4);            (* with their currency *)
  req_TravelPeriod : option TravelPeriod;
  LocationGeoTree : option GeoTree;
  req_ProductCodes : list ProductCode;
  req_SupplierCodes : list SupplierProductCode;
  Travellers : list Z
}.

Inductive AccommodationSearchResponse (P : Type) :=
  | Search_SuccessResponse (alerts : list string) (SearchId : ExpiringUUID)
      (Results : list (AccommodationSearchResult Room MealPlan P)) (Travellers : list Z)
  | Search_ErrorResponse (errors : list (ErrorCode * string)).
Arguments Search_SuccessResponse {P} _ _ _ _.
Arguments Search_ErrorResponse {P} _.

Variable request_String : AccommodationSearchRequest → string.
Variable TravelPeriodErrorStr : string.

Section Version.
Context {P : Type} `{!PriceVersion P}.
Variable response_String : AccommodationSearchResponse P → string.

(** A response with results is remembered, for the prices of its results. *)
Definition remember (req : AccommodationSearchRequest) (now : Z)
    (results : list (AccommodationSearchResult Room MealPlan P)) (validationPrices : list UnifiedPrice)
    : M X (AccommodationSearchResponse P) :=
  searchId ← NewExpiringUUIDWithTime now;
  if is_empty results then
    retS (Search_SuccessResponse (AddHeaderAlertV4 SuccessHeaderV4 "No results found") searchId results
      (Travellers req))
  else
    let resp := Search_SuccessResponse SuccessHeaderV4 searchId results (Travellers req) in
    writing (AddSearchResult (Id searchId) {|
      NumResults := Z.of_nat (length results); NumTravelers := Z.of_nat (length (Travellers req));
      SeatMapID := ""; Prices := validationPrices;
      s_JSONRequest := request_String req; s_JSONResponse := response_String resp |}) ;;
    retS resp.

(** From the filtered properties on, in both versions. *)
Definition searchProperties (req : AccommodationSearchRequest) (now : Z) (startDate endDate : option Date)
    (currency : option CurrencyV4) (meal : Room → outcome (option MealPlan))
    (filteredProps : list (PropertyExtendedInfo ProductCode SupplierProductCode Room))
    : M X (AccommodationSearchResponse P) :=
  let date d := default {| Year := 0; Month := 0; Day := 0 |} d in
  '(results, validationPrices) ← liftO (searchRooms cfg now (date startDate) (date endDate) currency
    (Travellers req) meal (concat (Rooms <$> filteredProps)) 0);
  remember req now results validationPrices.
End Version.

Definition searchError {P} (message : string) : AccommodationSearchResponse P :=
  Search_ErrorResponse (ErrorHeaderV4 ERROR_CODE_BUSINESS_PROCESS_ERROR message).

Definition AccommodationSearchV5 (PropertiesV5 : list (PropertyExtendedInfo ProductCode SupplierProductCode Room))
    (text : AccommodationSearchResponse PriceV5 → string) (req : AccommodationSearchRequest)
    : M X (AccommodationSearchResponse PriceV5) :=
  now ← time_Now;
  match SearchParameters req with
  | Some (Some currency) =>
      match req_TravelPeriod req with
      | Some {| StartDate := Some startDate; EndDate := Some endDate |} =>
          allowed ← liftO (IsTravelPeriodAllowedV4WithTime now (req_TravelPeriod req));
          if negb allowed then retS (searchError TravelPeriodErrorStr) else
          let filteredProps := filterExtendedPropertiesByGeoTreeLocationV5 PropertiesV5 (LocationGeoTree req) in
          let filteredProps := filterExtendedPropertiesByProductCodes filteredProps (req_ProductCodes req) in
          let filteredProps := filterExtendedPropertiesBySupplierCodes filteredProps (req_SupplierCodes req) in
          searchProperties text req now (Some startDate) (Some endDate) (Some currency)
            (λ room, Ok (head (MealPlans room))) filteredProps
      | _ => retS (searchError "travel_period (start_date and end_date) is required")
      end
  | _ => retS (searchError "search_parameters.currency is required")
  end.

(** Version 4 has no such checks: it looks at the currency when there is a room. *)
Definition AccommodationSearchV4 (PropertiesV4 : list (PropertyExtendedInfo ProductCode SupplierProductCode Room))
    (text : AccommodationSearchResponse PriceV4 → string) (req : AccommodationSearchRequest)
    : M X (AccommodationSearchResponse PriceV4) :=
  now ← time_Now;
  period ← liftO (deref (req_TravelPeriod req));
  allowed ← liftO (IsTravelPeriodAllowedV4WithTime now (req_TravelPeriod req));
  if negb allowed then retS (searchError TravelPeriodErrorStr) else
  filteredProps ← liftO (filterExtendedPropertiesByGeoTreeLocationV4 PropertiesV4 (LocationGeoTree req));
  let filteredProps := filterExtendedPropertiesByProductCodes filteredProps (req_ProductCodes req) in
  let filteredProps := filterExtendedPropertiesBySupplierCodes filteredProps (req_SupplierCodes req) in
  currency ← liftO (if is_empty (concat (Rooms <$> filteredProps)) then Ok None
                    else deref (SearchParameters req));
  searchProperties text req now (StartDate period) (EndDate period) currency
    (λ room, match MealPlans room with [] => Panic "index out of range" | m :: _ => Ok (Some m) end)
    filteredProps.
End Accommodation.
Arguments AccommodationSearchRequest : clear implicits.
Arguments Search_SuccessResponse {Room MealPlan P} _ _ _ _.
Arguments Search_ErrorResponse {Room MealPlan P} _.

(** ** Activity search (handlers/activity/v4, v5/activity_search.go) *)

Section Activity.
Context {SupplierProductCode D : Type} `{!EqDecision SupplierProductCode}.
Context {P : Type} `{!PriceVersion P}.

(** Every activity of the data has a price. *)
Record ActivitySearchResult := {
  act_ResultId : Z;
  act_SupplierCode : SupplierProductCode;
  ServiceCode : string;
  act_TotalPrice : P;
  act_SeatMapId : option string;
  act_rest : D
}.

Definition filterSearchResultActivitiesBySupplierCodes (activities : list ActivitySearchResult)
    (supplierCodes : list SupplierProductCode) : list ActivitySearchResult :=
  if is_empty supplierCodes then activities else
  List.filter (λ activity, existsb (λ code, bool_decide (act_SupplierCode activity = code)) supplierCodes)
    activities.
Definition filterSearchResultActivitiesByServiceCodes (activities : list ActivitySearchResult)
    (serviceCodes : list string) : list ActivitySearchResult :=
  if is_empty serviceCodes then activities else
  List.filter (λ activity, existsb (λ code, bool_decide (ServiceCode activity = code)) serviceCodes)
    activities.
Definition filterSearchResultActivitiesByCurrencyV4 (activities : list ActivitySearchResult)
    (currency : option CurrencyV4) : list ActivitySearchResult :=
  List.filter (λ activity, bool_decide (get_Currency (act_TotalPrice activity) = currency)) activities.
(** Without a currency version 5 keeps all. *)
Definition filterSearchResultActivitiesByCurrencyV5 (activities : list ActivitySearchResult)
    (currency : option CurrencyV4) : list ActivitySearchResult :=
  match currency with
  | None => activities
  | Some _ => List.filter (λ activity, bool_decide (get_Currency (act_TotalPrice activity) = currency)) activities
  end.

Variable cfg : settings.

Definition priced (activity : ActivitySearchResult) (resultID : Z) (price : P) : ActivitySearchResult := {|
  act_ResultId := resultID; act_SupplierCode := act_SupplierCode activity;
  ServiceCode := ServiceCode activity; act_TotalPrice := price;
  act_SeatMapId := act_SeatMapId activity; act_rest := act_rest activity |}.

Fixpoint numberActivities (activities : list ActivitySearchResult) (resultID : Z)
    : outcome (list ActivitySearchResult * list UnifiedPrice) :=
  match activities with
  | [] => Ok ([], [])
  | activity :: activities =>
      '(validationPrice, price) ← normalized cfg (act_TotalPrice activity);
      '(results, validationPrices) ← numberActivities activities (uwrap 32 (resultID + 1));
      Ok (priced activity resultID price :: results, validationPrice :: validationPrices)
  end.

Record ActivitySearchRequest := {
  asr_Currency : option (option CurrencyV4);
  asr_TravelPeriod : option TravelPeriod;
  asr_SupplierCodes : list SupplierProductCode;
  asr_ServiceCodes : list string;
  asr_Travellers : list Z
}.
Inductive ActivitySearchResponse :=
  | Activity_SuccessResponse (alerts : list string) (SearchId : ExpiringUUID)
      (Results : list ActivitySearchResult) (Travellers : list Z)
  | Activity_ErrorResponse (errors : list (ErrorCode * string)).

Context {X : Type} `{!Others X}.
Variable request_String : ActivitySearchRequest → string.
Variable response_String : ActivitySearchResponse → string.
Variable TravelPeriodErrorStr : string.
Variable activities : list ActivitySearchResult.

Definition activityError (message : string) : ActivitySearchResponse :=
  Activity_ErrorResponse (ErrorHeaderV4 ERROR_CODE_BUSINESS_PROCESS_ERROR message).

(** From the filters on, in both versions. *)
Definition searchActivities (req : ActivitySearchRequest)
    (by_currency : list ActivitySearchResult → list ActivitySearchResult) : M X ActivitySearchResponse :=
  let filteredActivities := filterSearchResultActivitiesBySupplierCodes activities (asr_SupplierCodes req) in
  let filteredActivities := filterSearchResultActivitiesByServiceCodes filteredActivities (asr_ServiceCodes req) in
    '(results, validationPrices) ← liftO (numberActivities (by_currency filteredActivities) 0);
  searchId ← NewExpiringUUID;
  match results with
  | [] =>
      retS (Activity_SuccessResponse (AddHeaderAlertV4 SuccessHeaderV4 "No results found for search")
        searchId results (asr_Travellers req))
  | first :: _ =>
      let resp := Activity_SuccessResponse SuccessHeaderV4 searchId results (asr_Travellers req) in
      writing (AddSearchResult (Id searchId) {|
        NumResults := Z.of_nat (length results); NumTravelers := Z.of_nat (length (asr_Travellers req));
        SeatMapID := default "" (act_SeatMapId first); Prices := validationPrices;
        s_JSONRequest := request_String req; s_JSONResponse := response_String resp |}) ;;
      retS resp
  end.

Definition IsTravelPeriodAllowedV4 (travelPeriod : option TravelPeriod) : M X bool :=
  now ← time_Now; liftO (IsTravelPeriodAllowedV4WithTime now travelPeriod).

Definition ActivitySearchV5 (req : ActivitySearchRequest) : M X ActivitySearchResponse :=
  match asr_Currency req with
  | Some (Some currency) =>
      match asr_TravelPeriod req with
      | Some {| StartDate := Some _; EndDate := Some _ |} =>
          allowed ← IsTravelPeriodAllowedV4 (asr_TravelPeriod req);
          if negb allowed then retS (activityError TravelPeriodErrorStr)
          else searchActivities req
            (λ l, filterSearchResultActivitiesByCurrencyV5 l (Some currency))
      | _ => retS (activityError "travel_period (start_date and end_date) is required")
      end
  | _ => retS (activityError "search_parameters.currency is required")
  end.

(** Version 4 leaves the checks of the request to the validation of the message. *)
Definition ActivitySearchV4 (req : ActivitySearchRequest) : M X ActivitySearchResponse :=
  allowed ← IsTravelPeriodAllowedV4 (asr_TravelPeriod req);
  if negb allowed then retS (activityError TravelPeriodErrorStr) else
  currency ← liftO (deref (asr_Currency req));
  searchActivities req (λ l, filterSearchResultActivitiesByCurrencyV4 l currency).
End Activity.
Arguments ActivitySearchRequest : clear implicits.

(** ** Transport search (handlers/transport/v4, v5)

    A trip of the data has the basic and the extended form, with the same supplier code and
    as many segments (services/data/transport); what both have is here once. *)

Section Transport.
Context {SupplierProductCode LocationCode Traveller D : Type}.
Context `{!EqDecision SupplierProductCode, !EqDecision LocationCode, !EqDecision Traveller}.
Context {P : Type} `{!PriceVersion P}.

Record Segment := {
  seg_Departure : Z;                      (* instants *)
  seg_Arrival : Z;
  seg_DepartureLocation : option LocationCode;
  seg_ArrivalLocation : option LocationCode;
  seg_SeatMapId : option string
}.
Record Trip := {
  trip_SupplierCode : SupplierProductCode;
  trip_Segments : list Segment;
  trip_Price : P;
  trip_rest : D
}.

(** The locations of a query are nil when it has another way to say where. *)
Record QueryTrip := {
  q_DepartureDate : option Date;
  q_ArrivalDate : option Date;
  q_DepartureCodes : option (list LocationCode);
  q_ArrivalCodes : option (list LocationCode);
  q_Parameters : option (list SupplierProductCode * Z)    (* codes and MaxSegments *)
}.
Record Query := { QueryId : Z; q_Travellers : list Traveller; q_Trips : list QueryTrip }.

Definition filterTripsBySupplierCodes (trips : list Trip) (supplierCodes : list SupplierProductCode)
    : list Trip :=
  if is_empty supplierCodes then trips else
  List.filter (λ trip, existsb (λ code, bool_decide (trip_SupplierCode trip = code)) supplierCodes) trips.
Definition filterTripsByMaxSegments (trips : list Trip) (maxSegments : Z) : list Trip :=
  if maxSegments =? 0 then trips else
  List.filter (λ trip, Z.of_nat (length (trip_Segments trip)) <=? maxSegments) trips.

(** What becomes of a trip without segments: version 5 passes over it, version 4 panics. *)
Variable no_segments : outcome bool.

Definition filterTripsByDates (trips : list Trip) (query : QueryTrip) : outcome (list Trip) :=
  filterO (λ trip,
    match trip_Segments trip, last (trip_Segments trip) with
    | first :: _, Some last =>
        Ok (bool_decide (Some (TimeToDateV4 (seg_Departure first)) = q_DepartureDate query) &&
            bool_decide (Some (TimeToDateV4 (seg_Arrival last)) = q_ArrivalDate query))
    | _, _ => no_segments
    end) trips.

Definition filterTripsByLocations (trips : list Trip) (query : QueryTrip) : outcome (list Trip) :=
  filterO (λ trip,
    match trip_Segments trip, last (trip_Segments trip) with
    | first :: _, Some last =>
        departures ← deref (q_DepartureCodes query);
        if negb (existsb (λ code, bool_decide (Some code = seg_DepartureLocation first)) departures)
        then Ok false
        else
          arrivals ← deref (q_ArrivalCodes query);
          Ok (existsb (λ code, bool_decide (Some code = seg_ArrivalLocation last)) arrivals)
    | _, _ => no_segments
    end) trips.

Definition filterTripsByCurrency (trips : list Trip) (currency : option CurrencyV4) : list Trip :=
  match currency with
  | None => trips
  | Some _ => List.filter (λ trip, bool_decide (get_Currency (trip_Price trip) = currency)) trips
  end.

(** The filters of every trip of the query, one after the other on the same list. *)
Fixpoint filterTrips (trips : list Trip) (queryTrips : list QueryTrip) : outcome (list Trip) :=
  match queryTrips with
  | [] => Ok trips
  | queryTrip :: queryTrips =>
      trips ← filterTripsByDates trips queryTrip;
      trips ← filterTripsByLocations trips queryTrip;
      match q_Parameters queryTrip with
      | None => filterTrips trips queryTrips
      | Some (supplierCodes, maxSegments) =>
          let trips := filterTripsBySupplierCodes trips supplierCodes in
          filterTrips (filterTripsByMaxSegments trips maxSegments) queryTrips
      end
  end.

(** [big.Int] does not overflow. *)
Fixpoint totalPrice (currencyDecimals : Z) (trips : list Trip) : outcome Z :=
  match trips with
  | [] => Ok 0
  | trip :: trips =>
      decimals ← MustUInt32ToInt32 (get_Decimals (trip_Price trip));
      tripPrice ← ToBigInt (get_Value (trip_Price trip)) decimals currencyDecimals;
      total ← totalPrice currencyDecimals trips;
      Ok (tripPrice + total)
  end.

Record TransportSearchResult := {
  tr_ResultId : Z;
  tr_QueryId : Z;
  tr_TravellerIds : list Z;
  tr_TravellingTrips : list Trip;
  tr_TotalPrice : P
}.

Variable cfg : settings.
Variable TravellerId : Traveller → Z.

Fixpoint searchQueries (tripsFilteredByCurrency : list Trip) (currency : CurrencyV4) (currencyDecimals : Z)
    (queries : list Query) (resultID : Z) : outcome (list TransportSearchResult * list UnifiedPrice) :=
  match queries with
  | [] => Ok ([], [])
  | query :: queries =>
      filteredTrips ← filterTrips tripsFilteredByCurrency (q_Trips query);
      if is_empty filteredTrips
      then searchQueries tripsFilteredByCurrency currency currencyDecimals queries resultID
      else
        total ← totalPrice currencyDecimals filteredTrips;
        decimals ← MustInt32ToUInt32 currencyDecimals;
        '(validationPrice, price) ← normalized cfg (mkPrice (pretty total) decimals (Some currency));
        '(results, validationPrices) ←
          searchQueries tripsFilteredByCurrency currency currencyDecimals queries (uwrap 32 (resultID + 1));
        Ok ({| tr_ResultId := resultID; tr_QueryId := QueryId query;
               tr_TravellerIds := TravellerId <$> q_Travellers query;
               tr_TravellingTrips := filteredTrips; tr_TotalPrice := price |} :: results,
            validationPrice :: validationPrices)
  end.

Record TransportSearchRequest := {
  ts_Currency : option (option CurrencyV4);
  Queries : list Query
}.
Inductive TransportSearchResponse :=
  | Transport_SuccessResponse (alerts : list string) (SearchId : ExpiringUUID)
      (Results : list TransportSearchResult)
  | Transport_ErrorResponse (errors : list (ErrorCode * string)).
Definition errSearchResp (code : ErrorCode) (message : string) : TransportSearchResponse :=
  Transport_ErrorResponse (ErrorHeaderV4 code message).

(** Every query with every later one. *)
Fixpoint sameTravellers (queries : list Query) : bool :=
  match queries with
  | [] => true
  | query :: queries =>
      forallb (λ other, bool_decide (q_Travellers query = q_Travellers other)) queries &&
      sameTravellers queries
  end.

(** The first thing that is wrong with the queries, [seen] being the identifiers so far. *)
Fixpoint checkQueries (seen : list Z) (queries : list Query) : option string :=
  match queries with
  | [] => None
  | query :: queries =>
      if existsb (Z.eqb (QueryId query)) seen
      then Some "Unsupported: Duplicate QueryId found in queries"
      else if negb (forallb (λ trip, AreTravelDatesValidV4 (q_DepartureDate trip) (q_ArrivalDate trip))
                      (q_Trips query))
      then Some "Invalid travel dates: departure must be before arrival"
      else checkQueries (QueryId query :: seen) queries
  end.

Definition currencyDecimals (currency : CurrencyV4) : option Z :=
  match currency with
  | CurrencyV4_NativeToken => Some NativeTokenDecimals
  | CurrencyV4_IsoCurrency _ => Some ISODecimals
  | _ => None
  end.

Context {X : Type} `{!Others X}.
Variable request_String : TransportSearchRequest → string.
Variable response_String : TransportSearchResponse → string.
Variable trips : list Trip.

(** The seat map of the first segment of the first trip of the first result. *)
Definition firstSeatMap (results : list TransportSearchResult) : outcome string :=
  first ← deref (head results);
  trip ← deref (head (tr_TravellingTrips first));
  match trip_Segments trip with
  | [] => Panic "index out of range"
  | segment :: _ => Ok (default "" (seg_SeatMapId segment))
  end.

(** The currency is read when the queries have been checked. *)
Definition searchTransport (req : TransportSearchRequest) (currency : outcome CurrencyV4)
    : M X TransportSearchResponse :=
  if negb (sameTravellers (Queries req)) then
    retS (errSearchResp ERROR_CODE_UNIMPLEMENTED
      "Unsupported: Traveller definitions must be identical in all queries")
  else
  match checkQueries [] (Queries req) with
  | Some message => retS (errSearchResp ERROR_CODE_BUSINESS_PROCESS_ERROR message)
  | None =>
      currency ← liftO currency;
      match currencyDecimals currency with
      | None =>
          retS (errSearchResp ERROR_CODE_INVALID_CURRENCY
            "Not supported currency type; only NativeToken and ISOCurrency are supported")
      | Some decimals =>
          orRespond (liftO (searchQueries (filterTripsByCurrency trips (Some currency)) currency decimals
                              (Queries req) 0))
            (λ _, errSearchResp ERROR_CODE_INTERNAL "Failed to convert tripSegment price to big int")
            (λ '(results, validationPrices),
          searchId ← NewExpiringUUID;
          if is_empty results then
            retS (Transport_SuccessResponse (AddHeaderAlertV4 SuccessHeaderV4 "No results found") searchId results)
          else
            let resp := Transport_SuccessResponse SuccessHeaderV4 searchId results in
            seatMapID ← liftO (firstSeatMap results);
            travellers ← liftO (deref (head (Queries req)));
            writing (AddSearchResult (Id searchId) {|
              NumResults := Z.of_nat (length results);
              NumTravelers := Z.of_nat (length (q_Travellers travellers));
              SeatMapID := seatMapID; Prices := validationPrices;
              s_JSONRequest := request_String req; s_JSONResponse := response_String resp |}) ;;
            retS resp)
      end
  end.

Definition TransportSearchV5 (req : TransportSearchRequest) : M X TransportSearchResponse :=
  match ts_Currency req with
  | Some (Some currency) => searchTransport req (Ok currency)
  | _ => retS (errSearchResp ERROR_CODE_BUSINESS_PROCESS_ERROR "search_parameters.currency is required")
  end.
Definition TransportSearchV4 (req : TransportSearchRequest) : M X TransportSearchResponse :=
  searchTransport req (currency ← deref (ts_Currency req); deref currency).
End Transport.
