(* ===== verification/MockOffers.v ===== *)
(** * What the searches of the partner plugin mock promise

    A result that [MockSearch] shows can be validated and minted in [MockBooking] for the
    price it was shown with; the penalties of a cancellation; and what a query of two trips
    finds. *)
From S2P Require Import Prelude Decimal Conversion Price Mint MockPrice MockDates MockBooking MockSearch.
From stdpp Require Import gmap relations.

#[local] Open Scope Z_scope.
#[local] Arguments String.append : simpl nomatch.

(** ** Lemmas *)

Section Facts.
Context {P : Type} `{!PriceVersion P}.
Variable cfg : settings.

(** A currency that the prices of the mock can show: any in realistic mode, where they are
    made anew. *)
Definition showable (currency : option CurrencyV4) : Prop :=
  RealisticPriceEnabled cfg = true ∨ ∃ c, currency = Some c ∧ holds_V4 c.

(** What is stored is what is shown. *)
Lemma normalized_shown price u p :
  normalized cfg price = Ok (u, p) → showable (get_Currency price) → p = ToPrice u.
Proof.
  unfold normalized, showable. intros E Hs. apply obind_Ok in E as (v & Ev & E).
  destruct (RealisticPriceEnabled cfg) eqn:Er; [by simplify_eq/=|]. destruct Hs as [|(c & Hc & Hh)]; [done|].
  destruct (kept_price price c Hc Hh) as (u' & Eu & <-). simplify_eq/=. congruence.
Qed.

(** The identifiers and the prices of the results are those of the list of prices. *)
Definition numbered (results : list (Z * P)) (first : Z) (prices : list UnifiedPrice) : Prop :=
  results = imap (λ i u, (first + Z.of_nat i, ToPrice u)) prices.

Lemma numbered_nil first : numbered [] first [].
Proof. done. Qed.
Lemma numbered_cons results first u prices :
  numbered results (first + 1) prices → numbered ((first, ToPrice u) :: results) first (u :: prices).
Proof.
  unfold numbered. intros ->. simpl. f_equal; [f_equal; lia|]. apply imap_ext.
  intros i v _. unfold compose. f_equal. lia.
Qed.

Lemma next_id n : 0 ≤ n < MaxUint32 → uwrap 32 (n + 1) = n + 1.
Proof. intros Hn. apply uwrap_small. unfold in_uint, MaxUint32 in *. simpl. lia. Qed.

(** One step of a loop that numbers its results. *)
Lemma numbered_step (results : list (Z * P)) prices n price u p :
  normalized cfg price = Ok (u, p) → showable (get_Currency price) → 0 ≤ n < MaxUint32 →
  numbered results (uwrap 32 (n + 1)) prices → numbered ((n, p) :: results) n (u :: prices).
Proof.
  intros E Hs Hn Hr. rewrite next_id in Hr by done. apply normalized_shown in E as ->; [|done].
  by apply numbered_cons.
Qed.

Lemma searchRooms_numbered {Room MealPlan} now s e currency ids
    (meal : Room → outcome (option MealPlan)) rooms n results prices :
  searchRooms (P := P) cfg now s e currency ids meal rooms n = Ok (results, prices) →
  showable currency → 0 ≤ n → n + Z.of_nat (length results) ≤ MaxUint32 →
  numbered ((λ r, (res_ResultId r, res_TotalPrice r)) <$> results) n prices.
Proof.
  intros E Hs. revert n results prices E. induction rooms as [|room rooms IH]; intros n results prices E Hn Hl.
  { by simplify_eq/=. }
  simpl in E. apply obind_Ok in E as (mealPlan & _ & E). apply obind_Ok in E as ([result u] & Er & E).
  apply obind_Ok in E as ([results' prices'] & Ers & E). simplify_eq. simpl in Hl. unfold searchRoom in Er.
  apply obind_Ok in Er as ([u' p] & En & Er). apply obind_Ok in Er as (sp & _ & Er). simplify_eq/=.
  eapply numbered_step; [done| |lia|].
  - by destruct (get_make (pretty (unitPrice (DaysBetweenDatesV4 (Some e) (Some s)))) 0 currency) as (_ & _ & ->).
  - apply IH; [done|rewrite next_id; lia|rewrite next_id; lia].
Qed.
Lemma numberActivities_numbered {C D} (activities : list (ActivitySearchResult (SupplierProductCode := C) (D := D)))
    n results prices :
  numberActivities (P := P) cfg activities n = Ok (results, prices) →
  Forall (λ a, showable (get_Currency (act_TotalPrice a))) activities →
  0 ≤ n → n + Z.of_nat (length results) ≤ MaxUint32 →
  numbered ((λ a, (act_ResultId a, act_TotalPrice a)) <$> results) n prices.
Proof.
  intros E Hs. revert n results prices E.
  induction Hs as [|a activities Ha _ IH]; intros n results prices E Hn Hl; [by simplify_eq/=|].
  simpl in E. apply obind_Ok in E as ([u p] & En & E).
  apply obind_Ok in E as ([results' prices'] & Ers & E). simplify_eq/=.
  eapply numbered_step; [done|done|lia|]. apply IH; [done|rewrite next_id; lia|rewrite next_id; lia].
Qed.

Lemma searchQueries_numbered {C L T D} (no_segments : outcome bool) (id : T → Z) `{!EqDecision C, !EqDecision L}
    (trips : list (Trip (SupplierProductCode := C) (LocationCode := L) (D := D) (P := P))) currency decimals
    (queries : list (Query (Traveller := T))) n results prices :
  searchQueries no_segments cfg id trips currency decimals queries n = Ok (results, prices) →
  showable (Some currency) → 0 ≤ n → n + Z.of_nat (length results) ≤ MaxUint32 →
  numbered ((λ r, (tr_ResultId r, tr_TotalPrice r)) <$> results) n prices.
Proof.
  intros E Hs. revert n results prices E. induction queries as [|q queries IH]; intros n results prices E Hn Hl.
  { by simplify_eq/=. }
  simpl in E. apply obind_Ok in E as (found & _ & E). destruct (is_empty found); [by eapply IH|].
  apply obind_Ok in E as (total & _ & E). apply obind_Ok in E as (d & _ & E).
  apply obind_Ok in E as ([u p] & En & E). apply obind_Ok in E as ([results' prices'] & Ers & E).
  simplify_eq/=. eapply numbered_step; [done| |lia|].
  - by destruct (get_make (pretty total) d (Some currency)) as (_ & _ & ->).
  - apply IH; [done|rewrite next_id; lia|rewrite next_id; lia].
Qed.

(** What a search leaves: under its identifier, and until that expires, the prices of its
    results in their order, and the seat map of the first. *)
Definition offering (sid : ExpiringUUID) (seat : string) (results : list (Z * P)) (w : world) : Prop :=
  Id sid ∈ issued w ∧ Id sid ≠ "" ∧
  ∃ d, searchResults (store w) !! Id sid = Some d ∧ numbered results 0 (Prices (s_Data d)) ∧
    SeatMapID (s_Data d) = seat ∧
    instant (Expiration sid) ≤ s_CreatedAt d + EntryTimeout.

Lemma runs_offer {X B} `{!Others X} `{!OthersLaws X} (k : unit → M X B) sid data results x
    (Q : X → outcome B → Prop) :
  Id sid ∈ issued (world_of x) → Id sid ≠ "" →
  instant (Expiration sid) ≤ clock (world_of x) + EntryTimeout → numbered results 0 (Prices data) →
  (∀ y, offering sid (SeatMapID data) results (world_of y) → runs (k tt) y Q) →
  runs (mbind k (writing (AddSearchResult (Id sid) data))) x Q.
Proof.
  intros Hid Hne He Hn HQ. apply runs_writing. intros w y [Hc Hi]%activities_later Ey. apply HQ.
  split_and!; rewrite ?Ey; simpl; [set_solver|done|]. rewrite lookup_insert_eq. eexists.
  split_and!; [done|done|done|simpl; lia].
Qed.

(** A validation of a result that is still offered. *)
Lemma offer_validated {X} `{!Others X} `{!OthersLaws X} text text' sid seat results i p req w (x : X) :
  offering sid seat results w → rtc activity w (world_of x) →
  clock (world_of (others x)) ≤ instant (Expiration sid) → (i, p) ∈ results →
  Z.of_nat (length results) ≤ MaxUint32 → names req (Id sid) i →
  runs (Validation text ToPrice text' req) x (λ y o, ∃ v,
    o = Ok (ValidationResponse_SuccessResponse v) ∧ vs_TotalPrice v = p ∧ validated ToPrice v (world_of y)).
Proof.
  intros (Hid & _ & d & Hd & Hn & _ & He) Hx Hc Hp Hlen Hreq.
  assert (searchResults (store (world_of (others x))) !! Id sid = Some d) as Hd'.
  { pose proof (rtc_trans _ _ _ Hx (others_active x)) as Hw. apply activities_kept in Hw as [Hk _].
    apply Hk; [done..|lia]. }
  unfold numbered in Hn. subst results. rewrite length_imap in Hlen.
  apply elem_of_lookup_imap in Hp as (j & u & [= -> ->] & Hu). apply lookup_lt_Some in Hu as Hj.
  eapply runs_mono; [apply Validation_spec|]. intros y o Ho. simpl in Ho.
  assert (∀ s r, names req s r → s = Id sid ∧ r = 0 + Z.of_nat j) as Hnames
    by (intros s r [E _]; destruct Hreq as [E' _]; rewrite E' in E; by simplify_eq).
  inversion Ho as [m Hno|m s r Hs Hnone|m s r d' Hs Hd'' Hle|m s r d' Hs Hd'' Hor|v s r d' price Hs Hd'' Hpr Hv Hval];
    subst; try (apply Hnames in Hs as [-> ->]; try congruence; rewrite Hd' in Hd''; simplify_eq).
  - by destruct (Hno _ _ Hreq).
  - lia.
  - lia.
  - exists v. split_and!; [done| |done]. rewrite Hv. f_equal.
    replace (Z.to_nat (0 + Z.of_nat j)) with j in Hpr by lia. congruence.
Qed.
End Facts.

(** Whatever happens to the store meanwhile, until the identifier of the search expires a
    validation of a result succeeds, for the price that was shown. *)
Definition bookable {X} `{!Others X} {P} `{!PriceVersion P} (sid : ExpiringUUID) (results : list (Z * P))
    (w : world) : Prop :=
  ∀ text text' i p req (z : X),
    rtc activity w (world_of z) → clock (world_of (others z)) ≤ instant (Expiration sid) →
    (i, p) ∈ results → names req (Id sid) i →
    runs (Validation text ToPrice text' req) z (λ z' o, ∃ v,
      o = Ok (ValidationResponse_SuccessResponse v) ∧ vs_TotalPrice v = p ∧ validated ToPrice v (world_of z')).

Section Searches.
Context {X : Type} `{!Others X} `{!OthersLaws X}.
Context {P : Type} `{!PriceVersion P}.
Variable cfg : settings.

Lemma offering_bookable sid seat (results : list (Z * P)) w :
  results = [] ∨ offering sid seat results w → Z.of_nat (length results) ≤ MaxUint32 →
  bookable (X := X) sid results w.
Proof.
  intros [->|Ho] Hl text text' i p req z Hz Hc Hp Hn; [by apply elem_of_nil in Hp|].
  by eapply offer_validated.
Qed.

(** How a search ends that remembers its results. *)
Definition offers {R} (found : R → option (ExpiringUUID * string * list (Z * P))) (o : outcome R) (w : world) : Prop :=
  ∀ r sid seat results, o = Ok r → found r = Some (sid, seat, results) →
    Z.of_nat (length results) ≤ MaxUint32 → results = [] ∨ offering sid seat results w.

Lemma offers_none {R} (found : R → option (ExpiringUUID * string * list (Z * P))) r w :
  found r = None → offers found (Ok r) w.
Proof. intros Hr r' sid seat results [= <-]. congruence. Qed.
Lemma offers_failed {R} (found : R → option (ExpiringUUID * string * list (Z * P))) o w :
  (∀ r, o ≠ Ok r) → offers found o w.
Proof. intros Ho r sid seat results E. by destruct (Ho r). Qed.

(** The end of a search with results. *)
Lemma runs_remembered {R} (found : R → option (ExpiringUUID * string * list (Z * P))) sid data results r x :
  Id sid ∈ issued (world_of x) → Id sid ≠ "" →
  instant (Expiration sid) ≤ clock (world_of x) + EntryTimeout →
  found r = Some (sid, SeatMapID data, results) →
  (Z.of_nat (length results) ≤ MaxUint32 → numbered results 0 (Prices data)) →
  runs (writing (AddSearchResult (Id sid) data) ;; retS r) x (λ y o, offers found o (world_of y)).
Proof.
  intros Hid Hne He Hf Hn. destruct (decide (Z.of_nat (length results) ≤ MaxUint32)) as [Hl|Hl].
  - eapply runs_offer with (results := results); [done..|by apply Hn|].
    intros z Hz. apply runs_ret. intros r' sid' seat' results' [= <-]. rewrite Hf. intros [= <- <- <-] _. by right.
  - apply runs_writing. intros w z _ _. apply runs_ret. intros r' sid' seat' results' [= <-]. rewrite Hf.
    by intros [= <- <- <-].
Qed.

Section Accommodation.
Context {C S Room MealPlan : Type} `{!EqDecision C, !EqDecision S}.

Definition found_rooms (r : AccommodationSearchResponse (Room := Room) (MealPlan := MealPlan) P)
    : option (ExpiringUUID * string * list (Z * P)) :=
  match r with
  | Search_SuccessResponse _ sid results _ =>
      Some (sid, "", (λ r, (res_ResultId r, res_TotalPrice r)) <$> results)
  | Search_ErrorResponse _ => None
  end.

Lemma searchProperties_offers text1 text2 (req : AccommodationSearchRequest C S) now s e currency
    (meal : Room → outcome (option MealPlan)) props x :
  now ≤ clock (world_of x) → showable cfg currency →
  runs (searchProperties cfg text1 text2 req now s e currency meal props) x
    (λ y o, offers found_rooms o (world_of y)).
Proof.
  intros Hnow Hs. unfold searchProperties.
  apply runs_lift; [intros [results prices] E|intros; by apply offers_failed..].
  unfold remember. apply runs_expiring_at; [done|]. intros y sid Ly Hid Hne He.
  destruct results as [|r results].
  { apply runs_ret. intros r sid' seat results [= <-] [= <- _ <-] _. by left. }
  eapply runs_remembered; [done..|]. rewrite length_fmap. intros Hl.
  eapply searchRooms_numbered; [done|done|lia|]. simpl in Hl |- *. lia.
Qed.
End Accommodation.

Section Activity.
Context {S D : Type} `{!EqDecision S}.

Definition found_activities (r : ActivitySearchResponse (SupplierProductCode := S) (D := D) (P := P))
    : option (ExpiringUUID * string * list (Z * P)) :=
  match r with
  | Activity_SuccessResponse _ sid results _ =>
      Some (sid, default "" (head results ≫= act_SeatMapId), (λ a, (act_ResultId a, act_TotalPrice a)) <$> results)
  | Activity_ErrorResponse _ => None
  end.

Lemma searchActivities_offers text1 text2 (activities : list (ActivitySearchResult (D := D)))
    (req : ActivitySearchRequest S) by_currency x :
  (∀ l, Forall (λ a, showable cfg (get_Currency (act_TotalPrice a))) (by_currency l)) →
  runs (searchActivities cfg text1 text2 activities req by_currency) x
    (λ y o, offers found_activities o (world_of y)).
Proof.
  intros Hs. unfold searchActivities.
  apply runs_lift; [intros [results prices] E|intros; by apply offers_failed..].
  apply runs_expiring. intros y sid Ly Hid Hne He. destruct results as [|r results].
  { apply runs_ret. intros r sid' seat results [= <-] [= <- _ <-] _. by left. }
  eapply runs_remembered; [done..|]. rewrite length_fmap. intros Hl.
  eapply numberActivities_numbered; [done|apply Hs|lia|]. simpl in Hl |- *. lia.
Qed.
End Activity.

Section Transport.
Context {C L T D : Type} `{!EqDecision C, !EqDecision L, !EqDecision T}.

Definition found_trips (r : TransportSearchResponse (SupplierProductCode := C) (LocationCode := L) (D := D) (P := P))
    : option (ExpiringUUID * string * list (Z * P)) :=
  match r with
  | Transport_SuccessResponse _ sid results =>
      Some (sid, match firstSeatMap results with Ok seat => seat | _ => "" end,
            (λ r, (tr_ResultId r, tr_TotalPrice r)) <$> results)
  | Transport_ErrorResponse _ => None
  end.

Lemma searchTransport_offers no_segments (id : T → Z) text1 text2
    (trips : list (Trip (SupplierProductCode := C) (LocationCode := L) (D := D))) req currency x :
  (∀ c, currency = Ok c → showable cfg (Some c)) →
  runs (searchTransport no_segments cfg id text1 text2 trips req currency) x
    (λ y o, offers found_trips o (world_of y)).
Proof.
  intros Hs. unfold searchTransport. destruct (sameTravellers (Queries req)); simpl;
    [|apply runs_ret; by apply offers_none].
  destruct (checkQueries [] (Queries req)); [apply runs_ret; by apply offers_none|].
  apply runs_lift; [intros c Hc|intros; by apply offers_failed..].
  destruct (currencyDecimals c) as [decimals|]; [|apply runs_ret; by apply offers_none].
  unfold runs. apply orRespond_lift_rule; [|intros e _; by apply offers_none|intros; by apply offers_failed].
  intros [results prices] E.
  change (runs (searchId ← NewExpiringUUID;
    if is_empty results then
      retS (Transport_SuccessResponse (AddHeaderAlertV4 SuccessHeaderV4 "No results found") searchId results)
    else
      seatMapID ← liftO (firstSeatMap results);
      travellers ← liftO (deref (head (Queries req)));
      writing (AddSearchResult (Id searchId) {|
        NumResults := Z.of_nat (length results); NumTravelers := Z.of_nat (length (q_Travellers travellers));
        SeatMapID := seatMapID; Prices := prices; s_JSONRequest := text1 req;
        s_JSONResponse := text2 (Transport_SuccessResponse SuccessHeaderV4 searchId results) |}) ;;
      retS (Transport_SuccessResponse SuccessHeaderV4 searchId results)) x
    (λ y o, offers found_trips o (world_of y))).
  apply runs_expiring. intros y sid Ly Hid Hne He. destruct results as [|r results].
  { apply runs_ret. intros r sid' seat results [= <-] [= <- _ <-] _. by left. }
  cbn [is_empty].
  apply runs_lift; [intros seatMapID Hseat|intros; by apply offers_failed..].
  apply runs_lift; [intros q _|intros; by apply offers_failed..].
  eapply runs_remembered with (results := (λ r, (tr_ResultId r, tr_TotalPrice r)) <$> (r :: results)); [done..|simpl; by rewrite Hseat|].
  rewrite length_fmap. intros Hl.
  eapply searchQueries_numbered; [done|by apply Hs|lia|]. simpl in Hl |- *. lia.
Qed.
End Transport.
End Searches.

(** The handlers, up to what they share. *)
Section Handlers.
Context {X : Type} `{!Others X} `{!OthersLaws X}.
Variable cfg : settings.

Lemma ran_offers {P} `{!PriceVersion P} {R} (found : R → option (ExpiringUUID * string * list (Z * P))) (m : M X R) x y r sid seat
    results :
  runs m x (λ y o, offers found o (world_of y)) → found r = Some (sid, seat, results) →
  Z.of_nat (length results) ≤ MaxUint32 →
  m x = (y, Ok r) → results = [] ∨ offering sid seat results (world_of y).
Proof. unfold runs. intros Hm Hf Hl E. rewrite E in Hm. by eapply Hm. Qed.

Lemma AccommodationSearchV5_offers {C S Room MealPlan} `{!EqDecision C, !EqDecision S}
    (meals : Room → list MealPlan) text1 err props text2 (req : AccommodationSearchRequest C S) c x :
  SearchParameters req = Some (Some c) → showable cfg (Some c) →
  runs (AccommodationSearchV5 cfg meals text1 err props text2 req) x
    (λ y o, offers found_rooms o (world_of y)).
Proof.
  intros Hc Hs. unfold AccommodationSearchV5. apply runs_time. intros y Hy. rewrite Hc.
  destruct (req_TravelPeriod req) as [[[s|] [e|]]|] eqn:Ep; try (apply runs_ret; by apply offers_none).
  apply runs_lift; [intros [|] _|intros; by apply offers_failed..]; cbn [negb];
    [|apply runs_ret; by apply offers_none].
  by apply searchProperties_offers.
Qed.

Lemma ActivitySearchV5_offers {S D} `{!EqDecision S} {P} `{!PriceVersion P} text1 text2 err
    (activities : list (ActivitySearchResult (D := D) (P := P))) (req : ActivitySearchRequest S) c x :
  asr_Currency req = Some (Some c) → showable cfg (Some c) →
  runs (ActivitySearchV5 cfg text1 text2 err activities req) x
    (λ y o, offers found_activities o (world_of y)).
Proof.
  intros Hc Hs. unfold ActivitySearchV5. rewrite Hc.
  destruct (asr_TravelPeriod req) as [[[s|] [e|]]|] eqn:Ep; try (apply runs_ret; by apply offers_none).
  unfold IsTravelPeriodAllowedV4. eapply runs_bind with (P := λ _ _, True).
  - apply runs_time. intros y _. by unfold runs.
  - intros y [|] _; simpl; [|apply runs_ret; by apply offers_none].
    apply searchActivities_offers. intros l. apply List.Forall_forall. intros a [_ Ha]%filter_In.
    by apply bool_decide_eq_true in Ha as ->.
  - intros; by apply offers_failed.
  - intros; by apply offers_failed.
Qed.
End Handlers.

(** *** Two trips in one query *)

Lemma filterO_in {A} (f : A → outcome bool) l r a :
  filterO f l = Ok r → a ∈ r → a ∈ l ∧ f a = Ok true.
Proof.
  revert r. induction l as [|b l IH]; simpl; intros r E Ha; [simplify_eq; by apply elem_of_nil in Ha|].
  apply obind_Ok in E as (keep & Hk & E). apply obind_Ok in E as (rest & Hr & E). simplify_eq.
  assert (a ∈ rest → a ∈ b :: l ∧ f a = Ok true) as Hin by (intros H; destruct (IH _ Hr H); split; [by right|done]).
  destruct keep; [|auto]. apply elem_of_cons in Ha as [->|Ha]; [|auto]. split; [by left|done].
Qed.

Section RoundTrip.
Context {C L D : Type} `{!EqDecision C, !EqDecision L} {P : Type} `{!PriceVersion P}.

Implicit Type trips : list (Trip (SupplierProductCode := C) (LocationCode := L) (D := D) (P := P)).

Definition on_dates (trip : Trip (SupplierProductCode := C) (LocationCode := L) (D := D) (P := P))
    (q : QueryTrip (SupplierProductCode := C) (LocationCode := L)) : Prop :=
  ∃ first rest final, trip_Segments trip = first :: rest ∧ last (trip_Segments trip) = Some final ∧
    Some (TimeToDateV4 (seg_Departure first)) = q_DepartureDate q ∧
    Some (TimeToDateV4 (seg_Arrival final)) = q_ArrivalDate q.

Lemma filterTripsByDates_in no_segments trips q found trip :
  no_segments ≠ Ok true → filterTripsByDates no_segments trips q = Ok found → trip ∈ found →
  trip ∈ trips ∧ on_dates trip q.
Proof.
  intros Hno E Ht. destruct (filterO_in _ _ _ _ E Ht) as [Hin Hf]. split; [done|]. unfold on_dates.
  destruct (trip_Segments trip) as [|first rest]; [done|]. destruct (last (first :: rest)) as [final|]; [|done].
  injection Hf as [H1%bool_decide_eq_true H2%bool_decide_eq_true]%andb_true_iff. eauto 10.
Qed.

(** Every trip that is left is on the dates of every trip of the query. *)
Lemma filterTrips_dates no_segments trips qs found trip :
  no_segments ≠ Ok true → filterTrips no_segments trips qs = Ok found → trip ∈ found →
  trip ∈ trips ∧ ∀ q, q ∈ qs → on_dates trip q.
Proof.
  intros Hno. revert trips. induction qs as [|q qs IH]; simpl; intros trips E Ht.
  { simplify_eq. split; [done|]. by intros q Hq%elem_of_nil. }
  apply obind_Ok in E as (byDates & Ed & E). apply obind_Ok in E as (byLocations & El & E).
  assert (trip ∈ byLocations ∧ ∀ q, q ∈ qs → on_dates trip q) as [Hl Hq].
  { destruct (q_Parameters q) as [[codes n]|]; [|by apply IH].
    destruct (IH _ E Ht) as [Hin ?]. split; [|done]. revert Hin.
    unfold filterTripsByMaxSegments, filterTripsBySupplierCodes. rewrite !list_elem_of_In.
    destruct (n =? 0), (is_empty codes); rewrite ?filter_In; tauto. }
  destruct (filterO_in _ _ _ _ El Hl) as [Hd _].
  destruct (filterTripsByDates_in _ _ _ _ _ Hno Ed Hd) as [Hin Hon]. split; [done|].
  intros q' [->|?]%elem_of_cons; auto.
Qed.

(** A query for the way out and the way back, on different days, finds nothing. *)
Lemma round_trip_not_found no_segments trips out back found :
  no_segments ≠ Ok true → q_DepartureDate out ≠ q_DepartureDate back →
  filterTrips no_segments trips [out; back] = Ok found → found = [].
Proof.
  intros Hno Hdate E. destruct found as [|trip found]; [done|].
  destruct (filterTrips_dates _ _ _ _ trip Hno E ltac:(by left)) as [_ Hq].
  destruct (Hq out ltac:(by left)) as (f & r & l & Hs & _ & Ho & _).
  destruct (Hq back ltac:(right; by left)) as (f' & r' & l' & Hs' & _ & Hb & _). congruence.
Qed.
End RoundTrip.

(** *** The penalties *)

Lemma DateV4ToTime_second date : DateV4ToTime date mod Second = 0.
Proof.
  destruct (DateV4ToTime_days date) as [n ->]. apply Z.mod_divide; [done|].
  exists (n * 86400). unfold DayLength, Hour, Minute, Second. lia.
Qed.

Lemma timestamp_week t :
  t mod Second = 0 → timestamp_New (t - FreeCancellationDuration) =
    {| Seconds := Unix (t - FreeCancellationDuration); Nanos := 0 |}.
Proof.
  intros Ht. unfold timestamp_New, Unix. f_equal.
  replace (t - FreeCancellationDuration) with (t + (-604800) * Second)
    by (unfold FreeCancellationDuration, DayLength, Hour, Minute, Second; lia).
  by rewrite Z.mod_add.
Qed.

Lemma Unix_le t : Unix t * Second ≤ t < (Unix t + 1) * Second.
Proof. unfold Unix, Second. Z.to_euclidean_division_equations; lia. Qed.

(** ** Properties *)

(** C29: what the mock offers it sells.  In the searches of accommodations, activities and
    transport of protocol version 5, whatever is asked and whatever happens to the
    store afterwards, a result that was shown can be validated until the identifier of the
    search expires, under its own number, for exactly the price that was shown. *)
Theorem search_results_bookable {C S L T Room MealPlan D : Type}
    `{!EqDecision C, !EqDecision S, !EqDecision L, !EqDecision T}
    {X : Type} `{!Others X} `{!OthersLaws X} cfg (x y : X) :
  (∀ (meals : Room → list MealPlan) text1 err props text2 (req : AccommodationSearchRequest C S)
     alerts sid results ts c,
    AccommodationSearchV5 cfg meals text1 err props text2 req x =
      (y, Ok (Search_SuccessResponse alerts sid results ts)) →
    SearchParameters req = Some (Some c) → showable cfg (Some c) →
    Z.of_nat (length results) ≤ MaxUint32 →
    bookable (X := X) sid ((λ r, (res_ResultId r, res_TotalPrice r)) <$> results) (world_of y)) ∧
  (∀ text1 text2 err (activities : list (ActivitySearchResult (D := D) (P := PriceV5)))
     (req : ActivitySearchRequest S) alerts sid results ts c,
    ActivitySearchV5 cfg text1 text2 err activities req x =
      (y, Ok (Activity_SuccessResponse alerts sid results ts)) →
    asr_Currency req = Some (Some c) → showable cfg (Some c) →
    Z.of_nat (length results) ≤ MaxUint32 →
    bookable (X := X) sid ((λ a, (act_ResultId a, act_TotalPrice a)) <$> results) (world_of y)) ∧
  (∀ (id : T → Z) text1 text2
     (trips : list (Trip (SupplierProductCode := S) (LocationCode := L) (D := D) (P := PriceV5)))
     req alerts sid results c,
    TransportSearchV5 (Ok false) cfg id text1 text2 trips req x =
      (y, Ok (Transport_SuccessResponse alerts sid results)) →
    ts_Currency req = Some (Some c) → showable cfg (Some c) →
    Z.of_nat (length results) ≤ MaxUint32 →
    bookable (X := X) sid ((λ r, (tr_ResultId r, tr_TotalPrice r)) <$> results) (world_of y)).
Proof.
  split_and!.
  - intros meals text1 err props text2 req alerts sid results ts c E Hc Hs Hl.
    eapply offering_bookable; [|by rewrite length_fmap].
    eapply (ran_offers found_rooms); [| | |exact E]; [|done|by rewrite length_fmap].
    by apply AccommodationSearchV5_offers with (c := c).
  - intros text1 text2 err activities req alerts sid results ts c E Hc Hs Hl.
    eapply offering_bookable; [|by rewrite length_fmap].
    eapply (ran_offers found_activities); [| | |exact E]; [|done|by rewrite length_fmap].
    by apply ActivitySearchV5_offers with (c := c).
  - intros id text1 text2 trips req alerts sid results c E Hc Hs Hl.
    eapply offering_bookable; [|by rewrite length_fmap].
    eapply (ran_offers found_trips); [| | |exact E]; [|done|by rewrite length_fmap].
    unfold TransportSearchV5. rewrite Hc. apply searchTransport_offers. by intros ? [= <-].
Qed.

(** The cancellation penalties of an accommodation leave no gap.  They follow each other
    from the second of the search to the end of the stay, each for some time, and their
    prices are nothing until a week before the start, if that is still to come, a tenth of
    the price until the start, and the price from then on. *)
Lemma penalties_cover {P : Type} `{!PriceVersion P} now start end_ base (price : P) :
  now < DateV4ToTime start → DateV4ToTime start < DateV4ToTime end_ →
  let penalties := cancelPenalties now (DateV4ToTime start) (DateV4ToTime end_) base price in
  let value v := mkPrice v (get_Decimals price) (get_Currency price) in
  (Seconds ∘ pen_Start) <$> head penalties = Some (Unix now) ∧
  pen_End <$> last penalties = Some (timestamp_New (DateV4ToTime end_)) ∧
  (∀ i a b, penalties !! i = Some a → penalties !! S i = Some b → pen_End a = pen_Start b) ∧
  Forall (λ a, instant (pen_Start a) < instant (pen_End a)) penalties ∧
  pen_Value <$> penalties =
    (if now + FreeCancellationDuration <? DateV4ToTime start then [value "0"] else []) ++
    [value (pretty (Z.quot base 10)); price].
Proof.
  intros Hnow Hend penalties value. unfold penalties, cancelPenalties.
  pose proof (timestamp_week _ (DateV4ToTime_second start)) as Hw.
  pose proof (Unix_le now) as Hu. pose proof (Unix_le (DateV4ToTime start - FreeCancellationDuration)) as Hv.
  assert (0 < FreeCancellationDuration) as Hf by done.
  assert (Z.max (Unix (DateV4ToTime start - FreeCancellationDuration)) (Unix now) * Second < DateV4ToTime start)
    as Hmax by (unfold Second in *; lia).
  destruct (Z.ltb_spec (now + FreeCancellationDuration) (DateV4ToTime start)) as [Hfree|Hlate]; simpl.
  - assert (Unix now ≤ Unix (DateV4ToTime start - FreeCancellationDuration)) as Hle
      by (unfold Second in *; lia).
    split_and!; [done|done| | |done].
    + intros [|[|[|i]]] a b Ha Hb; simplify_eq/=; [|done]. by rewrite Hw, Z.max_l.
    + repeat constructor; simpl; rewrite ?instant_New; unfold instant; simpl; lia.
  - assert (Unix (DateV4ToTime start - FreeCancellationDuration) ≤ Unix now) as Hle.
    { unfold Unix. apply Z.div_le_mono; [done|lia]. }
    split_and!; [simpl; by rewrite Z.max_r|done| | |done].
    + intros [|[|i]] a b Ha Hb; simplify_eq/=; done.
    + repeat constructor; simpl; rewrite ?instant_New; unfold instant; simpl; lia.
Qed.

(** ** A stay of three nights *)
Module Toy.
Definition stay : TravelPeriod :=
  {| StartDate := Some {| Year := 2026; Month := 2; Day := 27 |};
     EndDate := Some {| Year := 2026; Month := 3; Day := 2 |} |}.
Definition hotel : PropertyExtendedInfo string string string :=
  {| prop_Property := {| ProductCodes := ["P1"]; prop_SupplierCode := "S1"; ContactInfo := None;
                         LastModified := 0 |}; Rooms := ["double"; "single"] |}.
Definition request : AccommodationSearchRequest string string :=
  {| SearchParameters := Some (Some (CurrencyV4_IsoCurrency 978)); req_TravelPeriod := Some stay;
     LocationGeoTree := None; req_ProductCodes := ["P1"]; req_SupplierCodes := []; Travellers := [1; 2] |}.
Definition before : world := {| store := newStore; clock := time_Date 2026 2 10; issued := ∅ |}.
Definition text {A} (_ : A) : string := "".
Definition answer : world * outcome (AccommodationSearchResponse (Room := string) (MealPlan := string) PriceV5) :=
  AccommodationSearchV5 initial_settings (λ _, []) text "" [hotel] text request before.
End Toy.

Lemma search_results_bookable_witness :
  ∃ alerts sid results travellers,
    snd Toy.answer = Ok (Search_SuccessResponse alerts sid results travellers) ∧
    (v5_Value ∘ res_TotalPrice <$> results) = ["31599"; "31599"] ∧
    bookable (X := world) sid ((λ r, (res_ResultId r, res_TotalPrice r)) <$> results) (fst Toy.answer).
Proof.
  eexists _, _, _, _. split; [vm_compute; reflexivity|]. split; [vm_compute; reflexivity|].
  eapply (proj1 (@search_results_bookable string string string string string string unit
    _ _ _ _ world MockBooking.Toy.alone MockBooking.Toy.alone_laws initial_settings Toy.before
    (fst Toy.answer)) (λ _, []) Toy.text "" [Toy.hotel] Toy.text Toy.request).
  - vm_compute. reflexivity.
  - reflexivity.
  - right. by exists (CurrencyV4_IsoCurrency 978).
  - vm_compute. discriminate.
Defined.

Lemma penalties_cover_witness :
  (Seconds ∘ pen_Start) <$> head (cancelPenalties (P := PriceV5) (time_Date 2026 2 10)
    (DateV4ToTime (StartDate Toy.stay)) (DateV4ToTime (EndDate Toy.stay)) 31599 BookingTokenPriceV5) =
  Some (Unix (time_Date 2026 2 10)).
Proof.
  apply (penalties_cover (time_Date 2026 2 10) (StartDate Toy.stay) (EndDate Toy.stay) 31599
    BookingTokenPriceV5); vm_compute; reflexivity.
Defined.
