(* ===== verification/MockSearchV3.v ===== *)
(** * Searches of protocol version 3 in the partner plugin mock (src/pp-mock/handlers)

    The searches of accommodations, activities and trips in version 3, with their filters.
    Their results count from one, and their identifiers do not say when they expire; what
    is remembered of them is what the other versions remember ([MockSearch]). *)
From S2P Require Import Prelude Decimal Conversion Price Mint MockPrice MockDates MockBooking MockSearch MockOffers.
From stdpp Require Import gmap relations.

#[local] Open Scope Z_scope.
#[local] Arguments String.append : simpl nomatch.

#[global] Instance CurrencyV3_eq_dec : EqDecision CurrencyV3.
Proof. solve_decision. Defined.

(** ** Prices, responses and the store *)

(** The price that is stored for the validation, and the one that is shown. *)
Definition normalizedV3 (cfg : settings) (price : PriceV3) : outcome (UnifiedPrice * PriceV3) :=
  validationPrice ← PriceV3ToUnifiedPrice (Some price);
  if RealisticPriceEnabled cfg then
    let validationPrice := NormalizeRealistic cfg validationPrice in
    shown ← ToPriceV3 validationPrice;
    Ok (validationPrice, shown)
  else Ok (validationPrice, price).

(** Only the response of a search of activities repeats the travellers. *)
Record SearchResponseV3 (R : Type) := {
  r3_Header : HeaderV3;
  r3_Results : list R;
  r3_Travellers : list Z;
  r3_SearchId : option string
}.
Arguments r3_Header {R} _.
Arguments r3_Results {R} _.
Arguments r3_SearchId {R} _.

Section Response.
Context {R : Type} {X : Type} `{!Others X}.

Definition refuse (message : string) : SearchResponseV3 R :=
  {| r3_Header := ErrorHeaderV1 message; r3_Results := []; r3_Travellers := []; r3_SearchId := None |}.

(** The end of a search: a response with results is remembered, for their prices. *)
Definition respond (notFound request_String : string) (response_String : SearchResponseV3 R → string)
    (numTravelers : Z) (travellers : list Z) (results : list R) (validationPrices : list UnifiedPrice)
    : M X (SearchResponseV3 R) :=
  let response header id :=
    {| r3_Header := header; r3_Results := results; r3_Travellers := travellers; r3_SearchId := id |} in
  if is_empty results then retS (response (SuccessHeaderWithInfoV1 notFound) None)
  else
    searchId ← uuid_New;
    writing (AddSearchResult searchId {|
      NumResults := Z.of_nat (length results); NumTravelers := numTravelers; SeatMapID := "";
      Prices := validationPrices; s_JSONRequest := request_String;
      s_JSONResponse := response_String (response SuccessHeaderV1 (Some searchId)) |}) ;;
    retS (response SuccessHeaderV1 (Some searchId)).
End Response.

(** Every query with every other one. *)
Definition sameTravellersV3 {Q T} `{!EqDecision T} (travellers : Q → list T) (queries : list Q) : bool :=
  let indexed := imap pair queries in
  forallb (λ '(queryIndex, query), forallb (λ '(queryIndex2, query2),
    (queryIndex =? queryIndex2)%nat || bool_decide (travellers query = travellers query2)) indexed) indexed.

(** ** Accommodation (handlers/accommodation/v3) *)

Section Accommodation.
Context {ProductCode SupplierProductCode Room Traveller : Type}.
Context `{!EqDecision ProductCode, !EqDecision SupplierProductCode, !EqDecision Traveller}.
Variable cfg : settings.
Variable TravellerId : Traveller → Z.

Record AccommodationQuery := {
  aq_QueryId : Z;
  aq_TravelPeriod : option TravelPeriod;
  aq_LocationGeoTree : option GeoTree;
  aq_ProductCodes : list ProductCode;
  aq_SupplierCodes : list SupplierProductCode;
  aq_Travellers : list Traveller
}.
Record AccommodationSearchRequestV3 := {
  av3_Currency : option (option CurrencyV3);      (* SearchParametersGeneric, with its currency *)
  av3_Queries : list AccommodationQuery
}.

(** A unit has its room, the dates and the travellers of its query; all have one price. *)
Record AccommodationResultV3 := {
  ar3_ResultId : Z;
  ar3_QueryId : Z;
  ar3_TotalPrice : PriceV3;
  ar3_Units : list (Room * option TravelPeriod * list Z)
}.

Definition getTravellerIDs (travellers : list Traveller) : list Z := TravellerId <$> travellers.

Definition filterExtendedPropertiesByProductCodesV3
    (properties : list (PropertyExtendedInfo ProductCode SupplierProductCode Room)) (productCodes : list ProductCode) :=
  if is_empty productCodes then properties else
  List.filter (λ prop, existsb (λ code,
    existsb (λ propCode, bool_decide (propCode = code)) (ProductCodes (prop_Property prop)))
    productCodes) properties.
Definition filterExtendedPropertiesBySupplierCodesV3
    (properties : list (PropertyExtendedInfo ProductCode SupplierProductCode Room))
    (supplierCodes : list SupplierProductCode) :=
  if is_empty supplierCodes then properties else
  List.filter (λ prop, existsb (λ code, bool_decide (prop_SupplierCode (prop_Property prop) = code))
    supplierCodes) properties.
(** A property without an address panics, as in version 4. *)
Definition filterExtendedPropertiesByGeoTreeLocationV3
    (properties : list (PropertyExtendedInfo ProductCode SupplierProductCode Room)) (geoTreeLocation : option GeoTree) :=
  if anywhere geoTreeLocation then Ok properties
  else filterO (locatedV4 geoTreeLocation) properties.

Definition accommodationResult (query : AccommodationQuery) (currency : CurrencyV3) (resultID : Z)
    (prop : PropertyExtendedInfo ProductCode SupplierProductCode Room)
    : outcome (AccommodationResultV3 * UnifiedPrice) :=
  let endDate := aq_TravelPeriod query ≫= EndDate in
  let startDate := aq_TravelPeriod query ≫= StartDate in
  '(validationPrice, price) ← normalizedV3 cfg {|
    v3_Value := pretty (unitPrice (DaysBetweenDatesV1 endDate startDate)); v3_Decimals := 2;
    v3_Currency := Some currency |};
  Ok ({| ar3_ResultId := resultID; ar3_QueryId := aq_QueryId query; ar3_TotalPrice := price;
         ar3_Units := (λ room, (room, aq_TravelPeriod query, getTravellerIDs (aq_Travellers query))) <$> Rooms prop |},
      validationPrice).

(** The number of a result is an [int32]. *)
Fixpoint accommodationResults (query : AccommodationQuery) (currency : CurrencyV3) (resultID : Z)
    (props : list (PropertyExtendedInfo ProductCode SupplierProductCode Room))
    : outcome (list AccommodationResultV3 * list UnifiedPrice) :=
  match props with
  | [] => Ok ([], [])
  | prop :: props =>
      '(result, validationPrice) ← accommodationResult query currency resultID prop;
      '(results, validationPrices) ← accommodationResults query currency (swrap 32 (resultID + 1)) props;
      Ok (result :: results, validationPrice :: validationPrices)
  end.

Definition filterProperties (PropertiesV3 : list (PropertyExtendedInfo ProductCode SupplierProductCode Room))
    (query : AccommodationQuery) : outcome (list (PropertyExtendedInfo ProductCode SupplierProductCode Room)) :=
  filteredProps ← filterExtendedPropertiesByGeoTreeLocationV3 PropertiesV3 (aq_LocationGeoTree query);
  let filteredProps := filterExtendedPropertiesByProductCodesV3 filteredProps (aq_ProductCodes query) in
  Ok (filterExtendedPropertiesBySupplierCodesV3 filteredProps (aq_SupplierCodes query)).

Fixpoint accommodationQueries PropertiesV3 (queries : list AccommodationQuery) (currency : CurrencyV3) (resultID : Z)
    : outcome (list AccommodationResultV3 * list UnifiedPrice) :=
  match queries with
  | [] => Ok ([], [])
  | query :: queries =>
      props ← filterProperties PropertiesV3 query;
      '(results, prices) ← accommodationResults query currency resultID props;
      '(results', prices') ← accommodationQueries PropertiesV3 queries currency
        (swrap 32 (resultID + Z.of_nat (length results)));
      Ok (results ++ results', prices ++ prices')
  end.

Context {X : Type} `{!Others X}.
Variable request_String : AccommodationSearchRequestV3 → string.
Variable queries_String : list AccommodationQuery → string.
Variable response_String : SearchResponseV3 AccommodationResultV3 → string.
Variable TravelPeriodErrorStr : string.

Definition missingTravelPeriod : string :=
  "Mandatory field TravelPeriod is missing. A travel period is required to search for accommodations (with limits of start/end values of now() / now() + 60 days)".

(** Each period is checked against the time of its check. *)
Fixpoint checkPeriods (queries : list AccommodationQuery) : M X (option string) :=
  match queries with
  | [] => retS None
  | query :: queries =>
      match aq_TravelPeriod query with
      | None => retS (Some missingTravelPeriod)
      | Some _ =>
          now ← time_Now;
          allowed ← liftO (IsTravelPeriodAllowedV1 now (aq_TravelPeriod query));
          if allowed : bool then checkPeriods queries else retS (Some TravelPeriodErrorStr)
      end
  end.

Definition AccommodationSearchV3
    (PropertiesV3 : list (PropertyExtendedInfo ProductCode SupplierProductCode Room))
    (req : AccommodationSearchRequestV3) : M X (SearchResponseV3 AccommodationResultV3) :=
  match av3_Queries req with
  | [] => retS (refuse "No queries provided")
  | first :: _ =>
      match av3_Currency req with
      | Some (Some currency) =>
          wrong ← checkPeriods (av3_Queries req);
          match wrong with
          | Some message => retS (refuse message)
          | None =>
              if negb (sameTravellersV3 aq_Travellers (av3_Queries req)) then
                retS (refuse "Unsupported: Traveller definitions must be identical in all queries")
              else
                '(results, prices) ← liftO (accommodationQueries PropertiesV3 (av3_Queries req) currency 1);
                respond ("No results found for search " +:+ queries_String (av3_Queries req))
                  (request_String req) response_String (Z.of_nat (length (aq_Travellers first))) [] results prices
          end
      | _ => retS (refuse "Mandatory field SearchParametersGeneric.Currency is missing")
      end
  end.
End Accommodation.
Arguments AccommodationQuery : clear implicits.
Arguments AccommodationSearchRequestV3 : clear implicits.
Arguments AccommodationResultV3 : clear implicits.

(** ** Activity (handlers/activity/v3) *)

Section Activity.
Context {D : Type}.

(** Every activity of the data has a price; its product is known by the string of its code. *)
Record ActivityResultV3 := {
  a3_ResultId : Z;
  a3_ProductCode : string;
  a3_ServiceCode : string;
  a3_Price : PriceV3;
  a3_rest : D
}.

Definition filterSearchResultActivitiesByProductCodes (activities : list ActivityResultV3)
    (productCodes : list string) : list ActivityResultV3 :=
  if is_empty productCodes then activities else
  List.filter (λ activity, existsb (λ code, bool_decide (a3_ProductCode activity = code)) productCodes) activities.
Definition filterSearchResultActivitiesByServiceCodesV3 (activities : list ActivityResultV3)
    (serviceCodes : list string) : list ActivityResultV3 :=
  if is_empty serviceCodes then activities else
  List.filter (λ activity, existsb (λ code, bool_decide (a3_ServiceCode activity = code)) serviceCodes) activities.
Definition filterSearchResultByCurrency (activities : list ActivityResultV3) (currency : CurrencyV3)
    : list ActivityResultV3 :=
  List.filter (λ activity, bool_decide (v3_Currency (a3_Price activity) = Some currency)) activities.

Variable cfg : settings.

Definition pricedV3 (activity : ActivityResultV3) (resultID : Z) (price : PriceV3) : ActivityResultV3 := {|
  a3_ResultId := resultID; a3_ProductCode := a3_ProductCode activity;
  a3_ServiceCode := a3_ServiceCode activity; a3_Price := price; a3_rest := a3_rest activity |}.

Fixpoint activityResults (activities : list ActivityResultV3) (resultID : Z)
    : outcome (list ActivityResultV3 * list UnifiedPrice) :=
  match activities with
  | [] => Ok ([], [])
  | activity :: activities =>
      '(validationPrice, price) ← normalizedV3 cfg (a3_Price activity);
      '(results, validationPrices) ← activityResults activities (swrap 32 (resultID + 1));
      Ok (pricedV3 activity resultID price :: results, validationPrice :: validationPrices)
  end.

Record ActivitySearchRequestV3 := {
  as3_Currency : option (option CurrencyV3);
  as3_TravelPeriod : option TravelPeriod;
  as3_Parameters : option (list string * list string);     (* product and service codes *)
  as3_Travellers : list Z
}.

Context {X : Type} `{!Others X}.
Variable request_String : ActivitySearchRequestV3 → string.
Variable response_String : SearchResponseV3 ActivityResultV3 → string.
Variable TravelPeriodErrorStr : string.

Definition ActivitySearchV3 (activities : list ActivityResultV3) (req : ActivitySearchRequestV3)
    : M X (SearchResponseV3 ActivityResultV3) :=
  match as3_Currency req with
  | Some (Some currency) =>
      match as3_TravelPeriod req with
      | None =>
          retS (refuse "Mandatory field TravelPeriod is missing. A travel period is required to search for activities (with limits of start/end values of now() / now() + 60 days)")
      | Some _ =>
          now ← time_Now;
          allowed ← liftO (IsTravelPeriodAllowedV1 now (as3_TravelPeriod req));
          if negb allowed then retS (refuse TravelPeriodErrorStr) else
          if is_empty (as3_Travellers req) then
            retS (refuse "Mandatory field Travellers is missing. At least one traveller is required to search for activities.")
          else
            '(productCodes, serviceCodes) ← liftO (deref (as3_Parameters req));
            let filteredActivities := filterSearchResultActivitiesByProductCodes activities productCodes in
            let filteredActivities := filterSearchResultActivitiesByServiceCodesV3 filteredActivities serviceCodes in
            '(results, prices) ← liftO (activityResults (filterSearchResultByCurrency filteredActivities currency) 1);
            respond "No results found for search" (request_String req) response_String
              (Z.of_nat (length (as3_Travellers req))) (as3_Travellers req) results prices
      end
  | _ => retS (refuse "Mandatory field SearchParametersGeneric.Currency is missing")
  end.
End Activity.
Arguments ActivityResultV3 : clear implicits.

(** ** Transport (handlers/transport/v3) *)

Section Transport.
Context {ProductCode LocationCode Traveller D : Type}.
Context `{!EqDecision ProductCode, !EqDecision LocationCode, !EqDecision Traveller}.

(** The times of a segment are in seconds; a location may be given without a code. *)
Record SegmentV3 := {
  s3_ProductCode : option ProductCode;
  s3_DepartureSeconds : Z;
  s3_ArrivalSeconds : Z;
  s3_DepartureLocation : option LocationCode;
  s3_ArrivalLocation : option LocationCode
}.
Record TripExtendedV3 := { t3_Segments : list SegmentV3; t3_Price : PriceV3; t3_rest : D }.

(** The codes are nil when a location is missing or given in another way. *)
Record QueryPoint := { point_Date : option Date; point_Codes : option (list LocationCode) }.
Record QueryTripV3 := {
  q3_Departure : option QueryPoint;
  q3_Arrival : option QueryPoint;
  q3_Parameters : option (list ProductCode * Z)      (* codes and MaxSegments *)
}.
Record QueryV3 := { q3_QueryId : Z; q3_Travellers : list Traveller; q3_Trips : list (option QueryTripV3) }.

Definition filterTripsByProductCodes (trips : list TripExtendedV3) (productCodes : list ProductCode)
    : list TripExtendedV3 :=
  if is_empty productCodes then trips else
  List.filter (λ trip, existsb (λ segment, existsb (λ code, bool_decide (s3_ProductCode segment = Some code))
    productCodes) (t3_Segments trip)) trips.
Definition filterTripsByMaxSegmentsV3 (trips : list TripExtendedV3) (maxSegments : Z) : list TripExtendedV3 :=
  List.filter (λ trip, Z.of_nat (length (t3_Segments trip)) <=? maxSegments) trips.
Definition filterTripsByCurrencyV3 (trips : list TripExtendedV3) (currency : CurrencyV3) : list TripExtendedV3 :=
  List.filter (λ trip, bool_decide (v3_Currency (t3_Price trip) = Some currency)) trips.

(** The midnight of a time in seconds. *)
Definition date_of (seconds : Z) : Z := Truncate (seconds * Second).

Definition filterTripsByDatesV3 (trips : list TripExtendedV3) (query : QueryTripV3)
    : outcome (list TripExtendedV3) :=
  departure ← deref (q3_Departure query);
  let queryDepartureDate := DateV1ToTime (point_Date departure) in
  Ok (List.filter (λ trip,
    match t3_Segments trip, last (t3_Segments trip) with
    | firstSegment :: _, Some lastSegment =>
        (date_of (s3_DepartureSeconds firstSegment) =? queryDepartureDate) &&
        match q3_Arrival query ≫= point_Date with
        | Some date => date_of (s3_ArrivalSeconds lastSegment) =? DateV1ToTime (Some date)
        | None => true
        end
    | _, _ => false
    end) trips).

Definition filterTripsByLocationsV3 (trips : list TripExtendedV3) (query : QueryTripV3)
    : outcome (list TripExtendedV3) :=
  filterO (λ trip,
    match t3_Segments trip, last (t3_Segments trip) with
    | firstSegment :: _, Some lastSegment =>
        match s3_DepartureLocation firstSegment with
        | None => Ok false
        | Some departureCode =>
            departure ← deref (q3_Departure query);
            departures ← deref (point_Codes departure);
            if negb (existsb (λ code, bool_decide (code = departureCode)) departures) then Ok false else
            match q3_Arrival query ≫= point_Codes with
            | None => Ok true
            | Some arrivals =>
                match s3_ArrivalLocation lastSegment with
                | None => Ok false
                | Some arrivalCode => Ok (existsb (λ code, bool_decide (code = arrivalCode)) arrivals)
                end
            end
        end
    | _, _ => Ok false
    end) trips.

(** The filters of every trip of a query, one after the other on the same list. *)
Fixpoint filterTripsV3 (trips : list TripExtendedV3) (queryTrips : list (option QueryTripV3))
    : outcome (list TripExtendedV3) :=
  match queryTrips with
  | [] => Ok trips
  | queryTrip :: queryTrips =>
      query ← deref queryTrip;
      trips ← filterTripsByDatesV3 trips query;
      trips ← filterTripsByLocationsV3 trips query;
      match q3_Parameters query with
      | None => filterTripsV3 trips queryTrips
      | Some (productCodes, maxSegments) =>
          let trips := filterTripsByProductCodes trips productCodes in
          filterTripsV3 (if maxSegments =? 0 then trips else filterTripsByMaxSegmentsV3 trips maxSegments) queryTrips
      end
  end.

Fixpoint totalPriceV3 (decimals : Z) (trips : list TripExtendedV3) : outcome Z :=
  match trips with
  | [] => Ok 0
  | trip :: trips =>
      price ← ToBigInt (v3_Value (t3_Price trip)) (v3_Decimals (t3_Price trip)) decimals;
      total ← totalPriceV3 decimals trips;
      Ok (price + total)
  end.

Record TransportResultV3 := {
  tr3_ResultId : Z;
  tr3_QueryId : Z;
  tr3_TravellerIds : list Z;
  tr3_TravellingTrips : list TripExtendedV3;
  tr3_TotalPrice : PriceV3
}.

Variable cfg : settings.
Variable TravellerId : Traveller → Z.

Fixpoint transportQueries (trips : list TripExtendedV3) (currency : CurrencyV3) (decimals : Z)
    (queries : list QueryV3) (resultID : Z) : outcome (list TransportResultV3 * list UnifiedPrice) :=
  match queries with
  | [] => Ok ([], [])
  | query :: queries =>
      filteredTrips ← filterTripsV3 trips (q3_Trips query);
      if is_empty filteredTrips then transportQueries trips currency decimals queries resultID else
      totalPrice ← totalPriceV3 decimals filteredTrips;
      '(validationPrice, price) ← normalizedV3 cfg {|
        v3_Value := pretty totalPrice; v3_Decimals := decimals; v3_Currency := Some currency |};
      '(results, validationPrices) ← transportQueries trips currency decimals queries (swrap 32 (resultID + 1));
      Ok ({| tr3_ResultId := resultID; tr3_QueryId := q3_QueryId query;
             tr3_TravellerIds := TravellerId <$> q3_Travellers query;
             tr3_TravellingTrips := filteredTrips; tr3_TotalPrice := price |} :: results,
          validationPrice :: validationPrices)
  end.

(** The first thing that is wrong with a trip of a query, and with the queries. *)
Definition checkTrip (queryTrip : option QueryTripV3) : option string :=
  match queryTrip with
  | None => Some "Invalid query[%d].QueryTrips[%d]: can't be nil"
  | Some {| q3_Departure := Some departure; q3_Arrival := Some arrival |} =>
      if negb (bool_decide (is_Some (point_Date departure))) then
        Some "Invalid trip filter: departure date must be provided"
      else if negb (bool_decide (is_Some (point_Codes departure)) && bool_decide (is_Some (point_Codes arrival))) then
        Some "Unsupported trip filter: departure and arrival must provide location codes"
      else if bool_decide (is_Some (point_Date arrival)) &&
              negb (AreTravelDatesValidV1 (point_Date departure) (point_Date arrival)) then
        Some "Invalid travel dates: departure must be before arrival"
      else None
  | Some _ => Some "Invalid trip filter: departure and arrival must be provided"
  end.
Fixpoint first_wrong {A} (check : A → option string) (l : list A) : option string :=
  match l with
  | [] => None
  | a :: l => match check a with Some message => Some message | None => first_wrong check l end
  end.

Definition decimalsOf (currency : CurrencyV3) : option Z :=
  match currency with
  | CurrencyV3_NativeToken => Some NativeTokenDecimals
  | CurrencyV3_IsoCurrency _ => Some ISODecimals
  | _ => None
  end.

Record TransportSearchRequestV3 := { ts3_Currency : option CurrencyV3; ts3_Queries : list QueryV3 }.

Context {X : Type} `{!Others X}.
Variable request_String : TransportSearchRequestV3 → string.
Variable queries_String : list QueryV3 → string.
Variable currency_String : CurrencyV3 → string.
Variable response_String : SearchResponseV3 TransportResultV3 → string.

Definition TransportSearchV3 (TripsExtendedV3 : list TripExtendedV3) (req : TransportSearchRequestV3)
    : M X (SearchResponseV3 TransportResultV3) :=
  match ts3_Queries req, ts3_Currency req with
  | [], _ => retS (refuse "No queries provided")
  | _, None => retS (refuse "SearchParameters.Currency is required")
  | first :: _, Some currency =>
      if negb (sameTravellersV3 q3_Travellers (ts3_Queries req)) then
        retS (refuse "Unsupported: Traveller definitions must be identical in all queries")
      else
      match first_wrong (λ query, first_wrong checkTrip (q3_Trips query)) (ts3_Queries req) with
      | Some message => retS (refuse message)
      | None =>
          match decimalsOf currency with
          | None => retS (refuse "not supported currency type; only NativeToken and IsoCurrency are supported")
          | Some decimals =>
              let tripsFilteredByCurrency := filterTripsByCurrencyV3 TripsExtendedV3 currency in
              if is_empty tripsFilteredByCurrency then
                retS {| r3_Header := SuccessHeaderWithInfoV1 ("No trips found for currency " +:+ currency_String currency);
                        r3_Results := []; r3_Travellers := []; r3_SearchId := None |}
              else
                orRespond (liftO (transportQueries tripsFilteredByCurrency currency decimals (ts3_Queries req) 1))
                  (λ _, refuse "Failed to convert tripSegment price: %v")
                  (λ '(results, prices),
                respond ("No results found for search " +:+ queries_String (ts3_Queries req))
                  (request_String req) response_String (Z.of_nat (length (q3_Travellers first))) [] results prices)
          end
      end
  end.
End Transport.

(** ** Lemmas *)

(** The traveller check of version 3 is that of versions 4 and 5. *)
Lemma sameTravellersV3_all {Q T} `{!EqDecision T} (travellers : Q → list T) queries :
  sameTravellersV3 travellers queries = true ↔
  ∀ q q', q ∈ queries → q' ∈ queries → travellers q = travellers q'.
Proof.
  unfold sameTravellersV3. rewrite forallb_forall. setoid_rewrite <-list_elem_of_In. split.
  - intros H q q' [i Hi]%list_elem_of_lookup [j Hj]%list_elem_of_lookup.
    destruct (decide (i = j)) as [->|Hij]; [by simplify_eq|].
    assert ((i, q) ∈ imap pair queries) as Hin by (apply elem_of_lookup_imap; eauto).
    specialize (H _ Hin). simpl in H. rewrite forallb_forall in H.
    assert ((j, q') ∈ imap pair queries) as Hin' by (apply elem_of_lookup_imap; eauto).
    apply list_elem_of_In in Hin'. specialize (H _ Hin'). simpl in H.
    apply orb_true_iff in H as [?%Nat.eqb_eq|H]; [done|]. by apply bool_decide_eq_true in H.
  - intros H [i q] Hi. rewrite forallb_forall. intros [j q'] Hj%list_elem_of_In.
    apply elem_of_lookup_imap in Hi as (? & ? & [= <- <-] & Hi).
    apply elem_of_lookup_imap in Hj as (? & ? & [= <- <-] & Hj).
    apply orb_true_iff. right. apply bool_decide_eq_true. apply H; by eapply list_elem_of_lookup_2.
Qed.

Lemma sameTravellers_all {C L T} `{!EqDecision C, !EqDecision L, !EqDecision T}
    (queries : list (Query (SupplierProductCode := C) (LocationCode := L) (Traveller := T))) :
  sameTravellers queries = true ↔
  ∀ q q', q ∈ queries → q' ∈ queries → q_Travellers q = q_Travellers q'.
Proof.
  induction queries as [|q queries IH]; simpl.
  { split; [|done]. by intros _ q q' H%elem_of_nil. }
  rewrite andb_true_iff, IH, forallb_forall. setoid_rewrite bool_decide_eq_true.
  setoid_rewrite <-list_elem_of_In. setoid_rewrite elem_of_cons. split.
  - intros [H1 H2] p p' [->|Hp] [->|Hp']; [done|by apply H1|symmetry; by apply H1|by apply H2].
  - intros H. split; [intros; apply H; auto|intros; apply H; auto].
Qed.

Lemma same_travellers_versions {C L T} `{!EqDecision C, !EqDecision L, !EqDecision T}
    (queries : list (Query (SupplierProductCode := C) (LocationCode := L) (Traveller := T))) :
  sameTravellersV3 q_Travellers queries = sameTravellers queries.
Proof. apply Bool.eq_iff_eq_true. by rewrite sameTravellersV3_all, sameTravellers_all. Qed.

(** *** Results and what is remembered of them *)

(** A price the mock can show: any in realistic mode, else one in a currency it can hold. *)
Definition showableV3 (cfg : settings) (price : PriceV3) : Prop :=
  RealisticPriceEnabled cfg = true ∨
  ∃ c, v3_Currency price = Some c ∧ holds_V4 (currency_v4_of_v3 c) ∧ 0 ≤ v3_Decimals price ≤ MaxInt32.

Lemma normalizedV3_shown cfg price u p :
  normalizedV3 cfg price = Ok (u, p) → showableV3 cfg price → ToPriceV3 u = Ok p.
Proof.
  unfold normalizedV3. intros E Hs. apply obind_Ok in E as (v & Ev & E).
  destruct (RealisticPriceEnabled cfg) eqn:Er.
  - apply obind_Ok in E as (shown & Es & E). by simplify_eq/=.
  - destruct Hs as [|(c & Hc & Hh & Hd)]; [congruence|]. injection E as <- <-.
    destruct (price_kept price (v4_of_v3 price)
      {| v5_Value := v3_Value price; v5_Decimals := v3_Decimals price; v5_Currency := Some (currency_v4_of_v3 c) |}
      c (currency_v4_of_v3 c)) as [Hk _]; [done|unfold v4_of_v3; simpl; by rewrite Hc|done..|].
    by rewrite Ev in Hk.
Qed.

(** The results have the numbers from [first] on, and the prices of the list. *)
Fixpoint numberedV3 (results : list (Z * PriceV3)) (first : Z) (prices : list UnifiedPrice) : Prop :=
  match results, prices with
  | [], [] => True
  | (n, p) :: results, u :: prices => n = first ∧ ToPriceV3 u = Ok p ∧ numberedV3 results (first + 1) prices
  | _, _ => False
  end.

Lemma numberedV3_lookup results first prices n p :
  numberedV3 results first prices → (n, p) ∈ results →
  first ≤ n < first + Z.of_nat (length prices) ∧
  ∃ u, prices !! Z.to_nat (n - first) = Some u ∧ ToPriceV3 u = Ok p.
Proof.
  revert first prices. induction results as [|[m q] results IH]; intros first [|u prices] H Hin; try done.
  { by apply elem_of_nil in Hin. }
  destruct H as (-> & Hu & H). apply elem_of_cons in Hin as [[= -> ->]|Hin].
  - split; [simpl; lia|]. rewrite Z.sub_diag. by exists u.
  - destruct (IH _ _ H Hin) as [Hn (v & Hv & Hp)]. split; [simpl; lia|]. exists v. split; [|done].
    replace (Z.to_nat (n - first)) with (S (Z.to_nat (n - (first + 1)))) by lia. done.
Qed.

Lemma numberedV3_length results first prices :
  numberedV3 results first prices → length prices = length results.
Proof.
  revert first prices. induction results as [|[m q] results IH]; intros first [|u prices]; try done.
  intros (_ & _ & H). simpl. by rewrite (IH _ _ H).
Qed.

Lemma numberedV3_app results results' first prices prices' :
  numberedV3 results first prices → numberedV3 results' (first + Z.of_nat (length results)) prices' →
  numberedV3 (results ++ results') first (prices ++ prices').
Proof.
  revert first prices. induction results as [|[m q] results IH]; intros first [|u prices] H H'; try done.
  { simpl in *. by rewrite Z.add_0_r in H'. }
  destruct H as (-> & Hu & H). simpl. split_and!; [done|done|]. apply IH; [done|].
  revert H'. simpl. by replace (first + 1 + Z.of_nat (length results)) with
    (first + Z.of_nat (S (length results))) by lia.
Qed.

Lemma next_number n : 0 ≤ n < MaxInt32 → swrap 32 (n + 1) = n + 1.
Proof. intros Hn. apply swrap_small; [done|]. unfold in_sint, MaxInt32 in *. simpl. lia. Qed.

(** The search of an identifier that is remembered since [t], for these results. *)
Definition offeringV3 (sid : string) (results : list (Z * PriceV3)) (t : Z) (w : world) : Prop :=
  sid ∈ issued w ∧ ∃ d, searchResults (store w) !! sid = Some d ∧
    numberedV3 results 1 (Prices (s_Data d)) ∧ t ≤ s_CreatedAt d.

Definition found_by {R} (result : R → Z * PriceV3) (r : SearchResponseV3 R) : option (string * list (Z * PriceV3)) :=
  sid ← r3_SearchId r; Some (sid, result <$> r3_Results r).

(** How a search ends that began at [t]. *)
Definition offersV3 {R} (result : R → Z * PriceV3) (t : Z) (o : outcome (SearchResponseV3 R)) (w : world) : Prop :=
  ∀ r sid results, o = Ok r → found_by result r = Some (sid, results) →
    Z.of_nat (length results) < MaxInt32 → offeringV3 sid results t w.

Section Ends.
Context {X : Type} `{!Others X} `{!OthersLaws X}.
Context {R : Type} (result : R → Z * PriceV3).

Lemma offersV3_failed t o w : (∀ r, o ≠ Ok r) → offersV3 result t o w.
Proof. intros Ho r sid results E. by destruct (Ho r). Qed.
Lemma offersV3_refused t message w : offersV3 result t (Ok (refuse message)) w.
Proof. by intros r sid results [= <-]. Qed.

Lemma respond_offers notFound text1 text2 n travellers results prices t x :
  t ≤ clock (world_of x) →
  (Z.of_nat (length results) < MaxInt32 → numberedV3 (result <$> results) 1 prices) →
  runs (respond notFound text1 text2 n travellers results prices) x
    (λ y o, offersV3 result t o (world_of y)).
Proof.
  intros Ht Hn. unfold respond. destruct results as [|r results]; simpl.
  { apply runs_ret. by intros r sid results [= <-]. }
  apply runs_uuid. intros w y sid [Cw Iw]%activities_later Hfresh _ Ey.
  apply runs_writing. intros w' z [Cz Iz]%activities_later Ez. rewrite Ey in Cz, Iz. simpl in Cz, Iz.
  apply runs_ret. intros r' sid' results' [= <-] [= <- <-] Hl.
  split; rewrite Ez; simpl; [set_solver|]. rewrite lookup_insert_eq. eexists.
  split_and!; [done|simpl; apply Hn; simpl in Hl |- *; rewrite ?length_fmap in Hl; lia|simpl; lia].
Qed.
End Ends.

(** A currency whose prices can be shown. *)
Definition currency_shown (cfg : settings) (c : CurrencyV3) : Prop :=
  RealisticPriceEnabled cfg = true ∨ holds_V4 (currency_v4_of_v3 c).

Lemma currency_shown_price cfg v d c :
  currency_shown cfg c → 0 ≤ d ≤ MaxInt32 →
  showableV3 cfg {| v3_Value := v; v3_Decimals := d; v3_Currency := Some c |}.
Proof. intros [?|?] Hd; [by left|right]. by exists c. Qed.

Lemma numberedV3_step results first u prices n p :
  n = first → ToPriceV3 u = Ok p → 0 ≤ first → first + Z.of_nat (S (length results)) ≤ MaxInt32 →
  (0 ≤ swrap 32 (first + 1) → swrap 32 (first + 1) + Z.of_nat (length results) ≤ MaxInt32 →
   numberedV3 results (swrap 32 (first + 1)) prices) →
  numberedV3 ((n, p) :: results) first (u :: prices).
Proof.
  intros -> Hu Hf Hl H. rewrite next_number in H by lia. split_and!; [done|done|]. apply H; lia.
Qed.

Section Accommodation.
Context {C S Room T : Type} `{!EqDecision C, !EqDecision S, !EqDecision T}.
Variable cfg : settings.
Variable TravellerId : T → Z.

Definition priced_room (r : AccommodationResultV3 Room) : Z * PriceV3 := (ar3_ResultId r, ar3_TotalPrice r).

Lemma accommodationResults_numbered (query : AccommodationQuery C S T) c n
    (props : list (PropertyExtendedInfo C S Room)) results prices :
  accommodationResults cfg TravellerId query c n props = Ok (results, prices) → currency_shown cfg c →
  0 ≤ n → n + Z.of_nat (length results) ≤ MaxInt32 → numberedV3 (priced_room <$> results) n prices.
Proof.
  intros E Hc. revert n results prices E.
  induction props as [|prop props IH]; intros n results prices E Hn Hl; simpl in E; [by simplify_eq|].
  apply obind_Ok in E as ([r u] & Er & E). apply obind_Ok in E as ([results' prices'] & Ers & E). simplify_eq.
  unfold accommodationResult in Er. apply obind_Ok in Er as ([u' p] & En & Er). simplify_eq. simpl in Hl |- *.
  apply numberedV3_step; [done| |done|by rewrite length_fmap|].
  - eapply normalizedV3_shown; [exact En|]. by apply currency_shown_price.
  - intros H1 H2. rewrite length_fmap in H2. by eapply IH.
Qed.

Lemma accommodationQueries_numbered (props : list (PropertyExtendedInfo C S Room)) queries c n results prices :
  accommodationQueries cfg TravellerId props queries c n = Ok (results, prices) → currency_shown cfg c →
  0 ≤ n → n + Z.of_nat (length results) ≤ MaxInt32 → numberedV3 (priced_room <$> results) n prices.
Proof.
  intros E Hc. revert n results prices E.
  induction queries as [|query queries IH]; intros n results prices E Hn Hl; simpl in E; [by simplify_eq|].
  apply obind_Ok in E as (found & _ & E). apply obind_Ok in E as ([rs us] & Er & E).
  apply obind_Ok in E as ([rs' us'] & Ers & E). simplify_eq. rewrite length_app in Hl.
  rewrite fmap_app. apply numberedV3_app.
  - eapply accommodationResults_numbered; [done|done|lia|lia].
  - rewrite length_fmap. replace (swrap 32 (n + Z.of_nat (length rs))) with (n + Z.of_nat (length rs)) in Ers.
    + eapply IH; [done|lia|lia].
    + symmetry. apply swrap_small; [done|]. unfold in_sint, MaxInt32 in *. simpl. lia.
Qed.

Context {X : Type} `{!Others X} `{!OthersLaws X}.

Lemma checkPeriods_time error (queries : list (AccommodationQuery C S T)) t x :
  t ≤ clock (world_of x) →
  runs (checkPeriods (X := X) error queries) x (λ y _, t ≤ clock (world_of y)).
Proof.
  revert x. induction queries as [|query queries IH]; intros x Ht; simpl; [by apply runs_ret|].
  destruct (aq_TravelPeriod query); [|by apply runs_ret].
  apply runs_time. intros y [Hy _]%activities_later.
  apply runs_lift; [intros [|] _|intros; lia..]; [|apply runs_ret; lia]. apply IH. lia.
Qed.

Lemma AccommodationSearchV3_offers text1 text2 text3 error props (req : AccommodationSearchRequestV3 C S T) c x :
  av3_Currency req = Some (Some c) → currency_shown cfg c →
  runs (AccommodationSearchV3 (Room := Room) cfg TravellerId text1 text2 text3 error props req) x
    (λ y o, offersV3 priced_room (clock (world_of x)) o (world_of y)).
Proof.
  intros Hc Hs. unfold AccommodationSearchV3. rewrite Hc.
  destruct (av3_Queries req) as [|first queries]; [apply runs_ret, offersV3_refused|].
  eapply runs_bind; [by apply checkPeriods_time|..].
  2-3: intros; by apply offersV3_failed.
  intros y [message|] Ht; cbn beta iota; [apply runs_ret, offersV3_refused|].
  destruct (sameTravellersV3 _ _); cbn [negb]; [|apply runs_ret, offersV3_refused].
  apply runs_lift; [intros [results prices] E|intros; by apply offersV3_failed..].
  apply respond_offers; [exact Ht|]. intros Hl. eapply accommodationQueries_numbered; [done|done|lia|lia].
Qed.
End Accommodation.

Section Activity.
Context {D : Type}.
Variable cfg : settings.

Definition priced_activity (a : ActivityResultV3 D) : Z * PriceV3 := (a3_ResultId a, a3_Price a).

Lemma activityResults_numbered (activities : list (ActivityResultV3 D)) n results prices :
  activityResults cfg activities n = Ok (results, prices) → Forall (λ a, showableV3 cfg (a3_Price a)) activities →
  0 ≤ n → n + Z.of_nat (length results) ≤ MaxInt32 → numberedV3 (priced_activity <$> results) n prices.
Proof.
  intros E Hs. revert n results prices E.
  induction Hs as [|a activities Ha _ IH]; intros n results prices E Hn Hl; simpl in E; [by simplify_eq|].
  apply obind_Ok in E as ([u p] & En & E). apply obind_Ok in E as ([results' prices'] & Ers & E). simplify_eq.
  simpl in Hl |- *. apply numberedV3_step; [done|by eapply normalizedV3_shown|done|by rewrite length_fmap|].
  intros H1 H2. rewrite length_fmap in H2. by eapply IH.
Qed.

Context {X : Type} `{!Others X} `{!OthersLaws X}.

(** The prices of the data have decimals that fit. *)
Lemma ActivitySearchV3_offers text1 text2 error (activities : list (ActivityResultV3 D)) req c x :
  as3_Currency req = Some (Some c) → currency_shown cfg c →
  Forall (λ a, 0 ≤ v3_Decimals (a3_Price a) ≤ MaxInt32) activities →
  runs (ActivitySearchV3 cfg text1 text2 error activities req) x
    (λ y o, offersV3 priced_activity (clock (world_of x)) o (world_of y)).
Proof.
  intros Hc Hs Hd. unfold ActivitySearchV3. rewrite Hc.
  destruct (as3_TravelPeriod req); [|apply runs_ret, offersV3_refused].
  apply runs_time. intros y [Hy _]%activities_later.
  apply runs_lift; [intros [|] _|intros; by apply offersV3_failed..]; simpl; [|apply runs_ret, offersV3_refused].
  destruct (is_empty (as3_Travellers req)); [apply runs_ret, offersV3_refused|].
  apply runs_lift; [intros [products services] _|intros; by apply offersV3_failed..].
  apply runs_lift; [intros [results prices] E|intros; by apply offersV3_failed..].
  apply respond_offers; [done|]. intros Hl. eapply activityResults_numbered; [done| |lia|lia].
  rewrite Forall_forall in Hd. apply Forall_forall. intros a [Ha Hp%bool_decide_eq_true_1]%filter_in.
  assert (a ∈ activities) as Hin.
  { revert Ha. unfold filterSearchResultActivitiesByServiceCodesV3, filterSearchResultActivitiesByProductCodes.
    destruct (is_empty services), (is_empty products); try done; intros Ha; repeat (apply filter_in in Ha as [Ha _]); done. }
  destruct (a3_Price a) as [v d q] eqn:Ep. simpl in Hp. subst q. apply currency_shown_price; [done|].
  specialize (Hd a Hin). by rewrite Ep in Hd.
Qed.
End Activity.

Section Transport.
Context {C L T D : Type} `{!EqDecision C, !EqDecision L, !EqDecision T}.
Variable cfg : settings.
Variable TravellerId : T → Z.

Definition priced_trips (r : TransportResultV3 (ProductCode := C) (LocationCode := L) (D := D)) : Z * PriceV3 :=
  (tr3_ResultId r, tr3_TotalPrice r).

Lemma transportQueries_numbered trips c decimals queries n results prices :
  transportQueries (ProductCode := C) (LocationCode := L) (D := D) cfg TravellerId trips c decimals queries n =
    Ok (results, prices) →
  currency_shown cfg c → 0 ≤ decimals ≤ MaxInt32 →
  0 ≤ n → n + Z.of_nat (length results) ≤ MaxInt32 → numberedV3 (priced_trips <$> results) n prices.
Proof.
  intros E Hc Hd. revert n results prices E.
  induction queries as [|query queries IH]; intros n results prices E Hn Hl; simpl in E; [by simplify_eq|].
  apply obind_Ok in E as (found & _ & E). destruct (is_empty found); [by eapply IH|].
  apply obind_Ok in E as (total & _ & E). apply obind_Ok in E as ([u p] & En & E).
  apply obind_Ok in E as ([results' prices'] & Ers & E). simplify_eq. simpl in Hl |- *.
  apply numberedV3_step; [done| |done|by rewrite length_fmap|].
  - eapply normalizedV3_shown; [exact En|]. by apply currency_shown_price.
  - intros H1 H2. rewrite length_fmap in H2. by eapply IH.
Qed.

Lemma decimalsOf_range c decimals : decimalsOf c = Some decimals → 0 ≤ decimals ≤ MaxInt32.
Proof. destruct c; simpl; intros [= <-]; vm_compute; split; discriminate. Qed.

Context {X : Type} `{!Others X} `{!OthersLaws X}.

Lemma TransportSearchV3_offers text1 text2 text3 text4 trips req c x :
  ts3_Currency req = Some c → currency_shown cfg c →
  runs (TransportSearchV3 (ProductCode := C) (LocationCode := L) (D := D) cfg TravellerId text1 text2 text3 text4 trips req) x
    (λ y o, offersV3 priced_trips (clock (world_of x)) o (world_of y)).
Proof.
  intros Hc Hs. unfold TransportSearchV3. rewrite Hc.
  destruct (ts3_Queries req) as [|first queries]; [apply runs_ret, offersV3_refused|].
  destruct (sameTravellersV3 _ _); cbn [negb]; [|apply runs_ret, offersV3_refused].
  destruct (first_wrong _ _); [apply runs_ret, offersV3_refused|].
  destruct (decimalsOf c) as [decimals|] eqn:Ed; [|apply runs_ret, offersV3_refused].
  destruct (is_empty _); [apply runs_ret; by intros r sid results [= <-]|].
  unfold runs. apply orRespond_lift_rule; [|intros e _; apply offersV3_refused|intros; by apply offersV3_failed].
  intros [results prices] E. apply respond_offers; [done|]. intros Hl.
  eapply transportQueries_numbered; [done|done|by eapply decimalsOf_range|lia|lia].
Qed.
End Transport.

(** *** What is offered can be validated *)

(** For ten minutes from the request, whatever happens to the store, a result that was
    shown can be validated under its number, for exactly the price it was shown with. *)
Definition bookableV3 {X} `{!Others X} (sid : string) (results : list (Z * PriceV3)) (t : Z) (w : world) : Prop :=
  ∀ text text' n p (z : X) req,
    rtc activity w (world_of z) → clock (world_of (others z)) ≤ t + EntryTimeout → (n, p) ∈ results →
    req_ValidationObject req = Some {| obj_SearchResultIdentifier :=
      Some {| SearchId := Some sid; ResultId := n |} |} →
    runs (ValidationV3 text text' req) z (λ z' o, ∃ r id v,
      o = Ok r ∧ vr3_Header r = SuccessHeaderV1 ∧ vr3_Price r = Some p ∧ vr3_ValidationId r = Some id ∧
      validationResults (store (world_of z')) !! id = Some v ∧ ToPriceV3 (VerifiedPrice (v_Data v)) = Ok p).

Lemma offeringV3_bookable {X} `{!Others X} `{!OthersLaws X} sid results t w :
  offeringV3 sid results t w → Z.of_nat (length results) < MaxInt32 → bookableV3 (X := X) sid results t w.
Proof.
  intros (Hid & d & Hd & Hn & Ht) Hl text text' n p z req Hz Hc Hin Hreq.
  destruct (numberedV3_lookup _ _ _ _ _ Hn Hin) as [Hrange (u & Hu & Hp)].
  rewrite (numberedV3_length _ _ _ Hn) in Hrange.
  unfold ValidationV3. rewrite Hreq. simpl.
  destruct (Z.eqb_spec n 0) as [->|Hn0]; [lia|].
  apply runs_reading. intros y -> Hy. unfold GetSearchResult.
  assert (searchResults (store (world_of (others z))) !! sid = Some d) as ->.
  { pose proof (rtc_trans _ _ _ Hz Hy) as Hk. apply activities_kept in Hk as [Hk _]. apply Hk; [done..|lia]. }
  rewrite swrap_small; [|done|unfold in_sint, MaxInt32 in *; simpl; lia].
  rewrite (numberedV3_length _ _ _ Hn).
  destruct ((n - 1 <? 0) || (Z.of_nat (length results) <=? n - 1)) eqn:Eb.
  { apply orb_true_iff in Eb as [?%Z.ltb_lt|?%Z.leb_le]; lia. }
  rewrite Hu. apply runs_lift; [intros shown Es|intros; congruence..]. rewrite Hp in Es. injection Es as <-.
  apply runs_uuid. intros w1 y1 id _ _ _ _. apply runs_writing. intros w2 y2 _ Ey. apply runs_ret.
  eexists _, id, _. rewrite Ey. simpl. rewrite lookup_insert_eq. split_and!; done.
Qed.

(** What the mock offers in version 3 it sells: the same as in version 5
    ([MockOffers.search_results_bookable]), but that an identifier does not tell its end. *)
Lemma search_results_bookable_V3 {C S L T Room D : Type}
    `{!EqDecision C, !EqDecision S, !EqDecision L, !EqDecision T}
    {X : Type} `{!Others X} `{!OthersLaws X} cfg (id : T → Z) c (x y : X) :
  currency_shown cfg c →
  (∀ text1 text2 text3 error props (req : AccommodationSearchRequestV3 C S T) r sid,
    AccommodationSearchV3 (Room := Room) cfg id text1 text2 text3 error props req x = (y, Ok r) →
    av3_Currency req = Some (Some c) → r3_SearchId r = Some sid → Z.of_nat (length (r3_Results r)) < MaxInt32 →
    bookableV3 (X := X) sid (priced_room <$> r3_Results r) (clock (world_of x)) (world_of y)) ∧
  (∀ text1 text2 error (activities : list (ActivityResultV3 D)) req r sid,
    ActivitySearchV3 cfg text1 text2 error activities req x = (y, Ok r) →
    Forall (λ a, 0 ≤ v3_Decimals (a3_Price a) ≤ MaxInt32) activities →
    as3_Currency req = Some (Some c) → r3_SearchId r = Some sid → Z.of_nat (length (r3_Results r)) < MaxInt32 →
    bookableV3 (X := X) sid (priced_activity <$> r3_Results r) (clock (world_of x)) (world_of y)) ∧
  (∀ text1 text2 text3 text4 trips req r sid,
    TransportSearchV3 (ProductCode := C) (LocationCode := L) (D := D) cfg id text1 text2 text3 text4 trips req x =
      (y, Ok r) →
    ts3_Currency req = Some c → r3_SearchId r = Some sid → Z.of_nat (length (r3_Results r)) < MaxInt32 →
    bookableV3 (X := X) sid (priced_trips <$> r3_Results r) (clock (world_of x)) (world_of y)).
Proof.
  assert (∀ {R} (result : R → Z * PriceV3) (m : M X (SearchResponseV3 R)) r sid,
    runs m x (λ y o, offersV3 result (clock (world_of x)) o (world_of y)) → m x = (y, Ok r) →
    r3_SearchId r = Some sid → Z.of_nat (length (r3_Results r)) < MaxInt32 →
    bookableV3 (X := X) sid (result <$> r3_Results r) (clock (world_of x)) (world_of y)) as Hend.
  { intros R result m r sid Hm E Hsid Hl. unfold runs in Hm. rewrite E in Hm.
    apply offeringV3_bookable; [|by rewrite length_fmap].
    apply (Hm r sid); [done| |by rewrite length_fmap]. unfold found_by. by rewrite Hsid. }
  intros Hc. split_and!; intros; (eapply Hend; [|done..]).
  - by apply AccommodationSearchV3_offers with (c := c).
  - by apply ActivitySearchV3_offers with (c := c).
  - by apply TransportSearchV3_offers with (c := c).
Qed.

(** ** A trip there, asked for on its day *)
Module Toy.
Definition day : Date := {| Year := 2026; Month := 3; Day := 2 |}.
Definition flight : TripExtendedV3 (ProductCode := string) (LocationCode := string) (D := unit) := {|
  t3_Segments := [{| s3_ProductCode := Some "P1"; s3_DepartureSeconds := Unix (time_Date 2026 3 2) + 3600;
    s3_ArrivalSeconds := Unix (time_Date 2026 3 2) + 7200; s3_DepartureLocation := Some "VIE";
    s3_ArrivalLocation := Some "PMI" |}];
  t3_Price := {| v3_Value := "12345"; v3_Decimals := 2; v3_Currency := Some (CurrencyV3_IsoCurrency 978) |};
  t3_rest := tt |}.
Definition to (code : string) : TransportSearchRequestV3 (ProductCode := string) (LocationCode := string) (Traveller := Z) := {|
  ts3_Currency := Some (CurrencyV3_IsoCurrency 978);
  ts3_Queries := [{| q3_QueryId := 5; q3_Travellers := [1; 2];
    q3_Trips := [Some {| q3_Departure := Some {| point_Date := Some day; point_Codes := Some ["VIE"] |};
                         q3_Arrival := Some {| point_Date := None; point_Codes := Some [code] |};
                         q3_Parameters := Some (["P1"], 0) |}] |}] |}.
Definition text {A} (_ : A) : string := "".
Definition search (code : string) : outcome (SearchResponseV3 (TransportResultV3 (ProductCode := string))) :=
  snd (TransportSearchV3 initial_settings id text text text text [flight] (to code) MockOffers.Toy.before).
End Toy.

Example flight_found :
  match Toy.search "PMI" with
  | Ok r => priced_trips <$> r3_Results r =
      [(1, {| v3_Value := "123450000"; v3_Decimals := 6; v3_Currency := Some (CurrencyV3_IsoCurrency 978) |})] ∧
      is_Some (r3_SearchId r)
  | _ => False
  end.
Proof. vm_compute. split; [reflexivity|by eexists]. Qed.
Example no_flight_found :
  r3_SearchId <$> Toy.search "FRA" = Ok None.
Proof. vm_compute. reflexivity. Qed.
