(* ===== verification/MockProducts.v ===== *)
(** * The catalogue of the partner plugin mock (src/pp-mock/handlers)

    The product lists, short lists and infos of the accommodation, activity and transport
    services in protocol versions 3 to 5, with the filters they use; the ping and the check
    of a cancellation.  A product is what the handlers look at, its supplier code, the time
    it was last modified, its status and its descriptions; the rest of it is of a type of
    its own.  The filters copy what they keep ([proto.Clone]), so the data is not changed. *)
From S2P Require Import Prelude Decimal Conversion Price Mint MockPrice MockBooking.

#[local] Open Scope Z_scope.

(** [Timestamp.AsTime], of a nil timestamp too. *)
Definition AsTime (t : option Timestamp) : Z := from_option instant 0 t.

(** ** The data *)

Record LocalizedDescriptionSet (R : Type) := { Language : Z; Descriptions : R }.
Arguments Language {R} _.

Record Product (C R : Type) := {
  SupplierCode : C;
  LastModified : option Timestamp;
  Status : Z;
  product_rest : R
}.
Arguments SupplierCode {C R} _.
Arguments LastModified {C R} _.
Arguments Status {C R} _.

(** The activities of version 3 have a supplier code of their own; rooms have descriptions
    in accommodations of version 3. *)
Record ExtendedInfo (C R : Type) := {
  info : Product C R;
  extended_SupplierCode : C;
  LocalizedDescriptions : list (LocalizedDescriptionSet R);
  LocalizedRoomDescriptions : list (LocalizedDescriptionSet R);
  extended_rest : R
}.
Arguments info {C R} _.
Arguments extended_SupplierCode {C R} _.
Arguments LocalizedDescriptions {C R} _.
Arguments LocalizedRoomDescriptions {C R} _.
Arguments extended_rest {C R} _.

Record ShortListItem (C : Type) := { item_SupplierCode : C; item_Status : Z }.
Arguments item_SupplierCode {C} _.
Arguments item_Status {C} _.

(** Responses of version 3, and the successes of versions 4 and 5, which have no others. *)
Record ResponseV1 (A : Type) := { Header : HeaderV3; ResultsV1 : list A }.
Arguments Header {A} _.
Arguments ResultsV1 {A} _.
Record SuccessResponse (A : Type) := { Alerts : list string; Results : list A }.
Arguments Alerts {A} _.
Arguments Results {A} _.

(** ** What the packages have in common *)

Definition chosen {A} `{!EqDecision A} (wanted : list A) (a : A) : bool :=
  existsb (λ w, bool_decide (a = w)) wanted.

(** localization/filters.go *)
Definition FilterDescriptionsV4 {R} (descriptions : list (LocalizedDescriptionSet R))
    (languages : list Z) : list (LocalizedDescriptionSet R) :=
  List.filter (λ descSet, chosen languages (Language descSet)) descriptions.

Section Common.
Context {C R : Type} `{!EqDecision C}.

Definition by_supplier_codes {A} (code : A → C) (l : list A) (supplierCodes : list C) : list A :=
  if is_empty supplierCodes then l else List.filter (λ a, chosen supplierCodes (code a)) l.

Definition with_descriptions (descriptions rooms : list (LocalizedDescriptionSet R))
    (e : ExtendedInfo C R) : ExtendedInfo C R := {|
  info := info e; extended_SupplierCode := extended_SupplierCode e;
  LocalizedDescriptions := descriptions; LocalizedRoomDescriptions := rooms;
  extended_rest := extended_rest e |}.

(** Nothing is left of a product that has no description in the languages. *)
Definition by_language (l : list (ExtendedInfo C R)) (languages : list Z) : list (ExtendedInfo C R) :=
  if is_empty languages then l else
  omap (λ e,
    let filteredDescriptions := FilterDescriptionsV4 (LocalizedDescriptions e) languages in
    if is_empty filteredDescriptions then None
    else Some (with_descriptions filteredDescriptions (LocalizedRoomDescriptions e) e)) l.

(** Modified after a time, or not before it. *)
Definition modified_after {A} (time : A → option Timestamp) (l : list A) (t : Z) : list A :=
  List.filter (λ a, t <? AsTime (time a)) l.
Definition not_modified_before {A} (time : A → option Timestamp) (l : list A) (t : Z) : list A :=
  List.filter (λ a, negb (AsTime (time a) <? t)) l.

Definition short_item (p : Product C R) : ShortListItem C :=
  {| item_SupplierCode := SupplierCode p; item_Status := Status p |}.

Definition respondV1 {A} (message : string) (l : list A) : ResponseV1 A := {|
  Header := if is_empty l then SuccessHeaderWithInfoV1 message else SuccessHeaderV1;
  ResultsV1 := l |}.
Definition respondV4 {A} (message : string) (l : list A) : SuccessResponse A := {|
  Alerts := if is_empty l then AddHeaderAlertV4 SuccessHeaderV4 message else SuccessHeaderV4;
  Results := l |}.
End Common.

(** ** handlers/accommodation *)

Module AccommodationV3.
Section Handlers.
Context {C R : Type} `{!EqDecision C}.

Definition filterExtendedPropertiesBySupplierCodes :=
  by_supplier_codes (λ e : ExtendedInfo C R, SupplierCode (info e)).

(** One of a property and of its rooms is enough. *)
Definition filterExtendedPropertiesByLanguage (properties : list (ExtendedInfo C R)) (languages : list Z)
    : list (ExtendedInfo C R) :=
  if is_empty languages then properties else
  omap (λ property,
    let filteredDescriptions := FilterDescriptionsV4 (LocalizedDescriptions property) languages in
    let filteredRoomDescriptions := FilterDescriptionsV4 (LocalizedRoomDescriptions property) languages in
    if is_empty filteredDescriptions && is_empty filteredRoomDescriptions then None
    else Some (with_descriptions filteredDescriptions filteredRoomDescriptions property)) properties.

Definition filterPropertiesByLastModified (properties : list (ExtendedInfo C R)) (lastModified : Z)
    : list (Product C R) :=
  info <$> not_modified_before (λ e, LastModified (info e)) properties lastModified.

Variable PropertiesV3 : list (ExtendedInfo C R).

Definition AccommodationProductInfo (SupplierCodes : list C) (Languages : list Z)
    : ResponseV1 (ExtendedInfo C R) :=
  let filteredProperties := filterExtendedPropertiesBySupplierCodes PropertiesV3 SupplierCodes in
  respondV1 "No properties found that match request"
    (filterExtendedPropertiesByLanguage filteredProperties Languages).

Definition AccommodationProductList (ModifiedAfter : option Timestamp) : ResponseV1 (Product C R) :=
  respondV1 "No properties found that match request"
    (filterPropertiesByLastModified PropertiesV3 (AsTime ModifiedAfter)).
End Handlers.
End AccommodationV3.

Module AccommodationV4.
Section Handlers.
Context {C R : Type} `{!EqDecision C}.

Definition filterExtendedPropertiesBySupplierCodes :=
  by_supplier_codes (λ e : ExtendedInfo C R, SupplierCode (info e)).
Definition filterExtendedPropertiesByLanguage := by_language (C := C) (R := R).
Definition filterPropertiesBySupplierCodes (properties : list (ExtendedInfo C R)) (supplierCodes : list C)
    : list (Product C R) :=
  info <$> by_supplier_codes (λ e, SupplierCode (info e)) properties supplierCodes.
Definition filterShortItemsByModifierAfter (properties : list (ExtendedInfo C R)) (modifiedAfter : Z)
    : list (ShortListItem C) :=
  (λ e, short_item (info e)) <$> modified_after (λ e, LastModified (info e)) properties modifiedAfter.

Variable PropertiesV4 : list (ExtendedInfo C R).

Definition AccommodationProductInfo (SupplierCodes : list C) (Languages : list Z)
    : SuccessResponse (ExtendedInfo C R) :=
  let filteredProperties := filterExtendedPropertiesBySupplierCodes PropertiesV4 SupplierCodes in
  respondV4 "No properties found that match request"
    (filterExtendedPropertiesByLanguage filteredProperties Languages).
Definition AccommodationProductList (SupplierCodes : list C) : SuccessResponse (Product C R) :=
  respondV4 "No properties found that match request"
    (filterPropertiesBySupplierCodes PropertiesV4 SupplierCodes).
Definition AccommodationProductShortList (ModifiedAfter : option Timestamp)
    : SuccessResponse (ShortListItem C) :=
  respondV4 "No properties found that match request"
    (filterShortItemsByModifierAfter PropertiesV4 (AsTime ModifiedAfter)).
End Handlers.
End AccommodationV4.

Module AccommodationV5.
Section Handlers.
Context {C R : Type} `{!EqDecision C}.

Definition filterExtendedPropertiesByLanguage := by_language (C := C) (R := R).
Definition filterPropertiesBySupplierCodes (properties : list (ExtendedInfo C R)) (supplierCodes : list C)
    : list (Product C R) :=
  info <$> by_supplier_codes (λ e, SupplierCode (info e)) properties supplierCodes.
Definition filterShortItemsByModifierAfter (properties : list (ExtendedInfo C R)) (modifiedAfter : Z)
    : list (ShortListItem C) :=
  (λ e, short_item (info e)) <$> modified_after (λ e, LastModified (info e)) properties modifiedAfter.

Variable PropertiesV5 : list (ExtendedInfo C R).

Definition AccommodationProductInfo (SupplierCodes : list C) (Languages : list Z)
    : SuccessResponse (ExtendedInfo C R) :=
  let filteredProperties := by_supplier_codes (λ e, SupplierCode (info e)) PropertiesV5 SupplierCodes in
  respondV4 "No properties found that match request"
    (filterExtendedPropertiesByLanguage filteredProperties Languages).
Definition AccommodationProductList (SupplierCodes : list C) : SuccessResponse (Product C R) :=
  respondV4 "No properties found that match request"
    (filterPropertiesBySupplierCodes PropertiesV5 SupplierCodes).
Definition AccommodationProductShortList (ModifiedAfter : option Timestamp)
    : SuccessResponse (ShortListItem C) :=
  respondV4 "No properties found that match request"
    (filterShortItemsByModifierAfter PropertiesV5 (AsTime ModifiedAfter)).
End Handlers.
End AccommodationV5.

(** ** handlers/activity *)

Module ActivityV3.
Section Handlers.
Context {C R : Type} `{!EqDecision C}.

Definition filterBySupplierCodes := by_supplier_codes (extended_SupplierCode (C := C) (R := R)).
Definition filterExtendedByLastModified (activities : list (ExtendedInfo C R)) (lastModified : Z)
    : list (ExtendedInfo C R) :=
  not_modified_before (λ e, LastModified (info e)) activities lastModified.
Definition filterByLastModified (activities : list (Product C R)) (lastModified : Z) : list (Product C R) :=
  not_modified_before LastModified activities lastModified.
Definition filterByLanguage := by_language (C := C) (R := R).

Variable ActivityExtendedV3 : list (ExtendedInfo C R).
Variable ActivityV3 : list (Product C R).

Definition ActivityProductInfo (SupplierCodes : list C) (ModifiedAfter : option Timestamp)
    (Languages : list Z) : ResponseV1 (ExtendedInfo C R) :=
  let filteredActivities := filterBySupplierCodes ActivityExtendedV3 SupplierCodes in
  let filteredActivities := filterExtendedByLastModified filteredActivities (AsTime ModifiedAfter) in
  respondV1 "No activities found that match request" (filterByLanguage filteredActivities Languages).

Definition ActivityProductList (ModifiedAfter : option Timestamp) : ResponseV1 (Product C R) :=
  respondV1 "No activities found that match request"
    (filterByLastModified ActivityV3 (AsTime ModifiedAfter)).
End Handlers.
End ActivityV3.

Module ActivityV4.
Section Handlers.
Context {C R : Type} `{!EqDecision C}.

Definition filterExtendedBySupplierCodes :=
  by_supplier_codes (λ e : ExtendedInfo C R, SupplierCode (info e)).
Definition filterExtendedByModifiedAfter (activities : list (ExtendedInfo C R)) (modifiedAfter : Z)
    : list (ExtendedInfo C R) :=
  modified_after (λ e, LastModified (info e)) activities modifiedAfter.
Definition filterExtendedByLanguage := by_language (C := C) (R := R).
Definition extendedToShortListItem (activities : list (ExtendedInfo C R)) : list (ShortListItem C) :=
  (λ e, short_item (info e)) <$> activities.
Definition extendedToActivityInfo (activities : list (ExtendedInfo C R)) : list (Product C R) :=
  info <$> activities.

Variable ActivityExtendedV4 : list (ExtendedInfo C R).

Definition ActivityProductInfo (SupplierCodes : list C) (Languages : list Z)
    : SuccessResponse (ExtendedInfo C R) :=
  let filteredActivities := filterExtendedBySupplierCodes ActivityExtendedV4 SupplierCodes in
  respondV4 "No activities found that match request"
    (filterExtendedByLanguage filteredActivities Languages).
Definition ActivityProductList (SupplierCodes : list C) : SuccessResponse (Product C R) :=
  respondV4 "No activities found that match request"
    (extendedToActivityInfo (filterExtendedBySupplierCodes ActivityExtendedV4 SupplierCodes)).
Definition ActivityProductShortList (ModifiedAfter : option Timestamp) : SuccessResponse (ShortListItem C) :=
  respondV4 "No activities found that match request"
    (extendedToShortListItem (filterExtendedByModifiedAfter ActivityExtendedV4 (AsTime ModifiedAfter))).
End Handlers.
End ActivityV4.

Module ActivityV5.
Section Handlers.
Context {C R : Type} `{!EqDecision C}.

Definition filterExtendedBySupplierCodes :=
  by_supplier_codes (λ e : ExtendedInfo C R, SupplierCode (info e)).
Definition filterExtendedByModifiedAfter (activities : list (ExtendedInfo C R)) (modifiedAfter : Z)
    : list (ExtendedInfo C R) :=
  modified_after (λ e, LastModified (info e)) activities modifiedAfter.
Definition filterExtendedByLanguage := by_language (C := C) (R := R).
Definition extendedToShortListItem (activities : list (ExtendedInfo C R)) : list (ShortListItem C) :=
  (λ e, short_item (info e)) <$> activities.
Definition extendedToActivityInfo (activities : list (ExtendedInfo C R)) : list (Product C R) :=
  info <$> activities.

Variable ActivityExtendedV5 : list (ExtendedInfo C R).

Definition ActivityProductInfo (SupplierCodes : list C) (Languages : list Z)
    : SuccessResponse (ExtendedInfo C R) :=
  let filteredActivities := filterExtendedBySupplierCodes ActivityExtendedV5 SupplierCodes in
  respondV4 "No activities found that match request"
    (filterExtendedByLanguage filteredActivities Languages).
Definition ActivityProductList (SupplierCodes : list C) : SuccessResponse (Product C R) :=
  respondV4 "No activities found that match request"
    (extendedToActivityInfo (filterExtendedBySupplierCodes ActivityExtendedV5 SupplierCodes)).
Definition ActivityProductShortList (ModifiedAfter : option Timestamp) : SuccessResponse (ShortListItem C) :=
  respondV4 "No activities found that match request"
    (extendedToShortListItem (filterExtendedByModifiedAfter ActivityExtendedV5 (AsTime ModifiedAfter))).
End Handlers.
End ActivityV5.

(** ** handlers/transport: a trip is found by the time it was modified *)

Section Transport.
Context {C R : Type}.
Variable TripsBasic : list (Product C R).

Definition filterPropertiesByLastModifiedV3 (trips : list (Product C R)) (lastModified : Z)
    : list (Product C R) := not_modified_before LastModified trips lastModified.
Definition filterTripsBasicByModifiedAfterV4 (trips : list (Product C R)) (lastModified : Z)
    : list (Product C R) := not_modified_before LastModified trips lastModified.
Definition filterTripsBasicByModifiedAfterV5 (trips : list (Product C R)) (lastModified : Z)
    : list (Product C R) := not_modified_before LastModified trips lastModified.

Definition TransportProductListV3 (ModifiedAfter : option Timestamp) : ResponseV1 (Product C R) :=
  respondV1 "No trips found that match request"
    (filterPropertiesByLastModifiedV3 TripsBasic (AsTime ModifiedAfter)).
Definition TransportProductListV4 (ModifiedAfter : option Timestamp) : SuccessResponse (Product C R) :=
  respondV4 "No trips found that match request"
    (filterTripsBasicByModifiedAfterV4 TripsBasic (AsTime ModifiedAfter)).
(** Version 5 gives all trips when no time is asked for. *)
Definition TransportProductListV5 (ModifiedAfter : option Timestamp) : SuccessResponse (Product C R) :=
  respondV4 "No trips found"
    match ModifiedAfter with
    | None => TripsBasic
    | Some _ => filterTripsBasicByModifiedAfterV5 TripsBasic (AsTime ModifiedAfter)
    end.
End Transport.

(** ** Ping (src/pp-mock/metadata and handlers/ping)

    The interceptor of the mock puts the metadata of a call into its context; without it a
    handler goes on with an empty one. *)

Definition pingMessage (message requestID : string) : string :=
  "Ping response to [" +:+ message +:+ "] with request ID: " +:+ requestID.

Section Ping.
Context {Metadata : Type} (RequestID : Metadata → string) (emptyMetadata : Metadata).
Context {X : Type} `{!Others X}.

(** The value under the key of the package, if there is one of its type. *)
Definition FromContext (ctx : option Metadata) : Metadata := default emptyMetadata ctx.

Definition PingV1 (ctx : option Metadata) (message : string) : HeaderV3 * string :=
  (SuccessHeaderV1, pingMessage message (RequestID (FromContext ctx))).

Definition PingV2 (ctx : option Metadata) (message : string) : M X (list string * Timestamp * string) :=
  now ← time_Now;
  retS (SuccessHeaderV4, timestamp_New now, pingMessage message (RequestID (FromContext ctx))).
End Ping.

(** ** Check of a cancellation (handlers/cancellation) *)

Definition CancellationPolicyID : string := "pp-mock-full-refund".

Record CheckCancellationResponse (H P : Type) := {
  cc_Header : H;
  cc_TokenId : Z;
  cc_RefundAmount : P;
  cc_PolicyIdApplied : string;
  cc_Timestamp : Timestamp
}.
Arguments cc_RefundAmount {H P} _.
Arguments cc_TokenId {H P} _.

Section CheckCancellation.
Context {X : Type} `{!Others X}.

Definition checkCancellation {H P} (header : H) (refund : P) (tokenId : Z)
    : M X (CheckCancellationResponse H P) :=
  now ← time_Now;
  retS {| cc_Header := header; cc_TokenId := tokenId; cc_RefundAmount := refund;
          cc_PolicyIdApplied := CancellationPolicyID; cc_Timestamp := timestamp_New now |}.

Definition CheckCancellationV1 :=
  checkCancellation SuccessHeaderV1 {| v3_Value := BookingTokenPriceValue;
    v3_Decimals := NativeTokenDecimals; v3_Currency := Some CurrencyV3_NativeToken |}.
Definition CheckCancellationV2 :=
  checkCancellation SuccessHeaderV4 {| v4_Value := BookingTokenPriceValue;
    v4_Decimals := uwrap 32 NativeTokenDecimals; v4_Currency := Some CurrencyV4_NativeToken |}.
Definition CheckCancellationV3 :=
  checkCancellation SuccessHeaderV4 {| v5_Value := BookingTokenPriceValue;
    v5_Decimals := uwrap 32 NativeTokenDecimals; v5_Currency := Some CurrencyV4_NativeToken |}.
End CheckCancellation.

(** ** Lemmas *)

Lemma chosen_spec {A} `{!EqDecision A} (wanted : list A) a : chosen wanted a = true ↔ a ∈ wanted.
Proof.
  unfold chosen. rewrite existsb_exists. split.
  - intros (w & Hw & ->%bool_decide_eq_true). by apply list_elem_of_In.
  - intros Ha. exists a. split; [by apply list_elem_of_In|]. by apply bool_decide_eq_true.
Qed.

Lemma is_empty_spec {A} (l : list A) : is_empty l = true ↔ l = [].
Proof. by destruct l. Qed.

Section Facts.
Context {C R : Type} `{!EqDecision C}.
Implicit Types (e : ExtendedInfo C R) (p q : Product C R).

Lemma by_supplier_codes_in {A} (code : A → C) l codes a :
  a ∈ by_supplier_codes code l codes ↔ a ∈ l ∧ (codes = [] ∨ code a ∈ codes).
Proof.
  unfold by_supplier_codes. destruct codes as [|c codes]; cbn [is_empty]; [by intuition|].
  rewrite filter_in, chosen_spec. intuition discriminate.
Qed.

(** What an info shows of a product in the languages asked for. *)
Definition shown_in (languages : list Z) e e' : Prop :=
  (languages = [] ∧ e' = e) ∨
  (languages ≠ [] ∧ LocalizedDescriptions e' ≠ [] ∧
   e' = with_descriptions (List.filter (λ d, bool_decide (Language d ∈ languages)) (LocalizedDescriptions e))
          (LocalizedRoomDescriptions e) e).

Lemma FilterDescriptionsV4_chosen (d : list (LocalizedDescriptionSet R)) languages :
  FilterDescriptionsV4 d languages = List.filter (λ d, bool_decide (Language d ∈ languages)) d.
Proof.
  unfold FilterDescriptionsV4. apply List.filter_ext. intros a.
  apply Bool.eq_iff_eq_true. by rewrite chosen_spec, bool_decide_eq_true.
Qed.

Lemma by_language_in (l : list (ExtendedInfo C R)) languages e' :
  e' ∈ by_language l languages ↔ ∃ e, e ∈ l ∧ shown_in languages e e'.
Proof.
  unfold by_language, shown_in. destruct (is_empty languages) eqn:Hl.
  { apply is_empty_spec in Hl as ->. split; [by eauto 6|]. by intros (e & He & [[_ ->]|[? _]]). }
  assert (languages ≠ []) as Hne by (intros ->; done).
  rewrite list_elem_of_omap. split.
  - intros (e & He & E). exists e. split; [done|]. right. split; [done|].
    rewrite FilterDescriptionsV4_chosen in E. case_match eqn:Hd; simplify_eq. split; [|done].
    intros H. apply is_empty_spec in H. simpl in H. congruence.
  - intros (e & He & [[-> _]|(_ & Hd & ->)]); [done|]. exists e. split; [done|].
    rewrite FilterDescriptionsV4_chosen. simpl in Hd.
    by destruct (List.filter _ _).
Qed.

(** The infos of versions 4 and 5 show, of the products whose codes are asked for and which
    are described in a language that is asked for, exactly that. *)
Definition finds (info_ : list C → list Z → SuccessResponse (ExtendedInfo C R))
    (data : list (ExtendedInfo C R)) : Prop :=
  ∀ codes languages,
    (∀ e', e' ∈ Results (info_ codes languages) ↔
      ∃ e, e ∈ data ∧ (codes = [] ∨ SupplierCode (info e) ∈ codes) ∧ shown_in languages e e') ∧
    (Alerts (info_ codes languages) = [] ↔ Results (info_ codes languages) ≠ []).

Lemma respondV4_alerts {A} message (l : list A) :
  Alerts (respondV4 message l) = [] ↔ Results (respondV4 message l) ≠ [].
Proof. by destruct l. Qed.

Lemma product_info_finds data :
  finds (AccommodationV4.AccommodationProductInfo data) data ∧
  finds (AccommodationV5.AccommodationProductInfo data) data ∧
  finds (ActivityV4.ActivityProductInfo data) data ∧
  finds (ActivityV5.ActivityProductInfo data) data.
Proof.
  split_and!; intros codes languages; (split; [|apply respondV4_alerts]); intros e'; simpl;
    (etransitivity; [apply by_language_in|]); setoid_rewrite by_supplier_codes_in; naive_solver.
Qed.

(** *** Keeping a copy of the catalogue

    A client with the products of an earlier time asks for the short list of what was
    modified since, then for the products with its codes, and replaces them. *)
Section Copy.
Variable short_list : list (ExtendedInfo C R) → option Timestamp → SuccessResponse (ShortListItem C).
Variable product_list : list (ExtendedInfo C R) → list C → SuccessResponse (Product C R).

Definition changed (data : list (ExtendedInfo C R)) (t : Timestamp) : list C :=
  item_SupplierCode <$> Results (short_list data (Some t)).

(** Products of a code once, none removed (its status tells), and every change after [t]. *)
Definition updated (old new : list (ExtendedInfo C R)) (t : Timestamp) : Prop :=
  NoDup (SupplierCode <$> (info <$> old)) ∧
  (∀ p, p ∈ info <$> old → ∃ q, q ∈ info <$> new ∧ SupplierCode q = SupplierCode p) ∧
  (∀ p, p ∈ info <$> new → p ∈ info <$> old ∨ instant t < AsTime (LastModified p)).

Definition in_step : Prop := ∀ old new t, updated old new t →
  ∀ p, p ∈ info <$> new ↔
    (p ∈ info <$> old ∧ SupplierCode p ∉ changed new t) ∨ p ∈ Results (product_list new (changed new t)).

Lemma in_step_intro :
  (∀ data t c, c ∈ changed data t ↔
     ∃ p, p ∈ info <$> data ∧ SupplierCode p = c ∧ instant t < AsTime (LastModified p)) →
  (∀ data codes p, p ∈ Results (product_list data codes) ↔
     p ∈ info <$> data ∧ (codes = [] ∨ SupplierCode p ∈ codes)) →
  in_step.
Proof.
  intros Hshort Hlist old new t (Hnd & Hkept & Hmod) p. rewrite Hlist. split.
  - intros Hp. destruct (decide (SupplierCode p ∈ changed new t)) as [Hc|Hc]; [by right; auto|].
    left. split; [|done]. destruct (Hmod p Hp) as [|Ht]; [done|]. destruct Hc. apply Hshort. eauto.
  - intros [[Hp Hc]|[Hp _]]; [|done]. destruct (Hkept p Hp) as (q & Hq & Eq).
    destruct (Hmod q Hq) as [Ho|Ht]; [|destruct Hc; apply Hshort; eauto].
    apply list_elem_of_lookup in Hp as [i Hi], Ho as [j Hj].
    assert (i = j) as ->; [|by simplify_eq].
    eapply NoDup_lookup; [exact Hnd|..]; rewrite list_lookup_fmap.
    + by rewrite Hi.
    + rewrite Hj. simpl. by rewrite Eq.
Qed.
End Copy.

Lemma short_items_in (data : list (ExtendedInfo C R)) t c :
  c ∈ item_SupplierCode <$> ((λ e, short_item (info e)) <$> modified_after (λ e, LastModified (info e)) data t) ↔
  ∃ p, p ∈ info <$> data ∧ SupplierCode p = c ∧ t < AsTime (LastModified p).
Proof.
  unfold modified_after. rewrite <-list_fmap_compose, list_elem_of_fmap.
  setoid_rewrite filter_in. setoid_rewrite list_elem_of_fmap. setoid_rewrite Z.ltb_lt. naive_solver.
Qed.

Lemma listed_in (data : list (ExtendedInfo C R)) codes p :
  p ∈ info <$> by_supplier_codes (λ e, SupplierCode (info e)) data codes ↔
  p ∈ info <$> data ∧ (codes = [] ∨ SupplierCode p ∈ codes).
Proof.
  rewrite !list_elem_of_fmap. setoid_rewrite by_supplier_codes_in. naive_solver.
Qed.

(** The copy is then the catalogue. *)
Lemma catalogue_in_step :
  in_step AccommodationV4.AccommodationProductShortList AccommodationV4.AccommodationProductList ∧
  in_step AccommodationV5.AccommodationProductShortList AccommodationV5.AccommodationProductList ∧
  in_step ActivityV4.ActivityProductShortList ActivityV4.ActivityProductList ∧
  in_step ActivityV5.ActivityProductShortList ActivityV5.ActivityProductList.
Proof.
  split_and!; apply in_step_intro; intros; solve [apply short_items_in | apply listed_in].
Qed.

(** What was modified at exactly the time asked for is in the lists of version 3 and of the
    trips, and not in the short lists. *)
Lemma modified_at_the_time e t :
  LastModified (info e) = Some t →
  info e ∈ ResultsV1 (AccommodationV3.AccommodationProductList [e] (Some t)) ∧
  info e ∈ Results (TransportProductListV4 [info e] (Some t)) ∧
  info e ∈ Results (TransportProductListV5 [info e] (Some t)) ∧
  Results (AccommodationV5.AccommodationProductShortList [e] (Some t)) = [] ∧
  Results (ActivityV5.ActivityProductShortList [e] (Some t)) = [].
Proof.
  intros Ht. unfold AccommodationV3.AccommodationProductList, TransportProductListV4, TransportProductListV5,
    AccommodationV5.AccommodationProductShortList, ActivityV5.ActivityProductShortList,
    AccommodationV3.filterPropertiesByLastModified, AccommodationV5.filterShortItemsByModifierAfter,
    ActivityV5.filterExtendedByModifiedAfter, filterTripsBasicByModifiedAfterV4,
    filterTripsBasicByModifiedAfterV5, not_modified_before, modified_after. simpl.
  rewrite Ht. simpl. rewrite Z.ltb_irrefl. simpl. split_and!; by try left.
Qed.
End Facts.

(** The refund that the mock announces for a booking at its fixed price is one base unit of
    the [10^18] that were paid, although its policy is that of a full refund. *)
Lemma refund_of_fixed_price {X} `{!Others X} tokenId (x : X) :
  runs (CheckCancellationV3 tokenId) x (λ _ o, ∃ r, o = Ok r ∧ cc_TokenId r = tokenId ∧
    ∀ HexToAddress Decimals,
      GetPriceAndTokenV5 HexToAddress Decimals (Some (cc_RefundAmount r)) = Ok (1, NativePaymentToken, 0) ∧
      GetPriceAndTokenV5 HexToAddress Decimals (Some BookingTokenPriceV5) = Ok (10 ^ 18, NativePaymentToken, 0)).
Proof. eexists. split_and!; [reflexivity|done|]. intros. split; reflexivity. Qed.
