(* ===== verification/MockSeatMaps.v ===== *)
(** * Seat maps in the partner plugin mock (src/pp-mock/handlers/seat_map)

    A seat map is a forest of sections with names in several languages; its handler leaves
    the names in the languages asked for, and tells when a section has none of them.  The
    availability of seats is found by a search or a mint that the store remembers
    ([MockBooking]). *)
From S2P Require Import Prelude Price Mint MockPrice MockDates MockBooking MockSearch MockOffers.
From stdpp Require Import gmap relations.

#[local] Open Scope Z_scope.
#[local] Arguments String.append : simpl nomatch.

(** ** Sections and maps *)

Record LocalizedString := { name_Language : Z; name_Value : string }.

Section SeatMaps.
Context {MapID R : Type} `{!EqDecision MapID}.

(** [Sections] is empty where a section has rows instead of subsections. *)
Inductive section :=
  | Sec (Names : list LocalizedString) (Sections : list section) (section_rest : R).

Record SeatMap := {
  map_Id : option MapID;
  map_Sections : list section;
  map_rest : R
}.
(** An inventory is found by the string of its identifier. *)
Record SeatMapInventory := { inventory_Id : option string; inventory_rest : R }.

(** ** Filters (filters.go) *)

(** [proto.Equal] of the identifiers, which may both be missing. *)
Definition filterSeatMapByID (seatMaps : list SeatMap) (mapID : option MapID) : option SeatMap :=
  List.find (λ seatMap, bool_decide (map_Id seatMap = mapID)) seatMaps.

Fixpoint filterSeatMapAvailabilityByID (seatMaps : list SeatMapInventory) (mapID : string)
    : outcome (option SeatMapInventory) :=
  match seatMaps with
  | [] => Ok None
  | seatMap :: seatMaps =>
      id ← deref (inventory_Id seatMap);
      if bool_decide (id = mapID) then Ok (Some seatMap)
      else filterSeatMapAvailabilityByID seatMaps mapID
  end.

(** With the flags of its subsections, one after the other. *)
Fixpoint filterSeatMapSectionLocalization (langSet : gset Z) (s : section) : section * bool :=
  match s with
  | Sec originalSectionNames sections rest =>
      if bool_decide (langSet = ∅) then (s, false) else
      let Names := List.filter (λ name, bool_decide (name_Language name ∈ langSet)) originalSectionNames in
      let missingLocalization := negb (is_empty originalSectionNames) && is_empty Names in
      let filtered := List.map (filterSeatMapSectionLocalization langSet) sections in
      (Sec Names (List.map fst filtered) rest,
       fold_left orb (List.map snd filtered) missingLocalization)
  end.

Definition filterSeatMapLocalization (seatMap : SeatMap) (languages : list Z) : SeatMap * bool :=
  let langSet : gset Z := list_to_set languages in
  let filtered := List.map (filterSeatMapSectionLocalization langSet) (map_Sections seatMap) in
  ({| map_Id := map_Id seatMap; map_Sections := List.map fst filtered; map_rest := map_rest seatMap |},
   fold_left orb (List.map snd filtered) false).

(** ** Seat map (seat_map.go) *)

Inductive SeatMapResponse :=
  | SeatMapResponse_SuccessResponse (alerts : list string) (seatMap : SeatMap)
  | SeatMapResponse_ErrorResponse (errors : list (ErrorCode * string)).

Definition SeatMap_ (SeatMapV4 : list SeatMap) (MapId : option MapID) (Languages : list Z)
    : SeatMapResponse :=
  match filterSeatMapByID SeatMapV4 MapId with
  | None =>
      SeatMapResponse_ErrorResponse (ErrorHeaderV4 ERROR_CODE_INVALID_IDENTIFIERS "Seat map not found")
  | Some seatMap =>
      let '(seatMap, missingLocalization) := filterSeatMapLocalization seatMap Languages in
      SeatMapResponse_SuccessResponse
        (if missingLocalization : bool then
           AddHeaderAlertV4 SuccessHeaderV4 "Seat map is missing localized string for requested languages"
         else SuccessHeaderV4)
        seatMap
  end.

(** ** Availability (seat_map_availability.go) *)

Inductive Identifier :=
  | Identifier_SearchResultIdentifier (i : option SearchResultIdentifier)
  | Identifier_MintId (id : option string)
  | Identifier_none.

Inductive SeatMapAvailabilityResponse :=
  | Availability_SuccessResponse (seatMap : SeatMapInventory)
  | Availability_ErrorResponse (errors : list (ErrorCode * string)).

(** What is answered for the seat map of an identifier. *)
Definition availability (data : list SeatMapInventory) (seatMapID : string)
    : outcome SeatMapAvailabilityResponse :=
  found ← filterSeatMapAvailabilityByID data seatMapID;
  match found with
  | None =>
      Ok (Availability_ErrorResponse (ErrorHeaderV4 ERROR_CODE_INVALID_IDENTIFIERS
        "Seat map availability not found for given identifier"))
  | Some seatMapAvailability => Ok (Availability_SuccessResponse seatMapAvailability)
  end.

Definition SeatMapAvailability {X} `{!Others X} (SeatMapAvailabilityV4 : list SeatMapInventory)
    (identifier : Identifier) : M X SeatMapAvailabilityResponse :=
  seatMapID ←
    match identifier with
    | Identifier_SearchResultIdentifier i =>
        i ← liftO (deref i); id ← liftO (deref (SearchId i));
        found ← reading (GetSearchResult id);
        retS match found with Some stored => SeatMapID (s_Data stored) | None => "" end
    | Identifier_MintId id =>
        id ← liftO (deref id);
        found ← reading (GetMintResult id);
        retS match found with Some stored => m_SeatMapID stored | None => "" end
    | Identifier_none => retS ""
    end;
  liftO (availability SeatMapAvailabilityV4 seatMapID).

(** ** Lemmas *)

(** Induction over a section and its subsections. *)
Lemma section_ind' (P : section → Prop) :
  (∀ names sections rest, Forall P sections → P (Sec names sections rest)) → ∀ s, P s.
Proof.
  intros H. fix IH 1. intros [names sections rest]. apply H.
  induction sections as [|s sections IHs]; constructor; [apply IH|exact IHs].
Qed.

(** A section with only the names in the languages, all the way down. *)
Fixpoint localized (languages : list Z) (s : section) : section :=
  match s with
  | Sec names sections rest =>
      Sec (List.filter (λ name, bool_decide (name_Language name ∈ languages)) names)
        (List.map (localized languages) sections) rest
  end.

(** A section is in a forest, at any depth. *)
Inductive within (s : section) : list section → Prop :=
  | within_here l : within s (s :: l)
  | within_down names sections rest l : within s sections → within s (Sec names sections rest :: l)
  | within_next t l : within s l → within s (t :: l).

Definition unnamed (languages : list Z) (s : section) : Prop :=
  match s with
  | Sec names _ _ => names ≠ [] ∧ ∀ name, name ∈ names → name_Language name ∉ languages
  end.

Lemma fold_orb (l : list bool) b : fold_left orb l b = true ↔ b = true ∨ true ∈ l.
Proof.
  revert b. induction l as [|c l IH]; simpl; intros b.
  - split; [by left|]. intros [?|H]; [done|by apply elem_of_nil in H].
  - rewrite IH, elem_of_cons, orb_true_iff. naive_solver.
Qed.

Lemma missing_names names (languages : list Z) :
  negb (is_empty names) &&
  is_empty (List.filter (λ name, bool_decide (name_Language name ∈ languages)) names) = true ↔
  names ≠ [] ∧ ∀ name, name ∈ names → name_Language name ∉ languages.
Proof.
  rewrite andb_true_iff, negb_true_iff. split.
  - intros [Hn Hf]. split; [by destruct names|]. intros name Hname Hl.
    assert (name ∈ List.filter (λ name, bool_decide (name_Language name ∈ languages)) names) as Hin.
    { apply filter_in. split; [done|by apply bool_decide_eq_true]. }
    destruct (List.filter _ names); [by apply elem_of_nil in Hin|done].
  - intros [Hn Hall]. split; [by destruct names|]. destruct (List.filter _ names) as [|name l] eqn:E; [done|].
    assert (name ∈ List.filter (λ name, bool_decide (name_Language name ∈ languages)) names) as Hin
      by (rewrite E; left).
    rewrite filter_in, bool_decide_eq_true in Hin.
    destruct Hin as [Hin Hl]. by destruct (Hall name Hin).
Qed.

Lemma within_single s t : within t [s] ↔ t = s ∨ ∃ names sections rest, s = Sec names sections rest ∧ within t sections.
Proof.
  split.
  - intros H. inversion H as [|names sections rest l Hw|t' l Hw]; subst; [by left|right; eauto|inversion Hw].
  - intros [->|(names & sections & rest & -> & Hw)]; [constructor 1|by constructor 2].
Qed.

Lemma within_list t l : within t l ↔ ∃ s, s ∈ l ∧ within t [s].
Proof.
  split.
  - induction 1 as [l|names sections rest l Hw _|s l Hw (u & Hu & Hs)].
    + exists t. split; [by left|constructor 1].
    + eexists. split; [by left|by constructor 2].
    + exists u. split; [by right|done].
  - intros (s & Hs & Hw). induction Hs as [l|s' t' l Hs IH].
    + apply within_single in Hw as [->|(names & sections & rest & -> & Hw)]; [constructor 1|by constructor 2].
    + constructor 3. by apply IH.
Qed.

(** The names a section is left with, and when it is said that some are missing. *)
Lemma filterSeatMapSectionLocalization_spec languages s :
  languages ≠ [] →
  (filterSeatMapSectionLocalization (list_to_set languages) s).1 = localized languages s ∧
  ((filterSeatMapSectionLocalization (list_to_set languages) s).2 = true ↔
   ∃ t, within t [s] ∧ unnamed languages t).
Proof.
  intros Hne. induction s as [names sections rest IH] using section_ind'. simpl.
  rewrite bool_decide_false by (destruct languages; [done|set_solver]).
  assert (List.filter (λ name, bool_decide (name_Language name ∈ (list_to_set languages : gset Z))) names =
    List.filter (λ name, bool_decide (name_Language name ∈ languages)) names) as ->.
  { apply List.filter_ext. intros name. apply bool_decide_ext. set_solver. }
  simpl. split.
  - f_equal. rewrite List.map_map. apply List.map_ext_in. intros t Ht%list_elem_of_In.
    rewrite Forall_forall in IH. apply IH, Ht.
  - rewrite fold_orb, missing_names, List.map_map, list_elem_of_In, in_map_iff.
    rewrite Forall_forall in IH. setoid_rewrite within_single.
    split.
    + intros [Hn|(t & Hf & Ht%list_elem_of_In)]; [eexists; split; [by left|done]|].
      apply IH in Hf as (u & Hu & Hun); [|done]. exists u. split; [|done]. right.
      eexists _, _, _. split; [done|]. apply within_list. eauto.
    + intros (t & [->|(n & ss & r & [= <- <- <-] & Hw)] & Hun); [by left|].
      right. apply within_list in Hw as (s & Hs & Hw). exists s.
      split; [|by apply list_elem_of_In]. apply IH; eauto.
Qed.

(** What the handler answers: the seat map with the names in the languages asked for, all
    of them if none is, and an alert just when a section has names in none of them. *)
Lemma SeatMap_answers data id languages :
  match SeatMap_ data id languages with
  | SeatMapResponse_ErrorResponse _ => ∀ m, m ∈ data → map_Id m ≠ id
  | SeatMapResponse_SuccessResponse alerts m' => ∃ m, m ∈ data ∧ map_Id m = id ∧
      map_Id m' = id ∧ map_rest m' = map_rest m ∧
      map_Sections m' =
        (if is_empty languages then map_Sections m else List.map (localized languages) (map_Sections m)) ∧
      (alerts ≠ [] ↔ languages ≠ [] ∧ ∃ s, within s (map_Sections m) ∧ unnamed languages s)
  end.
Proof.
  unfold SeatMap_, filterSeatMapByID. destruct (List.find _ data) as [m|] eqn:Ef.
  2: { intros m Hm%list_elem_of_In <-. apply (List.find_none _ _ Ef) in Hm.
       by apply bool_decide_eq_false in Hm. }
  apply List.find_some in Ef as [Hm%list_elem_of_In <-%bool_decide_eq_true_1].
  unfold filterSeatMapLocalization. rewrite !List.map_map.
  exists m. split_and!; try done; simpl.
  - destruct languages as [|l languages]; cbn [is_empty].
    + etransitivity; [|apply List.map_id]. apply List.map_ext. by intros [].
    + apply List.map_ext. intros s. by apply filterSeatMapSectionLocalization_spec.
  - set (missing := fold_left _ _ _).
    assert (missing = true ↔ languages ≠ [] ∧ ∃ s, within s (map_Sections m) ∧ unnamed languages s) as Hmiss.
    { unfold missing. rewrite fold_orb, list_elem_of_In, in_map_iff. destruct languages as [|l languages].
      - split; [intros [?|(s & Hs & _)]; [done|by destruct s]|by intros [? _]].
      - pose proof (λ s, filterSeatMapSectionLocalization_spec (l :: languages) s ltac:(done)) as Hspec.
        split.
        + intros [?|(s & Hs & Hin%list_elem_of_In)]; [done|]. split; [done|].
          apply Hspec in Hs as (t & Ht & Hu). exists t. split; [|done]. apply within_list. eauto.
        + intros [_ (t & (s & Hs & Ht)%within_list & Hu)]. right. exists s.
          split; [|by apply list_elem_of_In]. apply Hspec. eauto. }
    rewrite <-Hmiss. destruct missing; split; done.
Qed.

(** *** Availability of what was offered *)

(** A search that is remembered, until its entry expires. *)
Lemma availability_of_search {X} `{!Others X} `{!OthersLaws X} data sid r d w (x : X) :
  sid ∈ issued w → searchResults (store w) !! sid = Some d → rtc activity w (world_of x) →
  clock (world_of (others x)) ≤ s_CreatedAt d + EntryTimeout →
  runs (SeatMapAvailability data
      (Identifier_SearchResultIdentifier (Some {| SearchId := Some sid; ResultId := r |}))) x
    (λ _ o, o = availability data (SeatMapID (s_Data d))).
Proof.
  intros Hid Hd Hw Hc. unfold SeatMapAvailability. eapply runs_bind with (P := λ _ o, o = Ok (SeatMapID (s_Data d))).
  - apply runs_lift; [intros i [= <-]|done..]. apply runs_lift; [intros i [= <-]|done..].
    apply runs_reading. intros y -> Hy. apply runs_ret. unfold GetSearchResult.
    pose proof (rtc_trans _ _ _ Hw Hy) as Hk. apply activities_kept in Hk as [Hk _].
    by rewrite (Hk _ _ Hid Hd Hc).
  - by intros t s [= ->].
  - done.
  - done.
Qed.

(** The seats of a search of trips are those of the first segment of its first result,
    whatever happens to the store until the search expires. *)
Lemma offered_seats {X} `{!Others X} `{!OthersLaws X} {C L T D} `{!EqDecision C, !EqDecision L, !EqDecision T}
    data cfg (id : T → Z) text1 text2
    (trips : list (Trip (SupplierProductCode := C) (LocationCode := L) (D := D) (P := PriceV5)))
    req alerts sid results seat c r (x y z : X) :
  TransportSearchV5 (Ok false) cfg id text1 text2 trips req x =
    (y, Ok (Transport_SuccessResponse alerts sid results)) →
  ts_Currency req = Some (Some c) → showable cfg (Some c) → Z.of_nat (length results) ≤ MaxUint32 →
  firstSeatMap results = Ok seat → rtc activity (world_of y) (world_of z) →
  clock (world_of (others z)) ≤ instant (Expiration sid) →
  runs (SeatMapAvailability data
      (Identifier_SearchResultIdentifier (Some {| SearchId := Some (Id sid); ResultId := r |}))) z
    (λ _ o, o = availability data seat).
Proof.
  intros E Hc Hs Hl Hseat Hz Ht.
  assert (results ≠ [] ∧ offering sid seat ((λ r, (tr_ResultId r, tr_TotalPrice r)) <$> results) (world_of y))
    as (_ & Hid & _ & d & Hd & _ & <- & He).
  { split; [by intros ->|]. destruct results as [|first results]; [done|].
    eapply (ran_offers found_trips) with (sid := sid) (seat := seat)
      (results := (λ r, (tr_ResultId r, tr_TotalPrice r)) <$> (first :: results)) in E as [?|Ho];
      [done|exact Ho|..].
    - unfold TransportSearchV5. rewrite Hc. apply searchTransport_offers. by intros ? [= <-].
    - simpl in Hseat |- *. by rewrite Hseat.
    - by rewrite length_fmap. }
  eapply availability_of_search; [done..|lia].
Qed.
End SeatMaps.

(** ** A cabin with an unnamed deck *)
Module Toy.
Definition english : Z := 1.
Definition german : Z := 2.
Definition deck (names : list LocalizedString) : section (R := unit) := Sec names [] tt.
Definition cabin : SeatMap (MapID := Z) (R := unit) := {|
  map_Id := Some 7; map_rest := tt;
  map_Sections := [Sec [{| name_Language := english; name_Value := "Cabin" |};
                        {| name_Language := german; name_Value := "Kabine" |}]
    [deck []; deck [{| name_Language := german; name_Value := "Deck" |}]] tt] |}.
End Toy.

(** In English the cabin keeps its name, one deck loses its own, which is told. *)
Example cabin_in_english :
  SeatMap_ [Toy.cabin] (Some 7) [Toy.english] =
  SeatMapResponse_SuccessResponse ["Seat map is missing localized string for requested languages"]
    {| map_Id := Some 7; map_rest := tt;
       map_Sections := [Sec [{| name_Language := Toy.english; name_Value := "Cabin" |}]
                          [Toy.deck []; Toy.deck []] tt] |}.
Proof. vm_compute. reflexivity. Qed.
