(* ===== verification/MockData.v ===== *)
(** * The data of the partner plugin mock (src/pp-mock/services/data)

    The mock embeds files of JSON and reads them when its package is initialised: an array
    of messages each, which are unmarshalled and validated, and checked against each other.
    A failure panics, so the mock does not start with data its handlers do not expect. *)
From S2P Require Import Prelude MockPrice MockSearch.
From stdpp Require Import gmap.

#[local] Open Scope Z_scope.
#[local] Arguments String.append : simpl nomatch.

(** A loop with a state, which may fail. *)
Fixpoint foldO {A S} (f : A → S → outcome S) (l : list A) (s : S) : outcome S :=
  match l with [] => Ok s | a :: l => s ← f a s; foldO f l s end.

(** ** Reading a file (mock_data.go) *)

Class ProtoMessage (Raw T : Type) := {
  protojson_Unmarshal : Raw → outcome T;
  protovalidate_Validate : T → option error
}.

Section Files.
Context {Raw : Type}.
(** [json.Decoder.Decode] into an array of raw messages. *)
Variable decode : list Byte.byte → outcome (list Raw).

Section Message.
Context {T : Type} `{!ProtoMessage Raw T}.

Fixpoint unmarshal_items (raws : list Raw) : outcome (list T) :=
  match raws with
  | [] => Ok []
  | raw :: raws =>
      msg ← wrapO "item %d: protojson unmarshal failed: %w" (protojson_Unmarshal raw);
      messages ← unmarshal_items raws;
      Ok (msg :: messages)
  end.
Fixpoint validate_items (messages : list T) : outcome unit :=
  match messages with
  | [] => Ok tt
  | item :: messages =>
      match protovalidate_Validate item with
      | Some e => Err (Wrapf "error validating item %d: %w" e)
      | None => validate_items messages
      end
  end.

Definition unmarshalStrictAndValidate (data : list Byte.byte) : outcome (list T) :=
  raws ← wrapO "invalid JSON array: %w" (decode data);
  messages ← unmarshal_items raws;
  validate_items messages;;
  Ok messages.

Definition mustUnmarshalStrictAndValidate (data : list Byte.byte) (panicMsg : string) : outcome (list T) :=
  match unmarshalStrictAndValidate data with
  | Err _ => Panic (panicMsg +:+ ": %w")
  | o => o
  end.
End Message.
End Files.

(** ** Service facts (accommodation/service_v5.go) *)

Inductive ServiceFact := Fact (Code : string) (Details : list ServiceFact).

Section Facts.
Context {ServiceFactDefinition : Type} (definition_Code : ServiceFactDefinition → string).

Record helper := {
  expectedDefinitionsLen : nat;
  definitions : gmap string ServiceFactDefinition
}.

Definition unmatched (code : string) : string :=
  "mock data error: service fact code " +:+ code +:+ " has no matching fact definition".

(** The fact and then its details; the first definition with its code is taken. *)
Fixpoint setFactDefinition (factDefinitions : list ServiceFactDefinition) (fact : ServiceFact) (h : helper)
    : outcome helper :=
  match fact with
  | Fact code details =>
      match List.find (λ d, bool_decide (code = definition_Code d)) factDefinitions with
      | None => Panic (unmatched code)
      | Some factDefinition =>
          foldO (setFactDefinition factDefinitions) details
            {| expectedDefinitionsLen := S (expectedDefinitionsLen h);
               definitions := <[code := factDefinition]> (definitions h) |}
      end
  end.

Definition VerifyAndGetMapping (facts : list ServiceFact) (factDefinitions : list ServiceFactDefinition)
    : outcome (gmap string ServiceFactDefinition) :=
  h ← foldO (setFactDefinition factDefinitions) facts {| expectedDefinitionsLen := 0; definitions := ∅ |};
  if bool_decide (size (definitions h) = expectedDefinitionsLen h) then Ok (definitions h)
  else Panic "mock data error: some service facts have no matching fact definitions".
End Facts.
Arguments expectedDefinitionsLen {_} _.
Arguments definitions {_} _.

(** ** Activities (activity/activity_v4.go, activity_v5.go) *)

Section Activities.
Context {SupplierProductCode R : Type} `{!EqDecision SupplierProductCode}.

(** Units, services and zones by their codes. *)
Record ActivityExtendedInfo := {
  ext_SupplierCode : SupplierProductCode;
  Units : list string;
  Services : list string;
  Zones : list string;
  ext_rest : R
}.
Record SearchResultCodes := {
  found_SupplierCode : SupplierProductCode;
  UnitCode : string;
  found_ServiceCode : string;
  ZoneCodes : list string
}.

Definition check_result (activity : ActivityExtendedInfo) (unit_ service : string) (r : SearchResultCodes)
    : outcome unit :=
  if negb (bool_decide (ext_SupplierCode activity = found_SupplierCode r)) then
    Panic "activityExtendedInfo and searchResult supplier code mismatch"
  else if negb (bool_decide (unit_ = UnitCode r)) then
    Panic "activityExtendedInfo and searchResult unit code mismatch"
  else if negb (bool_decide (service = found_ServiceCode r)) then
    Panic "activityExtendedInfo and searchResult service code mismatch"
  else if negb (forallb (λ zone, existsb (λ z, bool_decide (z = zone)) (Zones activity)) (ZoneCodes r)) then
    Panic "activityExtendedInfo and searchResult zone code mismatch"
  else Ok tt.

Definition expectedCount (extended : list ActivityExtendedInfo) : nat :=
  foldr (λ activity n, length (Units activity) * length (Services activity) + n)%nat 0%nat extended.

(** [i] counts the search results. *)
Definition Verify (extended : list ActivityExtendedInfo) (searchResults : list SearchResultCodes)
    : outcome nat :=
  if negb (length searchResults =? expectedCount extended)%nat then
    Panic "mock data error: expected %d search results but got %d"
  else
    foldO (λ activity, foldO (λ unit_, foldO (λ service i,
      match searchResults !! i with
      | None => Panic "index out of range"
      | Some searchResult => check_result activity unit_ service searchResult;; Ok (S i)
      end) (Services activity)) (Units activity)) extended 0%nat.

(** activity_v5.go has the same code for the types of version 5. *)
Definition VerifyV5 := Verify.
End Activities.
Arguments ActivityExtendedInfo : clear implicits.
Arguments SearchResultCodes : clear implicits.

(** ** Trips (transport/tripv4.go, tripv5.go) *)

Section Trips.
Context {SupplierProductCode LocationCode B E : Type} `{!EqDecision SupplierProductCode}.
Context {P : Type}.

(** A location may be given in another way than by a code. *)
Record SegmentBasic := {
  basic_Departure : Z;
  basic_Arrival : Z;
  basic_DepartureLocation : option LocationCode;
  basic_ArrivalLocation : option LocationCode
}.
Record TripBasic := {
  basic_SupplierCode : SupplierProductCode;
  basic_Segments : list SegmentBasic;
  basic_rest : B
}.
(** Of a segment of the extended form the searches read the seat map. *)
Record TripExtended := {
  extended_SupplierCode : SupplierProductCode;
  extended_Segments : list (option string);
  extended_Price : P;
  extended_rest : E
}.
Record TripV4 := { Basic : TripBasic; Extended : TripExtended }.

Definition TripV4_Verify (t : TripV4) : outcome unit :=
  if negb (bool_decide (basic_SupplierCode (Basic t) = extended_SupplierCode (Extended t))) then
    Err (Errorf "trip basic and extended supplier code mismatch")
  else if negb (length (basic_Segments (Basic t)) =? length (extended_Segments (Extended t)))%nat then
    Err (Errorf "trip basic and extended segments length mismatch")
  else if negb (forallb (λ s, bool_decide (is_Some (basic_DepartureLocation s)) &&
                              bool_decide (is_Some (basic_ArrivalLocation s))) (basic_Segments (Basic t))) then
    Err (Errorf "trip segment %d missing departure or arrival location code")
  else Ok tt.

(** One trip for each, the two lists having the same length. *)
Fixpoint pair_trips (basic : list TripBasic) (extended : list TripExtended) : outcome (list TripV4) :=
  match basic with
  | [] => Ok []
  | tripBasic :: basic =>
      match extended with
      | [] => Panic "index out of range"
      | tripExtended :: extended =>
          let trip := {| Basic := tripBasic; Extended := tripExtended |} in
          match TripV4_Verify trip with
          | Ok _ => trips ← pair_trips basic extended; Ok (trip :: trips)
          | _ => Panic "mock data error: trip basic/extended at index %d are invalid: %w"
          end
      end
  end.

Definition VerifyAndGetTrips (basic : list TripBasic) (extended : list TripExtended) : outcome (list TripV4) :=
  if negb (length basic =? length extended)%nat then
    Panic "mock data error: number of transport v4 basic trips (%d) does not match number of extended trips (%d)"
  else pair_trips basic extended.

(** tripv5.go has the same code for the types of version 5. *)
Definition VerifyAndGetTripsV5 (basic : list TripBasic) (extended : list TripExtended) : outcome (list TripV4) :=
  if negb (length basic =? length extended)%nat then
    Panic "mock data error: number of transport v5 basic trips (%d) does not match number of extended trips (%d)"
  else pair_trips basic extended.

Definition BasicV4 (trips : list TripV4) : list TripBasic := Basic <$> trips.
Definition ExtendedV4 (trips : list TripV4) : list TripExtended := Extended <$> trips.

(** What the searches see of a trip ([MockSearch]). *)
Definition joined (t : TripV4) : Trip (SupplierProductCode := SupplierProductCode) (LocationCode := LocationCode)
    (D := B * E) (P := P) := {|
  trip_SupplierCode := basic_SupplierCode (Basic t);
  trip_Segments := zip_with (λ s seat, {|
    seg_Departure := basic_Departure s; seg_Arrival := basic_Arrival s;
    seg_DepartureLocation := basic_DepartureLocation s; seg_ArrivalLocation := basic_ArrivalLocation s;
    seg_SeatMapId := seat |}) (basic_Segments (Basic t)) (extended_Segments (Extended t));
  trip_Price := extended_Price (Extended t);
  trip_rest := (basic_rest (Basic t), extended_rest (Extended t)) |}.
End Trips.

(** ** Lemmas *)

Lemma foldO_app {A S} (f : A → S → outcome S) l l' s :
  foldO f (l ++ l') s = (s ← foldO f l s; foldO f l' s).
Proof. revert s. induction l as [|a l IH]; intros s; simpl; [done|]. destruct (f a s); simpl; auto. Qed.

Lemma foldO_flat_map {A B S} (f : B → S → outcome S) (g : A → list B) l s :
  foldO f (flat_map g l) s = foldO (λ a, foldO f (g a)) l s.
Proof.
  revert s. induction l as [|a l IH]; intros s; simpl; [done|]. rewrite foldO_app.
  destruct (foldO f (g a) s); simpl; auto.
Qed.

Lemma foldO_map {A B S} (f : B → S → outcome S) (g : A → B) l s :
  foldO f (List.map g l) s = foldO (λ a, f (g a)) l s.
Proof. revert s. induction l as [|a l IH]; intros s; simpl; [done|]. destruct (f (g a) s); simpl; auto. Qed.

Lemma foldO_ext {A S} (f g : A → S → outcome S) l s : (∀ a s, f a s = g a s) → foldO f l s = foldO g l s.
Proof. intros H. revert s. induction l as [|a l IH]; intros s; simpl; [done|]. rewrite H. destruct (g a s); simpl; auto. Qed.

(** A computation that ends or panics. *)
Definition no_error {A} (o : outcome A) : Prop := ∀ e, o ≠ Err e.

Lemma no_error_bind {A B} (m : outcome A) (k : A → outcome B) :
  no_error m → (∀ a, no_error (k a)) → no_error (a ← m; k a).
Proof. intros Hm Hk e. destruct m as [a|e'|p]; simpl; [apply Hk|by destruct (Hm e')|done]. Qed.

Lemma no_error_foldO {A S} (f : A → S → outcome S) l s :
  (∀ a s, no_error (f a s)) → no_error (foldO f l s).
Proof. intros Hf. revert s. induction l as [|a l IH]; intros s; [done|]. by apply no_error_bind. Qed.

(** *** Files *)

Section Files.
Context {Raw T : Type} `{!ProtoMessage Raw T}.
Variable decode : list Byte.byte → outcome (list Raw).

Lemma unmarshal_items_Ok raws (l : list T) :
  unmarshal_items raws = Ok l ↔ Forall2 (λ raw msg, protojson_Unmarshal raw = Ok msg) raws l.
Proof.
  revert l. induction raws as [|raw raws IH]; intros l; simpl.
  - split; [by intros [= <-]|by intros ->%Forall2_nil_inv_l].
  - split.
    + intros (msg & Hm & E)%obind_Ok. apply wrapO_Ok in Hm. apply obind_Ok in E as (ms & Hms & E).
      simplify_eq. constructor; [done|by apply IH].
    + intros (msg & ms & Hm & Hms & ->)%Forall2_cons_inv_l. apply IH in Hms. rewrite Hm, Hms. done.
Qed.

Lemma validate_items_Ok (l : list T) u :
  validate_items l = Ok u ↔ Forall (λ msg, protovalidate_Validate msg = None) l.
Proof.
  destruct u. induction l as [|msg l IH]; simpl; [by split; [constructor|]|].
  rewrite Forall_cons. case_match; naive_solver.
Qed.

(** What is read is the valid messages of the file; anything else is a panic, not an error. *)
Lemma file_read data panicMsg (l : list T) :
  mustUnmarshalStrictAndValidate decode data panicMsg = Ok l ↔
  ∃ raws, decode data = Ok raws ∧ Forall2 (λ raw msg, protojson_Unmarshal raw = Ok msg) raws l ∧
    Forall (λ msg, protovalidate_Validate msg = None) l.
Proof.
  unfold mustUnmarshalStrictAndValidate.
  assert (unmarshalStrictAndValidate decode data = Ok l ↔
    ∃ raws, decode data = Ok raws ∧ Forall2 (λ raw msg, protojson_Unmarshal raw = Ok msg) raws l ∧
      Forall (λ msg, protovalidate_Validate msg = None) l) as <-.
  2: { by destruct (unmarshalStrictAndValidate decode data). }
  unfold unmarshalStrictAndValidate. split.
  - intros (raws & Hr & E)%obind_Ok. apply wrapO_Ok in Hr. apply obind_Ok in E as (ms & Hms & E).
    apply obind_Ok in E as (u & Hu & E). simplify_eq. exists raws. split; [done|].
    split; [by apply unmarshal_items_Ok|by eapply validate_items_Ok].
  - intros (raws & -> & Hms%unmarshal_items_Ok & Hv). simpl. rewrite Hms. simpl.
    by rewrite (proj2 (validate_items_Ok l tt) Hv).
Qed.

Lemma file_no_error data panicMsg : no_error (mustUnmarshalStrictAndValidate (T := T) decode data panicMsg).
Proof. intros e. unfold mustUnmarshalStrictAndValidate. by destruct (unmarshalStrictAndValidate decode data). Qed.
End Files.

(** *** Service facts *)

Section FactLemmas.
Context {D : Type} (definition_Code : D → string) (factDefinitions : list D).

(** The codes of facts and their details, at any depth. *)
Fixpoint codes (fact : ServiceFact) : list string :=
  match fact with Fact code details => code :: flat_map codes details end.

Lemma ServiceFact_ind' (P : ServiceFact → Prop) :
  (∀ code details, Forall P details → P (Fact code details)) → ∀ fact, P fact.
Proof.
  intros H. fix IH 1. intros [code details]. apply H.
  induction details as [|fact details IHd]; constructor; [apply IH|exact IHd].
Qed.

(** The first definition of a code. *)
Definition definition_of (code : string) : option D :=
  List.find (λ d, bool_decide (code = definition_Code d)) factDefinitions.

Definition one_fact (code : string) (h : helper) : outcome helper :=
  match definition_of code with
  | None => Panic (unmatched code)
  | Some d => Ok {| expectedDefinitionsLen := S (expectedDefinitionsLen h);
                    definitions := <[code := d]> (definitions h) |}
  end.

Lemma one_fact_eq code h : one_fact code h =
  match definition_of code with
  | None => Panic (unmatched code)
  | Some d => Ok {| expectedDefinitionsLen := S (expectedDefinitionsLen h);
                    definitions := <[code := d]> (definitions h) |}
  end.
Proof. done. Qed.

(** The recursion is a loop over the codes. *)
Lemma setFactDefinition_codes fact h :
  setFactDefinition definition_Code factDefinitions fact h = foldO one_fact (codes fact) h.
Proof.
  revert h. induction fact as [code details IH] using ServiceFact_ind'. intros h. simpl.
  rewrite (one_fact_eq code h). unfold definition_of.
  destruct (List.find _ factDefinitions) as [d|]; [|done]. simpl. rewrite foldO_flat_map.
  generalize {| expectedDefinitionsLen := S (expectedDefinitionsLen h); definitions := <[code:=d]> (definitions h) |}.
  clear h. induction IH as [|fact details Hf _ IHd]; intros h; [done|]. simpl. rewrite Hf.
  destruct (foldO one_fact (codes fact) h); simpl; auto.
Qed.

Lemma one_fact_loop l h h' :
  foldO one_fact l h = Ok h' ↔
  Forall (λ c, is_Some (definition_of c)) l ∧
  expectedDefinitionsLen h' = (length l + expectedDefinitionsLen h)%nat ∧
  ∀ c, definitions h' !! c = if bool_decide (c ∈ l) then definition_of c else definitions h !! c.
Proof.
  revert h. induction l as [|code l IH]; intros h; simpl.
  { split; [intros [= <-]; done|]. intros (_ & E1 & E2). destruct h, h'. simpl in *. subst. repeat f_equal.
    apply map_eq. intros c. by rewrite E2. }
  rewrite Forall_cons. rewrite one_fact_eq. destruct (definition_of code) as [d|] eqn:Hd; simpl.
  2: { split; [done|]. intros [[[? ?] _] _]. congruence. }
  rewrite IH. simpl. split.
  - intros (Hf & He & Hl). split_and!; [by eauto|done|lia|]. intros c. rewrite Hl.
    destruct (decide (c = code)) as [->|Hc].
    + rewrite lookup_insert_eq, (bool_decide_true (code ∈ code :: l)) by left. case_bool_decide; congruence.
    + rewrite lookup_insert_ne by done. rewrite (bool_decide_ext (c ∈ l) (c ∈ code :: l)); [done|set_solver].
  - intros ([_ Hf] & He & Hl). split_and!; [done|lia|]. intros c. rewrite Hl.
    destruct (decide (c = code)) as [->|Hc].
    + rewrite lookup_insert_eq, (bool_decide_true (code ∈ code :: l)) by left. case_bool_decide; congruence.
    + rewrite lookup_insert_ne by done. rewrite (bool_decide_ext (c ∈ l) (c ∈ code :: l)); [done|set_solver].
Qed.

Lemma size_set_le (l : list string) : (size (list_to_set l : gset string) ≤ length l)%nat.
Proof.
  induction l as [|c l IH]; simpl; [reflexivity|].
  destruct (decide (c ∈ (list_to_set l : gset string))) as [Hc|Hc].
  - replace ({[c]} ∪ list_to_set l : gset string) with (list_to_set l : gset string) by set_solver. lia.
  - rewrite size_union by set_solver. rewrite size_singleton. lia.
Qed.

Lemma size_set_NoDup (l : list string) : size (list_to_set l : gset string) = length l ↔ NoDup l.
Proof.
  split; [|apply size_list_to_set]. induction l as [|c l IH]; [constructor|]. simpl. intros E.
  pose proof (size_set_le l) as Hle.
  destruct (decide (c ∈ (list_to_set l : gset string))) as [Hc|Hc].
  - replace ({[c]} ∪ list_to_set l : gset string) with (list_to_set l : gset string) in E by set_solver. lia.
  - rewrite size_union, size_singleton in E by set_solver. constructor; [set_solver|]. apply IH. lia.
Qed.

Lemma mapping_no_error facts : no_error (VerifyAndGetMapping definition_Code facts factDefinitions).
Proof.
  apply no_error_bind; [|intros h e; by case_bool_decide].
  apply no_error_foldO. intros fact h. rewrite setFactDefinition_codes. apply no_error_foldO.
  intros c h' e. rewrite one_fact_eq. by destruct (definition_of c).
Qed.

(** The mapping is made, of each code to its first definition, exactly when every fact at
    any depth has a definition and no code is that of two facts; else the mock panics. *)
Lemma service_facts_mapping facts m :
  VerifyAndGetMapping definition_Code facts factDefinitions = Ok m ↔
  NoDup (flat_map codes facts) ∧ Forall (λ c, is_Some (definition_of c)) (flat_map codes facts) ∧
  ∀ c, m !! c = if bool_decide (c ∈ flat_map codes facts) then definition_of c else None.
Proof.
  unfold VerifyAndGetMapping. set (h0 := {| expectedDefinitionsLen := 0; definitions := ∅ |}).
  assert (∀ h, foldO (setFactDefinition definition_Code factDefinitions) facts h =
    foldO one_fact (flat_map codes facts) h) as Hloop.
  { intros h. rewrite foldO_flat_map. apply foldO_ext, setFactDefinition_codes. }
  assert (∀ h : helper, Forall (λ c, is_Some (definition_of c)) (flat_map codes facts) →
    (∀ c, definitions h !! c = if bool_decide (c ∈ flat_map codes facts) then definition_of c else None) →
    size (definitions h) = size (list_to_set (flat_map codes facts) : gset string)) as Hsize.
  { intros h Hf Hl. rewrite <-size_dom. f_equal. apply set_eq. intros c. rewrite elem_of_dom, Hl, elem_of_list_to_set.
    case_bool_decide as Hc; [|by split; [intros [? ?]|]]. rewrite Forall_forall in Hf. by split; auto. }
  split.
  - intros (h & Hh & E)%obind_Ok. rewrite Hloop in Hh. apply one_fact_loop in Hh as (Hf & He & Hl).
    case_bool_decide as Hs; simplify_eq. split_and!; [|done|intros c; by rewrite Hl].
    apply size_set_NoDup. rewrite <-(Hsize h Hf); [|intros c; by rewrite Hl]. simpl in He. lia.
  - intros (Hnd & Hf & Hl). rewrite Hloop.
    set (h := {| expectedDefinitionsLen := length (flat_map codes facts); definitions := m |}).
    rewrite (proj2 (one_fact_loop (flat_map codes facts) h0 h)); simpl.
    + rewrite bool_decide_true; [done|]. apply size_set_NoDup in Hnd. rewrite <-Hnd. by apply (Hsize h).
    + split_and!; [done|simpl; lia|]. done.
Qed.
End FactLemmas.

(** *** Activities *)

Section ActivityLemmas.
Context {C R : Type} `{!EqDecision C}.
Implicit Types (activity : ActivityExtendedInfo C R) (r : SearchResultCodes C).

(** An offer is a unit of an activity at one of its services. *)
Definition offers_of (extended : list (ActivityExtendedInfo C R))
    : list (ActivityExtendedInfo C R * string * string) :=
  flat_map (λ activity, flat_map (λ unit_, List.map (λ service, (activity, unit_, service))
    (Services activity)) (Units activity)) extended.

Definition offered (offer : ActivityExtendedInfo C R * string * string) r : Prop :=
  let '(activity, unit_, service) := offer in
  ext_SupplierCode activity = found_SupplierCode r ∧ unit_ = UnitCode r ∧ service = found_ServiceCode r ∧
  ∀ zone, zone ∈ ZoneCodes r → zone ∈ Zones activity.

Lemma check_result_Ok activity unit_ service r u :
  check_result activity unit_ service r = Ok u ↔ offered (activity, unit_, service) r.
Proof.
  unfold check_result, offered. destruct u.
  assert (forallb (λ zone, existsb (λ z, bool_decide (z = zone)) (Zones activity)) (ZoneCodes r) = true ↔
    ∀ zone, zone ∈ ZoneCodes r → zone ∈ Zones activity) as <-.
  { rewrite forallb_forall. setoid_rewrite existsb_exists. setoid_rewrite bool_decide_eq_true.
    setoid_rewrite list_elem_of_In. naive_solver. }
  repeat case_bool_decide; simpl; try naive_solver. destruct (forallb _ _); naive_solver.
Qed.

Lemma offers_of_length extended : length (offers_of extended) = expectedCount extended.
Proof.
  induction extended as [|activity extended IH]; simpl; [done|]. rewrite length_app, IH. f_equal.
  induction (Units activity) as [|u us IHu]; simpl; [done|]. by rewrite length_app, length_map, IHu.
Qed.

Definition verify_offer (results : list (SearchResultCodes C))
    (offer : ActivityExtendedInfo C R * string * string) (i : nat) : outcome nat :=
  let '(activity, unit_, service) := offer in
  match results !! i with
  | None => Panic "index out of range"
  | Some searchResult => check_result activity unit_ service searchResult;; Ok (S i)
  end.

Lemma verify_loop results l before rest n :
  results = before ++ rest → length l = length rest →
  foldO (verify_offer results) l (length before) = Ok n ↔ n = length results ∧ Forall2 offered l rest.
Proof.
  revert before rest. induction l as [|[[activity u] s] l IH]; intros before rest -> Hl; destruct rest as [|r rest]; try done; simpl.
  - rewrite app_nil_r. split; [intros [= <-]; by split; [|constructor]|by intros [-> _]].
  - rewrite lookup_app_r, Nat.sub_diag by lia. simpl.
    specialize (IH (before ++ [r]) rest ltac:(by rewrite <-app_assoc) ltac:(simpl in Hl; lia)).
    rewrite length_app, Nat.add_1_r in IH. rewrite Forall2_cons, <-(check_result_Ok activity u s r tt).
    destruct (check_result activity u s r) as [[]|e|p]; simpl; [|naive_solver..]. rewrite IH. naive_solver.
Qed.

Lemma verify_no_error (extended : list (ActivityExtendedInfo C R)) (results : list (SearchResultCodes C)) :
  no_error (Verify extended results).
Proof.
  unfold Verify. destruct (negb _); [done|].
  apply no_error_foldO. intros activity i. apply no_error_foldO. intros u j. apply no_error_foldO. intros s k.
  destruct (results !! k) as [r|]; [|done]. apply no_error_bind; [|done].
  intros e. unfold check_result. by repeat case_match.
Qed.

(** The data starts when the search results are the offers of the activities, one for one in
    their order; the index is then never out of range. *)
Lemma activities_verified extended results n :
  Verify extended results = Ok n ↔ n = length results ∧ Forall2 offered (offers_of extended) results.
Proof.
  unfold Verify. destruct (Nat.eqb_spec (length results) (expectedCount extended)) as [Hl|Hl]; simpl.
  - rewrite <-(verify_loop results (offers_of extended) [] results n eq_refl)
      by by rewrite offers_of_length. simpl. unfold offers_of. rewrite foldO_flat_map.
    f_equiv. apply foldO_ext. intros activity i. rewrite foldO_flat_map.
    apply foldO_ext. intros u j. by rewrite foldO_map.
  - split; [done|]. intros [_ H%Forall2_length]. rewrite offers_of_length in H. congruence.
Qed.
End ActivityLemmas.

(** *** Trips *)

Section TripLemmas.
Context {C L B E P : Type} `{!EqDecision C}.
Implicit Types (t : TripV4 (SupplierProductCode := C) (LocationCode := L) (B := B) (E := E) (P := P)).

(** The two forms of a trip agree, and its segments have location codes. *)
Definition consistent_trip t : Prop :=
  basic_SupplierCode (Basic t) = extended_SupplierCode (Extended t) ∧
  length (basic_Segments (Basic t)) = length (extended_Segments (Extended t)) ∧
  Forall (λ s, is_Some (basic_DepartureLocation s) ∧ is_Some (basic_ArrivalLocation s)) (basic_Segments (Basic t)).

Lemma TripV4_Verify_Ok t u : TripV4_Verify t = Ok u ↔ consistent_trip t.
Proof.
  unfold TripV4_Verify, consistent_trip. destruct u. case_bool_decide; simpl; [|naive_solver].
  destruct (Nat.eqb_spec (length (basic_Segments (Basic t))) (length (extended_Segments (Extended t)))); simpl;
    [|naive_solver].
  assert (forallb (λ s, bool_decide (is_Some (basic_DepartureLocation s)) &&
      bool_decide (is_Some (basic_ArrivalLocation s))) (basic_Segments (Basic t)) = true ↔
    Forall (λ s, is_Some (basic_DepartureLocation s) ∧ is_Some (basic_ArrivalLocation s)) (basic_Segments (Basic t)))
    as <-; [|destruct (forallb _ _); naive_solver].
  rewrite forallb_forall, List.Forall_forall. setoid_rewrite andb_true_iff.
  by setoid_rewrite bool_decide_eq_true.
Qed.

Lemma TripV4_Verify_total t : (∃ u, TripV4_Verify t = Ok u) ∨ ∃ e, TripV4_Verify t = Err e.
Proof. unfold TripV4_Verify. repeat case_match; eauto. Qed.

Lemma pair_trips_Ok basic extended trips :
  length basic = length extended →
  pair_trips basic extended = Ok trips ↔
  BasicV4 trips = basic ∧ ExtendedV4 trips = extended ∧ Forall consistent_trip trips.
Proof.
  revert extended trips. induction basic as [|b basic IH]; intros [|e extended] trips Hl; try done; simpl.
  { split; [by intros [= <-]|]. intros (Hb & _ & _). by destruct trips. }
  destruct (TripV4_Verify {| Basic := b; Extended := e |}) as [[]|er|p] eqn:Hv.
  - apply TripV4_Verify_Ok in Hv. simpl. split.
    + intros (ts & Hts & E')%obind_Ok. simplify_eq. apply IH in Hts as (Hb & He & Hf); [|by simplify_eq/=].
      split_and!; [by simpl; f_equal|by simpl; f_equal|by constructor].
    + intros (Hb & He & Hf). destruct trips as [|[b' e'] ts]; [done|]. simplify_eq/=.
      apply Forall_cons in Hf as [_ Hf]. unfold BasicV4, ExtendedV4 in *.
      rewrite (proj2 (IH (Extended <$> ts) ts ltac:(by rewrite !length_fmap)) ltac:(by split_and!)). done.
  - split; [done|]. intros (Hb & He & Hf). destruct trips as [|[b' e'] ts]; [done|]. simplify_eq/=.
    apply Forall_cons in Hf as [Hc _]. by rewrite (proj2 (TripV4_Verify_Ok _ tt) Hc) in Hv.
  - exfalso. by destruct (TripV4_Verify_total {| Basic := b; Extended := e |}) as [[u Hu]|[u Hu]]; congruence.
Qed.

Lemma pair_trips_no_error basic extended :
  no_error (pair_trips (SupplierProductCode := C) (LocationCode := L) (B := B) (E := E) (P := P) basic extended).
Proof.
  revert extended. induction basic as [|b basic IH]; intros [|e extended]; try done. simpl.
  destruct (TripV4_Verify _); [|done..]. by apply no_error_bind.
Qed.

Lemma trips_no_error basic extended :
  no_error (VerifyAndGetTrips (SupplierProductCode := C) (LocationCode := L) (B := B) (E := E) (P := P) basic extended) ∧
  no_error (VerifyAndGetTripsV5 (SupplierProductCode := C) (LocationCode := L) (B := B) (E := E) (P := P) basic extended).
Proof. unfold VerifyAndGetTrips, VerifyAndGetTripsV5. destruct (negb _); split; try done; apply pair_trips_no_error. Qed.

Lemma trips_verified basic extended trips :
  (VerifyAndGetTrips basic extended = Ok trips ↔
   BasicV4 trips = basic ∧ ExtendedV4 trips = extended ∧ Forall consistent_trip trips) ∧
  (VerifyAndGetTripsV5 basic extended = Ok trips ↔
   BasicV4 trips = basic ∧ ExtendedV4 trips = extended ∧ Forall consistent_trip trips).
Proof.
  unfold VerifyAndGetTrips, VerifyAndGetTripsV5.
  destruct (Nat.eqb_spec (length basic) (length extended)) as [Hl|Hl]; simpl.
  - split; by apply pair_trips_Ok.
  - split; (split; [done|]; intros (<- & <- & _); destruct Hl; unfold BasicV4, ExtendedV4;
      by rewrite !length_fmap).
Qed.

Lemma paired_length trips basic extended :
  BasicV4 trips = basic ∧ ExtendedV4 trips = extended ∧ Forall consistent_trip trips →
  length trips = length basic.
Proof. intros (<- & _). unfold BasicV4. by rewrite length_fmap. Qed.

(** Joining the two forms for the searches loses no segment. *)
Lemma joined_segments t :
  consistent_trip t →
  trip_SupplierCode (joined t) = extended_SupplierCode (Extended t) ∧
  seg_SeatMapId <$> trip_Segments (joined t) = extended_Segments (Extended t) ∧
  (seg_Departure <$> trip_Segments (joined t)) = basic_Departure <$> basic_Segments (Basic t) ∧
  (seg_Arrival <$> trip_Segments (joined t)) = basic_Arrival <$> basic_Segments (Basic t) ∧
  Forall (λ s, is_Some (seg_DepartureLocation s) ∧ is_Some (seg_ArrivalLocation s)) (trip_Segments (joined t)).
Proof.
  intros (Hc & Hl & Hf). split; [done|]. unfold joined. simpl. revert Hl Hf.
  generalize (extended_Segments (Extended t)). induction (basic_Segments (Basic t)) as [|s l IH];
    intros [|seat seats] Hl Hf; try done; simpl.
  apply Forall_cons in Hf as [Hs Hf]. destruct (IH seats ltac:(by simplify_eq/=) Hf) as (E1 & E2 & E3 & E4).
  split_and!; [by f_equal..|by constructor].
Qed.
End TripLemmas.

(** ** The initialisation of the package (mock_data.go)

    The messages of versions 4 and 5 come from the same files, except that version 5 of the
    accommodations has service facts. *)

Section Init.
Context {Raw : Type} (decode : list Byte.byte → outcome (list Raw)).
Context {PV3 PV4 PV5 FD TB3 TE3 A3 AE3 AS3 AS4 AS5 SM SMI C L B R E4 P4 E5 P5 : Type} `{!EqDecision C}.
Context `{!ProtoMessage Raw PV3, !ProtoMessage Raw PV4, !ProtoMessage Raw PV5, !ProtoMessage Raw ServiceFact,
  !ProtoMessage Raw FD, !ProtoMessage Raw TB3, !ProtoMessage Raw TE3, !ProtoMessage Raw A3,
  !ProtoMessage Raw AE3, !ProtoMessage Raw AS3, !ProtoMessage Raw AS4, !ProtoMessage Raw AS5,
  !ProtoMessage Raw SM, !ProtoMessage Raw SMI}.
Abbreviation Basic_ := (TripBasic (SupplierProductCode := C) (LocationCode := L) (B := B)).
Abbreviation Extended4 := (TripExtended (SupplierProductCode := C) (E := E4) (P := P4)).
Abbreviation Extended5 := (TripExtended (SupplierProductCode := C) (E := E5) (P := P5)).
Context `{!ProtoMessage Raw Basic_, !ProtoMessage Raw Extended4, !ProtoMessage Raw Extended5,
  !ProtoMessage Raw (ActivityExtendedInfo C R)}.
Variable definition_Code : FD → string.
(** What [Verify] looks at of a search result. *)
Variable codes_of4 : AS4 → SearchResultCodes C.
Variable codes_of5 : AS5 → SearchResultCodes C.

(** The embedded files. *)
Record files := {
  propertiesV3JSON : list Byte.byte;
  propertiesV4JSON : list Byte.byte;
  serviceFactsV5JSON : list Byte.byte;
  serviceFactDefinitionsV5JSON : list Byte.byte;
  tripsV3BasicJSON : list Byte.byte;
  tripsV3ExtendedJSON : list Byte.byte;
  tripsV4BasicJSON : list Byte.byte;
  tripsV4ExtendedJSON : list Byte.byte;
  activityV3JSON : list Byte.byte;
  activityV3ExtendedJSON : list Byte.byte;
  activitySearchResultV3JSON : list Byte.byte;
  activityExtendedV4JSON : list Byte.byte;
  activitySearchResultV4JSON : list Byte.byte;
  seatMapV4JSON : list Byte.byte;
  seatMapAvailabilityV4JSON : list Byte.byte
}.

(** The variables of the package. *)
Record MockData := {
  PropertiesV3 : list PV3;
  PropertiesV4 : list PV4;
  PropertiesV5 : list PV5;
  ServiceFactsV5 : list ServiceFact;
  ServiceFactDefinitionsV5 : list FD;
  ServiceFactDefinitionsV5Mapping : gmap string FD;
  TripsBasicV3 : list TB3;
  TripsExtendedV3 : list TE3;
  TripsBasicV4 : list Basic_;
  TripsExtendedV4 : list Extended4;
  TripsV4 : list (TripV4 (SupplierProductCode := C) (LocationCode := L) (B := B) (E := E4) (P := P4));
  TripsBasicV5 : list Basic_;
  TripsExtendedV5 : list Extended5;
  TripsV5 : list (TripV4 (SupplierProductCode := C) (LocationCode := L) (B := B) (E := E5) (P := P5));
  ActivityV3 : list A3;
  ActivityExtendedV3 : list AE3;
  ActivitySearchResultV3 : list AS3;
  ActivityExtendedV4 : list (ActivityExtendedInfo C R);
  ActivitySearchResultV4 : list AS4;
  ActivityExtendedV5 : list (ActivityExtendedInfo C R);
  ActivitySearchResultV5 : list AS5;
  SeatMapV4 : list SM;
  SeatMapAvailabilityV4 : list SMI
}.

Definition init (f : files) : outcome MockData :=
  let load {T} `{!ProtoMessage Raw T} := mustUnmarshalStrictAndValidate (T := T) decode in
  propertiesV3 ← load (propertiesV3JSON f) "error unmarshaling properties v3";
  propertiesV4 ← load (propertiesV4JSON f) "error unmarshaling properties v4";
  propertiesV5 ← load (propertiesV4JSON f) "error unmarshaling properties v5";
  facts ← load (serviceFactsV5JSON f) "error unmarshaling service facts v5";
  factDefinitions ← load (serviceFactDefinitionsV5JSON f) "error unmarshaling service fact definitions v5";
  mapping ← VerifyAndGetMapping definition_Code facts factDefinitions;
  tripsBasicV3 ← load (tripsV3BasicJSON f) "error unmarshaling trips basic v3";
  tripsExtendedV3 ← load (tripsV3ExtendedJSON f) "error unmarshaling trips extended v3";
  tripsBasicV4 ← load (tripsV4BasicJSON f) "error unmarshaling trips basic v4";
  tripsExtendedV4 ← load (tripsV4ExtendedJSON f) "error unmarshaling trips extended v4";
  tripsV4 ← VerifyAndGetTrips tripsBasicV4 tripsExtendedV4;
  tripsBasicV5 ← load (tripsV4BasicJSON f) "error unmarshaling trips basic v5";
  tripsExtendedV5 ← load (tripsV4ExtendedJSON f) "error unmarshaling trips extended v5";
  tripsV5 ← VerifyAndGetTripsV5 tripsBasicV5 tripsExtendedV5;
  activityV3 ← load (activityV3JSON f) "error unmarshaling activities v3";
  activityExtendedV3 ← load (activityV3ExtendedJSON f) "error unmarshaling activities extended v3";
  activitySearchResultV3 ← load (activitySearchResultV3JSON f) "error unmarshaling activities search v3";
  activityExtendedV4 ← load (activityExtendedV4JSON f) "error unmarshaling activities extended v4";
  activitySearchResultV4 ← load (activitySearchResultV4JSON f) "error unmarshaling activities search v4";
  Verify activityExtendedV4 (codes_of4 <$> activitySearchResultV4);;
  activityExtendedV5 ← load (activityExtendedV4JSON f) "error unmarshaling activities extended v5";
  activitySearchResultV5 ← load (activitySearchResultV4JSON f) "error unmarshaling activity search result v5";
  VerifyV5 activityExtendedV5 (codes_of5 <$> activitySearchResultV5);;
  seatMapV4 ← load (seatMapV4JSON f) "error unmarshaling seat map v4";
  seatMapAvailabilityV4 ← load (seatMapAvailabilityV4JSON f) "error unmarshaling seat map availability v4";
  Ok {| PropertiesV3 := propertiesV3; PropertiesV4 := propertiesV4; PropertiesV5 := propertiesV5;
        ServiceFactsV5 := facts; ServiceFactDefinitionsV5 := factDefinitions;
        ServiceFactDefinitionsV5Mapping := mapping; TripsBasicV3 := tripsBasicV3;
        TripsExtendedV3 := tripsExtendedV3; TripsBasicV4 := tripsBasicV4;
        TripsExtendedV4 := tripsExtendedV4; TripsV4 := tripsV4; TripsBasicV5 := tripsBasicV5;
        TripsExtendedV5 := tripsExtendedV5; TripsV5 := tripsV5; ActivityV3 := activityV3;
        ActivityExtendedV3 := activityExtendedV3; ActivitySearchResultV3 := activitySearchResultV3;
        ActivityExtendedV4 := activityExtendedV4; ActivitySearchResultV4 := activitySearchResultV4;
        ActivityExtendedV5 := activityExtendedV5; ActivitySearchResultV5 := activitySearchResultV5;
        SeatMapV4 := seatMapV4; SeatMapAvailabilityV4 := seatMapAvailabilityV4 |}.

(** What the handlers may rely on when the mock has started. *)
Record consistent (d : MockData) : Prop := {
  facts_once : NoDup (flat_map codes (ServiceFactsV5 d));
  facts_defined c : c ∈ flat_map codes (ServiceFactsV5 d) →
    ∃ definition, ServiceFactDefinitionsV5Mapping d !! c = Some definition ∧
      definition ∈ ServiceFactDefinitionsV5 d ∧ definition_Code definition = c;
  trips4 : BasicV4 (TripsV4 d) = TripsBasicV4 d ∧ ExtendedV4 (TripsV4 d) = TripsExtendedV4 d ∧
    Forall consistent_trip (TripsV4 d);
  trips5 : BasicV4 (TripsV5 d) = TripsBasicV5 d ∧ ExtendedV4 (TripsV5 d) = TripsExtendedV5 d ∧
    Forall consistent_trip (TripsV5 d);
  activities4 : Forall2 offered (offers_of (ActivityExtendedV4 d)) (codes_of4 <$> ActivitySearchResultV4 d);
  activities5 : Forall2 offered (offers_of (ActivityExtendedV5 d)) (codes_of5 <$> ActivitySearchResultV5 d);
  all_valid : Forall (λ m, protovalidate_Validate (Raw := Raw) m = None) (PropertiesV5 d) ∧
    Forall (λ m, protovalidate_Validate (Raw := Raw) m = None) (TripsExtendedV5 d) ∧
    Forall (λ m, protovalidate_Validate (Raw := Raw) m = None) (ActivitySearchResultV5 d) ∧
    Forall (λ m, protovalidate_Validate (Raw := Raw) m = None) (SeatMapV4 d);
  same_files : length (PropertiesV4 d) = length (PropertiesV5 d) ∧ length (TripsV4 d) = length (TripsV5 d) ∧
    length (ActivitySearchResultV4 d) = length (ActivitySearchResultV5 d)
}.

(** Two versions read from one file have as many messages. *)
Lemma same_length {T U} `{!ProtoMessage Raw T, !ProtoMessage Raw U} data m1 m2 (l1 : list T) (l2 : list U) :
  mustUnmarshalStrictAndValidate decode data m1 = Ok l1 →
  mustUnmarshalStrictAndValidate decode data m2 = Ok l2 → length l1 = length l2.
Proof.
  rewrite !file_read. intros (raws & Hd & H1 & _) (raws' & Hd' & H2 & _).
  rewrite Hd in Hd'. injection Hd' as <-.
  by rewrite <-(Forall2_length _ _ _ H1), <-(Forall2_length _ _ _ H2).
Qed.

Lemma file_valid {T} `{!ProtoMessage Raw T} data msg (l : list T) :
  mustUnmarshalStrictAndValidate decode data msg = Ok l →
  Forall (λ m, protovalidate_Validate (Raw := Raw) m = None) l.
Proof. rewrite file_read. by intros (_ & _ & _ & H). Qed.

(** The mock starts only with data that its handlers can rely on: the facts of an
    accommodation are defined once each, the two forms of a trip agree segment by segment,
    and the search results of the activities are their offers in order.  It never goes on
    after an error, it panics. *)
Lemma mock_data_consistent f :
  (∀ d, init f = Ok d → consistent d) ∧ no_error (init f).
Proof.
  split.
  - intros d H. unfold init in H.
    repeat match goal with
    | H : mbind _ _ = Ok _ |- _ => apply obind_Ok in H as (? & ? & H)
    end.
    injection H as <-.
    repeat match goal with
    | H : VerifyAndGetMapping _ _ _ = Ok _ |- _ => apply service_facts_mapping in H as (? & Hf & Hm)
    | H : VerifyAndGetTrips _ _ = Ok _ |- _ => apply trips_verified in H
    | H : VerifyAndGetTripsV5 _ _ = Ok _ |- _ => apply trips_verified in H
    | H : Verify _ _ = Ok _ |- _ => apply activities_verified in H as [_ ?]
    | H : VerifyV5 _ _ = Ok _ |- _ => apply activities_verified in H as [_ ?]
    end.
    constructor; simpl; try done.
    + intros c Hc. rewrite Hm, bool_decide_true by done. rewrite Forall_forall in Hf.
      destruct (Hf c Hc) as [definition Hd]. exists definition. split; [done|].
      apply List.find_some in Hd as [Hin ->%bool_decide_eq_true_1]. by rewrite list_elem_of_In.
    + split_and!; by eapply file_valid.
    + split_and!; try (by eapply same_length).
      etransitivity; [by eapply paired_length|].
      etransitivity; [|symmetry; by eapply paired_length]. by eapply same_length.
  - unfold init. repeat first
      [ simple apply file_no_error | simple apply mapping_no_error
      | refine (proj1 (trips_no_error _ _)) | refine (proj2 (trips_no_error _ _))
      | simple apply verify_no_error | apply no_error_bind; [|intros ?] | done ].
Qed.
End Init.
