(* ===== verification/MockServer.v ===== *)
(** * The server of the partner plugin mock (src/pp-mock/server, src/pp-mock/main.go)

    The process reads its settings from the environment, registers the services and serves
    until it is told to stop.  Each call goes through four interceptors to the handler of
    its service ([MockBooking], [MockSearch], [MockProducts] and the others). *)
From S2P Require Import Prelude Decimal MockPrice MockBooking Services Connections MockProducts.
From stdpp Require Import gmap.

#[local] Open Scope Z_scope.

(** ** Interceptors *)

Inductive code := codes_Internal | codes_InvalidArgument.
Definition code_name (c : code) : string :=
  match c with codes_Internal => "codes.Internal" | codes_InvalidArgument => "codes.InvalidArgument" end.
(** [status.Errorf]: the code stands where the text has a wrapped error. *)
Definition status_Errorf (c : code) (format : string) : error := Wrapf format (Sentinel (code_name c)).

(** The metadata of a call, and the value under the key of src/pp-mock/metadata. *)
Record context := {
  incoming : option (gmap string (list string));
  value : option Metadata
}.

Section Server.
Context {Message : Type}.

Inductive any := Proto (m : Message) | Other (typ : string).

Context {X : Type} `{Wire}.

Definition UnaryHandler : Type := context → any → M X any.
Definition UnaryInterceptor : Type := context → any → UnaryHandler → M X any.

(** [events.Sender]: the one that does nothing, and the one of an event server, which
    hands the event to the goroutine of [Events]. *)
Inductive Sender := dummySender | eventSender.
Variable send : Message → M X unit.
Definition SendProtoEvent (s : Sender) (event : Message) : M X unit :=
  match s with dummySender => retS tt | eventSender => send event end.

Variable protovalidate_Validate : Message → option error.

(** An event that cannot be sent is logged. *)
Definition eventSenderInterceptor (s : Sender) : UnaryInterceptor := λ ctx req handler,
  match req with
  | Proto protoReq => attempt (SendProtoEvent s protoReq) ;; handler ctx req
  | Other _ => handler ctx req
  end.

Definition ContextWithMetadata (ctx : context) : context :=
  {| incoming := incoming ctx; value := Some (FromGRPCContext (incoming ctx)) |}.
Definition metadataExtractorInterceptor : UnaryInterceptor := λ ctx req handler,
  handler (ContextWithMetadata ctx) req.

Definition loggingInterceptor : UnaryInterceptor := λ ctx req handler,
  r ← attempt (handler ctx req);
  match r with
  | inl resp => retS resp
  | inr _ => throwS (status_Errorf codes_Internal "error handling request: %v")
  end.

Definition protoValidateInterceptor : UnaryInterceptor := λ ctx req handler,
  match req with
  | Other _ => throwS (status_Errorf codes_InvalidArgument "request is not a proto message: %T")
  | Proto protoReq =>
      match protovalidate_Validate protoReq with
      | Some _ => throwS (status_Errorf codes_InvalidArgument "request validation failed: %v")
      | None =>
          resp ← handler ctx req;
          match resp with
          | Other _ => throwS (status_Errorf codes_Internal "response is not a proto message: %T")
          | Proto protoResp =>
              match protovalidate_Validate protoResp with
              | Some _ => throwS (status_Errorf codes_Internal "response validation failed: %v")
              | None => retS resp
              end
          end
      end
  end.

(** [grpc.ChainUnaryInterceptor]: the first interceptor is the outermost. *)
Definition call (s : Sender) (handler : UnaryHandler) : UnaryHandler := λ ctx req,
  eventSenderInterceptor s ctx req (λ ctx req,
  metadataExtractorInterceptor ctx req (λ ctx req,
  loggingInterceptor ctx req (λ ctx req,
  protoValidateInterceptor ctx req handler))).

(** The stream of events is not intercepted.  With events disabled the server that is
    registered is nil, and the generated handler asserts its type. *)
Definition EventsService_Subscribe_Handler {S} (srv : option S) (RecvMsg : outcome unit)
    (Subscribe : S → outcome unit) : outcome unit :=
  RecvMsg;;
  match srv with
  | Some s => Subscribe s
  | None => Panic "interface conversion: interface is nil, not events.EventsServiceServer"
  end.
End Server.
Arguments any : clear implicits.

(** ** The process *)

Definition EnvKeyEventsEnabled : string := "TTMB_PARTNER_PLUGIN_MOCK_EVENTS".
Definition EnvKeyPort : string := "TTMB_PARTNER_PLUGIN_MOCK_PORT".
Definition EnvE2ETestMode : string := "TTMB_PARTNER_PLUGIN_MOCK_TEST_MODE".
Definition EnvKeyRealisticPrice : string := "TTMB_PARTNER_PLUGIN_MOCK_REALISTIC_PRICE".
Definition EnvKeyTokenDecimals : string := "TTMB_PARTNER_PLUGIN_MOCK_TOKEN_DECIMALS".
Definition EnvKeyBaseUnits : string := "TTMB_PARTNER_PLUGIN_MOCK_BASE_UNITS".
Definition DefaultPort : Z := 50051.
Definition envValueTrue : string := "true".

(** In the order of [Run]. *)
Definition registeredServices : list string := [
  "events.EventsService";
  "ttm.services.accommodation.v3.AccommodationSearchService";
  "ttm.services.accommodation.v3.AccommodationProductInfoService";
  "ttm.services.accommodation.v3.AccommodationProductListService";
  "ttm.services.accommodation.v4.AccommodationSearchService";
  "ttm.services.accommodation.v4.AccommodationProductInfoService";
  "ttm.services.accommodation.v4.AccommodationProductListService";
  "ttm.services.accommodation.v4.AccommodationProductShortListService";
  "ttm.services.accommodation.v5.AccommodationSearchService";
  "ttm.services.accommodation.v5.AccommodationProductInfoService";
  "ttm.services.accommodation.v5.AccommodationProductListService";
  "ttm.services.accommodation.v5.AccommodationProductShortListService";
  "ttm.services.activity.v3.ActivityProductListService";
  "ttm.services.activity.v3.ActivityProductInfoService";
  "ttm.services.activity.v3.ActivitySearchService";
  "ttm.services.activity.v4.ActivityProductListService";
  "ttm.services.activity.v4.ActivityProductInfoService";
  "ttm.services.activity.v4.ActivitySearchService";
  "ttm.services.activity.v4.ActivityProductShortListService";
  "ttm.services.activity.v5.ActivitySearchService";
  "ttm.services.activity.v5.ActivityProductListService";
  "ttm.services.activity.v5.ActivityProductInfoService";
  "ttm.services.activity.v5.ActivityProductShortListService";
  "ttm.services.book.v3.MintService";
  "ttm.services.book.v3.ValidationService";
  "ttm.services.book.v4.MintService";
  "ttm.services.book.v4.ValidationService";
  "ttm.services.book.v5.MintService";
  "ttm.services.book.v5.ValidationService";
  "ttm.services.ping.v1.PingService";
  "ttm.services.ping.v2.PingService";
  "ttm.services.notification.v1.NotificationService";
  "ttm.services.notification.v2.NotificationService";
  "ttm.services.notification.v3.NotificationService";
  "ttm.services.transport.v3.TransportProductListService";
  "ttm.services.transport.v3.TransportSearchService";
  "ttm.services.transport.v4.TransportProductListService";
  "ttm.services.transport.v4.TransportSearchService";
  "ttm.services.transport.v5.TransportProductListService";
  "ttm.services.transport.v5.TransportSearchService";
  "ttm.services.seat_map.v4.SeatMapService";
  "ttm.services.seat_map.v4.SeatMapAvailabilityService";
  "ttm.services.cancellation.v1.CheckCancellationService";
  "ttm.services.cancellation.v2.CheckCancellationService";
  "ttm.services.cancellation.v3.CheckCancellationService"].

Record process := {
  BuyableUntilDefault : Z;
  price_settings : settings;
  sender : Sender;
  eventServer : option unit;      (* started *)
  services : list string;
  listening : option Z
}.
(** Before [Run], with the zero values of the variables. *)
Definition unstarted : process := {|
  BuyableUntilDefault := 0; price_settings := initial_settings; sender := dummySender;
  eventServer := None; services := []; listening := None |}.

Definition set_BuyableUntil (d : Z) (p : process) : process := {|
  BuyableUntilDefault := d; price_settings := price_settings p; sender := sender p;
  eventServer := eventServer p; services := services p; listening := listening p |}.
Definition set_price (f : settings → settings) (p : process) : process := {|
  BuyableUntilDefault := BuyableUntilDefault p; price_settings := f (price_settings p);
  sender := sender p; eventServer := eventServer p; services := services p; listening := listening p |}.
Definition start_events (p : process) : process := {|
  BuyableUntilDefault := BuyableUntilDefault p; price_settings := price_settings p;
  sender := eventSender; eventServer := Some tt; services := services p; listening := listening p |}.
Definition register (l : list string) (p : process) : process := {|
  BuyableUntilDefault := BuyableUntilDefault p; price_settings := price_settings p;
  sender := sender p; eventServer := eventServer p; services := services p ++ l; listening := listening p |}.
Definition listen_on (port : Z) (p : process) : process := {|
  BuyableUntilDefault := BuyableUntilDefault p; price_settings := price_settings p;
  sender := sender p; eventServer := eventServer p; services := services p; listening := Some port |}.

Section Run.
(** The environment, and the ends of listening and serving. *)
Variable os_LookupEnv : string → option string.
Variable net_Listen : Z → option error.
Variable grpc_Serve : option error.

Definition os_Getenv (key : string) : string := default "" (os_LookupEnv key).
Definition enabled (key : string) : bool := bool_decide (os_Getenv key = envValueTrue).

Definition readPort : outcome Z :=
  match os_LookupEnv EnvKeyPort with
  | None => Ok DefaultPort
  | Some p => match Atoi p with Some port => Ok port | None => Err (Sentinel "strconv.NumError") end
  end.

Definition Run : M process unit :=
  modifyS (set_BuyableUntil SetDefaults) ;;
  tokenDecimals ← liftO (ParseTokenDecimals (os_Getenv EnvKeyTokenDecimals));
  modifyS (set_price (SetRealisticPrice (enabled EnvKeyRealisticPrice)
    (os_Getenv EnvKeyBaseUnits) (Some tokenDecimals))) ;;
  modifyS (if enabled EnvKeyEventsEnabled then start_events else id) ;;
  modifyS (register registeredServices) ;;
  port ← liftO readPort;
  modifyS (if enabled EnvE2ETestMode then set_BuyableUntil SetE2EDefaults else id) ;;
  match net_Listen port with
  | Some err => throwS err
  | None =>
      modifyS (listen_on port) ;;
      match grpc_Serve with
      | Some _ => retS tt      (* logged *)
      | None => retS tt
      end
  end.

(** main.go: the status the process exits with. *)
Definition main : Z :=
  match Run unstarted with (_, Ok _) => 0 | (_, Err _) => 1 | (_, Panic _) => 2 end.
End Run.

(** ** Calls *)

Section Calls.
Context {Message X : Type} `{Wire}.
Variable send : Message → M X unit.
Variable Validate : Message → option error.

Definition internal : error := status_Errorf codes_Internal "error handling request: %v".

(** How a call ends: what its handler answers when request and response are valid, and
    otherwise an internal error, also when it is the request that is wrong. *)
Inductive call_end (s : Sender) (handler : UnaryHandler (Message := Message) (X := X)) (ctx : context)
    (req : any Message) (x : X) : X → outcome (any Message) → Prop :=
  | call_not_proto typ : req = Other typ → call_end s handler ctx req x x (Err internal)
  | call_refused m y :
      req = Proto m → is_Some (Validate m) → y = (attempt (SendProtoEvent send s m) x).1 →
      call_end s handler ctx req x y (Err internal)
  | call_answered m y z resp :
      req = Proto m → Validate m = None → y = (attempt (SendProtoEvent send s m) x).1 →
      handler (ContextWithMetadata ctx) req y = (z, Ok (Proto resp)) → Validate resp = None →
      call_end s handler ctx req x z (Ok (Proto resp))
  | call_failed m y z o :
      req = Proto m → Validate m = None → y = (attempt (SendProtoEvent send s m) x).1 →
      handler (ContextWithMetadata ctx) req y = (z, o) →
      (∀ p, o ≠ Panic p) → (∀ resp, o = Ok (Proto resp) → is_Some (Validate resp)) →
      call_end s handler ctx req x z (Err internal)
  | call_panicked m y z p :
      req = Proto m → Validate m = None → y = (attempt (SendProtoEvent send s m) x).1 →
      handler (ContextWithMetadata ctx) req y = (z, Panic p) →
      call_end s handler ctx req x z (Panic p).

Lemma logged (m : M X (any Message)) y :
  (r ← attempt m;
   match r with inl resp => retS resp | inr _ => throwS internal end) y =
  (fst (m y), match snd (m y) with Ok a => Ok a | Err _ => Err internal | Panic p => Panic p end).
Proof. unfold attempt, mbind, M_bind. by destruct (m y) as [z [a|e|p]]. Qed.

(** Sending the event may take its time, but does not fail a call. *)
Lemma call_ends s handler ctx req x :
  (∀ m, (∃ p, (SendProtoEvent send s m x).2 = Panic p) → False) →
  runs (call send Validate s handler ctx req) x (call_end s handler ctx req x).
Proof.
  intros Hs. unfold runs, call, eventSenderInterceptor, metadataExtractorInterceptor, loggingInterceptor.
  fold internal. destruct req as [m|typ]; [|rewrite logged; by eapply call_not_proto].
  specialize (Hs m). unfold mbind at 1, M_bind at 1.
  destruct (attempt (SendProtoEvent send s m) x) as [y o] eqn:Ea.
  assert (∃ r, o = Ok r) as [r ->].
  { unfold attempt in Ea. destruct (SendProtoEvent send s m x) as [z [a|e|p]]; simplify_eq; eauto.
    destruct Hs; eauto. }
  assert (y = (attempt (SendProtoEvent send s m) x).1) as Hy by by rewrite Ea.
  rewrite logged. unfold protoValidateInterceptor.
  destruct (Validate m) eqn:Em; [by eapply call_refused; eauto|].
  unfold mbind, M_bind. destruct (handler (ContextWithMetadata ctx) (Proto m) y) as [z [[resp|typ]|e|p]] eqn:Eh; simpl.
  - destruct (Validate resp) eqn:Er; simpl; [|by eapply call_answered].
    eapply call_failed; [done..|exact Eh|done|]. intros ? [= <-]. eauto.
  - by eapply call_failed.
  - by eapply call_failed.
  - by eapply call_panicked.
Qed.

(** Whatever is wrong with a call, its status says that the mock failed. *)
Lemma call_error s handler ctx req x y e :
  (∀ m, (∃ p, (SendProtoEvent send s m x).2 = Panic p) → False) →
  call send Validate s handler ctx req x = (y, Err e) →
  errors_is e (code_name codes_Internal) = true ∧ errors_is e (code_name codes_InvalidArgument) = false.
Proof.
  intros Hs E. pose proof (call_ends s handler ctx req x Hs) as Hr. unfold runs in Hr. rewrite E in Hr.
  assert (e = internal) as -> by by inversion Hr.
  split; vm_compute; reflexivity.
Qed.

(** Without events a call leaves the mock as its handler does. *)
Lemma call_without_events handler ctx m resp x y :
  Validate m = None → Validate resp = None →
  handler (ContextWithMetadata ctx) (Proto m) x = (y, Ok (Proto resp)) →
  call send Validate dummySender handler ctx (Proto m) x = (y, Ok (Proto resp)).
Proof.
  intros Em Er Eh. pose proof (call_ends dummySender handler ctx (Proto m) x) as Hr.
  assert (∀ m0, (∃ p, (SendProtoEvent send dummySender m0 x).2 = Panic p) → False) as Hs by by intros ? [? [=]].
  specialize (Hr Hs). unfold runs in Hr. destruct (call _ _ _ _ _ _ x) as [z o].
  inversion Hr as [? Eq|m' ? Eq [? Hv] Hy|m' y' ? r Eq Hv Hy Hh|m' y' ? o' Eq Hv Hy Hh Hp Ho|m' y' ? p Eq Hv Hy Hh]; simplify_eq.
  - simpl in Hh. congruence.
  - simpl in Hh. destruct (Ho resp) as [? ?]; congruence.
  - simpl in Hh. congruence.
Qed.
End Calls.

(** The handlers see the metadata the bot sent, so a ping names the request it answers. *)
Lemma ping_names_request `{!Wire} ctx message :
  PingV1 md_RequestID (FromGRPCContext None) (value (ContextWithMetadata ctx)) message =
  (SuccessHeaderV1, pingMessage message (md_RequestID (FromGRPCContext (incoming ctx)))).
Proof. done. Qed.

(** A subscription to a mock without events ends the process. *)
Lemma subscribe_without_events {S} RecvMsg (Subscribe : S → outcome unit) :
  RecvMsg = Ok tt → ∃ p, EventsService_Subscribe_Handler None RecvMsg Subscribe = Panic p.
Proof. intros ->. by eexists. Qed.

(** ** The services of the mock *)

(** [RegisterService] ends the process when a service is registered twice. *)
Lemma registered_once : NoDup registeredServices.
Proof. apply (bool_decide_unpack _). vm_compute. exact I. Qed.

(** Of the services a bot offers its partner plugin, the mock has all but these. *)
Lemma mock_serves name : name ∈ serviceNames →
  name ∈ registeredServices ∨
  name ∈ ["ttm.services.info.v1.CountryEntryRequirementsService";
          "ttm.services.info.v2.CountryEntryRequirementsService";
          "ttm.services.info.v3.CountryEntryRequirementsService";
          "ttm.services.seat_map.v2.SeatMapAvailabilityService"; "ttm.services.seat_map.v2.SeatMapService";
          "ttm.services.seat_map.v3.SeatMapAvailabilityService"; "ttm.services.seat_map.v3.SeatMapService"].
Proof.
  revert name. apply Forall_forall. apply (bool_decide_unpack _). vm_compute. exact I.
Qed.

(** ** The start of the mock *)

Section Start.
Variable env : string → option string.
Variable net_Listen : Z → option error.
Variable grpc_Serve : option error.
Abbreviation run := (Run env net_Listen grpc_Serve).

(** What the mock has become when it serves on a port. *)
Definition set_up (decimals : gmap string Z) (port : Z) (p q : process) : Prop :=
  listening q = Some port ∧ services q = services p ++ registeredServices ∧
  BuyableUntilDefault q = (if enabled env EnvE2ETestMode then SetE2EDefaults else SetDefaults) ∧
  RealisticPriceEnabled (price_settings q) = enabled env EnvKeyRealisticPrice ∧
  RealisticTokenDecimals (price_settings q) = decimals ∧
  (enabled env EnvKeyEventsEnabled = true → sender q = eventSender ∧ eventServer q = Some tt) ∧
  (enabled env EnvKeyEventsEnabled = false → sender q = sender p ∧ eventServer q = eventServer p).

Lemma parsePairs_no_panic out pairs p : parsePairs out pairs ≠ Panic p.
Proof. revert out. induction pairs as [|e pairs IH]; intros out; simpl; [done|]. by repeat case_match. Qed.

(** The mock serves when its settings can be read and the port is free, however serving
    ends; otherwise it returns the error. *)
Lemma Run_ends p :
  runs run p (λ q o,
    match o with
    | Ok _ => ∃ decimals port, ParseTokenDecimals (os_Getenv env EnvKeyTokenDecimals) = Ok decimals ∧
        readPort env = Ok port ∧ net_Listen port = None ∧ set_up decimals port p q
    | Err e => listening q = listening p ∧
        (ParseTokenDecimals (os_Getenv env EnvKeyTokenDecimals) = Err e ∨ readPort env = Err e ∨
         ∃ port, readPort env = Ok port ∧ net_Listen port = Some e)
    | Panic _ => False
    end).
Proof.
  unfold runs, Run, modifyS, mbind, M_bind, liftO.
  destruct (ParseTokenDecimals _) as [decimals|e|msg] eqn:Ed.
  - destruct (readPort env) as [port|e|msg] eqn:Ep.
    + destruct (net_Listen port) as [e|] eqn:El; unfold throwS, retS, set_up.
      * destruct (enabled env EnvKeyEventsEnabled), (enabled env EnvE2ETestMode); simpl; eauto 10.
      * destruct grpc_Serve, (enabled env EnvKeyEventsEnabled), (enabled env EnvE2ETestMode); simpl;
          exists decimals, port; by split_and!.
    + destruct (enabled env EnvKeyEventsEnabled); simpl; eauto.
    + unfold readPort in Ep. by repeat case_match.
  - simpl. eauto.
  - unfold ParseTokenDecimals in Ed. case_match; [done|]. by apply parsePairs_no_panic in Ed.
Qed.

(** A port variable that is set and empty is an error, not the default. *)
Lemma empty_port : env EnvKeyPort = Some "" → ∃ e, readPort env = Err e.
Proof. intros E. unfold readPort. rewrite E. by eexists. Qed.

(** The end of serving is not reported: the process exits like after a shutdown. *)
Lemma failed_serving_unnoticed failure :
  main env net_Listen (Some failure) = main env net_Listen None.
Proof. unfold main, Run. done. Qed.
End Start.

(** ** A mock that is started for the tests *)
Module Toy.
Definition env (key : string) : option string :=
  if bool_decide (key = EnvKeyPort) then Some "50055"
  else if bool_decide (key = EnvE2ETestMode) then Some "true"
  else if bool_decide (key = EnvKeyTokenDecimals) then Some "0xAbC:6"
  else None.
Definition free (port : Z) : option error := None.
End Toy.

Example test_mode :
  let '(p, o) := Run Toy.env Toy.free None unstarted in
  o = Ok tt ∧ listening p = Some 50055 ∧ BuyableUntilDefault p = SetE2EDefaults ∧
  TokenDecimalsFor (price_settings p) "0xABC" = 6 ∧ sender p = dummySender.
Proof. vm_compute. split_and!; reflexivity. Qed.
